(* ===== verification/_CoqProject ===== *)
-Q . S2P
Prelude.v
KString.v
Pmm.v
Pipe.v
UserCopy.v
Path.v
Inode.v
BlockCache.v
TaskDefs.v
Signal.v
PageCache.v
FsIo.v
Fs.v
FsInit.v
FsData.v
FsTree.v
FsOps.v
FsProps.v
Mmu.v
Vma.v
Vm.v
VmInv.v
VmOps.v
VmFork.v
VmProps.v
Proc.v
Elf.v
ProcInv.v
ProcVm.v
ProcOps.v
ProcSteps.v
ProcTerm.v
ProcBoot.v
Kern.v
Syscall.v
Trap.v
KernFs.v
KernInv.v
KernCalls.v
KernTraps.v
KernProps.v
KernIo.v
KernDemo.v
