(* ===== verification/Prelude.v ===== *)
(** * FuriOS: a verification development

    FuriOS is a small operating system for one AArch64 processor, written in C under
    src/. This library translates the core of its kernel into executable definitions
    and proves what makes them correct.

    ** The program

    A user program enters the kernel by a system call, a page fault or an
    interrupt (kernel/trap.c). System calls (kernel/syscall.c) work on the task
    table (kernel/task.c): tasks have an address space with page tables
    (kernel/mmu.c) and tracked pages, descriptors for files, pipes (kernel/pipe.c)
    and sockets, signal state, and a parent. Frames come from the allocator
    (kernel/pmm.c), which counts references, so that frames can be shared by
    copy-on-write, by mappings and by the page cache (kernel/pagecache.c). The page
    cache holds pages of files of the memory filesystem, of ext4 and of block
    devices; the block cache (kernel/block_cache.c) holds sectors of one partition.
    Every trap ends in the scheduler, which delivers signals and picks the task that
    runs next.

    ** The files

    - Prelude.v: machine integers, memory, lists, tactics, hints.
    - KString.v: kernel/string.c.
    - Pmm.v: the frame allocator, kernel/pmm.c.
    - Pipe.v: the pipe table, kernel/pipe.c.
    - UserCopy.v: copies to and from user memory, kernel/user_copy.c.
    - Path.v: path normalisation of kernel/syscall.c.
    - Inode.v: inodes and device numbers, include/fs.h and kernel/fs.c.
    - BlockCache.v: kernel/block_cache.c, over the class [BlockDrivers].
    - TaskDefs.v: the structures of include/task.h.
    - Signal.v: the signal state of a task, kernel/task.c.
    - PageCache.v: kernel/pagecache.c, over [Ext4Ops] and [SharedMappings].
    - FsIo.v, Fs.v, FsInit.v, FsData.v: kernel/fs.c: synchronisation; the tree of
      inodes, mounting, lookup, creation, removal, renaming, status; start-up; file
      contents. FsTree.v, FsOps.v and FsProps.v hold the abstract namespace, the
      lemmas that the operations refine it, and the properties.
    - Mmu.v: kernel/mmu.c and the page-table code of kernel/task.c, with the
      hardware walk.
    - Vma.v, Vm.v: the mapped ranges and the address space operations of
      kernel/task.c; VmInv.v, VmOps.v, VmFork.v and VmProps.v their invariant, the
      lemmas on the operations and the properties.
    - Proc.v: the rest of kernel/task.c: descriptors, waiting, exit, signals between
      tasks, address space identifiers, scheduling, fork.
    - Elf.v: program loading, exec and task creation (kernel/task.c, include/elf.h).
    - ProcInv.v, ProcVm.v, ProcOps.v, ProcSteps.v, ProcTerm.v, ProcBoot.v: the
      invariants of the task table, that every operation keeps them, that the
      scheduler ends, and the state after start-up.
    - Kern.v: the monad of the system calls: the caller's registers and the kernel,
      with loads and stores of user memory through the page tables.
    - Syscall.v: every handler of kernel/syscall.c and the dispatcher.
    - Trap.v: kernel/trap.c, kernel/print.c and kernel_main of kernel/kernel.c.
    - KernFs.v, KernInv.v, KernCalls.v, KernTraps.v: that the filesystem leaves the
      tasks alone, that every handler keeps the invariants of the task table, and
      the transition system of the whole kernel.
    - KernProps.v: the properties of every state of that system. KernIo.v: the
      properties of single system calls. KernDemo.v: a machine on which the model is
      run from start-up, and the theorems applied to the states it gets to.

    ** How the code is translated

    An unsigned integer of [w] bits is a [Z]; where arithmetic can leave its range
    the wrap-around is written out with [u8], [u16], [u32] or [u64]. Memory is a map
    from addresses to bytes. A pointer into a static table is the index in the table
    ([nat]), a null pointer [None]. State is passed explicitly: [sys D E T] holds the
    allocator with physical memory, the storage (block cache, inodes, ext4 state),
    the page cache and the tasks; a function of the C code that changes state
    returns the new state after its result. A C loop is a structural recursion over
    the indices it visits, or takes fuel. Code that is not part of the model is a
    class with laws: the block drivers ([BlockDrivers], [DiskInventory]), ext4
    ([Ext4Ops], [Ext4Names], [Ext4Tools], [Ext4Timer]), the sockets and the console
    ([SocketOps], [Machine]), interrupts and start of the devices ([Interrupts],
    [Startup]). [SharedMappings], [MountUsers] and [CharDevices] are the interfaces by
    which the page cache and the filesystem call back into the tasks and the console;
    Vm.v and Kern.v discharge them. A system call is a program of the monad [kern]: it
    ends with a result, or with a fault on an address that is never resolved. A trap
    gives the registers the processor goes on with, a panic or the idle loop. The
    kernel as a whole is the relation [kstep] between the states in which a program
    runs: a store of the program, an exception, an interrupt.

    ** What is proved

    - Allocator: the invariant of every reachable state, the exact effect of
      granting and dropping a page (Pmm.v).
    - Pipes: the ring buffers refine bounded queues; bytes arrive in order (Pipe.v).
    - User copies: nothing outside the user window is touched (UserCopy.v).
    - Block cache: refinement of an array of sectors under any device errors,
      durability of flush, replacement (BlockCache.v).
    - Page cache: ownership of frames, one copy per page, completeness of flush
      (PageCache.v).
    - Signals: the queue invariant, delivery order, handler round trip (Signal.v).
    - User memory: soundness of page tables and reference counts in every reachable
      state, that user accesses reach live frames of the task only, fork and
      copy-on-write, mmap, munmap and mprotect as refinements of an abstract map
      (Mmu.v, Vma.v, VmProps.v).
    - Filesystem: the operations refine a map from paths to nodes; the tree invariant;
      normalisation of paths (Path.v, FsProps.v).
    - The running kernel: in every state reachable from kernel_main by any sequence of
      stores, system calls, faults and interrupts the task table is sound, address
      space identifiers are unique, pipe counts match the descriptors of all tasks,
      descriptors have the object of their kind, and every trap gives the processor
      back to a program or idles; over fair traps no wakeup is lost (KernProps.v).
    - System calls: the exact effect of read and write on pipes in every such state;
      what goes wrong in three calls (KernIo.v).

    A theorem with hypotheses comes with a witness: the same theorem applied to a
    concrete system, on which the definitions are run.

    ** Bounds and fuel

    The tables have the sizes of the source (64 tasks, 16 descriptors, 512 pages and
    64 ranges per task, 256 cached pages, 128 cache lines). [mmap_search] has one
    round per page between heap and stack, [grow_stack] one per page to map;
    [mmap_finds_place] shows the former to be enough. [deliver_loop] has 34 rounds:
    each takes away one of 31 signals, except that a task may be made its own
    parent's child once. [settle_loop] has 65 rounds: each stops or ends a task.
    Both return [None] when the fuel is short. The copy loops of the pipe system
    calls have one round per byte of the buffer, and each round moves one at least;
    [pipe_write_correct] and [pipe_read_correct] show that they end with the result.
    An access to user memory is tried three times: a missing page can first be mapped
    read-only and then be made writable.

    ** Not modelled

    - Device drivers (ahci.c, nvme.c, virtio_blk.c, rtl8125.c, rtl8139.c, uart.c,
      gic.c, timer.c): registers and DMA; their effect on blocks is [BlockDrivers],
      the rest are interfaces of the traps and of start-up.
    - Assembly (boot.S, vectors.S) and the system registers set at start-up.
    - ext4.c and the ext4 writer and checker of fs.c: interfaces.
    - net.c, netdev.c: interfaces of the system calls.
    - A page fault the kernel takes on a user buffer is resolved in place: that it
      passes through the scheduler, which may switch tasks in the middle of the
      system call, is left out.
    - User programs and libraries.
    - Time: the timer's values are arguments of the scheduler. Interrupts arrive
      between operations, as the kernel runs with interrupts masked. *)

From stdpp Require Export base tactics option list numbers gmap sorting.
From Stdlib Require Export ZArith Lia ZifyBool.

#[global] Open Scope Z_scope.

(** ** Machine integers

    A C unsigned integer of width [w] is a [Z] in [0, 2^w); arithmetic that may
    leave the range is wrapped explicitly, as C does. *)

Definition u8 (x : Z) : Z := x mod 2 ^ 8.
Definition u16 (x : Z) : Z := x mod 2 ^ 16.
Definition u32 (x : Z) : Z := x mod 2 ^ 32.
Definition u64 (x : Z) : Z := x mod 2 ^ 64.

(** [~x] on a 32-bit and on a 64-bit operand. *)
Definition not32 (x : Z) : Z := 2 ^ 32 - 1 - x.
Definition not64 (x : Z) : Z := 2 ^ 64 - 1 - x.

(** [(int)x]: the low 32 bits, signed. *)
Definition to_int (x : Z) : Z := let y := u32 x in if 2 ^ 31 <=? y then y - 2 ^ 32 else y.

Definition is_u8 (x : Z) : Prop := 0 <= x < 2 ^ 8.
Definition is_u32 (x : Z) : Prop := 0 <= x < 2 ^ 32.
Definition is_u64 (x : Z) : Prop := 0 <= x < 2 ^ 64.

Lemma u64_small x : is_u64 x -> u64 x = x.
Proof. unfold is_u64, u64. intros. by apply Z.mod_small. Qed.

Lemma u32_small x : is_u32 x -> u32 x = x.
Proof. unfold is_u32, u32. intros. by apply Z.mod_small. Qed.

Lemma u64_range x : is_u64 (u64 x).
Proof. unfold is_u64, u64. apply Z.mod_pos_bound. lia. Qed.

Lemma u32_range x : is_u32 (u32 x).
Proof. unfold is_u32, u32. apply Z.mod_pos_bound. lia. Qed.

(** The C idiom [a + b < a] detects exactly the wrap-around of [a + b]. *)
Lemma u64_add_cases a b :
  is_u64 a -> is_u64 b ->
  (u64 (a + b) = a + b /\ a + b < 2 ^ 64) \/ (u64 (a + b) < a /\ 2 ^ 64 <= a + b).
Proof.
  unfold is_u64, u64. intros Ha Hb. destruct (Z.ltb_spec (a + b) (2 ^ 64)).
  - left. split; [apply Z.mod_small; lia|lia].
  - right. replace (a + b) with (a + b - 2 ^ 64 + 1 * 2 ^ 64) by lia.
    rewrite Z_mod_plus_full, Z.mod_small; lia.
Qed.

(** Clearing the low [k] bits of a 64-bit value rounds it down to a multiple of
    [2^k]. *)
Lemma land_not64_mask x k :
  is_u64 x -> 0 <= k <= 64 ->
  Z.land x (not64 (2 ^ k - 1)) = x - x mod 2 ^ k.
Proof.
  intros Hx Hk. unfold is_u64 in Hx.
  assert (Hnot : not64 (2 ^ k - 1) = Z.ldiff (Z.ones 64) (Z.ones k)).
  { unfold not64. rewrite <- Z.sub_nocarry_ldiff.
    - rewrite !Z.ones_equiv. lia.
    - apply Z.bits_inj'. intros n Hn.
      rewrite Z.ldiff_spec, Z.bits_0, !Z.testbit_ones_nonneg by lia.
      destruct (Z.ltb_spec n k), (Z.ltb_spec n 64); simpl; lia. }
  rewrite Hnot.
  transitivity (Z.ldiff x (Z.ones k)).
  - apply Z.bits_inj'. intros n Hn.
    rewrite Z.land_spec, !Z.ldiff_spec, !Z.testbit_ones_nonneg by lia.
    destruct (Z.ltb_spec n 64); simpl; [done|].
    rewrite (Z.bits_above_log2 x n); [done|lia|].
    destruct (decide (x = 0)) as [->|]; [simpl; lia|].
    assert (Z.log2 x < 64) by (apply Z.log2_lt_pow2; lia). lia.
  - rewrite (Z.sub_nocarry_ldiff x (x mod 2 ^ k)).
    + rewrite <- (Z.land_ones x k) by lia.
      apply Z.bits_inj'. intros n Hn.
      rewrite !Z.ldiff_spec, Z.land_spec.
      destruct (Z.testbit x n), (Z.testbit (Z.ones k) n); done.
    + rewrite <- (Z.land_ones x k) by lia.
      apply Z.bits_inj'. intros n Hn.
      rewrite Z.ldiff_spec, Z.land_spec, Z.bits_0.
      destruct (Z.testbit x n), (Z.testbit (Z.ones k) n); done.
Qed.

(** Testing the low [k] bits is testing divisibility by [2^k]. *)
Lemma land_mask_mod x k : 0 <= k -> Z.land x (2 ^ k - 1) = x mod 2 ^ k.
Proof.
  intros Hk. rewrite <- Z.land_ones by lia. f_equal. rewrite Z.ones_equiv. lia.
Qed.

#[global] Arguments u8 : simpl never.
#[global] Arguments u16 : simpl never.
#[global] Arguments u32 : simpl never.
#[global] Arguments u64 : simpl never.
#[global] Arguments not32 : simpl never.
#[global] Arguments not64 : simpl never.

(** [lia] with division and modulo by constants. *)
Ltac dlia := Z.to_euclidean_division_equations; lia.

(** ** Alignment

    [align_up]/[align_down] are written out as in pmm.c and task.c; the lemmas
    give their value for the alignments the kernel uses (powers of two). *)

Definition align_up (x align : Z) : Z :=
  Z.land (u64 (x + align - 1)) (not64 (u64 (align - 1))).

Definition align_down (x align : Z) : Z :=
  Z.land x (not64 (u64 (align - 1))).

#[global] Arguments align_up : simpl never.
#[global] Arguments align_down : simpl never.

Lemma align_down_pow2 x k :
  is_u64 x -> 0 <= k < 64 -> align_down x (2 ^ k) = x - x mod 2 ^ k.
Proof.
  intros Hx Hk. unfold align_down.
  assert (0 < 2 ^ k) by (apply Z.pow_pos_nonneg; lia).
  assert (2 ^ k < 2 ^ 64) by (apply Z.pow_lt_mono_r; lia).
  rewrite u64_small by (unfold is_u64; lia).
  apply land_not64_mask; [done|lia].
Qed.

Lemma align_up_pow2 x k :
  0 <= x -> 0 <= k < 64 -> x + 2 ^ k - 1 < 2 ^ 64 ->
  align_up x (2 ^ k) = (x + 2 ^ k - 1) - (x + 2 ^ k - 1) mod 2 ^ k.
Proof.
  intros Hx Hk Hb. unfold align_up.
  assert (0 < 2 ^ k) by (apply Z.pow_pos_nonneg; lia).
  assert (2 ^ k < 2 ^ 64) by (apply Z.pow_lt_mono_r; lia).
  rewrite !u64_small by (unfold is_u64; lia).
  apply land_not64_mask; [unfold is_u64; lia|lia].
Qed.

(** ** The page geometry of include/config.h *)

Abbreviation PAGE_SIZE := 4096 (only parsing).

Definition page_aligned (x : Z) : Prop := x mod PAGE_SIZE = 0.

#[global] Instance page_aligned_dec x : Decision (page_aligned x).
Proof. unfold page_aligned. apply _. Defined.

Lemma align_down_page x :
  is_u64 x -> align_down x PAGE_SIZE = x - x mod PAGE_SIZE.
Proof. intros. change 4096 with (2 ^ 12). apply align_down_pow2; [done|lia]. Qed.

Lemma align_up_page x :
  0 <= x -> x + 4095 < 2 ^ 64 ->
  align_up x PAGE_SIZE = (x + 4095) - (x + 4095) mod PAGE_SIZE.
Proof.
  intros. replace (x + 4095) with (x + 2 ^ 12 - 1) by lia.
  change 4096 with (2 ^ 12). apply align_up_pow2; lia.
Qed.

Lemma align_down_page_aligned x :
  is_u64 x -> page_aligned (align_down x PAGE_SIZE).
Proof. intros. unfold page_aligned. rewrite align_down_page by done. dlia. Qed.

Lemma align_down_page_bounds x :
  is_u64 x -> align_down x PAGE_SIZE <= x < align_down x PAGE_SIZE + PAGE_SIZE.
Proof. intros. rewrite align_down_page by done. dlia. Qed.

Lemma align_up_page_aligned x :
  0 <= x -> x + 4095 < 2 ^ 64 -> page_aligned (align_up x PAGE_SIZE).
Proof. intros. unfold page_aligned. rewrite align_up_page by done. dlia. Qed.

Lemma align_up_page_bounds x :
  0 <= x -> x + 4095 < 2 ^ 64 ->
  x <= align_up x PAGE_SIZE < x + PAGE_SIZE.
Proof. intros. rewrite align_up_page by done. dlia. Qed.

Lemma align_up_page_id x :
  page_aligned x -> 0 <= x -> x + 4095 < 2 ^ 64 -> align_up x PAGE_SIZE = x.
Proof. unfold page_aligned. intros. rewrite align_up_page by done. dlia. Qed.

(** With the wrap around written out. *)
Lemma align_up_page_wrap x : align_up x PAGE_SIZE = u64 (x + 4095) - u64 (x + 4095) mod PAGE_SIZE.
Proof.
  unfold align_up. replace (x + PAGE_SIZE - 1) with (x + 4095) by lia.
  replace (u64 (PAGE_SIZE - 1)) with (2 ^ 12 - 1) by reflexivity.
  change PAGE_SIZE with (2 ^ 12). apply land_not64_mask; [|lia].
  unfold is_u64, u64. apply Z.mod_pos_bound. lia.
Qed.

Lemma align_up_page_u64 x : page_aligned (align_up x PAGE_SIZE) /\ 0 <= align_up x PAGE_SIZE < 2 ^ 64.
Proof.
  rewrite align_up_page_wrap. unfold page_aligned.
  assert (0 <= u64 (x + 4095) < 2 ^ 64) by (unfold u64; apply Z.mod_pos_bound; lia). dlia.
Qed.

#[global] Opaque align_up align_down.

Lemma page_offset_mod x : Z.land x (PAGE_SIZE - 1) = x mod PAGE_SIZE.
Proof. change (PAGE_SIZE - 1) with (2 ^ 12 - 1). by rewrite land_mask_mod. Qed.

(** ** Memory

    A byte-addressed memory: a finite map from addresses to bytes, an address
    that is not in the map holding 0 (RAM comes up arbitrary, so nothing is
    proved from that default). *)

Abbreviation mem := (gmap Z Z) (only parsing).

Definition mem_get (m : mem) (a : Z) : Z := default 0 (m !! a).

Lemma mem_get_insert (m : mem) a b v :
  mem_get (<[a := v]> m) b = if decide (a = b) then v else mem_get m b.
Proof. unfold mem_get. rewrite lookup_insert. by case_decide. Qed.

(** The [n] bytes at [a]. *)
Definition mem_bytes (m : mem) (a : Z) (n : nat) : list Z :=
  map (fun i => mem_get m (a + Z.of_nat i)) (seq 0 n).

Lemma length_mem_bytes m a n : length (mem_bytes m a n) = n.
Proof. unfold mem_bytes. by rewrite length_map, length_seq. Qed.

(** Reading an array as C does for an in-range index; an index past the end of
    the model's array reads as the default. *)
Definition arr_get (m : gmap Z Z) (i : Z) : Z := default 0 (m !! i).

(** ** Automation *)

Create HintDb furios.

(** Turn boolean comparisons of the model into hypotheses [lia] reads. *)
Ltac bool_hyps :=
  repeat match goal with
  | H : (_ && _)%bool = true |- _ => apply andb_true_iff in H as [? ?]
  | H : (_ || _)%bool = false |- _ => apply orb_false_iff in H as [? ?]
  | H : negb _ = true |- _ => apply negb_true_iff in H
  | H : negb _ = false |- _ => apply negb_false_iff in H
  | H : (_ =? _) = true |- _ => apply Z.eqb_eq in H
  | H : (_ =? _) = false |- _ => apply Z.eqb_neq in H
  | H : (_ <? _) = true |- _ => apply Z.ltb_lt in H
  | H : (_ <? _) = false |- _ => apply Z.ltb_ge in H
  | H : (_ <=? _) = true |- _ => apply Z.leb_le in H
  | H : (_ <=? _) = false |- _ => apply Z.leb_gt in H
  end.

(** Case analysis on the split_ifs of a definition. *)
Ltac split_if :=
  match goal with
  | |- context [if ?b then _ else _] =>
      match type of b with bool => destruct b eqn:? end
  | H : context [if ?b then _ else _] |- _ =>
      match type of b with bool => destruct b eqn:? end
  end; bool_hyps.

Ltac split_ifs := repeat (split_if; simpl in *; simplify_eq).

(** Peel the early returns off [H : (if b then early else rest) = r], closing each
    early case with [tac]. *)
Ltac peel H tac :=
  repeat match type of H with
  | (if ?b then _ else _) = _ => destruct b eqn:?; [solve [tac]|]
  end.

(** The next state of a chain of updates, by [tac]; the rest is about any such state. *)
Ltac let_step tac :=
  lazymatch goal with
  | |- ?R ?a (let x := ?b in @?c x) =>
      transitivity b; [tac|change (R b (c b)); generalize b; clear; intros; cbv beta]
  end.

(** ** Counting the nonzero entries of a sparse array *)

Definition nz_count (m : gmap Z Z) : nat := size (filter (fun kv : Z * Z => kv.2 <> 0) m).

Lemma arr_get_insert (m : gmap Z Z) i j v :
  arr_get (<[i := v]> m) j = if decide (i = j) then v else arr_get m j.
Proof. unfold arr_get. rewrite lookup_insert. by case_decide. Qed.

Lemma nz_count_up (m : gmap Z Z) i v :
  arr_get m i = 0 -> v <> 0 -> nz_count (<[i := v]> m) = S (nz_count m).
Proof.
  intros H0 Hv. unfold nz_count. rewrite map_filter_insert_True by done.
  apply map_size_insert_None. rewrite map_lookup_filter_None. right.
  intros x Hx. unfold arr_get in H0. rewrite Hx in H0. simpl in *. auto.
Qed.

Lemma nz_lookup (m : gmap Z Z) i :
  arr_get m i <> 0 ->
  filter (fun kv : Z * Z => kv.2 <> 0) m !! i = Some (arr_get m i).
Proof.
  unfold arr_get. intros H. destruct (m !! i) as [x|] eqn:E; simpl in *; [|done].
  by apply map_lookup_filter_Some_2.
Qed.

Lemma nz_count_same (m : gmap Z Z) i v :
  arr_get m i <> 0 -> v <> 0 -> nz_count (<[i := v]> m) = nz_count m.
Proof.
  intros H0 Hv. unfold nz_count. rewrite map_filter_insert_True by done.
  rewrite map_size_insert_Some; [done|]. eexists. by apply nz_lookup.
Qed.

Lemma nz_count_down (m : gmap Z Z) i :
  arr_get m i <> 0 -> S (nz_count (<[i := 0]> m)) = nz_count m.
Proof.
  intros H0. unfold nz_count. rewrite map_filter_insert_False by (simpl; lia).
  rewrite map_filter_delete. rewrite map_size_delete_Some.
  - pose proof (nz_lookup m i H0) as Hl.
    destruct (size (filter _ m)) eqn:E; [|done].
    apply map_size_empty_inv in E. rewrite E in Hl. by rewrite lookup_empty in Hl.
  - eexists. by apply nz_lookup.
Qed.

Lemma nz_count_ext (m m' : gmap Z Z) :
  (forall i, arr_get m i = arr_get m' i) -> nz_count m = nz_count m'.
Proof.
  intros H. unfold nz_count. f_equal. apply map_eq. intros i.
  apply option_eq. intros x. rewrite !map_lookup_filter_Some. specialize (H i).
  unfold arr_get in H. destruct (m !! i), (m' !! i); simpl in *; subst; naive_solver.
Qed.

Lemma nz_count_bound (m : gmap Z Z) n :
  (forall i, arr_get m i <> 0 -> 0 <= i < n) -> Z.of_nat (nz_count m) <= Z.max 0 n.
Proof.
  intros H. unfold nz_count. rewrite <- (size_dom (D := gset Z)).
  transitivity (Z.of_nat (size (list_to_set (seqZ 0 n) : gset Z))).
  - apply inj_le. apply subseteq_size. intros i Hi.
    apply elem_of_dom in Hi as [x Hx]. apply map_lookup_filter_Some in Hx as [Hx Hne].
    apply elem_of_list_to_set, elem_of_seqZ.
    assert (arr_get m i <> 0) by (unfold arr_get; rewrite Hx; done).
    specialize (H i). lia.
  - rewrite size_list_to_set by apply NoDup_seqZ. rewrite length_seqZ. lia.
Qed.

(** A duplicate-free list of numbers in [0, n) has at most [n] elements. *)
Lemma NoDup_bounded_length (l : list Z) n :
  NoDup l -> (forall x, x ∈ l -> 0 <= x < n) -> Z.of_nat (length l) <= Z.max 0 n.
Proof.
  intros Hd Hb. transitivity (Z.of_nat (length (seqZ 0 n))).
  - apply inj_le, submseteq_length, NoDup_submseteq; [done|].
    intros x Hx. apply elem_of_seqZ. specialize (Hb x Hx). lia.
  - rewrite length_seqZ. lia.
Qed.

Lemma filter_all {A} (P : A -> Prop) `{!forall x, Decision (P x)} (l : list A) :
  Forall P l -> filter P l = l.
Proof. induction 1; [done|]. rewrite filter_cons_True by done. by f_equal. Qed.

(** ** Counting list elements *)

Definition countb {A} (f : A -> bool) (l : list A) : Z :=
  Z.of_nat (length (filter (fun x => f x = true) l)).

Lemma countb_cons {A} (f : A -> bool) x l : countb f (x :: l) = Z.b2z (f x) + countb f l.
Proof.
  unfold countb. rewrite filter_cons. case_decide as H; [rewrite H|apply not_true_is_false in H; rewrite H];
    simpl; lia.
Qed.

Lemma countb_app {A} (f : A -> bool) l l' : countb f (l ++ l') = countb f l + countb f l'.
Proof. induction l as [|x l IH]; [done|]. rewrite <- app_comm_cons, !countb_cons, IH. lia. Qed.

Lemma countb_take {A} (f : A -> bool) l k x :
  l !! k = Some x -> countb f (take (S k) l) = countb f (take k l) + Z.b2z (f x).
Proof. intros Hk. rewrite (take_S_r _ _ _ Hk), countb_app, countb_cons. unfold countb. simpl. lia. Qed.

Lemma countb_nonneg {A} (f : A -> bool) l : 0 <= countb f l <= Z.of_nat (length l).
Proof. unfold countb. pose proof (length_filter (fun x => f x = true) l). lia. Qed.

Lemma countb_insert {A} (f : A -> bool) l i x y :
  l !! i = Some x -> countb f (<[i := y]> l) = countb f l - Z.b2z (f x) + Z.b2z (f y).
Proof.
  revert i. induction l as [|z l IH]; intros [|i] Hi; simplify_eq/=.
  - rewrite !countb_cons. lia.
  - rewrite !countb_cons, IH by done. lia.
Qed.

Lemma countb_Forall2 {A} (f : A -> bool) (R : A -> A -> Prop) l l' :
  (forall x y, R x y -> f x = f y) -> Forall2 R l l' -> countb f l' = countb f l.
Proof.
  intros HR. induction 1 as [|x y l l' Hxy _ IH]; [done|].
  by rewrite !countb_cons, IH, (HR _ _ Hxy).
Qed.

Lemma countb_pos {A} (f : A -> bool) l i x : l !! i = Some x -> f x = true -> 1 <= countb f l.
Proof.
  revert i. induction l as [|z l IH]; intros [|i] Hi Hf; simplify_eq/=; rewrite countb_cons.
  - rewrite Hf. pose proof (countb_nonneg f l). simpl. lia.
  - specialize (IH i Hi Hf). destruct (f z); simpl; lia.
Qed.

(** Comparing two counts. *)
Lemma countb_le {A} (f g : A -> bool) l :
  (forall i x, l !! i = Some x -> f x = true -> g x = true) -> countb f l <= countb g l.
Proof.
  induction l as [|x l IH]; intros H; [done|]. rewrite !countb_cons.
  assert (countb f l <= countb g l) by (apply IH; intros i y Hy; by apply (H (S i))).
  specialize (H 0%nat x eq_refl). destruct (f x), (g x); simpl; lia.
Qed.

Lemma countb_lt {A} (f g : A -> bool) l i x :
  (forall j y, l !! j = Some y -> f y = true -> g y = true) ->
  l !! i = Some x -> f x = false -> g x = true -> countb f l < countb g l.
Proof.
  revert i. induction l as [|y l IH]; intros i H; [done|]. rewrite !countb_cons. destruct i as [|i]; simpl.
  - intros [= ->] -> ->. pose proof (countb_le f g l (fun j z Hz => H (S j) z Hz)). simpl. lia.
  - intros Hi Hf Hg. pose proof (IH i (fun j z Hz => H (S j) z Hz) Hi Hf Hg).
    specialize (H 0%nat y eq_refl). destruct (f y), (g y); simpl; lia.
Qed.

(** ** The first element of an array that satisfies a test *)

Fixpoint find_idx {A} (f : A -> bool) (l : list A) : option nat :=
  match l with
  | [] => None
  | x :: l => if f x then Some 0%nat else S <$> find_idx f l
  end.

Lemma find_idx_Some {A} (f : A -> bool) l i :
  find_idx f l = Some i ->
  exists x, l !! i = Some x /\ f x = true /\ forall j y, (j < i)%nat -> l !! j = Some y -> f y = false.
Proof.
  revert i. induction l as [|x l IH]; intros i; simpl; [done|].
  destruct (f x) eqn:E; [intros [= <-]; exists x; split_and!; [done..|intros; lia]|].
  destruct (find_idx f l) as [k|] eqn:Ek; [|done]. intros [= <-].
  destruct (IH k eq_refl) as (y & Hy & Hf & Hmin). exists y. split_and!; [done..|].
  intros [|j] z Hj Hz; simplify_eq/=; [done|]. eapply Hmin; [|exact Hz]. lia.
Qed.

Lemma find_idx_None {A} (f : A -> bool) l i x : find_idx f l = None -> l !! i = Some x -> f x = false.
Proof.
  revert i. induction l as [|y l IH]; intros i; simpl; [done|].
  destruct (f y) eqn:E; [done|]. destruct (find_idx f l) as [k|] eqn:Ek; [done|]. intros _.
  destruct i as [|i]; simpl; [by intros [= <-]|by apply IH].
Qed.

(** When at most one element satisfies the test, it is the one found. *)
Lemma find_idx_unique {A} (f : A -> bool) l i x :
  l !! i = Some x -> f x = true ->
  (forall j y, l !! j = Some y -> f y = true -> j = i) -> find_idx f l = Some i.
Proof.
  intros Hi Hf Hu. destruct (find_idx f l) as [k|] eqn:E.
  - apply find_idx_Some in E as (y & Hy & Hfy & _). f_equal. by eapply Hu.
  - rewrite (find_idx_None _ _ _ _ E Hi) in Hf. done.
Qed.

Lemma find_idx_ext {A} (f g : A -> bool) l :
  (forall x, x ∈ l -> f x = g x) -> find_idx f l = find_idx g l.
Proof.
  induction l as [|x l IH]; intros H; simpl; [done|]. rewrite (H x), IH; [done|set_solver|set_solver].
Qed.

(** ** Sums over an array *)

Definition zsum {A} (f : A -> Z) (l : list A) : Z := foldr (fun x n => f x + n) 0 l.

Lemma zsum_insert {A} (f : A -> Z) l i x y :
  l !! i = Some x -> zsum f (<[i := y]> l) = zsum f l - f x + f y.
Proof.
  revert i. induction l as [|z l IH]; intros [|i] Hi; simplify_eq/=; [unfold zsum; simpl; lia|].
  specialize (IH i Hi). unfold zsum in *. simpl. lia.
Qed.

Lemma zsum_ext {A} (f : A -> Z) l l' :
  length l = length l' -> (forall i x y, l !! i = Some x -> l' !! i = Some y -> f x = f y) -> zsum f l = zsum f l'.
Proof.
  revert l'. induction l as [|x l IH]; intros [|y l'] Hl H; simplify_eq/=; [done|]. unfold zsum in *. simpl.
  rewrite (H 0%nat x y), (IH l'); try done. intros i. apply (H (S i)).
Qed.

Lemma zsum_nonneg {A} (f : A -> Z) l n :
  (forall i x, l !! i = Some x -> 0 <= f x <= n) -> 0 <= zsum f l <= n * Z.of_nat (length l).
Proof.
  induction l as [|z l IH]; intros H; unfold zsum in *; simpl; [lia|].
  pose proof (H 0%nat z eq_refl). specialize (IH (fun i x Hx => H (S i) x Hx)). lia.
Qed.

Lemma zsum_elem {A} (f : A -> Z) l i x :
  (forall j y, l !! j = Some y -> 0 <= f y) -> l !! i = Some x -> f x <= zsum f l.
Proof.
  revert i. induction l as [|z l IH]; intros [|i] H Hi; simplify_eq/=; unfold zsum in *; simpl.
  - assert (0 <= foldr (fun x n => f x + n) 0 l); [|lia]. clear IH. revert H.
    induction l as [|y l IHl]; intros H; simpl; [lia|]. pose proof (H 1%nat y eq_refl).
    assert (0 <= foldr (fun x n => f x + n) 0 l); [|lia]. apply IHl. intros [|j] u Hu; [by apply (H 0%nat)|by apply (H (S (S j)))].
  - pose proof (H 0%nat z eq_refl). specialize (IH i (fun j y Hy => H (S j) y Hy) Hi). lia.
Qed.
