(* ===== verification/KString.v ===== *)
(** * The kernel's string and memory routines (kernel/string.c)

    [memcpy]/[memset]/[memcmp] run byte by byte over the memory; the [str*]
    functions run over a character array, given as the list of its bytes, and
    return [None] when the C loop would run off that array. *)

From S2P Require Import Prelude.

(** ** Memory routines *)

Fixpoint memset_loop (m : mem) (d c : Z) (n : nat) : mem :=
  match n with
  | O => m
  | S n' => memset_loop (<[d := u8 c]> m) (d + 1) c n'
  end.

Definition memset (m : mem) (dst c n : Z) : mem := memset_loop m dst c (Z.to_nat n).

Fixpoint memcpy_loop (m : mem) (d s : Z) (n : nat) : mem :=
  match n with
  | O => m
  | S n' => memcpy_loop (<[d := mem_get m s]> m) (d + 1) (s + 1) n'
  end.

Definition memcpy (m : mem) (dst src n : Z) : mem := memcpy_loop m dst src (Z.to_nat n).

Fixpoint memcmp_loop (m : mem) (x y : Z) (n : nat) : Z :=
  match n with
  | O => 0
  | S n' =>
      if negb (mem_get m x =? mem_get m y) then mem_get m x - mem_get m y
      else memcmp_loop m (x + 1) (y + 1) n'
  end.

Definition memcmp (m : mem) (a b n : Z) : Z := memcmp_loop m a b (Z.to_nat n).

(** Storing a byte string, the effect of a copy whose source is not in the
    modelled memory. *)
Fixpoint store_bytes (m : mem) (a : Z) (bs : list Z) : mem :=
  match bs with
  | [] => m
  | b :: bs' => store_bytes (<[a := b]> m) (a + 1) bs'
  end.

(** ** String routines *)

Fixpoint strlen (s : list Z) : option Z :=
  match s with
  | [] => None
  | c :: s' => if c =? 0 then Some 0 else Z.succ <$> strlen s'
  end.

Fixpoint strcmp (a b : list Z) : option Z :=
  match a, b with
  | x :: a', y :: b' =>
      if negb (x =? 0) && (x =? y) then strcmp a' b' else Some (x - y)
  | _, _ => None
  end.

Fixpoint strncmp (a b : list Z) (n : nat) {struct n} : option Z :=
  match n with
  | O => Some 0
  | S n' =>
      match a, b with
      | x :: a', y :: b' =>
          if negb (x =? y) || (x =? 0) || (y =? 0) then Some (x - y)
          else strncmp a' b' n'
      | _, _ => None
      end
  end.

(** [strcpy] overwrites the front of [dst]; [None] when either array ends
    before the terminator has been copied. *)
Fixpoint strcpy (dst src : list Z) : option (list Z) :=
  match dst, src with
  | _ :: dst', c :: src' =>
      if c =? 0 then Some (0 :: dst') else cons c <$> strcpy dst' src'
  | _, _ => None
  end.

(** The two loops of [strncpy]: copy up to the terminator, then zero-fill. *)
Fixpoint strncpy_fill (dst : list Z) (n : nat) {struct n} : option (list Z) :=
  match n, dst with
  | O, _ => Some dst
  | S n', _ :: dst' => cons 0 <$> strncpy_fill dst' n'
  | S _, [] => None
  end.

Fixpoint strncpy (dst src : list Z) (n : nat) {struct n} : option (list Z) :=
  match n with
  | O => Some dst
  | S n' =>
      match src with
      | [] => None
      | c :: src' =>
          if c =? 0 then strncpy_fill dst n
          else match dst with
               | _ :: dst' => cons c <$> strncpy dst' src' n'
               | [] => None
               end
      end
  end.

(** [strchr] gives the index of the match. [c] is the [int] argument; the
    comparison casts it to [char]. *)
Fixpoint strchr_from (s : list Z) (c : Z) (i : Z) : option (option Z) :=
  match s with
  | [] => None
  | x :: s' =>
      if x =? 0 then Some (if c =? 0 then Some i else None)
      else if x =? u8 c then Some (Some i)
      else strchr_from s' c (i + 1)
  end.

Definition strchr (s : list Z) (c : Z) : option (option Z) := strchr_from s c 0.

(** ** Abstract strings: the bytes before the terminator *)

Fixpoint cstr (s : list Z) : option (list Z) :=
  match s with
  | [] => None
  | c :: s' => if c =? 0 then Some [] else cons c <$> cstr s'
  end.

(** ** Memory routines: what they compute *)

Lemma memset_loop_get n m d c a :
  mem_get (memset_loop m d c n) a =
  if (d <=? a) && (a <? d + Z.of_nat n) then u8 c else mem_get m a.
Proof.
  revert m d. induction n as [|n IH]; intros m d; simpl.
  - split_if; [lia|done].
  - rewrite IH, mem_get_insert.
    repeat split_if; repeat case_decide; subst; try done; try lia.
Qed.

Lemma memset_get m dst c n a :
  0 <= n ->
  mem_get (memset m dst c n) a =
  if (dst <=? a) && (a <? dst + n) then u8 c else mem_get m a.
Proof. intros. unfold memset. rewrite memset_loop_get. by rewrite Z2Nat.id. Qed.

Lemma memcpy_loop_get n m d s a :
  d <= s \/ s + Z.of_nat n <= d ->
  mem_get (memcpy_loop m d s n) a =
  if (d <=? a) && (a <? d + Z.of_nat n) then mem_get m (s + (a - d)) else mem_get m a.
Proof.
  revert m d s. induction n as [|n IH]; intros m d s Hov; simpl.
  - split_if; [lia|done].
  - rewrite IH by lia. rewrite !mem_get_insert.
    repeat split_if; repeat case_decide; subst; try done; try lia; f_equal; lia.
Qed.

Lemma memcpy_get m dst src n a :
  0 <= n -> dst <= src \/ src + n <= dst ->
  mem_get (memcpy m dst src n) a =
  if (dst <=? a) && (a <? dst + n) then mem_get m (src + (a - dst)) else mem_get m a.
Proof.
  intros. unfold memcpy. rewrite memcpy_loop_get; rewrite ?Z2Nat.id; try done; lia.
Qed.

Lemma store_bytes_get bs m a b :
  mem_get (store_bytes m a bs) b =
  if (a <=? b) && (b <? a + Z.of_nat (length bs))
  then default 0 (bs !! Z.to_nat (b - a)) else mem_get m b.
Proof.
  revert m a. induction bs as [|x bs IH]; intros m a; simpl.
  - split_if; [lia|done].
  - rewrite IH, mem_get_insert.
    repeat split_if; repeat case_decide; subst; try done; try lia.
    + by replace (Z.to_nat (b - a)) with (S (Z.to_nat (b - (a + 1)))) by lia.
    + by replace (Z.to_nat (b - b)) with 0%nat by lia.
Qed.

Lemma mem_bytes_lookup m a n i :
  (i < n)%nat -> mem_bytes m a n !! i = Some (mem_get m (a + Z.of_nat i)).
Proof.
  intros. unfold mem_bytes. rewrite list_lookup_fmap, lookup_seq_lt by done. done.
Qed.

Lemma mem_bytes_store m a bs : mem_bytes (store_bytes m a bs) a (length bs) = bs.
Proof.
  apply list_eq. intros i. destruct (decide (i < length bs)%nat) as [Hi|Hi].
  - rewrite mem_bytes_lookup, store_bytes_get by done.
    replace (_ && _) with true by lia. replace (Z.to_nat _) with i by lia.
    destruct (lookup_lt_is_Some_2 bs i Hi) as [x Hx]. by rewrite Hx.
  - rewrite !lookup_ge_None_2; [done|lia|]. rewrite length_mem_bytes. lia.
Qed.

(** ** String routines: what they compute *)

Lemma strlen_cstr s : strlen s = Z.of_nat ∘ length <$> cstr s.
Proof.
  induction s as [|c s IH]; simpl; [done|]. split_if; [done|].
  rewrite IH. destruct (cstr s); simpl; [|done]. f_equal. lia.
Qed.

Lemma cstr_no_nul s t : cstr s = Some t -> Forall (fun c => c <> 0) t.
Proof.
  revert t. induction s as [|c s IH]; intros t Ht; simpl in *; [done|].
  destruct (c =? 0) eqn:Hc; bool_hyps; simplify_eq; [constructor|].
  destruct (cstr s); simpl in *; simplify_eq. constructor; auto.
Qed.

(** Lexicographic order on byte strings. *)
Fixpoint lex_lt (a b : list Z) : bool :=
  match a, b with
  | [], [] => false
  | [], _ :: _ => true
  | _ :: _, [] => false
  | x :: a', y :: b' => (x <? y) || ((x =? y) && lex_lt a' b')
  end.

Lemma strcmp_spec a b sa sb :
  Forall is_u8 a -> Forall is_u8 b -> cstr a = Some sa -> cstr b = Some sb ->
  exists r, strcmp a b = Some r /\ (r = 0 <-> sa = sb) /\ (r < 0 <-> lex_lt sa sb = true).
Proof.
  intros Ha. revert b sa sb. induction Ha as [|x a Hx Ha IH];
    intros b sa sb Hb Hsa Hsb; simpl in *; [done|].
  destruct Hb as [|y b Hy Hb]; simpl in *; [done|]. unfold is_u8 in Hx, Hy.
  destruct (x =? 0) eqn:Ex, (y =? 0) eqn:Ey, (x =? y) eqn:Exy; bool_hyps; simpl;
    try lia; simplify_eq; simpl in *.
  - exists 0. split_and!; done || lia.
  - destruct (cstr b) as [tb|]; simpl in *; simplify_eq.
    exists (0 - y). split_and!; [done| |]; split; intros; simplify_eq; try done; lia.
  - destruct (cstr a) as [ta|]; simpl in *; simplify_eq.
    exists (x - 0). split_and!; [done| |]; split; intros; simplify_eq; try done; lia.
  - destruct (cstr a) as [ta|], (cstr b) as [tb|] eqn:Eb; simpl in *; simplify_eq.
    destruct (IH b ta tb) as (r & -> & H0 & Hlt); try done. exists r.
    simpl. rewrite Z.ltb_irrefl, Z.eqb_refl. simpl. split_and!; [done| |done].
    rewrite H0. split; congruence.
  - destruct (cstr a) as [ta|], (cstr b) as [tb|]; simpl in *; simplify_eq.
    exists (x - y). simpl. split_and!; [done| |].
    + split; [lia|]. intros; simplify_eq.
    + lia.
Qed.

Lemma strncpy_fill_spec dst n :
  (n <= length dst)%nat -> strncpy_fill dst n = Some (replicate n 0 ++ drop n dst).
Proof.
  revert dst. induction n as [|n IH]; intros [|x dst] Hn; simpl in *; try done; [lia|].
  rewrite IH by lia. done.
Qed.

(** [strncpy] truncates to [n] bytes and pads with zeros; it terminates the
    destination exactly when the source is shorter than [n]. *)
Lemma strncpy_spec dst src t n :
  cstr src = Some t -> (n <= length dst)%nat ->
  strncpy dst src n = Some (take n t ++ replicate (n - length t) 0 ++ drop n dst).
Proof.
  revert dst src t. induction n as [|n IH]; intros dst src t Ht Hn.
  { done. }
  destruct src as [|c src]; [done|].
  cbn [strncpy]. simpl in Ht. destruct (c =? 0) eqn:Hc; simplify_eq.
  { rewrite strncpy_fill_spec by done. done. }
  destruct (cstr src) as [t'|] eqn:Et; simpl in Ht; simplify_eq.
  destruct dst as [|x dst]; simpl in Hn; [lia|].
  rewrite (IH dst src t') by (done || lia). done.
Qed.

#[global] Opaque memset memcpy memcmp.
