(* ===== verification/Pmm.v ===== *)
(** * Physical page allocator (kernel/pmm.c)

    A bump allocator over [pmm_cur, pmm_end) with a stack of freed pages on top
    of it, a reference count per page frame and a count of the frames in use.
    The record [pmm] is the module's statics together with the RAM the
    allocator clears. *)

From S2P Require Import Prelude KString.

Abbreviation PHYS_RAM_BASE := 1073741824 (only parsing).
Abbreviation PHYS_RAM_SIZE := 268435456 (only parsing).
Abbreviation PHYS_PAGES := 65536 (only parsing).

Record pmm := mk_pmm {
  pmm_cur : Z;
  pmm_end : Z;
  free_pages : gmap Z Z;
  page_refs : gmap Z Z;
  free_top : Z;
  owned_pages : Z;
  ram : mem;
}.

Definition with_refs (s : pmm) (r : gmap Z Z) (owned : Z) : pmm :=
  mk_pmm (pmm_cur s) (pmm_end s) (free_pages s) r (free_top s) owned (ram s).

Definition with_ram (s : pmm) (m : mem) : pmm :=
  mk_pmm (pmm_cur s) (pmm_end s) (free_pages s) (page_refs s) (free_top s) (owned_pages s) m.

(** ** Operations *)

Definition page_index (p : Z) : option Z :=
  if negb (Z.land p (PAGE_SIZE - 1) =? 0) then None
  else if (p <? PHYS_RAM_BASE) || (PHYS_RAM_BASE + PHYS_RAM_SIZE <=? p) then None
  else Some ((p - PHYS_RAM_BASE) / PAGE_SIZE).

Definition mark_page_owned (s : pmm) (p : Z) : pmm :=
  match page_index p with
  | None => s
  | Some idx =>
      if arr_get (page_refs s) idx =? 0
      then with_refs s (<[idx := 1]> (page_refs s)) (u64 (owned_pages s + 1))
      else s
  end.

(** The [while (p < limit)] loop; [n] bounds the iterations. *)
Fixpoint mark_range_loop (n : nat) (s : pmm) (p limit : Z) : pmm :=
  match n with
  | O => s
  | S n' =>
      if p <? limit then mark_range_loop n' (mark_page_owned s p) (u64 (p + PAGE_SIZE)) limit
      else s
  end.

Definition mark_range_owned (s : pmm) (base bytes : Z) : pmm :=
  if bytes =? 0 then s
  else
    let fin := u64 (base + bytes) in
    if fin <? base then s
    else
      let p := align_up base PAGE_SIZE in
      let limit := align_down fin PAGE_SIZE in
      mark_range_loop (Z.to_nat ((limit - p) / PAGE_SIZE + 1)) s p limit.

Definition pmm_init (start fin : Z) (s : pmm) : pmm :=
  mk_pmm (align_up start 16) fin (free_pages s) ∅ 0 0 (ram s).

(** The allocators return 0 (a null pointer) on failure. *)
Definition pmm_alloc (s : pmm) (bytes align : Z) : Z * pmm :=
  let cur := align_up (pmm_cur s) align in
  let next := u64 (cur + bytes) in
  if (pmm_end s <? next) || (next <? cur) then (0, s)
  else
    let s1 := mk_pmm next (pmm_end s) (free_pages s) (page_refs s) (free_top s)
                (owned_pages s) (ram s) in
    let s2 := mark_range_owned s1 cur bytes in
    (cur, with_ram s2 (memset (ram s2) cur 0 bytes)).

Definition pmm_alloc_page (s : pmm) : Z * pmm :=
  if 0 <? free_top s then
    let top := free_top s - 1 in
    let p := arr_get (free_pages s) top in
    let s1 := mk_pmm (pmm_cur s) (pmm_end s) (free_pages s) (page_refs s) top
                (owned_pages s) (ram s) in
    let s2 := match page_index p with
              | Some idx => with_refs s1 (<[idx := 1]> (page_refs s1)) (u64 (owned_pages s1 + 1))
              | None => s1
              end in
    (p, with_ram s2 (memset (ram s2) p 0 PAGE_SIZE))
  else pmm_alloc s 4096 4096.

Definition pmm_ref_page (s : pmm) (page : Z) : pmm :=
  match page_index page with
  | None => s
  | Some idx =>
      let r := arr_get (page_refs s) idx in
      if r =? 0 then with_refs s (<[idx := 1]> (page_refs s)) (u64 (owned_pages s + 1))
      else with_refs s (<[idx := u32 (r + 1)]> (page_refs s)) (owned_pages s)
  end.

Definition pmm_page_refcount (s : pmm) (page : Z) : Z :=
  match page_index page with
  | None => 0
  | Some idx => arr_get (page_refs s) idx
  end.

Definition pmm_free_page (s : pmm) (page : Z) : pmm :=
  if page =? 0 then s
  else
    match page_index page with
    | None => s
    | Some idx =>
        let r := arr_get (page_refs s) idx in
        if r =? 0 then s
        else
          let s1 := with_refs s (<[idx := r - 1]> (page_refs s)) (owned_pages s) in
          if negb (r - 1 =? 0) then s1
          else
            let owned := if 0 <? owned_pages s1 then owned_pages s1 - 1 else owned_pages s1 in
            if free_top s1 <? PHYS_PAGES then
              mk_pmm (pmm_cur s1) (pmm_end s1) (<[free_top s1 := page]> (free_pages s1))
                (page_refs s1) (free_top s1 + 1) owned (ram s1)
            else with_refs s1 (page_refs s1) owned
    end.

Definition pmm_total_pages : Z := PHYS_RAM_SIZE / PAGE_SIZE.

Definition pmm_used_pages (s : pmm) : Z := owned_pages s.

Definition pmm_available_pages (s : pmm) : Z :=
  let cur := align_up (pmm_cur s) PAGE_SIZE in
  let bump_pages := if cur <? pmm_end s then (pmm_end s - cur) / PAGE_SIZE else 0 in
  free_top s + bump_pages.

(** ** Frames and the free list *)

Definition valid_frame (p : Z) : Prop :=
  page_aligned p /\ PHYS_RAM_BASE <= p < PHYS_RAM_BASE + PHYS_RAM_SIZE.

Definition frame_idx (p : Z) : Z := (p - PHYS_RAM_BASE) / PAGE_SIZE.

Definition frame_addr (i : Z) : Z := PHYS_RAM_BASE + i * PAGE_SIZE.

Definition free_list (s : pmm) : list Z := map (arr_get (free_pages s)) (seqZ 0 (free_top s)).

Lemma page_index_valid p : valid_frame p -> page_index p = Some (frame_idx p).
Proof.
  intros [Ha Hr]. unfold page_index. rewrite page_offset_mod. unfold page_aligned in Ha.
  rewrite Ha. simpl. split_if; [lia|done].
Qed.

Lemma page_index_Some p i : page_index p = Some i -> valid_frame p /\ i = frame_idx p.
Proof.
  unfold page_index, valid_frame, page_aligned. rewrite page_offset_mod. intros.
  split_ifs. split; [lia|done].
Qed.

Lemma page_index_invalid p : ~ valid_frame p -> page_index p = None.
Proof.
  intros H. destruct (page_index p) eqn:E; [|done]. by apply page_index_Some in E as [? _].
Qed.

Lemma frame_idx_addr p : valid_frame p -> frame_addr (frame_idx p) = p.
Proof. unfold valid_frame, page_aligned, frame_addr, frame_idx. intros. dlia. Qed.

Lemma frame_idx_inj p q : valid_frame p -> valid_frame q -> frame_idx p = frame_idx q -> p = q.
Proof. intros Hp Hq H. rewrite <- (frame_idx_addr p), <- (frame_idx_addr q) by done. by rewrite H. Qed.

Lemma frame_idx_range p : valid_frame p -> 0 <= frame_idx p < PHYS_PAGES.
Proof. unfold valid_frame, page_aligned, frame_idx. intros. dlia. Qed.

Lemma refcount_valid s p :
  valid_frame p -> pmm_page_refcount s p = arr_get (page_refs s) (frame_idx p).
Proof. intros. unfold pmm_page_refcount. by rewrite page_index_valid. Qed.

Lemma refcount_nonzero_valid s p : pmm_page_refcount s p <> 0 -> valid_frame p.
Proof.
  unfold pmm_page_refcount. destruct (page_index p) eqn:E; [|done].
  by apply page_index_Some in E as [? _].
Qed.

(** ** Invariant *)

Record pmm_wf (s : pmm) : Prop := {
  wf_top : 0 <= free_top s;
  wf_end : pmm_end s <= PHYS_RAM_BASE + PHYS_RAM_SIZE;
  wf_cur : PHYS_RAM_BASE <= pmm_cur s <= PHYS_RAM_BASE + PHYS_RAM_SIZE + 15;
  wf_free : forall p, p ∈ free_list s ->
    valid_frame p /\ p + PAGE_SIZE <= pmm_cur s /\ pmm_page_refcount s p = 0;
  wf_nodup : NoDup (free_list s);
  wf_refs : forall i, is_u32 (arr_get (page_refs s) i);
  wf_live : forall i, arr_get (page_refs s) i <> 0 ->
    0 <= i < PHYS_PAGES /\ frame_addr i + PAGE_SIZE <= pmm_cur s;
  wf_owned : owned_pages s = Z.of_nat (nz_count (page_refs s));
}.

Lemma owned_bound s : pmm_wf s -> 0 <= owned_pages s <= PHYS_PAGES.
Proof.
  intros W. rewrite (wf_owned s W).
  assert (Z.of_nat (nz_count (page_refs s)) <= Z.max 0 PHYS_PAGES); [|lia].
  apply nz_count_bound. intros i Hi. by apply (wf_live s W).
Qed.

Lemma length_free_list s : 0 <= free_top s -> Z.of_nat (length (free_list s)) = free_top s.
Proof. intros. unfold free_list. rewrite length_map, length_seqZ. lia. Qed.

(** The free stack can never hold more frames than there are, so the bounds
    guard of [pmm_free_page] never drops a page. *)
Lemma frames_bounded (l : list Z) :
  NoDup l -> (forall p, p ∈ l -> valid_frame p) -> Z.of_nat (length l) <= PHYS_PAGES.
Proof.
  intros Hd Hv. rewrite <- (length_map frame_idx).
  pose proof (NoDup_bounded_length (map frame_idx l) PHYS_PAGES) as Hb.
  apply Hb; clear Hb.
  - apply NoDup_fmap_2_strong; [|done]. intros. apply frame_idx_inj; auto.
  - intros i Hi. apply list_elem_of_fmap in Hi as (p & -> & Hp). apply frame_idx_range; auto.
Qed.

Lemma free_top_room s p :
  pmm_wf s -> valid_frame p -> p ∉ free_list s -> free_top s < PHYS_PAGES.
Proof.
  intros W Hp Hn. rewrite <- length_free_list by apply W.
  pose proof (frames_bounded (p :: free_list s)) as Hb.
  enough (Z.of_nat (length (p :: free_list s)) <= PHYS_PAGES) by (cbn [length] in *; lia).
  apply Hb; [constructor; [done|apply W]|].
  intros q [->|Hq]%elem_of_cons; [done|]. by apply (wf_free s W q).
Qed.

(** ** Reference counts under update *)

Lemma refcount_update s p q v o :
  valid_frame p ->
  pmm_page_refcount (with_refs s (<[frame_idx p := v]> (page_refs s)) o) q =
  if decide (p = q) then v else pmm_page_refcount s q.
Proof.
  intros Hp. unfold pmm_page_refcount.
  destruct (page_index q) as [i|] eqn:E.
  - apply page_index_Some in E as [Hq ->]. simpl. rewrite arr_get_insert.
    repeat case_decide; subst; try done. by apply frame_idx_inj in H.
  - case_decide; [|done]. subst. rewrite page_index_valid in E by done. done.
Qed.

Lemma wf_with_ram s m : pmm_wf s -> pmm_wf (with_ram s m).
Proof. intros []. by constructor. Qed.

(** Changing one count keeps the invariant when the page is not on the free
    list and the counters follow. *)
Lemma wf_update_ref s p v o :
  pmm_wf s -> valid_frame p -> p ∉ free_list s -> p + PAGE_SIZE <= pmm_cur s ->
  is_u32 v -> o = Z.of_nat (nz_count (<[frame_idx p := v]> (page_refs s))) ->
  pmm_wf (with_refs s (<[frame_idx p := v]> (page_refs s)) o).
Proof.
  intros W Hp Hn Hc Hv Ho. constructor; try (simpl; apply W).
  - intros q Hq. change (free_list _) with (free_list s) in Hq.
    destruct (wf_free s W q Hq) as (Hq1 & Hq2 & Hq3).
    rewrite refcount_update by done. case_decide; subst; done.
  - intros i. simpl. rewrite arr_get_insert. case_decide; [done|apply W].
  - intros i. simpl. rewrite arr_get_insert. case_decide; [|apply W].
    subst. intros _. rewrite frame_idx_addr by done. pose proof (frame_idx_range p Hp). lia.
  - done.
Qed.

Lemma live_not_free s p : pmm_wf s -> pmm_page_refcount s p <> 0 -> p ∉ free_list s.
Proof. intros W Hr Hp. by apply (wf_free s W) in Hp as (_ & _ & ?). Qed.

Lemma live_below s p :
  pmm_wf s -> pmm_page_refcount s p <> 0 -> p + PAGE_SIZE <= pmm_cur s.
Proof.
  intros W Hr. pose proof (refcount_nonzero_valid _ _ Hr) as Hp.
  rewrite refcount_valid in Hr by done. apply W in Hr as [_ Hr].
  by rewrite frame_idx_addr in Hr.
Qed.

Lemma refcount_range s p : pmm_wf s -> is_u32 (pmm_page_refcount s p).
Proof.
  intros W. unfold pmm_page_refcount. destruct (page_index p); [apply W|].
  unfold is_u32. lia.
Qed.

(** *** Taking a reference *)

Lemma ref_page_eq s p :
  pmm_page_refcount s p <> 0 -> pmm_page_refcount s p < 2 ^ 32 - 1 -> pmm_wf s ->
  pmm_ref_page s p =
  with_refs s (<[frame_idx p := pmm_page_refcount s p + 1]> (page_refs s)) (owned_pages s).
Proof.
  intros Hr Hb W. pose proof (refcount_nonzero_valid _ _ Hr) as Hp.
  unfold pmm_ref_page. rewrite page_index_valid by done.
  pose proof (refcount_range s p W) as Hu. unfold is_u32 in Hu.
  rewrite refcount_valid in * by done. split_if; [lia|].
  rewrite u32_small; [done|]. unfold is_u32. lia.
Qed.

Lemma ref_page_wf s p :
  pmm_wf s -> pmm_page_refcount s p <> 0 -> pmm_page_refcount s p < 2 ^ 32 - 1 ->
  pmm_wf (pmm_ref_page s p).
Proof.
  intros W Hr Hb. rewrite ref_page_eq by done.
  pose proof (refcount_nonzero_valid _ _ Hr) as Hp.
  pose proof (refcount_range s p W) as Hu. unfold is_u32 in Hu.
  apply wf_update_ref; auto using live_not_free, live_below; [unfold is_u32; lia|].
  rewrite nz_count_same; [apply W| |lia]. by rewrite <- refcount_valid.
Qed.

Lemma ref_page_refcount s p q :
  pmm_wf s -> pmm_page_refcount s p <> 0 -> pmm_page_refcount s p < 2 ^ 32 - 1 ->
  pmm_page_refcount (pmm_ref_page s p) q =
  if decide (p = q) then pmm_page_refcount s p + 1 else pmm_page_refcount s q.
Proof.
  intros W Hr Hb. rewrite ref_page_eq by done.
  apply refcount_update. by eapply refcount_nonzero_valid.
Qed.

(** *** Dropping a reference *)

Lemma free_list_push s fp refs top o m p :
  0 <= free_top s -> fp = <[free_top s := p]> (free_pages s) -> top = free_top s + 1 ->
  free_list (mk_pmm (pmm_cur s) (pmm_end s) fp refs top o m) = free_list s ++ [p].
Proof.
  intros H0 -> ->. unfold free_list. simpl.
  rewrite seqZ_app by lia. rewrite map_app. simpl. f_equal.
  - apply list_fmap_ext. intros i x Hx. apply list_elem_of_lookup_2, elem_of_seqZ in Hx.
    rewrite arr_get_insert. case_decide; [lia|done].
  - unfold seqZ. simpl. rewrite arr_get_insert. by case_decide; [|lia].
Qed.

Lemma free_page_dead s p : pmm_page_refcount s p = 0 -> pmm_free_page s p = s.
Proof.
  unfold pmm_free_page, pmm_page_refcount. intros H. split_if; [done|].
  destruct (page_index p); [|done]. by rewrite H.
Qed.

Lemma free_page_shared s p :
  pmm_wf s -> 1 < pmm_page_refcount s p ->
  pmm_free_page s p =
  with_refs s (<[frame_idx p := pmm_page_refcount s p - 1]> (page_refs s)) (owned_pages s).
Proof.
  intros W Hr. assert (Hp : valid_frame p) by (eapply (refcount_nonzero_valid s); lia).
  unfold pmm_free_page. rewrite page_index_valid by done.
  rewrite refcount_valid in * by done. destruct Hp as [_ Hp].
  repeat split_if; lia || done.
Qed.

Lemma free_page_last s p :
  pmm_wf s -> pmm_page_refcount s p = 1 ->
  pmm_free_page s p =
  mk_pmm (pmm_cur s) (pmm_end s) (<[free_top s := p]> (free_pages s))
    (<[frame_idx p := 0]> (page_refs s)) (free_top s + 1) (owned_pages s - 1) (ram s).
Proof.
  intros W Hr. assert (Hp : valid_frame p) by (eapply (refcount_nonzero_valid s); lia).
  assert (Hroom : free_top s < PHYS_PAGES).
  { eapply free_top_room; eauto. apply live_not_free; [done|lia]. }
  assert (Hnz : 0 < owned_pages s).
  { rewrite (wf_owned s W). rewrite <- (nz_count_down _ (frame_idx p)); [lia|].
    rewrite <- (refcount_valid s) by done. lia. }
  unfold pmm_free_page. rewrite page_index_valid by done.
  rewrite refcount_valid in Hr by done. rewrite Hr.
  replace (p =? 0) with false by (destruct Hp; lia). simpl.
  by repeat split_if; try lia.
Qed.

Lemma free_page_wf s p : pmm_wf s -> pmm_wf (pmm_free_page s p).
Proof.
  intros W. pose proof (refcount_range s p W) as Hu. unfold is_u32 in Hu.
  destruct (decide (pmm_page_refcount s p = 0)) as [H0|H0];
    [by rewrite free_page_dead|].
  pose proof (refcount_nonzero_valid _ _ H0) as Hp.
  pose proof (live_not_free s p W H0) as Hn. pose proof (live_below s p W H0) as Hb.
  destruct (decide (pmm_page_refcount s p = 1)) as [H1|H1].
  - rewrite free_page_last by done.
    pose proof (wf_update_ref s p 0 (Z.of_nat (nz_count (<[frame_idx p := 0]> (page_refs s)))))
      as W'.
    destruct W' as [? ? ? Wf Wd Wr Wl _]; auto; [unfold is_u32; lia|].
    constructor; simpl in *; [pose proof (wf_top s W); lia|done|done| | |done|done|].
    + intros q Hq. erewrite free_list_push in Hq by (done || apply W).
      apply elem_of_app in Hq as [Hq|Hq%list_elem_of_singleton]; [by apply Wf|]. subst.
      split_and!; [done|done|].
      change (pmm_page_refcount _ p) with
        (pmm_page_refcount (with_refs s (<[frame_idx p := 0]> (page_refs s)) 0) p).
      rewrite refcount_update by done. by rewrite decide_True.
    + erewrite free_list_push by (done || apply W).
      apply NoDup_app; split_and!; [done| |repeat constructor; set_solver].
      intros x Hx Hx'%list_elem_of_singleton. by subst.
    + rewrite (wf_owned s W). rewrite <- (nz_count_down _ (frame_idx p)); [lia|].
      rewrite <- (refcount_valid s) by done. lia.
  - rewrite free_page_shared by (done || lia).
    apply wf_update_ref; auto; [unfold is_u32; lia|].
    rewrite nz_count_same; [apply W| |lia]. by rewrite <- refcount_valid.
Qed.

(** *** Marking a range *)

Lemma mark_page_refs s p i :
  valid_frame p ->
  arr_get (page_refs (mark_page_owned s p)) i =
  if decide (frame_idx p = i /\ arr_get (page_refs s) i = 0) then 1
  else arr_get (page_refs s) i.
Proof.
  intros Hp. unfold mark_page_owned. rewrite page_index_valid by done.
  split_if; simpl; rewrite ?arr_get_insert; repeat case_decide; destruct_and?; subst;
    try done; exfalso; auto.
Qed.

(** What marking leaves alone. *)
Definition same_but_refs (s s' : pmm) : Prop :=
  pmm_cur s' = pmm_cur s /\ pmm_end s' = pmm_end s /\ free_pages s' = free_pages s /\
  free_top s' = free_top s /\ ram s' = ram s.

Lemma same_but_refs_trans s1 s2 s3 :
  same_but_refs s1 s2 -> same_but_refs s2 s3 -> same_but_refs s1 s3.
Proof. unfold same_but_refs. intros (?&?&?&?&?) (?&?&?&?&?). split_and!; congruence. Qed.

Definition refs_counted (s : pmm) : Prop :=
  owned_pages s = Z.of_nat (nz_count (page_refs s)) /\
  forall i, arr_get (page_refs s) i <> 0 -> 0 <= i < PHYS_PAGES.

Lemma mark_page_same s p : same_but_refs s (mark_page_owned s p).
Proof. unfold same_but_refs, mark_page_owned. destruct (page_index p); [split_if|]; done. Qed.

Lemma mark_page_counted s p : valid_frame p -> refs_counted s -> refs_counted (mark_page_owned s p).
Proof.
  intros Hp [Ho Hl]. split.
  - unfold mark_page_owned. rewrite page_index_valid by done. split_if; [|done]. simpl.
    rewrite nz_count_up, Ho by done.
    assert (Z.of_nat (nz_count (page_refs s)) <= Z.max 0 PHYS_PAGES) by (by apply nz_count_bound).
    rewrite u64_small; unfold is_u64; lia.
  - intros i. rewrite mark_page_refs by done. case_decide as Hd; [|auto].
    destruct Hd as [<- _]. intros _. by apply frame_idx_range.
Qed.

Lemma mark_range_loop_spec n s p limit :
  page_aligned p -> PHYS_RAM_BASE <= p -> limit <= PHYS_RAM_BASE + PHYS_RAM_SIZE ->
  limit - p <= Z.of_nat n * PAGE_SIZE ->
  let s' := mark_range_loop n s p limit in
  same_but_refs s s' /\ (refs_counted s -> refs_counted s') /\
  forall q, valid_frame q ->
    arr_get (page_refs s') (frame_idx q) =
    if decide (p <= q < limit /\ arr_get (page_refs s) (frame_idx q) = 0) then 1
    else arr_get (page_refs s) (frame_idx q).
Proof.
  revert s p. induction n as [|n IH]; intros s p Ha Hb Hl Hn; simpl.
  { split_and!; [done|done|]. intros. case_decide; [lia|done]. }
  split_if; simpl.
  2:{ split_and!; [done|done|]. intros. case_decide; [lia|done]. }
  assert (Hp : valid_frame p) by (split; [done|lia]).
  rewrite u64_small by (unfold is_u64; lia).
  destruct (IH (mark_page_owned s p) (p + PAGE_SIZE)) as (Hs & Hc & Hq);
    [unfold page_aligned in *; dlia|lia|lia|lia|].
  split_and!.
  - eapply same_but_refs_trans; [apply mark_page_same|done].
  - auto using mark_page_counted.
  - intros q Hv. rewrite Hq, mark_page_refs by done.
    assert (p < q < p + PAGE_SIZE -> False).
    { destruct Hv as [Hv _]. unfold page_aligned in *. dlia. }
    assert (frame_idx p = frame_idx q <-> p = q) by (split; [by apply frame_idx_inj|by intros ->]).
    repeat case_decide; lia.
Qed.

(** *** Bump allocation *)

Definition pow2_align (a : Z) : Prop := exists k, 0 <= k < 32 /\ a = 2 ^ k.

Lemma align_up_facts x a :
  pow2_align a -> 0 <= x < 2 ^ 62 ->
  x <= align_up x a < x + a /\ align_up x a mod a = 0 /\ 0 < a < 2 ^ 33.
Proof.
  intros (k & Hk & ->) Hx.
  assert (0 < 2 ^ k) by (apply Z.pow_pos_nonneg; lia).
  assert (2 ^ k < 2 ^ 33) by (apply Z.pow_lt_mono_r; lia).
  rewrite align_up_pow2 by lia.
  pose proof (Z.mod_pos_bound (x + 2 ^ k - 1) (2 ^ k)).
  split_and!; try lia.
  rewrite Zminus_mod_idemp_r, Z.sub_diag. by apply Z.mod_0_l; lia.
Qed.

Lemma mark_range_spec s base bytes :
  refs_counted s -> PHYS_RAM_BASE <= base -> 0 <= bytes ->
  base + bytes <= PHYS_RAM_BASE + PHYS_RAM_SIZE ->
  (forall q, valid_frame q -> base <= q -> pmm_page_refcount s q = 0) ->
  let s' := mark_range_owned s base bytes in
  same_but_refs s s' /\ refs_counted s' /\
  forall q, valid_frame q ->
    pmm_page_refcount s' q =
    if decide (base <= q /\ q + PAGE_SIZE <= base + bytes) then 1 else pmm_page_refcount s q.
Proof.
  intros Hcnt Hb Hy He Hdead. unfold mark_range_owned. split_if.
  { split_and!; [done|done|]. intros q Hq. case_decide; [lia|done]. }
  rewrite u64_small by (unfold is_u64; lia). split_if; [lia|].
  pose proof (align_up_page_bounds base ltac:(lia) ltac:(lia)) as U1.
  pose proof (align_up_page_aligned base ltac:(lia) ltac:(lia)) as U2.
  pose proof (align_down_page_bounds (base + bytes) ltac:(unfold is_u64; lia)) as D1.
  pose proof (align_down_page_aligned (base + bytes) ltac:(unfold is_u64; lia)) as D2.
  set (p := align_up base 4096) in *. set (lim := align_down (base + bytes) 4096) in *.
  clearbody p lim.
  destruct (mark_range_loop_spec (Z.to_nat ((lim - p) / PAGE_SIZE + 1)) s p lim)
    as (L1 & L2 & L3); [done|lia|lia|dlia|].
  split_and!; [done|auto|]. intros q Hq. rewrite refcount_valid by done. rewrite L3 by done.
  rewrite <- !(refcount_valid s) by done. specialize (Hdead q Hq). destruct Hq as [Hq _].
  unfold page_aligned in *. repeat case_decide; try lia; exfalso; dlia.
Qed.

(** The result of a successful [pmm_alloc]. *)
Lemma alloc_spec s bytes align cur s' :
  pmm_wf s -> pow2_align align -> is_u64 bytes ->
  pmm_alloc s bytes align = (cur, s') -> cur <> 0 ->
  cur = align_up (pmm_cur s) align /\ cur + bytes <= pmm_end s /\
  pmm_cur s' = cur + bytes /\ pmm_end s' = pmm_end s /\
  free_pages s' = free_pages s /\ free_top s' = free_top s /\
  ram s' = memset (ram s) cur 0 bytes /\
  refs_counted s' /\
  forall q, valid_frame q ->
    pmm_page_refcount s' q =
    if decide (cur <= q /\ q + PAGE_SIZE <= cur + bytes) then 1 else pmm_page_refcount s q.
Proof.
  intros W Hal Hby Ha Hc.
  pose proof (wf_cur s W) as Hcur. pose proof (wf_end s W) as Hend.
  destruct (align_up_facts (pmm_cur s) align Hal ltac:(lia)) as (Hb & _ & Hal').
  unfold pmm_alloc in Ha. set (c := align_up (pmm_cur s) align) in *.
  destruct (u64_add_cases c bytes) as [[Hu Hs]|[Hu _]]; [unfold is_u64; lia|done| |].
  2:{ replace (u64 (c + bytes) <? c) with true in Ha by lia. rewrite orb_true_r in Ha. congruence. }
  rewrite Hu in Ha. destruct (_ || _) eqn:Hg in Ha; [congruence|]. bool_hyps.
  unfold is_u64 in Hby. injection Ha as <- <-.
  set (s1 := mk_pmm (c + bytes) _ _ _ _ _ _).
  destruct (mark_range_spec s1 c bytes) as ((M1 & M2 & M3 & M4 & M5) & M6 & M7); try lia.
  { split; [apply W|]. intros i Hi. by apply (wf_live s W). }
  { intros q Hq Hcq. destruct (decide (pmm_page_refcount s q = 0)) as [|Hne]; [done|].
    apply live_below in Hne; [lia|done]. }
  split_and!; try done; simpl; try lia; try (by rewrite ?M1, ?M2, ?M3, ?M4, ?M5).
Qed.

Lemma alloc_wf s bytes align :
  pmm_wf s -> pow2_align align -> is_u64 bytes -> pmm_wf (pmm_alloc s bytes align).2.
Proof.
  intros W Hal Hby. destruct (pmm_alloc s bytes align) as [cur s'] eqn:Ha. simpl.
  pose proof (wf_cur s W) as Hcur. pose proof (wf_end s W) as Hend.
  destruct (align_up_facts (pmm_cur s) align Hal ltac:(lia)) as (Hb & _ & _).
  destruct (decide (cur = 0)) as [->|Hne].
  { unfold pmm_alloc in Ha. destruct (_ || _) in Ha; simplify_eq; [done|]. lia. }
  destruct (alloc_spec s bytes align cur s') as (H1 & H2 & H3 & H4 & H5 & H6 & H7 & [H8 H9] & H10);
    try done.
  unfold is_u64 in Hby. set (c := align_up _ _) in *. clearbody c. subst c.
  assert (Hfl : free_list s' = free_list s) by (unfold free_list; by rewrite H5, H6).
  constructor; rewrite ?Hfl, ?H3, ?H4, ?H6; try done; try apply W; try lia.
  - intros p Hp. destruct (wf_free s W p Hp) as (Hv & Hl & Hr).
    split_and!; [done|lia|]. rewrite H10 by done. case_decide; [lia|done].
  - intros i. destruct (decide (arr_get (page_refs s') i = 0)) as [->|Hi]; [unfold is_u32; lia|].
    specialize (H9 i Hi). specialize (H10 (frame_addr i)).
    assert (Hv : valid_frame (frame_addr i)) by (unfold valid_frame, page_aligned, frame_addr; dlia).
    assert (He : frame_idx (frame_addr i) = i) by (unfold frame_idx, frame_addr; dlia).
    rewrite !refcount_valid, He in H10 by done. rewrite H10 by done.
    case_decide; [unfold is_u32; lia|apply W].
  - intros i Hi. pose proof (H9 i Hi) as Hir. split; [done|]. specialize (H10 (frame_addr i)).
    assert (Hv : valid_frame (frame_addr i)) by (unfold valid_frame, page_aligned, frame_addr; dlia).
    assert (He : frame_idx (frame_addr i) = i) by (unfold frame_idx, frame_addr; dlia).
    rewrite !refcount_valid, He in H10 by done. rewrite H10 in Hi by done.
    case_decide; [lia|]. apply W in Hi. lia.
Qed.

#[local] Opaque pmm_alloc.

(** *** Page allocation *)

Lemma free_list_pop s refs o m :
  0 < free_top s ->
  free_list s =
  (free_list (mk_pmm (pmm_cur s) (pmm_end s) (free_pages s) refs (free_top s - 1)%Z o m)) ++
  [arr_get (free_pages s) (free_top s - 1)].
Proof.
  intros H. unfold free_list. simpl.
  replace (free_top s) with (free_top s - 1 + 1) at 1 by lia.
  rewrite seqZ_app, map_app by lia. f_equal.
Qed.

(** What a successful page allocation does to the rest of the state. *)
Definition page_granted (s : pmm) (p : Z) (s' : pmm) : Prop :=
  valid_frame p /\ pmm_page_refcount s p = 0 /\ (p ∉ free_list s') /\
  ram s' = memset (ram s) p 0 PAGE_SIZE /\
  (forall q, pmm_page_refcount s' q = if decide (p = q) then 1 else pmm_page_refcount s q) /\
  pmm_available_pages s' = pmm_available_pages s - 1 /\
  pmm_used_pages s' = pmm_used_pages s + 1.

Lemma alloc_page_pop s :
  pmm_wf s -> 0 < free_top s ->
  (pmm_alloc_page s).1 <> 0 /\
  pmm_wf (pmm_alloc_page s).2 /\ page_granted s (pmm_alloc_page s).1 (pmm_alloc_page s).2.
Proof.
  intros W Ht. unfold pmm_alloc_page. replace (0 <? free_top s) with true by lia. simpl.
  set (p := arr_get (free_pages s) (free_top s - 1)).
  pose proof (free_list_pop s (page_refs s) (owned_pages s) (ram s) Ht) as Hfl. fold p in Hfl.
  set (s1 := mk_pmm _ _ _ _ _ _ _) in *.
  assert (Hin : p ∈ free_list s) by (rewrite Hfl; set_solver).
  destruct (wf_free s W p Hin) as (Hv & Hb & Hr).
  pose proof (wf_nodup s W) as Hd. rewrite Hfl in Hd. apply NoDup_app in Hd as (Hd & Hnp & _).
  assert (W1 : pmm_wf s1).
  { destruct W. constructor; simpl; [lia|done|done| |done..].
    intros q Hq. apply wf_free0. rewrite Hfl. set_solver. }
  assert (Hn : p ∉ free_list s1) by (intros Hx; apply (Hnp p Hx); set_solver).
  rewrite page_index_valid by done.
  pose proof (owned_bound s W) as Hob.
  assert (Hcnt : u64 (owned_pages s + 1) =
    Z.of_nat (nz_count (<[frame_idx p := 1]> (page_refs s1)))).
  { rewrite nz_count_up; [|by rewrite <- refcount_valid|done].
    rewrite u64_small by (unfold is_u64; lia). simpl. rewrite (wf_owned s W). lia. }
  split; [destruct Hv; lia|]. split; [by apply wf_with_ram, (wf_update_ref s1 p 1)|].
  split; [done|]. split_and!; try done.
  - intros q. exact (refcount_update s1 p q 1 _ Hv).
  - unfold pmm_available_pages. simpl. lia.
  - unfold pmm_used_pages. simpl. rewrite u64_small; [done|]. unfold is_u64. lia.
Qed.

(** Counts that agree on every frame are equal arrays, both being 0 elsewhere. *)
Lemma refs_eq_of_counts s s' p :
  pmm_wf s -> pmm_wf s' -> valid_frame p ->
  (forall q, pmm_page_refcount s' q = if decide (p = q) then 1 else pmm_page_refcount s q) ->
  forall i, arr_get (page_refs s') i = arr_get (<[frame_idx p := 1]> (page_refs s)) i.
Proof.
  intros W W' Hv Hq i. destruct (decide (0 <= i < PHYS_PAGES)) as [Hi|Hi].
  - assert (Hvi : valid_frame (frame_addr i)) by (unfold valid_frame, page_aligned, frame_addr; dlia).
    assert (He : frame_idx (frame_addr i) = i) by (unfold frame_idx, frame_addr; dlia).
    specialize (Hq (frame_addr i)). rewrite !refcount_valid, He in Hq by done.
    rewrite arr_get_insert, Hq. repeat case_decide; subst; try done.
    by rewrite frame_idx_addr in *.
  - assert (Hz : forall t, pmm_wf t -> arr_get (page_refs t) i = 0).
    { intros t Wt. destruct (decide (arr_get (page_refs t) i = 0)) as [|Hne]; [done|].
      apply Wt in Hne. lia. }
    rewrite arr_get_insert, !Hz by done. case_decide; [|done].
    pose proof (frame_idx_range p Hv). lia.
Qed.

Lemma alloc_page_bump s p s' :
  pmm_wf s -> free_top s = 0 -> pmm_alloc_page s = (p, s') -> p <> 0 ->
  pmm_wf s' /\ page_granted s p s'.
Proof.
  intros W Ht Ha Hp. unfold pmm_alloc_page in Ha. rewrite Ht in Ha. simpl in Ha.
  assert (Hal : pow2_align 4096) by (exists 12; lia).
  pose proof (alloc_wf s 4096 4096 W Hal ltac:(done)) as W'. rewrite Ha in W'. simpl in W'.
  split; [done|].
  destruct (alloc_spec s 4096 4096 p s' W Hal ltac:(done) Ha Hp)
    as (H1 & H2 & H3 & H4 & H5 & H6 & _ & [H8 H9] & H10).
  pose proof (wf_cur s W). pose proof (wf_end s W).
  pose proof (align_up_page_bounds (pmm_cur s) ltac:(lia) ltac:(lia)) as U1.
  pose proof (align_up_page_aligned (pmm_cur s) ltac:(lia) ltac:(lia)) as U2.
  rewrite <- H1 in U1, U2.
  assert (Hv : valid_frame p) by (split; [done|lia]).
  assert (Hr : pmm_page_refcount s p = 0).
  { destruct (decide (pmm_page_refcount s p = 0)) as [|Hne]; [done|].
    apply live_below in Hne; [lia|done]. }
  assert (Hq : forall q, pmm_page_refcount s' q =
    if decide (p = q) then 1 else pmm_page_refcount s q).
  { intros q. destruct (decide (valid_frame q)) as [Hq|Hq].
    - rewrite H10 by done. destruct Hq as [Hq _]. unfold page_aligned in *.
      clear -Hq U2. repeat case_decide; first [lia | exfalso; dlia].
    - unfold pmm_page_refcount. rewrite (page_index_invalid q Hq).
      case_decide as Hpq; [|reflexivity]. rewrite Hpq in Hv. contradiction. }
  split; [done|]. split; [done|]. split; [|split; [|split; [done|split]]].
  - unfold free_list. rewrite H6, Ht. unfold seqZ. simpl. set_solver.
  - apply (alloc_spec s 4096 4096 p s' W Hal ltac:(done) Ha Hp).
  - unfold pmm_available_pages. rewrite H3, H4, H6, Ht, <- H1.
    rewrite align_up_page_id; [|unfold page_aligned in *; dlia|lia|lia].
    repeat split_if; dlia.
  - unfold pmm_used_pages. rewrite H8, (wf_owned s W).
    rewrite (nz_count_ext _ (<[frame_idx p := 1]> (page_refs s))).
    { rewrite nz_count_up; [lia|by rewrite <- refcount_valid|done]. }
    by apply refs_eq_of_counts.
Qed.

Lemma alloc_page_zero s :
  pmm_wf s -> ((pmm_alloc_page s).1 = 0 <-> pmm_available_pages s = 0).
Proof.
  intros W. pose proof (wf_top s W) as Ht. pose proof (wf_cur s W). pose proof (wf_end s W).
  pose proof (align_up_page_bounds (pmm_cur s) ltac:(lia) ltac:(lia)) as U1.
  destruct (decide (free_top s = 0)) as [Hz|Hz].
  - unfold pmm_alloc_page, pmm_available_pages. rewrite Hz. simpl.
    with_strategy transparent [pmm_alloc] unfold pmm_alloc.
    set (c := align_up _ _) in *. clearbody c.
    rewrite u64_small by (unfold is_u64; lia). repeat split_if; simpl; dlia.
  - destruct (alloc_page_pop s W ltac:(lia)) as (Hne & _ & _).
    split; [done|]. unfold pmm_available_pages. split_if; intros; exfalso; dlia.
Qed.

Lemma alloc_page_ok s p s' :
  pmm_wf s -> pmm_alloc_page s = (p, s') -> p <> 0 -> pmm_wf s' /\ page_granted s p s'.
Proof.
  intros W Ha Hp. pose proof (wf_top s W). destruct (decide (free_top s = 0)).
  - by apply alloc_page_bump.
  - destruct (alloc_page_pop s W ltac:(lia)) as (_ & Hw). by rewrite Ha in Hw.
Qed.

Lemma alloc_page_fail s p s' : pmm_wf s -> pmm_alloc_page s = (p, s') -> p = 0 -> s' = s.
Proof.
  intros W Ha ->. pose proof (wf_top s W). destruct (decide (free_top s = 0)) as [Hz|].
  - unfold pmm_alloc_page in Ha. rewrite Hz in Ha. simpl in Ha.
    pose proof (wf_cur s W).
    pose proof (align_up_page_bounds (pmm_cur s) ltac:(lia) ltac:(lia)) as U1.
    with_strategy transparent [pmm_alloc] unfold pmm_alloc in Ha.
    split_if; [congruence|]. injection Ha as Ha _. lia.
  - destruct (alloc_page_pop s W ltac:(lia)) as (Hne & _). by rewrite Ha in Hne.
Qed.

Lemma alloc_page_wf s : pmm_wf s -> pmm_wf (pmm_alloc_page s).2.
Proof.
  intros W. destruct (pmm_alloc_page s) as [p s'] eqn:Ha. simpl.
  destruct (decide (p = 0)) as [->|]; [by rewrite (alloc_page_fail s 0 s')|].
  by eapply alloc_page_ok.
Qed.

Lemma init_wf start fin s :
  PHYS_RAM_BASE <= start <= PHYS_RAM_BASE + PHYS_RAM_SIZE ->
  fin <= PHYS_RAM_BASE + PHYS_RAM_SIZE -> pmm_wf (pmm_init start fin s).
Proof.
  intros Hs He. destruct (align_up_facts start 16) as (Hb & _); [by exists 4|lia|].
  constructor; simpl; try done; try lia.
  - intros p Hp. unfold free_list in Hp. simpl in Hp. by apply elem_of_nil in Hp.
  - constructor.
Qed.

(** ** The allocator as a state machine

    A run of the kernel uses the allocator through these steps. Freeing is
    unrestricted (any pointer at all may be passed); a reference is only taken
    on a page that is in use. *)
Inductive pmm_step : pmm -> pmm -> Prop :=
  | step_alloc s bytes align :
      pow2_align align -> is_u64 bytes -> pmm_step s (pmm_alloc s bytes align).2
  | step_alloc_page s : pmm_step s (pmm_alloc_page s).2
  | step_ref_page s p :
      pmm_page_refcount s p <> 0 -> pmm_page_refcount s p < 2 ^ 32 - 1 ->
      pmm_step s (pmm_ref_page s p)
  | step_free_page s p : pmm_step s (pmm_free_page s p)
  | step_write_ram s m : pmm_step s (with_ram s m).

Lemma step_wf s s' : pmm_step s s' -> pmm_wf s -> pmm_wf s'.
Proof. destruct 1; auto using alloc_wf, alloc_page_wf, ref_page_wf, free_page_wf, wf_with_ram. Qed.

#[export] Hint Resolve alloc_wf alloc_page_wf ref_page_wf free_page_wf wf_with_ram : furios.

Lemma free_page_refcount s p q :
  pmm_wf s ->
  pmm_page_refcount (pmm_free_page s p) q =
  if decide (p = q) then Z.max 0 (pmm_page_refcount s p - 1) else pmm_page_refcount s q.
Proof.
  intros W. pose proof (refcount_range s p W) as Hu. unfold is_u32 in Hu.
  destruct (decide (pmm_page_refcount s p = 0)) as [H0|H0].
  { rewrite free_page_dead by done. case_decide; subst; lia. }
  pose proof (refcount_nonzero_valid _ _ H0) as Hp.
  destruct (decide (pmm_page_refcount s p = 1)) as [H1|H1].
  - rewrite free_page_last, H1 by done. simpl.
    exact (refcount_update s p q 0 (owned_pages s) Hp).
  - rewrite free_page_shared by (done || lia). rewrite refcount_update by done.
    case_decide; lia.
Qed.

(** ** Properties *)

(** C11: in every state the allocator can reach from [pmm_init], the free stack
    holds distinct page frames, each of them below the bump pointer and
    unreferenced; every referenced frame lies below the bump pointer; the
    reference counts fit their 32 bits and [owned_pages] is exactly the number
    of referenced frames. Freeing twice or freeing a wild pointer is covered. *)
Theorem pmm_invariant start fin s0 s :
  PHYS_RAM_BASE <= start <= PHYS_RAM_BASE + PHYS_RAM_SIZE ->
  fin <= PHYS_RAM_BASE + PHYS_RAM_SIZE ->
  rtc pmm_step (pmm_init start fin s0) s -> pmm_wf s.
Proof.
  intros Hs He Hr. assert (W : pmm_wf (pmm_init start fin s0)) by by apply init_wf.
  induction Hr; eauto using step_wf.
Qed.

Definition pmm_boot : pmm := mk_pmm 0 0 ∅ ∅ 0 0 ∅.
Definition pmm_demo : pmm := pmm_init 1075838976 1076887552 pmm_boot.

Lemma pmm_demo_wf : pmm_wf pmm_demo.
Proof. apply init_wf; lia. Qed.

Lemma pmm_invariant_witness :
  let s1 := (pmm_alloc_page pmm_demo).2 in
  let p := (pmm_alloc_page pmm_demo).1 in
  pmm_wf (pmm_free_page (pmm_free_page s1 p) p).
Proof.
  intros s1 p. apply (pmm_invariant 1075838976 1076887552 pmm_boot); [lia|lia|].
  apply rtc_l with s1; [apply step_alloc_page|].
  apply rtc_l with (pmm_free_page s1 p); [apply step_free_page|].
  apply rtc_once, step_free_page.
Defined.

(** C22: a page [pmm_alloc_page] hands out is an aligned frame of RAM that nobody
    held, comes with reference count 1 and cleared contents, is not on the free
    stack any more, and costs exactly one available page; no other count and no
    other byte of RAM changes. *)
Theorem pmm_alloc_page_correct s p s' :
  pmm_wf s -> pmm_alloc_page s = (p, s') -> p <> 0 ->
  valid_frame p /\ pmm_page_refcount s p = 0 /\ pmm_page_refcount s' p = 1 /\
  (p ∉ free_list s') /\
  (forall q, q <> p -> pmm_page_refcount s' q = pmm_page_refcount s q) /\
  (forall a, mem_get (ram s') a = if (p <=? a) && (a <? p + PAGE_SIZE) then 0 else mem_get (ram s) a) /\
  pmm_available_pages s' = pmm_available_pages s - 1.
Proof.
  intros W Ha Hp. pose proof (proj2 (alloc_page_ok s p s' W Ha Hp)) as Hg.
  split; [|split; [|split; [|split; [|split; [|split]]]]].
  - apply Hg.
  - apply Hg.
  - destruct Hg as (_ & _ & _ & _ & Hq & _). rewrite Hq. apply decide_True. reflexivity.
  - apply Hg.
  - destruct Hg as (_ & _ & _ & _ & Hq & _). intros q Hne. rewrite Hq.
    apply decide_False. congruence.
  - destruct Hg as (_ & _ & _ & Hm & _). intros a. rewrite Hm. apply memset_get. lia.
  - apply Hg.
Qed.

Lemma pmm_alloc_page_correct_witness :
  let p := (pmm_alloc_page pmm_demo).1 in
  pmm_page_refcount (pmm_alloc_page pmm_demo).2 p = 1 /\ p = 1075838976.
Proof.
  intros p. split; [|vm_compute; reflexivity].
  destruct (pmm_alloc_page_correct pmm_demo p (pmm_alloc_page pmm_demo).2)
    as (_ & _ & H & _).
  - exact pmm_demo_wf.
  - apply surjective_pairing.
  - vm_compute. discriminate.
  - exact H.
Defined.

(** Page allocation fails only when it has to: it returns null exactly when
    [pmm_available_pages] reports no page, and then the state is unchanged. *)
Theorem pmm_alloc_page_complete s :
  pmm_wf s ->
  ((pmm_alloc_page s).1 = 0 <-> pmm_available_pages s = 0) /\
  ((pmm_alloc_page s).1 = 0 -> (pmm_alloc_page s).2 = s).
Proof.
  intros W. split; [by apply alloc_page_zero|]. intros H0.
  apply (alloc_page_fail s (pmm_alloc_page s).1 _ W); [apply surjective_pairing|done].
Qed.

Lemma pmm_alloc_page_complete_witness :
  (pmm_alloc_page (pmm_init 1075838976 1075840000 pmm_boot)).2
  = pmm_init 1075838976 1075840000 pmm_boot.
Proof.
  refine (proj2 (pmm_alloc_page_complete _ _) _); [apply init_wf; lia|vm_compute; reflexivity].
Defined.

(** Dropping a reference: on an unreferenced page (a double free) it is a
    no-op; on a shared page it only lowers the count; on the last reference the
    page becomes available again, exactly once, and is the next one handed
    out. No case loses a page to the bound of the free stack. *)
Theorem pmm_free_page_correct s p :
  pmm_wf s ->
  (pmm_page_refcount s p = 0 -> pmm_free_page s p = s) /\
  (pmm_page_refcount s p > 1 ->
     pmm_page_refcount (pmm_free_page s p) p = pmm_page_refcount s p - 1 /\
     pmm_available_pages (pmm_free_page s p) = pmm_available_pages s) /\
  (pmm_page_refcount s p = 1 ->
     pmm_page_refcount (pmm_free_page s p) p = 0 /\
     pmm_available_pages (pmm_free_page s p) = pmm_available_pages s + 1 /\
     (pmm_alloc_page (pmm_free_page s p)).1 = p).
Proof.
  intros W. split_and!.
  - apply free_page_dead.
  - intros Hr. rewrite free_page_refcount, decide_True by done. split; [lia|].
    rewrite free_page_shared by (done || lia). done.
  - intros Hr. rewrite free_page_refcount, decide_True by done. split; [lia|].
    rewrite free_page_last by done. pose proof (wf_top s W). split.
    + unfold pmm_available_pages. simpl. lia.
    + unfold pmm_alloc_page. simpl. replace (0 <? free_top s + 1) with true by lia. simpl.
      rewrite arr_get_insert. by case_decide; [|lia].
Qed.

Lemma pmm_free_page_correct_witness :
  let s1 := (pmm_alloc_page pmm_demo).2 in
  (pmm_alloc_page (pmm_free_page s1 1075838976)).1 = 1075838976.
Proof.
  intros s1. destruct (pmm_free_page_correct s1 1075838976) as (_ & _ & H).
  - apply alloc_page_wf, pmm_demo_wf.
  - apply H. vm_compute. reflexivity.
Defined.
