(* ===== verification/Pipe.v ===== *)
(** * Pipes (kernel/pipe.c, include/pipe.h)

    A table of [MAX_PIPES] ring buffers with reader and writer counts. A
    [pipe_t *] is the index of its slot, [None] being the null pointer; the
    buffers handed to [pipe_read]/[pipe_write] live in the byte memory. *)

From S2P Require Import Prelude KString.

Abbreviation PIPE_CAPACITY := 1024 (only parsing).
Abbreviation MAX_PIPES := 32%nat (only parsing).

Record pipe := mk_pipe {
  used : bool;
  data : gmap Z Z;
  rpos : Z;
  wpos : Z;
  count : Z;
  readers : Z;
  writers : Z;
}.

(** [memset(p, 0, sizeof *p)] *)
Definition pipe_zero : pipe := mk_pipe false ∅ 0 0 0 0 0.

Definition with_readers (p : pipe) (r : Z) : pipe :=
  mk_pipe (used p) (data p) (rpos p) (wpos p) (count p) r (writers p).
Definition with_writers (p : pipe) (w : Z) : pipe :=
  mk_pipe (used p) (data p) (rpos p) (wpos p) (count p) (readers p) w.

(** ** Operations *)

Definition pipe_maybe_release (p : pipe) : pipe :=
  if (readers p =? 0) && (writers p =? 0) then pipe_zero else p.

Definition pipe_init : list pipe := replicate MAX_PIPES pipe_zero.

Fixpoint pipe_alloc_loop (ps : list pipe) (i : nat) : option nat * list pipe :=
  match ps with
  | [] => (None, [])
  | p :: ps' =>
      if negb (used p) then (Some i, mk_pipe true ∅ 0 0 0 1 1 :: ps')
      else let '(r, ps'') := pipe_alloc_loop ps' (S i) in (r, p :: ps'')
  end.

Definition pipe_alloc (ps : list pipe) : option nat * list pipe := pipe_alloc_loop ps 0.

(** Dereferencing a non-null [pipe_t *] of the table. *)
Definition pipe_at (ps : list pipe) (h : option nat) : option (nat * pipe) :=
  i ← h; p ← ps !! i; Some (i, p).

Definition pipe_ref_read (ps : list pipe) (h : option nat) : list pipe :=
  match pipe_at ps h with
  | Some (i, p) => if used p then <[i := with_readers p (readers p + 1)]> ps else ps
  | None => ps
  end.

Definition pipe_ref_write (ps : list pipe) (h : option nat) : list pipe :=
  match pipe_at ps h with
  | Some (i, p) => if used p then <[i := with_writers p (writers p + 1)]> ps else ps
  | None => ps
  end.

Definition pipe_close_read (ps : list pipe) (h : option nat) : list pipe :=
  match pipe_at ps h with
  | Some (i, p) =>
      if negb (used p) || (readers p <=? 0) then ps
      else <[i := pipe_maybe_release (with_readers p (readers p - 1))]> ps
  | None => ps
  end.

Definition pipe_close_write (ps : list pipe) (h : option nat) : list pipe :=
  match pipe_at ps h with
  | Some (i, p) =>
      if negb (used p) || (writers p <=? 0) then ps
      else <[i := pipe_maybe_release (with_writers p (writers p - 1))]> ps
  | None => ps
  end.

Definition pipe_has_readers (ps : list pipe) (h : option nat) : bool :=
  match pipe_at ps h with Some (_, p) => used p && (0 <? readers p) | None => false end.

Definition pipe_has_writers (ps : list pipe) (h : option nat) : bool :=
  match pipe_at ps h with Some (_, p) => used p && (0 <? writers p) | None => false end.

Definition pipe_available_read (ps : list pipe) (h : option nat) : Z :=
  match pipe_at ps h with Some (_, p) => if used p then count p else 0 | None => 0 end.

Definition pipe_available_write (ps : list pipe) (h : option nat) : Z :=
  match pipe_at ps h with
  | Some (_, p) =>
      if negb (used p) || (PIPE_CAPACITY <=? count p) then 0 else PIPE_CAPACITY - count p
  | None => 0
  end.

(** [d[i] = p->data[p->rpos]; p->rpos = (p->rpos + 1) % PIPE_CAPACITY;] *)
Fixpoint pipe_read_loop (n : nat) (m : mem) (d : Z) (dat : gmap Z Z) (r : Z) : mem * Z :=
  match n with
  | O => (m, r)
  | S n' => pipe_read_loop n' (<[d := arr_get dat r]> m) (d + 1) dat ((r + 1) mod PIPE_CAPACITY)
  end.

Definition pipe_read (m : mem) (ps : list pipe) (h : option nat) (dst len : Z)
  : Z * mem * list pipe :=
  match pipe_at ps h with
  | None => (0, m, ps)
  | Some (i, p) =>
      if negb (used p) || (dst =? 0) || (len =? 0) then (0, m, ps)
      else if count p =? 0 then (0, m, ps)
      else
        let n := if count p <? len then count p else len in
        let '(m', r') := pipe_read_loop (Z.to_nat n) m dst (data p) (rpos p) in
        (n, m', <[i := mk_pipe (used p) (data p) r' (wpos p) (count p - n)
                        (readers p) (writers p)]> ps)
  end.

Fixpoint pipe_write_loop (n : nat) (m : mem) (s : Z) (dat : gmap Z Z) (w : Z) : gmap Z Z * Z :=
  match n with
  | O => (dat, w)
  | S n' => pipe_write_loop n' m (s + 1) (<[w := mem_get m s]> dat) ((w + 1) mod PIPE_CAPACITY)
  end.

Definition pipe_write (m : mem) (ps : list pipe) (h : option nat) (src len : Z)
  : Z * list pipe :=
  match pipe_at ps h with
  | None => (0, ps)
  | Some (i, p) =>
      if negb (used p) || (src =? 0) || (len =? 0) then (0, ps)
      else if PIPE_CAPACITY <=? count p then (0, ps)
      else
        let space := PIPE_CAPACITY - count p in
        let n := if space <? len then space else len in
        let '(d', w') := pipe_write_loop (Z.to_nat n) m src (data p) (wpos p) in
        (n, <[i := mk_pipe (used p) d' (rpos p) w' (count p + n)
                     (readers p) (writers p)]> ps)
  end.

(** ** Abstract specification

    A pipe in use is a bounded queue of bytes with its two counts. *)

Record apipe := mk_apipe { queue : list Z; areaders : Z; awriters : Z }.

Abbreviation apipes := (list (option apipe)) (only parsing).

Definition arelease (a : apipe) : option apipe :=
  if (areaders a =? 0) && (awriters a =? 0) then None else Some a.

Definition spec_at (ps : apipes) (h : option nat) : option (nat * apipe) :=
  i ← h; o ← ps !! i; a ← o; Some (i, a).

Fixpoint spec_alloc_loop (ps : apipes) (i : nat) : option nat * apipes :=
  match ps with
  | [] => (None, [])
  | None :: ps' => (Some i, Some (mk_apipe [] 1 1) :: ps')
  | Some a :: ps' => let '(r, ps'') := spec_alloc_loop ps' (S i) in (r, Some a :: ps'')
  end.

Definition spec_ref (rd : bool) (ps : apipes) (h : option nat) : apipes :=
  match spec_at ps h with
  | Some (i, a) =>
      <[i := Some (if rd then mk_apipe (queue a) (areaders a + 1) (awriters a)
                   else mk_apipe (queue a) (areaders a) (awriters a + 1))]> ps
  | None => ps
  end.

Definition spec_close (rd : bool) (ps : apipes) (h : option nat) : apipes :=
  match spec_at ps h with
  | Some (i, a) =>
      if (if rd then areaders a else awriters a) <=? 0 then ps
      else <[i := arelease (if rd then mk_apipe (queue a) (areaders a - 1) (awriters a)
                            else mk_apipe (queue a) (areaders a) (awriters a - 1))]> ps
  | None => ps
  end.

(** Reading takes the oldest bytes, as many as asked for and present. *)
Definition spec_read (m : mem) (ps : apipes) (h : option nat) (dst len : Z) : Z * mem * apipes :=
  match spec_at ps h with
  | Some (i, a) =>
      if (dst =? 0) || (len =? 0) then (0, m, ps)
      else
        let n := Z.min len (Z.of_nat (length (queue a))) in
        (n, store_bytes m dst (take (Z.to_nat n) (queue a)),
         <[i := Some (mk_apipe (drop (Z.to_nat n) (queue a)) (areaders a) (awriters a))]> ps)
  | None => (0, m, ps)
  end.

(** Writing appends as many bytes as fit. *)
Definition spec_write (m : mem) (ps : apipes) (h : option nat) (src len : Z) : Z * apipes :=
  match spec_at ps h with
  | Some (i, a) =>
      if (src =? 0) || (len =? 0) then (0, ps)
      else
        let n := Z.min len (PIPE_CAPACITY - Z.of_nat (length (queue a))) in
        (n, <[i := Some (mk_apipe (queue a ++ mem_bytes m src (Z.to_nat n))
                           (areaders a) (awriters a))]> ps)
  | None => (0, ps)
  end.

(** ** The ring as a queue *)

Definition ring (dat : gmap Z Z) (r c : Z) : list Z :=
  map (fun i => arr_get dat ((r + i) mod PIPE_CAPACITY)) (seqZ 0 c).

Lemma length_ring dat r c : length (ring dat r c) = Z.to_nat c.
Proof. unfold ring. by rewrite length_map, length_seqZ. Qed.

Lemma ring_push dat r c b :
  0 <= c < PIPE_CAPACITY ->
  ring (<[(r + c) mod PIPE_CAPACITY := b]> dat) r (c + 1) = ring dat r c ++ [b].
Proof.
  intros Hc. unfold ring. rewrite seqZ_app, map_app by lia. f_equal.
  - apply list_fmap_ext. intros j x Hx. apply list_elem_of_lookup_2, elem_of_seqZ in Hx.
    rewrite arr_get_insert. case_decide as Hd; [|done]. exfalso. dlia.
  - simpl. unfold seqZ. simpl. rewrite arr_get_insert. case_decide as Hd; [done|].
    exfalso. apply Hd. by replace (Z.of_nat 0 + (0 + c)) with c by lia.
Qed.

Lemma ring_cons dat r c :
  0 < c -> ring dat r c = arr_get dat (r mod PIPE_CAPACITY) :: ring dat ((r + 1) mod PIPE_CAPACITY) (c - 1).
Proof.
  intros Hc. unfold ring. rewrite seqZ_cons by lia. simpl. f_equal; [f_equal; f_equal; lia|].
  replace (Z.pred c) with (c - 1) by lia.
  replace (Z.succ 0) with (1 + 0) by lia. rewrite <- fmap_add_seqZ.
  unfold fmap. rewrite map_map. apply list_fmap_ext. intros i x _. simpl. f_equal.
  rewrite Zplus_mod_idemp_l. f_equal. lia.
Qed.

Lemma pipe_read_loop_spec n m d dat r c :
  Z.of_nat n <= c -> 0 <= r < PIPE_CAPACITY ->
  pipe_read_loop n m d dat r =
    (store_bytes m d (take n (ring dat r c)), (r + Z.of_nat n) mod PIPE_CAPACITY) /\
  ring dat ((r + Z.of_nat n) mod PIPE_CAPACITY) (c - Z.of_nat n) = drop n (ring dat r c).
Proof.
  revert m d r c. induction n as [|n IH]; intros m d r c Hn Hr.
  - simpl. rewrite Z.add_0_r, Z.sub_0_r, Z.mod_small by lia. done.
  - rewrite (ring_cons dat r c) by lia. rewrite (Z.mod_small r) by lia.
    cbn [pipe_read_loop take drop].
    destruct (IH (<[d := arr_get dat r]> m) (d + 1) ((r + 1) mod PIPE_CAPACITY) (c - 1))
      as [-> H2]; [lia|dlia|].
    rewrite Zplus_mod_idemp_l in *. split; [f_equal; f_equal; lia|].
    rewrite <- H2. f_equal; [f_equal|]; lia.
Qed.

Lemma pipe_write_loop_spec n m s dat r c :
  0 <= c -> c + Z.of_nat n <= PIPE_CAPACITY ->
  let '(dat', w') := pipe_write_loop n m s dat ((r + c) mod PIPE_CAPACITY) in
  ring dat' r (c + Z.of_nat n) = ring dat r c ++ mem_bytes m s n /\
  w' = (r + (c + Z.of_nat n)) mod PIPE_CAPACITY.
Proof.
  revert s dat c. induction n as [|n IH]; intros s dat c Hc Hn.
  - simpl. rewrite Z.add_0_r. unfold mem_bytes. simpl. by rewrite app_nil_r.
  - cbn [pipe_write_loop]. rewrite Zplus_mod_idemp_l, <- Z.add_assoc.
    specialize (IH (s + 1) (<[(r + c) mod PIPE_CAPACITY := mem_get m s]> dat) (c + 1)
      ltac:(lia) ltac:(lia)).
    destruct (pipe_write_loop n m (s + 1) _ _) as [dat' w'].
    destruct IH as [H1 ->]. split; [|f_equal; lia].
    replace (c + Z.of_nat (S n)) with (c + 1 + Z.of_nat n) by lia. rewrite H1.
    rewrite ring_push by lia. rewrite <- app_assoc. f_equal. unfold mem_bytes.
    cbn [seq map]. rewrite Z.add_0_r. cbn. f_equal. rewrite <- seq_shift, map_map.
    apply list_fmap_ext. intros i x _. f_equal. lia.
Qed.

(** ** Invariant and abstraction *)

Definition pipe_wf (p : pipe) : Prop :=
  0 <= rpos p < PIPE_CAPACITY /\ 0 <= count p <= PIPE_CAPACITY /\
  wpos p = (rpos p + count p) mod PIPE_CAPACITY /\
  0 <= readers p /\ 0 <= writers p /\
  (used p = true -> 0 < readers p + writers p).

Definition abs (p : pipe) : option apipe :=
  if used p then Some (mk_apipe (ring (data p) (rpos p) (count p)) (readers p) (writers p))
  else None.

Lemma pipe_zero_wf : pipe_wf pipe_zero.
Proof. unfold pipe_wf. simpl. split_and!; done || lia. Qed.

(** A table and its abstraction see the same pipe behind a handle. *)
Lemma spec_at_abs ps h :
  spec_at (map abs ps) h =
  '(i, p) ← pipe_at ps h; a ← abs p; Some (i, a).
Proof.
  unfold spec_at, pipe_at. destruct h as [i|]; simpl; [|done].
  rewrite list_lookup_fmap. by destruct (ps !! i).
Qed.

Lemma pipe_at_Some ps h i p : pipe_at ps h = Some (i, p) -> h = Some i /\ ps !! i = Some p.
Proof.
  unfold pipe_at. destruct h as [j|]; simpl; [|done].
  destruct (ps !! j) eqn:E; simpl; intros; simplify_eq. done.
Qed.

Lemma map_abs_insert ps i p : map abs (<[i := p]> ps) = <[i := abs p]> (map abs ps).
Proof. apply list_fmap_insert. Qed.

Lemma map_abs_id ps i p : ps !! i = Some p -> <[i := abs p]> (map abs ps) = map abs ps.
Proof. intros H. apply list_insert_id. by rewrite list_lookup_fmap, H. Qed.

Lemma Forall_insert_wf ps i p : Forall pipe_wf ps -> pipe_wf p -> Forall pipe_wf (<[i := p]> ps).
Proof. intros. by apply Forall_insert. Qed.

Lemma release_wf p :
  0 <= rpos p < PIPE_CAPACITY -> 0 <= count p <= PIPE_CAPACITY ->
  wpos p = (rpos p + count p) mod PIPE_CAPACITY -> 0 <= readers p -> 0 <= writers p ->
  pipe_wf (pipe_maybe_release p).
Proof.
  intros. unfold pipe_maybe_release. split_if; [apply pipe_zero_wf|].
  unfold pipe_wf. split_and!; try done; lia.
Qed.

Lemma abs_release p :
  used p = true ->
  abs (pipe_maybe_release p) =
  arelease (mk_apipe (ring (data p) (rpos p) (count p)) (readers p) (writers p)).
Proof.
  intros Hu. unfold pipe_maybe_release, arelease, abs. simpl.
  destruct ((readers p =? 0) && (writers p =? 0)); simpl; [done|]. by rewrite Hu.
Qed.

(** ** Each operation implements its specification *)

Definition refines (ps : list pipe) (aps : apipes) : Prop :=
  Forall pipe_wf ps /\ aps = map abs ps.

Lemma refines_lookup ps i p : Forall pipe_wf ps -> ps !! i = Some p -> pipe_wf p.
Proof. intros HF Hl. by eapply Forall_lookup in HF. Qed.

Lemma alloc_loop_refines ps i :
  Forall pipe_wf ps ->
  let '(r, ps') := pipe_alloc_loop ps i in
  Forall pipe_wf ps' /\ spec_alloc_loop (map abs ps) i = (r, map abs ps').
Proof.
  intros HF. revert i. induction HF as [|p ps Hp HF IH]; intros i; simpl; [done|].
  specialize (IH (S i)). unfold abs at 1. destruct (used p) eqn:Hu; simpl.
  - destruct (pipe_alloc_loop ps (S i)) as [r ps']. destruct IH as [H1 H2].
    rewrite H2. split; [by constructor|]. simpl. unfold abs at 2. by rewrite Hu.
  - split; [|done]. constructor; [|done]. unfold pipe_wf. simpl. split_and!; done || lia.
Qed.

(** Unfold both sides of a refinement goal at one handle. *)
Ltac at_handle Hwf :=
  rewrite spec_at_abs;
  match goal with
  | |- context [pipe_at ?ps ?h] =>
      destruct (pipe_at ps h) as [[i p]|] eqn:Hat; simpl; [|done];
      destruct (pipe_at_Some _ _ _ _ Hat) as [-> Hl];
      pose proof (refines_lookup _ _ _ Hwf Hl) as Hp;
      unfold abs at 1; destruct (used p) eqn:Hu; simpl; [|done]
  end.

Lemma ref_refines (rd : bool) ps h :
  Forall pipe_wf ps ->
  refines (if rd then pipe_ref_read ps h else pipe_ref_write ps h) (spec_ref rd (map abs ps) h).
Proof.
  intros HF. unfold refines, pipe_ref_read, pipe_ref_write, spec_ref.
  destruct rd; at_handle HF; (split;
    [apply Forall_insert_wf; [done|]; unfold pipe_wf in *; simpl; split_and!; try tauto; lia
    |rewrite map_abs_insert; unfold abs at 2; simpl; by rewrite Hu]).
Qed.

Lemma close_refines (rd : bool) ps h :
  Forall pipe_wf ps ->
  refines (if rd then pipe_close_read ps h else pipe_close_write ps h) (spec_close rd (map abs ps) h).
Proof.
  intros HF. unfold refines, pipe_close_read, pipe_close_write, spec_close.
  destruct rd; at_handle HF; split_if; (try done); (split;
    [apply Forall_insert_wf; [done|]; destruct Hp as (?&?&?&?&?&?); apply release_wf; simpl; lia
    |rewrite map_abs_insert, abs_release; done]).
Qed.

Lemma read_refines m ps h dst len :
  Forall pipe_wf ps -> 0 <= len ->
  let '(n, m', ps') := pipe_read m ps h dst len in
  Forall pipe_wf ps' /\ spec_read m (map abs ps) h dst len = (n, m', map abs ps').
Proof.
  intros HF Hlen. unfold pipe_read, spec_read. at_handle HF.
  destruct ((dst =? 0) || (len =? 0)) eqn:Hg; [done|].
  destruct Hp as (Hr & Hc & Hw & Hrd & Hwr & Hlive).
  destruct (count p =? 0) eqn:Hz; bool_hyps.
  - split; [done|]. rewrite length_ring, Hz. simpl. rewrite Z.min_r by lia. simpl.
    f_equal. apply list_insert_id. rewrite list_lookup_fmap, Hl. simpl. unfold abs.
    by rewrite Hu, Hz.
  - rewrite length_ring, Z2Nat.id by lia.
    set (n := if count p <? len then count p else len).
    assert (Hn : n = Z.min len (count p)) by (unfold n; split_if; lia). clearbody n. subst n.
    set (n := Z.min len (count p)).
    destruct (pipe_read_loop_spec (Z.to_nat n) m dst (data p) (rpos p) (count p))
      as [-> H2]; [lia|lia|].
    rewrite Z2Nat.id in * by lia. split.
    + apply Forall_insert_wf; [done|]. unfold pipe_wf. simpl. split_and!; try lia; try done.
      * dlia.
      * dlia.
      * rewrite Hw, Zplus_mod_idemp_l. f_equal. lia.
    + rewrite map_abs_insert. unfold abs at 2. simpl. by rewrite H2.
Qed.

Lemma write_refines m ps h src len :
  Forall pipe_wf ps -> 0 <= len ->
  let '(n, ps') := pipe_write m ps h src len in
  Forall pipe_wf ps' /\ spec_write m (map abs ps) h src len = (n, map abs ps').
Proof.
  intros HF Hlen. unfold pipe_write, spec_write. at_handle HF.
  destruct ((src =? 0) || (len =? 0)) eqn:Hg; [done|].
  destruct Hp as (Hr & Hc & Hw & Hrd & Hwr & Hlive). rewrite length_ring, Z2Nat.id by lia.
  destruct (PIPE_CAPACITY <=? count p) eqn:Hz; bool_hyps.
  - split; [done|]. rewrite Z.min_r by lia. replace (PIPE_CAPACITY - count p) with 0 by lia.
    simpl. unfold mem_bytes. simpl. rewrite app_nil_r. f_equal. apply list_insert_id.
    rewrite list_lookup_fmap, Hl. simpl. unfold abs. by rewrite Hu.
  - set (n := if PIPE_CAPACITY - count p <? len then PIPE_CAPACITY - count p else len).
    assert (Hn : n = Z.min len (PIPE_CAPACITY - count p)) by (unfold n; split_if; lia).
    clearbody n. subst n. set (n := Z.min len (PIPE_CAPACITY - count p)).
    pose proof (pipe_write_loop_spec (Z.to_nat n) m src (data p) (rpos p) (count p)
      ltac:(lia) ltac:(lia)) as Hs.
    rewrite Hw. destruct (pipe_write_loop _ _ _ _ _) as [d' w']. destruct Hs as [H1 ->].
    rewrite Z2Nat.id in * by lia. split.
    + apply Forall_insert_wf; [done|]. unfold pipe_wf. simpl. split_and!; lia || done.
    + rewrite map_abs_insert. unfold abs at 2. simpl. by rewrite H1.
Qed.

(** ** Runs *)

Inductive pipe_op :=
  | PAlloc
  | PRef (rd : bool) (h : option nat)
  | PClose (rd : bool) (h : option nat)
  | PRead (h : option nat) (dst len : Z)
  | PWrite (h : option nat) (src len : Z).

Inductive pipe_res := RUnit | RHandle (h : option nat) | RLen (n : Z).

Definition pipe_exec (o : pipe_op) (st : mem * list pipe) : pipe_res * (mem * list pipe) :=
  let '(m, ps) := st in
  match o with
  | PAlloc => let '(h, ps') := pipe_alloc ps in (RHandle h, (m, ps'))
  | PRef rd h => (RUnit, (m, if rd then pipe_ref_read ps h else pipe_ref_write ps h))
  | PClose rd h => (RUnit, (m, if rd then pipe_close_read ps h else pipe_close_write ps h))
  | PRead h dst len => let '(n, m', ps') := pipe_read m ps h dst len in (RLen n, (m', ps'))
  | PWrite h src len => let '(n, ps') := pipe_write m ps h src len in (RLen n, (m, ps'))
  end.

Definition spec_exec (o : pipe_op) (st : mem * apipes) : pipe_res * (mem * apipes) :=
  let '(m, ps) := st in
  match o with
  | PAlloc => let '(h, ps') := spec_alloc_loop ps 0 in (RHandle h, (m, ps'))
  | PRef rd h => (RUnit, (m, spec_ref rd ps h))
  | PClose rd h => (RUnit, (m, spec_close rd ps h))
  | PRead h dst len => let '(n, m', ps') := spec_read m ps h dst len in (RLen n, (m', ps'))
  | PWrite h src len => let '(n, ps') := spec_write m ps h src len in (RLen n, (m, ps'))
  end.

Fixpoint run {S} (ex : pipe_op -> S -> pipe_res * S) (os : list pipe_op) (st : S)
  : list pipe_res * S :=
  match os with
  | [] => ([], st)
  | o :: os' =>
      let '(r, st') := ex o st in
      let '(rs, st'') := run ex os' st' in (r :: rs, st'')
  end.

(** [size_t] arguments are not negative. *)
Definition op_ok (o : pipe_op) : Prop :=
  match o with PRead _ _ len | PWrite _ _ len => 0 <= len | _ => True end.

Lemma pipe_exec_refines o m ps :
  op_ok o -> Forall pipe_wf ps ->
  let '(r, (m', ps')) := pipe_exec o (m, ps) in
  Forall pipe_wf ps' /\ spec_exec o (m, map abs ps) = (r, (m', map abs ps')).
Proof.
  intros Hok HF. destruct o as [|rd h|rd h|h dst len|h src len]; simpl in *.
  - pose proof (alloc_loop_refines ps 0 HF) as H. unfold pipe_alloc.
    destruct (pipe_alloc_loop ps 0) as [r ps']. destruct H as [? ->]. done.
  - destruct (ref_refines rd ps h HF) as [H1 ->]. done.
  - destruct (close_refines rd ps h HF) as [H1 ->]. done.
  - pose proof (read_refines m ps h dst len HF Hok) as H.
    destruct (pipe_read m ps h dst len) as [[n m'] ps']. destruct H as [? ->]. done.
  - pose proof (write_refines m ps h src len HF Hok) as H.
    destruct (pipe_write m ps h src len) as [n ps']. destruct H as [? ->]. done.
Qed.

Lemma run_refines os m ps :
  Forall op_ok os -> Forall pipe_wf ps ->
  let '(rs, (m', ps')) := run pipe_exec os (m, ps) in
  Forall pipe_wf ps' /\ run spec_exec os (m, map abs ps) = (rs, (m', map abs ps')).
Proof.
  intros Hok. revert m ps. induction Hok as [|o os Ho Hok IH]; intros m ps HF; cbn [run]; [done|].
  pose proof (pipe_exec_refines o m ps Ho HF) as H1.
  destruct (pipe_exec o (m, ps)) as [r [m1 ps1]]. destruct H1 as [HF1 ->].
  specialize (IH m1 ps1 HF1). destruct (run pipe_exec os (m1, ps1)) as [rs [m2 ps2]].
  destruct IH as [HF2 ->]. done.
Qed.

(** ** Traffic through one pipe *)

(** The bytes a write puts into the pipe and the bytes a read takes out of it,
    as the two ends see them in memory. *)
Fixpoint traffic (os : list pipe_op) (st : mem * list pipe) : list Z * list Z * (mem * list pipe) :=
  match os with
  | [] => ([], [], st)
  | o :: os' =>
      let '(r, st') := pipe_exec o st in
      let '(ins, outs, st'') := traffic os' st' in
      match o, r with
      | PWrite _ src _, RLen n => (mem_bytes st.1 src (Z.to_nat n) ++ ins, outs, st'')
      | PRead _ dst _, RLen n => (ins, mem_bytes st'.1 dst (Z.to_nat n) ++ outs, st'')
      | _, _ => (ins, outs, st'')
      end
  end.

Definition transfer_on (h : nat) (o : pipe_op) : Prop :=
  match o with
  | PRead (Some i) _ len | PWrite (Some i) _ len => i = h /\ 0 <= len
  | _ => False
  end.

Lemma transfer_step h o m ps q rd wr :
  transfer_on h o -> Forall pipe_wf ps -> spec_at (map abs ps) (Some h) = Some (h, mk_apipe q rd wr) ->
  let '(r, (m', ps')) := pipe_exec o (m, ps) in
  Forall pipe_wf ps' /\
  exists n, r = RLen n /\
  match o with
  | PWrite _ src _ =>
      spec_at (map abs ps') (Some h) =
      Some (h, mk_apipe (q ++ mem_bytes m src (Z.to_nat n)) rd wr)
  | PRead _ dst _ =>
      q = mem_bytes m' dst (Z.to_nat n) ++ drop (Z.to_nat n) q /\
      spec_at (map abs ps') (Some h) = Some (h, mk_apipe (drop (Z.to_nat n) q) rd wr)
  | _ => True
  end.
Proof.
  intros Ht HF Hat. assert (Hok : op_ok o) by (destruct o as [|?|?|[?|]|[?|]]; simpl in *; tauto).
  assert (Hlen : (h < length (map abs ps))%nat).
  { unfold spec_at in Hat. simpl in Hat. destruct (map abs ps !! h) eqn:E; [|done].
    by eapply lookup_lt_Some. }
  pose proof (pipe_exec_refines o m ps Hok HF) as H.
  destruct (pipe_exec o (m, ps)) as [r [m' ps']]. destruct H as [HF' H]. split; [done|].
  destruct o as [| | |[i|] dst len|[i|] src len]; simpl in Ht; try done; destruct Ht as [-> Hl].
  - cbn in H. unfold spec_read in H. rewrite Hat in H. simpl in H.
    destruct (_ || _); injection H as <- <- <-; (eexists; split; [done|]).
    + simpl. rewrite drop_0. done.
    + set (n := Z.min _ _).
      assert (Hn : Z.to_nat n = length (take (Z.to_nat n) q)) by (rewrite length_take; lia).
      split; [|unfold spec_at; simpl; by rewrite list_lookup_insert_eq].
      pose proof (mem_bytes_store m dst (take (Z.to_nat n) q)) as Hb. rewrite <- Hn in Hb.
      by rewrite Hb, take_drop.
  - cbn in H. unfold spec_write in H. rewrite Hat in H. simpl in H.
    destruct (_ || _); injection H as <- <- <-; (eexists; split; [done|]).
    + simpl. unfold mem_bytes. simpl. by rewrite app_nil_r.
    + unfold spec_at. simpl. by rewrite list_lookup_insert_eq.
Qed.

Lemma traffic_conserves h os m ps q rd wr :
  Forall (transfer_on h) os -> Forall pipe_wf ps ->
  spec_at (map abs ps) (Some h) = Some (h, mk_apipe q rd wr) ->
  let '(ins, outs, (m', ps')) := traffic os (m, ps) in
  exists q', spec_at (map abs ps') (Some h) = Some (h, mk_apipe q' rd wr) /\ q ++ ins = outs ++ q'.
Proof.
  intros Hos. revert m ps q. induction Hos as [|o os Ho Hos IH]; intros m ps q HF Hat; cbn [traffic].
  { exists q. rewrite app_nil_r. done. }
  pose proof (transfer_step h o m ps q rd wr Ho HF Hat) as Hs.
  destruct (pipe_exec o (m, ps)) as [r [m1 ps1]]. destruct Hs as (HF1 & n & -> & Hs).
  destruct o as [| | |[i|] dst len|[i|] src len]; simpl in Ho; try done.
  - destruct Hs as [Hq Hat1]. specialize (IH m1 ps1 _ HF1 Hat1).
    destruct (traffic os (m1, ps1)) as [[ins outs] [m2 ps2]]. destruct IH as (q' & Hq' & He).
    exists q'. split; [done|]. rewrite Hq, <- !app_assoc, He. done.
  - specialize (IH m1 ps1 _ HF1 Hs).
    destruct (traffic os (m1, ps1)) as [[ins outs] [m2 ps2]]. destruct IH as (q' & Hq' & He).
    exists q'. split; [done|]. rewrite <- He, <- app_assoc. done.
Qed.

(** ** Properties *)

(** C7: for every sequence of pipe calls on a freshly initialised table (any
    handles, null ones and stale ones included), the ring-buffer implementation
    returns what the bounded-queue specification returns, stores the same bytes
    in the callers' buffers, and ends in a state whose abstraction is the
    specification's state. *)
Theorem pipe_refines_queue os m :
  Forall op_ok os ->
  let '(rs, (m', ps')) := run pipe_exec os (m, pipe_init) in
  run spec_exec os (m, replicate MAX_PIPES None) = (rs, (m', map abs ps')).
Proof.
  intros Hok. assert (HF : Forall pipe_wf pipe_init).
  { unfold pipe_init. apply Forall_replicate. apply pipe_zero_wf. }
  pose proof (run_refines os m pipe_init Hok HF) as H.
  destruct (run pipe_exec os (m, pipe_init)) as [rs [m' ps']]. by destruct H as [_ H].
Qed.

Definition demo_mem : mem := store_bytes ∅ 100 [11; 22; 33; 44].

Definition demo_ops : list pipe_op :=
  [PAlloc; PWrite (Some 0%nat) 100 4; PRead (Some 0%nat) 200 3; PClose true (Some 0%nat);
   PClose false (Some 0%nat); PRead (Some 0%nat) 200 3; PAlloc].

Lemma pipe_refines_queue_witness :
  let '(rs, (m', ps')) := run pipe_exec demo_ops (demo_mem, pipe_init) in
  run spec_exec demo_ops (demo_mem, replicate MAX_PIPES None) = (rs, (m', map abs ps')) /\
  rs = [RHandle (Some 0%nat); RLen 4; RLen 3; RUnit; RUnit; RLen 0; RHandle (Some 0%nat)].
Proof.
  pose proof (pipe_refines_queue demo_ops demo_mem) as H.
  destruct (run pipe_exec demo_ops (demo_mem, pipe_init)) as [rs [m' ps']] eqn:E.
  split; [apply H; repeat constructor; simpl; lia|].
  assert (Hrs : rs = (run pipe_exec demo_ops (demo_mem, pipe_init)).1) by (rewrite E; reflexivity).
  rewrite Hrs. vm_compute. reflexivity.
Defined.

(** Bytes travel through a pipe unchanged, in order, without loss or
    duplication: over any sequence of reads and writes on one open pipe, what
    was buffered before followed by all accepted bytes equals all delivered
    bytes followed by what is still buffered. *)
Theorem pipe_fifo h os m ps q rd wr :
  Forall (transfer_on h) os -> Forall pipe_wf ps ->
  spec_at (map abs ps) (Some h) = Some (h, mk_apipe q rd wr) ->
  let '(ins, outs, (m', ps')) := traffic os (m, ps) in
  exists q', spec_at (map abs ps') (Some h) = Some (h, mk_apipe q' rd wr) /\ q ++ ins = outs ++ q'.
Proof. apply traffic_conserves. Qed.

Definition demo_traffic : list pipe_op :=
  [PWrite (Some 0%nat) 100 4; PRead (Some 0%nat) 200 3; PWrite (Some 0%nat) 100 2;
   PRead (Some 0%nat) 210 9].

Lemma pipe_fifo_witness :
  let '(ins, outs, _) := traffic demo_traffic (demo_mem, (pipe_alloc pipe_init).2) in
  (exists q', [] ++ ins = outs ++ q') /\ outs = [11; 22; 33; 44; 11; 22].
Proof.
  pose proof (pipe_fifo 0 demo_traffic demo_mem (pipe_alloc pipe_init).2 [] 1 1) as H.
  destruct (traffic demo_traffic (demo_mem, (pipe_alloc pipe_init).2)) as [[ins outs] [m' ps']] eqn:E.
  split.
  - destruct H as (q' & _ & H).
    + repeat constructor; simpl; lia.
    + assert (HF : Forall pipe_wf pipe_init)
        by (unfold pipe_init; apply Forall_replicate, pipe_zero_wf).
      pose proof (alloc_loop_refines pipe_init 0 HF) as Ha. unfold pipe_alloc.
      destruct (pipe_alloc_loop pipe_init 0) as [r ps1]. apply Ha.
    + vm_compute. reflexivity.
    + exists q'. exact H.
  - assert (Ho : outs = (traffic demo_traffic (demo_mem, (pipe_alloc pipe_init).2)).1.2)
      by (rewrite E; reflexivity).
    rewrite Ho. vm_compute. reflexivity.
Defined.

(** Slots in use are exactly those with an open end, and a released slot is
    indistinguishable from a never-used one. *)
Lemma reach_wf os m : Forall op_ok os -> Forall pipe_wf (run pipe_exec os (m, pipe_init)).2.2.
Proof.
  intros Hok. assert (HF : Forall pipe_wf pipe_init)
    by (unfold pipe_init; apply Forall_replicate, pipe_zero_wf).
  pose proof (run_refines os m pipe_init Hok HF) as H.
  destruct (run pipe_exec os (m, pipe_init)) as [rs [m' ps']]. by destruct H.
Qed.
