(* ===== verification/UserCopy.v ===== *)
(** * Copying across the user/kernel boundary (kernel/user_copy.c)

    The kernel runs with the current task's address space mapped, so one byte
    memory stands for the addresses it can reach: kernel buffers and the user
    window [USER_VA_BASE, USER_VA_LIMIT). *)

From S2P Require Import Prelude KString.

Abbreviation USER_VA_BASE := 4194304 (only parsing).
Abbreviation USER_VA_LIMIT := 8388608 (only parsing).

(** ** Operations *)

Definition user_ptr_valid (ptr len : Z) : bool :=
  if len =? 0 then true
  else if ptr <? USER_VA_BASE then false
  else if u64 (ptr + len) <? ptr then false
  else if USER_VA_LIMIT <? u64 (ptr + len) then false
  else true.

Definition copy_from_user (m : mem) (dst user_src n : Z) : Z * mem :=
  if negb (user_ptr_valid user_src n) then (-1, m)
  else (0, memcpy_loop m dst user_src (Z.to_nat n)).

Definition copy_to_user (m : mem) (user_dst src n : Z) : Z * mem :=
  if negb (user_ptr_valid user_dst n) then (-1, m)
  else (0, memcpy_loop m user_dst src (Z.to_nat n)).

(** The loop of [copy_user_str]: [None] when it runs to [maxlen]. *)
Fixpoint copy_user_str_loop (n : nat) (m : mem) (dst src : Z) : option Z * mem :=
  match n with
  | O => (None, m)
  | S n' =>
      if USER_VA_LIMIT <=? u64 src then (Some (-1), m)
      else
        let c := mem_get m src in
        let m' := <[dst := c]> m in
        if c =? 0 then (Some 0, m') else copy_user_str_loop n' m' (dst + 1) (src + 1)
  end.

Definition copy_user_str (m : mem) (dst user_src maxlen : Z) : Z * mem :=
  if negb (user_ptr_valid user_src 1) then (-1, m)
  else
    match copy_user_str_loop (Z.to_nat maxlen) m dst user_src with
    | (Some rc, m') => (rc, m')
    | (None, m') => (0, <[u64 (dst + u64 (maxlen - 1)) := 0]> m')
    end.

(** ** Facts *)

Definition in_user (a : Z) : Prop := USER_VA_BASE <= a < USER_VA_LIMIT.

Lemma user_ptr_valid_spec ptr len :
  is_u64 ptr -> is_u64 len ->
  user_ptr_valid ptr len = true <->
  len = 0 \/ (USER_VA_BASE <= ptr /\ ptr + len <= USER_VA_LIMIT).
Proof.
  intros Hp Hl. destruct (u64_add_cases ptr len Hp Hl) as [[E ?]|[E ?]];
    unfold user_ptr_valid, is_u64 in *; repeat split_if; rewrite ?E in *; lia.
Qed.

(** What the loop copies: the user string up to its terminator, one byte after
    the other, into a buffer that does not overlap the source. *)
Lemma copy_loop_spec n m dst src :
  USER_VA_BASE <= src < USER_VA_LIMIT ->
  dst + Z.of_nat n <= src \/ src + Z.of_nat n <= dst ->
  let u := mem_bytes m src n in
  match copy_user_str_loop n m dst src with
  | (Some rc, m') =>
      (rc = 0 /\ exists t, cstr u = Some t /\ src + Z.of_nat (length t) < USER_VA_LIMIT /\
       m' = store_bytes m dst (t ++ [0])) \/
      (rc = -1 /\ USER_VA_LIMIT < src + Z.of_nat n)
  | (None, m') =>
      Forall (fun c => c <> 0) u /\ src + Z.of_nat n <= USER_VA_LIMIT /\ m' = store_bytes m dst u
  end.
Proof.
  revert m dst src. induction n as [|n IH]; intros m dst src Hs Hd.
  { simpl. split_and!; [constructor|lia|done]. }
  assert (Hu : mem_bytes m src (S n) = mem_get m src :: mem_bytes m (src + 1) n).
  { unfold mem_bytes. cbn [seq map]. rewrite Z.add_0_r. cbn. f_equal.
    rewrite <- seq_shift, map_map. apply list_fmap_ext. intros i x _. f_equal. lia. }
  cbn [copy_user_str_loop]. cbv zeta. rewrite Hu.
  rewrite u64_small by (unfold is_u64; lia).
  replace (USER_VA_LIMIT <=? src) with false by lia.
  destruct (mem_get m src =? 0) eqn:Hc; bool_hyps.
  { left. split; [done|]. exists []. simpl. rewrite Hc. split_and!; [done|lia|done]. }
  destruct (decide (src + 1 = USER_VA_LIMIT)) as [He|He].
  { destruct n as [|n].
    - simpl. split_and!; [repeat constructor; done|lia|done].
    - cbn [copy_user_str_loop]. rewrite u64_small by (unfold is_u64; lia).
      replace (USER_VA_LIMIT <=? src + 1) with true by lia. right. lia. }
  specialize (IH (<[dst := mem_get m src]> m) (dst + 1) (src + 1) ltac:(lia) ltac:(lia)).
  assert (Hsame : mem_bytes (<[dst := mem_get m src]> m) (src + 1) n = mem_bytes m (src + 1) n).
  { unfold mem_bytes. apply list_fmap_ext. intros i x Hx. apply lookup_seq in Hx as [-> Hi].
    rewrite mem_get_insert. case_decide; [lia|done]. }
  cbv zeta in IH. rewrite Hsame in IH.
  destruct (copy_user_str_loop n _ (dst + 1) (src + 1)) as [[rc|] m'].
  - destruct IH as [(-> & t & Ht & Hb & ->)|(-> & Hb)]; [left|right; lia].
    split; [done|]. exists (mem_get m src :: t). simpl. rewrite Ht.
    replace (mem_get m src =? 0) with false by lia. split_and!; [done|simpl; lia|done].
  - destruct IH as (HF & Hb & ->). split_and!; [by constructor|lia|done].
Qed.

Lemma copy_loop_frame n m dst src a :
  ~ (dst <= a < dst + Z.of_nat n) ->
  mem_get (copy_user_str_loop n m dst src).2 a = mem_get m a.
Proof.
  revert m dst src. induction n as [|n IH]; intros m dst src Ha; [done|].
  cbn [copy_user_str_loop]. split_if; [done|]. cbv zeta. split_if; simpl.
  - rewrite mem_get_insert. case_decide; [lia|done].
  - rewrite IH by lia. rewrite mem_get_insert. case_decide; [lia|done].
Qed.

Lemma cstr_app_nul t r : Forall (fun c => c <> 0) t -> cstr (t ++ 0 :: r) = Some t.
Proof.
  induction 1 as [|c t Hc Ht IH]; simpl; [done|].
  replace (c =? 0) with false by lia. by rewrite IH.
Qed.

Lemma mem_bytes_app m a n k :
  mem_bytes m a (n + k) = mem_bytes m a n ++ mem_bytes m (a + Z.of_nat n) k.
Proof.
  unfold mem_bytes. rewrite seq_app, map_app. f_equal. simpl.
  rewrite <- (Nat.add_0_r n) at 1. rewrite <- fmap_add_seq. unfold fmap. rewrite map_map.
  apply list_fmap_ext. intros i x _. f_equal. lia.
Qed.

(** Storing [bs] and reading back [n >= length bs] bytes gives [bs] first. *)
Lemma mem_bytes_store_prefix m a bs n :
  (length bs <= n)%nat -> exists r, mem_bytes (store_bytes m a bs) a n = bs ++ r.
Proof.
  intros H. replace n with (length bs + (n - length bs))%nat by lia.
  rewrite mem_bytes_app, mem_bytes_store. eauto.
Qed.

Lemma cstr_take_prefix u t : cstr u = Some t -> (length t < length u)%nat /\ t = take (length t) u.
Proof.
  revert t. induction u as [|c u IH]; intros t Ht; simpl in *; [done|].
  destruct (c =? 0); simplify_eq; simpl; [lia || (split; [lia|done])|].
  destruct (cstr u) as [t'|] eqn:E; simpl in *; simplify_eq. simpl.
  destruct (IH t' eq_refl). split; [lia|congruence].
Qed.

Lemma cstr_None_no_nul u : Forall (fun c => c <> 0) u -> cstr u = None.
Proof.
  induction 1 as [|c u Hc Hu IH]; simpl; [done|].
  replace (c =? 0) with false by lia. by rewrite IH.
Qed.

(** Overwriting the last byte of a full buffer terminates it. *)
Lemma truncated_cstr m dst u n :
  Forall (fun c => c <> 0) u -> length u = Z.to_nat n -> 0 < n ->
  cstr (mem_bytes (<[dst + (n - 1) := 0]> (store_bytes m dst u)) dst (Z.to_nat n)) =
  Some (take (Z.to_nat n - 1) u).
Proof.
  intros HF Hl Hn.
  replace (mem_bytes _ _ _) with (take (Z.to_nat n - 1) u ++ 0 :: []).
  { apply cstr_app_nul. by apply Forall_take. }
  apply list_eq. intros i. destruct (decide (i < Z.to_nat n)%nat) as [Hi|Hi].
  - rewrite mem_bytes_lookup, mem_get_insert, store_bytes_get, Hl by done.
    replace ((dst <=? dst + Z.of_nat i) && (dst + Z.of_nat i <? dst + Z.of_nat (Z.to_nat n)))
      with true by lia.
    case_decide as Hd.
    + rewrite lookup_app_r by (rewrite length_take; lia). rewrite length_take.
      by replace (i - (Z.to_nat n - 1) `min` length u)%nat with 0%nat by lia.
    + rewrite lookup_app_l by (rewrite length_take; lia). rewrite lookup_take_lt by lia.
      replace (Z.to_nat (dst + Z.of_nat i - dst)) with i by lia.
      destruct (lookup_lt_is_Some_2 u i ltac:(lia)) as [x ->]. done.
  - rewrite !lookup_ge_None_2; [done| |].
    + rewrite length_mem_bytes. lia.
    + rewrite length_app, length_take. simpl. lia.
Qed.

(** ** Properties *)

(** C23: whatever pointer and length a user program passes, [copy_to_user] never
    changes a byte outside the user window; it succeeds exactly when the whole
    destination lies in the window (wrap-around included), then transfers the
    bytes (source not overlapping), and otherwise changes nothing. *)
Theorem copy_to_user_confined m dst src n :
  is_u64 dst -> is_u64 n ->
  let '(rc, m') := copy_to_user m dst src n in
  (rc = 0 <-> n = 0 \/ (USER_VA_BASE <= dst /\ dst + n <= USER_VA_LIMIT)) /\
  (rc <> 0 -> rc = -1 /\ m' = m) /\
  (forall a, ~ in_user a -> mem_get m' a = mem_get m a) /\
  (rc = 0 -> dst <= src \/ src + n <= dst ->
   forall i, 0 <= i < n -> mem_get m' (dst + i) = mem_get m (src + i)).
Proof.
  intros Hd Hn. unfold copy_to_user.
  pose proof (user_ptr_valid_spec dst n Hd Hn) as Hv. unfold is_u64 in Hn.
  destruct (user_ptr_valid dst n); simpl.
  - destruct Hv as [Hv _]. specialize (Hv eq_refl). split_and!; [done|done| |].
    + intros a Ha. unfold in_user in Ha.
      assert (Hout : forall k m' d s, (d <= a < d + Z.of_nat k -> False) ->
        mem_get (memcpy_loop m' d s k) a = mem_get m' a).
      { induction k as [|k IH]; intros m' d s Ho; simpl; [done|].
        rewrite IH by lia. rewrite mem_get_insert. case_decide; [lia|done]. }
      apply Hout. lia.
    + intros _ Hov i Hi. rewrite memcpy_loop_get by lia.
      replace (_ && _) with true by lia. f_equal. lia.
  - destruct Hv as [_ Hv]. split_and!; [|done|done|done].
    split; [done|]. intros Hx. by apply Hv in Hx.
Qed.

Lemma copy_to_user_confined_witness :
  let m := store_bytes ∅ 1075838976 [7; 8; 9] in
  let '(rc, m') := copy_to_user m 4194304 1075838976 3 in
  rc = 0 /\ mem_get m' (4194304 + 2) = 9.
Proof.
  pose proof (copy_to_user_confined (store_bytes ∅ 1075838976 [7; 8; 9]) 4194304 1075838976 3
    ltac:(unfold is_u64; lia) ltac:(unfold is_u64; lia)) as H.
  assert (E : (copy_to_user (store_bytes ∅ 1075838976 [7; 8; 9]) 4194304 1075838976 3).1 = 0)
    by (vm_compute; reflexivity).
  cbv zeta. destruct (copy_to_user _ _ _ _) as [rc m']. simpl in E.
  split; [exact E|]. destruct H as (_ & _ & _ & H). rewrite H by lia. vm_compute. reflexivity.
Defined.

(** [copy_user_str] with a nonempty kernel buffer that does not overlap the
    user string: on success the buffer holds a terminated string, the user
    string cut to [maxlen - 1] characters, read entirely from the user window;
    it fails only if the pointer is outside the window or the string runs
    through the window's end. The bytes around the buffer are untouched. *)
Theorem copy_user_str_correct m dst src maxlen :
  is_u64 src -> 0 < maxlen -> 0 <= dst -> dst + maxlen < 2 ^ 64 ->
  dst + maxlen <= src \/ src + maxlen <= dst ->
  let u := mem_bytes m src (Z.to_nat maxlen) in
  let '(rc, m') := copy_user_str m dst src maxlen in
  (rc = 0 \/ rc = -1) /\
  (rc = 0 -> in_user src /\
   exists t, cstr (mem_bytes m' dst (Z.to_nat maxlen)) = Some t /\
     t = take (length t) u /\ src + Z.of_nat (length t) <= USER_VA_LIMIT /\
     (cstr u = Some t \/ (cstr u = None /\ length t = (Z.to_nat maxlen - 1)%nat))) /\
  (in_user src -> src + maxlen <= USER_VA_LIMIT -> rc = 0) /\
  (forall a, ~ (dst <= a < dst + maxlen) -> mem_get m' a = mem_get m a).
Proof.
  intros Hs Hm Hd Hdm Hov u. unfold copy_user_str, in_user.
  pose proof (user_ptr_valid_spec src 1 Hs ltac:(unfold is_u64; lia)) as Hv.
  destruct (user_ptr_valid src 1); simpl.
  2:{ split_and!; [by right|done| |done]. intros. exfalso. destruct Hv as [_ Hv].
      discriminate Hv. lia. }
  destruct Hv as [Hv _]. specialize (Hv eq_refl).
  pose proof (copy_loop_spec (Z.to_nat maxlen) m dst src ltac:(lia) ltac:(lia)) as HL.
  pose proof (fun a => copy_loop_frame (Z.to_nat maxlen) m dst src a) as HF.
  cbv zeta in HL. fold u in HL.
  assert (Hu : length u = Z.to_nat maxlen) by apply length_mem_bytes.
  destruct (copy_user_str_loop (Z.to_nat maxlen) m dst src) as [[rc|] m']; simpl in HF.
  - destruct HL as [(-> & t & Ht & Hb & ->)|(-> & Hb)].
    2:{ split_and!; [by right|done|lia|intros; apply HF; lia]. }
    split_and!; [by left| |done|intros; apply HF; lia].
    intros _. split; [lia|]. exists t. destruct (cstr_take_prefix u t Ht) as [Hl Htk].
    destruct (mem_bytes_store_prefix m dst (t ++ [0]) (Z.to_nat maxlen)) as [r ->];
      [rewrite length_app; simpl; lia|].
    rewrite <- app_assoc. simpl. split_and!; [|done|lia|by left].
    apply cstr_app_nul. by eapply cstr_no_nul.
  - destruct HL as (HFo & Hb & ->). rewrite !u64_small by (rewrite ?u64_small; unfold is_u64; lia).
    split_and!; [by left| |done|].
    2:{ intros a Ha. rewrite mem_get_insert. case_decide; [lia|]. apply HF. lia. }
    intros _. split; [lia|]. exists (take (Z.to_nat maxlen - 1) u).
    split_and!; [apply truncated_cstr; lia || done|rewrite length_take; f_equal; lia
      |rewrite length_take; lia|right; split; [by apply cstr_None_no_nul|rewrite length_take; lia]].
Qed.

Lemma copy_user_str_correct_witness :
  let m := store_bytes ∅ 5000000 [104; 105; 33; 0] in
  let '(rc, m') := copy_user_str m 1075838976 5000000 3 in
  (rc = 0 \/ rc = -1) /\ mem_bytes m' 1075838976 3 = [104; 105; 0].
Proof.
  pose proof (copy_user_str_correct (store_bytes ∅ 5000000 [104; 105; 33; 0]) 1075838976 5000000 3
    ltac:(unfold is_u64; lia) ltac:(lia) ltac:(lia) ltac:(lia) ltac:(lia)) as H.
  assert (E : mem_bytes (copy_user_str (store_bytes ∅ 5000000 [104; 105; 33; 0])
    1075838976 5000000 3).2 1075838976 3 = [104; 105; 0]) by (vm_compute; reflexivity).
  cbv zeta in *. destruct (copy_user_str _ _ _ _) as [rc m']. simpl in E.
  split; [exact (proj1 H)|exact E].
Defined.
