(* ===== verification/Path.v ===== *)
(** * Paths (kernel/syscall.c)

    The system calls bring every path into a canonical form before the filesystem
    sees it: absolute, without empty, [.] and [..] components, and with components
    short enough for the fixed buffers of fs.c. A C string is the list of its bytes
    before the terminator. *)

From S2P Require Import Prelude.

Abbreviation SLASH := 47 (only parsing).
Abbreviation DOT := 46 (only parsing).
Abbreviation INODE_NAME_MAX := 31%nat (only parsing).
Abbreviation MAX_PATH := 128%nat (only parsing).
Abbreviation MAX_COMPS := 16%nat (only parsing).

(** ** Definitions *)

Fixpoint skip_slashes (p : list Z) : list Z :=
  match p with
  | [] => []
  | c :: p' => if c =? SLASH then skip_slashes p' else p
  end.

(** One component: its first bytes, [n] of them are in the buffer already, and what
    follows it. *)
Fixpoint read_comp (n : nat) (p : list Z) : list Z * list Z :=
  match p with
  | [] => ([], [])
  | c :: p' =>
      if c =? SLASH then ([], p)
      else if (n <? INODE_NAME_MAX)%nat then let '(comp, rest) := read_comp (S n) p' in (c :: comp, rest)
      else read_comp n p'
  end.

(** The components, the last one the one added last; [None] if there are too many.
    Every round reads at least a byte, so that [fuel] is the length of the path. *)
Fixpoint norm_loop (fuel : nat) (p : list Z) (comps : list (list Z)) : option (list (list Z)) :=
  match fuel, p with
  | _, [] => Some comps
  | O, _ => None
  | S fuel, _ =>
      let '(comp, rest) := read_comp 0 p in
      let rest := skip_slashes rest in
      if bool_decide (comp = []) || bool_decide (comp = [DOT]) then norm_loop fuel rest comps
      else if decide (comp = [DOT; DOT]) then norm_loop fuel rest (removelast comps)
      else if (MAX_COMPS <=? length comps)%nat then None
      else norm_loop fuel rest (comps ++ [comp])
  end.

Fixpoint join_loop (outsz : nat) (out : list Z) (comps : list (list Z)) : option (list Z) :=
  match comps with
  | [] => Some out
  | c :: comps =>
      if (outsz <=? length out + length c + 1)%nat then None
      else join_loop outsz ((if (1 <? length out)%nat then out ++ [SLASH] else out) ++ c) comps
  end.

Definition normalize_abs_path (inp : list Z) (outsz : nat) : option (list Z) :=
  if negb (bool_decide (head inp = Some SLASH)) || (outsz <? 2)%nat then None
  else
    match norm_loop (length inp) (skip_slashes inp) [] with
    | Some comps => join_loop outsz [SLASH] comps
    | None => None
    end.

(** [cwd] is the working directory of the task. *)
Definition resolve_path (cwd path_in : list Z) (outsz : nat) : option (list Z) :=
  if (outsz <? 2)%nat then None
  else if decide (head path_in = Some SLASH) then normalize_abs_path path_in outsz
  else if decide (cwd = [SLASH]) then normalize_abs_path (SLASH :: take (MAX_PATH - 2) path_in) outsz
  else
    let joined := take (MAX_PATH - 1) cwd in
    if (MAX_PATH <=? length joined + 1)%nat then None
    else
      let joined := joined ++ [SLASH] in
      normalize_abs_path (joined ++ take (MAX_PATH - 1 - length joined) path_in) outsz.

(** ** Specification *)

(** The pieces of a path between its slashes. *)
Fixpoint pieces (p : list Z) : list (list Z) :=
  match p with
  | [] => [[]]
  | c :: p =>
      if c =? SLASH then [] :: pieces p
      else match pieces p with q :: qs => (c :: q) :: qs | [] => [[c]] end
  end.

Definition walk_piece (comps : option (list (list Z))) (q : list Z) : option (list (list Z)) :=
  cs ← comps;
  if bool_decide (q = []) || bool_decide (q = [DOT]) then Some cs
  else if decide (q = [DOT; DOT]) then Some (removelast cs)
  else if (MAX_COMPS <=? length cs)%nat then None
  else Some (cs ++ [take INODE_NAME_MAX q]).

(** The components a path names, from the root. *)
Definition path_comps (p : list Z) : option (list (list Z)) := foldl walk_piece (Some []) (pieces p).

(** The path that names components. *)
Definition path_of (cs : list (list Z)) : list Z :=
  match cs with
  | [] => [SLASH]
  | _ => concat (map (cons SLASH) cs)
  end.

(** A component the filesystem can store. *)
Definition good_comp (c : list Z) : Prop :=
  c <> [] /\ c <> [DOT] /\ c <> [DOT; DOT] /\ (length c <= INODE_NAME_MAX)%nat /\ Forall (fun x => x <> SLASH /\ x <> 0) c.

Definition canonical (cs : list (list Z)) : Prop := Forall good_comp cs /\ (length cs <= MAX_COMPS)%nat.

(** ** Pieces *)

Lemma pieces_nonempty p : pieces p <> [].
Proof. destruct p as [|c p]; simpl; [done|]. destruct (c =? SLASH); [done|]. by destruct (pieces p). Qed.

Lemma pieces_cons p : exists q qs, pieces p = q :: qs.
Proof. pose proof (pieces_nonempty p). destruct (pieces p) as [|q qs]; [done|]. by exists q, qs. Qed.

Lemma pieces_app c p : Forall (fun x => x <> SLASH) c -> pieces (c ++ SLASH :: p) = c :: pieces p.
Proof. induction 1 as [|x c Hx Hc IH]; [done|]. cbn [app pieces]. replace (x =? SLASH) with false by lia. by rewrite IH. Qed.

Lemma pieces_single c : Forall (fun x => x <> SLASH) c -> pieces c = [c].
Proof. induction 1 as [|x c Hx Hc IH]; [done|]. cbn [pieces]. replace (x =? SLASH) with false by lia. by rewrite IH. Qed.

Lemma pieces_good p : Forall (fun x => x <> 0) p -> Forall (Forall (fun x => x <> SLASH /\ x <> 0)) (pieces p).
Proof.
  induction 1 as [|c p Hc Hp IH]; simpl; [by repeat constructor|]. destruct (c =? SLASH) eqn:E; [by constructor|].
  destruct (pieces p) as [|q qs]; [repeat constructor; lia|]. inversion IH. constructor; [|done]. constructor; [lia|done].
Qed.

Lemma walk_None qs : foldl walk_piece None qs = None.
Proof. by induction qs. Qed.

Lemma walk_empty o qs : foldl walk_piece o ([] :: qs) = foldl walk_piece o qs.
Proof. cbn [foldl]. by destruct o. Qed.

(** Slashes add empty pieces only. *)
Lemma walk_skip o p : foldl walk_piece o (pieces (skip_slashes p)) = foldl walk_piece o (pieces p).
Proof.
  induction p as [|c p IH]; [done|]. cbn [skip_slashes pieces]. destruct (c =? SLASH) eqn:E; [|cbn [pieces]; by rewrite E].
  by rewrite walk_empty, IH.
Qed.

(** ** The loop *)

Lemma read_comp_spec n p :
  let '(comp, rest) := read_comp n p in
  exists q, Forall (fun x => x <> SLASH) q /\ comp = take (INODE_NAME_MAX - n) q /\ p = q ++ rest /\
    (rest = [] \/ exists r, rest = SLASH :: r).
Proof.
  revert n. induction p as [|c p IH]; intros n; cbn [read_comp]; [exists []; rewrite take_nil; auto|].
  destruct (c =? SLASH) eqn:E.
  { exists []. rewrite take_nil. split_and!; [done..|]. right. exists p. f_equal. lia. }
  destruct (n <? INODE_NAME_MAX)%nat eqn:En.
  - specialize (IH (S n)). destruct (read_comp (S n) p) as [comp rest]. destruct IH as (q & Hq & -> & -> & Hr).
    exists (c :: q). split_and!; [constructor; [lia|done]| |done|done].
    replace (INODE_NAME_MAX - n)%nat with (S (INODE_NAME_MAX - S n)) by lia. done.
  - specialize (IH n). destruct (read_comp n p) as [comp rest]. destruct IH as (q & Hq & -> & -> & Hr).
    exists (c :: q). replace (INODE_NAME_MAX - n)%nat with 0%nat by lia. split_and!; [constructor; [lia|done]|done..].
Qed.

Lemma take_short {A} n (q l : list A) : (length l < n)%nat -> take n q = l <-> q = l.
Proof.
  intros Hl. split; [|intros ->; apply take_ge; lia]. intros H.
  destruct (decide (length q <= n)%nat); [by rewrite take_ge in H|]. apply (f_equal length) in H. rewrite length_take in H. lia.
Qed.

Lemma skip_length p : (length (skip_slashes p) <= length p)%nat.
Proof. induction p as [|c p IH]; simpl; [lia|]. destruct (c =? SLASH); simpl; lia. Qed.

Lemma norm_loop_spec fuel p cs : (length p <= fuel)%nat -> norm_loop fuel p cs = foldl walk_piece (Some cs) (pieces p).
Proof.
  revert p cs. induction fuel as [|fuel IH]; intros p cs Hf; [by destruct p; [|simpl in Hf; lia]|].
  destruct p as [|c p]; [done|]. cbn [norm_loop]. pose proof (read_comp_spec 0 (c :: p)) as R.
  destruct (read_comp 0 (c :: p)) as [comp rest]. destruct R as (q & Hq & -> & Hp & Hr). cbv zeta.
  replace (INODE_NAME_MAX - 0)%nat with INODE_NAME_MAX by done.
  assert (Hlen : (length (skip_slashes rest) <= fuel)%nat).
  { apply (f_equal length) in Hp. rewrite length_app in Hp. simpl in Hp, Hf.
    destruct Hr as [->|[r ->]]; [simpl; lia|]. cbn [skip_slashes]. replace (SLASH =? SLASH) with true by done.
    pose proof (skip_length r). simpl in Hp. lia. }
  assert (Hw : foldl walk_piece (Some cs) (pieces (c :: p)) = foldl walk_piece (walk_piece (Some cs) q) (pieces (skip_slashes rest))).
  { rewrite Hp, walk_skip. destruct Hr as [->|[r ->]]; [rewrite app_nil_r, (pieces_single q Hq); cbn [foldl pieces]; by destruct (walk_piece (Some cs) q)|].
    rewrite (pieces_app q r Hq). cbn [foldl pieces]. by rewrite Z.eqb_refl, walk_empty. }
  rewrite Hw. cbn [walk_piece mbind option_bind].
  rewrite (bool_decide_ext (take INODE_NAME_MAX q = []) (q = [])) by (apply take_short; simpl; lia).
  rewrite (bool_decide_ext (take INODE_NAME_MAX q = [DOT]) (q = [DOT])) by (apply take_short; simpl; lia).
  destruct (_ || _); [by apply IH|].
  destruct (decide (take INODE_NAME_MAX q = [DOT; DOT])) as [D1|D1]; rewrite take_short in D1 by (simpl; lia).
  - rewrite decide_True by done. by apply IH.
  - rewrite decide_False by done. destruct (MAX_COMPS <=? length cs)%nat; [by rewrite walk_None|by apply IH].
Qed.

Lemma concat_slash_length c cs : (length (concat (map (cons SLASH) (c :: cs))) = S (length c) + length (concat (map (cons SLASH) cs)))%nat.
Proof. simpl. by rewrite length_app. Qed.

Lemma join_loop_spec outsz out cs :
  (1 < length out)%nat -> join_loop outsz out cs =
    (if bool_decide (cs = []) || (length out + length (concat (map (cons SLASH) cs)) <? outsz)%nat
     then Some (out ++ concat (map (cons SLASH) cs)) else None).
Proof.
  revert out. induction cs as [|c cs IH]; intros out Ho; cbn [join_loop]; [by rewrite app_nil_r|].
  rewrite (bool_decide_eq_false_2 (c :: cs = [])) by done. cbn [orb]. rewrite concat_slash_length.
  destruct (outsz <=? length out + length c + 1)%nat eqn:E; [by replace (_ <? outsz)%nat with false by lia|].
  replace (1 <? length out)%nat with true by lia. rewrite IH by (rewrite !length_app; simpl; lia).
  rewrite !length_app. cbn [length map concat]. rewrite <- !app_assoc. cbn [app].
  destruct cs as [|c2 cs]; [cbn [map concat length]; rewrite (bool_decide_eq_true_2 ([] = [])) by done; cbn [orb]; by replace (_ <? outsz)%nat with true by lia|].
  rewrite (bool_decide_eq_false_2 (c2 :: cs = [])) by done. cbn [orb].
  by replace (length out + 1 + length c + length (concat (map (cons SLASH) (c2 :: cs))))%nat with (length out + (S (length c) + length (concat (map (cons SLASH) (c2 :: cs)))))%nat by lia.
Qed.

Lemma join_spec outsz cs :
  (INODE_NAME_MAX + 3 <= outsz)%nat -> Forall (fun c => length c <= INODE_NAME_MAX)%nat cs -> Forall (fun c => c <> []) cs ->
  join_loop outsz [SLASH] cs = if (length (path_of cs) <? outsz)%nat then Some (path_of cs) else None.
Proof.
  intros Ho Hl Hn. destruct cs as [|c cs]; cbn [join_loop path_of length]; [by replace (1 <? outsz)%nat with true by lia|].
  inversion Hl. inversion Hn. replace (outsz <=? 1 + length c + 1)%nat with false by lia. cbn [app]. change (1 <? 1)%nat with false. cbv iota.
  assert (0 < length c)%nat by (destruct c; simpl; [done|lia]).
  rewrite join_loop_spec by (simpl; lia). cbn [map concat app length].
  rewrite length_app.
  destruct (bool_decide (cs = [])) eqn:E; [|done]. apply bool_decide_eq_true in E as ->. cbn [map concat length orb].
  destruct (_ <? outsz)%nat eqn:E; [done|]. apply Nat.ltb_ge in E. lia.
Qed.

(** ** Canonical paths *)

Lemma take_good q :
  Forall (fun x => x <> SLASH /\ x <> 0) q -> q <> [] -> q <> [DOT] -> q <> [DOT; DOT] -> good_comp (take INODE_NAME_MAX q).
Proof.
  intros Hq H1 H2 H3. unfold good_comp. rewrite !take_short by (simpl; lia). split_and!; try done; [|by apply Forall_take].
  rewrite length_take. lia.
Qed.

Lemma removelast_prefix {A} (l : list A) : removelast l `prefix_of` l.
Proof. induction l as [|x l IH]; [done|]. destruct l; [apply prefix_nil|]. cbn [removelast]. by apply prefix_cons. Qed.

Lemma canonical_prefix cs cs' : cs' `prefix_of` cs -> canonical cs -> canonical cs'.
Proof.
  intros [k ->] [H1 H2]. rewrite Forall_app in H1. rewrite length_app in H2. split; [apply H1|lia].
Qed.

Lemma walk_canonical qs cs cs' :
  Forall (Forall (fun x => x <> SLASH /\ x <> 0)) qs -> canonical cs -> foldl walk_piece (Some cs) qs = Some cs' -> canonical cs'.
Proof.
  intros Hq. revert cs. induction Hq as [|q qs Hq Hqs IH]; intros cs C H; [cbn [foldl] in H; by simplify_eq|].
  cbn [foldl walk_piece mbind option_bind] in H. destruct (_ || _) eqn:E1; [by apply (IH cs)|].
  apply orb_false_iff in E1 as [H1 H2]. apply bool_decide_eq_false in H1, H2.
  destruct (decide (q = [DOT; DOT])) as [D1|D1]; [apply (IH (removelast cs)); [by eapply canonical_prefix; [apply removelast_prefix|]|done]|].
  destruct (MAX_COMPS <=? length cs)%nat eqn:E2; [by rewrite walk_None in H|]. apply (IH (cs ++ [take INODE_NAME_MAX q])); [|done].
  destruct C as [C1 C2]. split; [apply Forall_app; split; [done|]; constructor; [by apply take_good|done]|].
  rewrite length_app. simpl. lia.
Qed.

Lemma path_comps_canonical p cs : Forall (fun x => x <> 0) p -> path_comps p = Some cs -> canonical cs.
Proof. intros Hp. apply walk_canonical; [by apply pieces_good|]. split; [done|simpl; lia]. Qed.

Lemma good_comp_no_slash c : good_comp c -> Forall (fun x => x <> SLASH) c.
Proof. intros (_ & _ & _ & _ & H). eapply Forall_impl; [exact H|]. by intros x []. Qed.

Lemma pieces_path cs : Forall good_comp cs -> cs <> [] -> pieces (concat (map (cons SLASH) cs)) = [] :: cs.
Proof.
  induction 1 as [|c cs Hc Hcs IH]; [done|]. intros _. apply good_comp_no_slash in Hc. cbn [map concat app pieces]. rewrite Z.eqb_refl. f_equal.
  destruct cs as [|c2 cs]; [cbn [map concat]; rewrite app_nil_r; by apply pieces_single|]. specialize (IH ltac:(done)).
  cbn [map concat app] in *. rewrite (pieces_app c _ Hc). cbn [pieces] in IH. rewrite Z.eqb_refl in IH. injection IH as IH. by rewrite IH.
Qed.

Lemma walk_good cs0 cs : canonical (cs0 ++ cs) -> foldl walk_piece (Some cs0) cs = Some (cs0 ++ cs).
Proof.
  revert cs0. induction cs as [|c cs IH]; intros cs0 C; [by rewrite app_nil_r|].
  rewrite cons_middle, app_assoc in C. rewrite cons_middle, app_assoc, <- (IH _ C). cbn [foldl walk_piece mbind option_bind].
  destruct C as [C1 C2]. rewrite !Forall_app, Forall_singleton in C1. destruct C1 as [[_ Hg] _]. destruct Hg as (G1 & G2 & G3 & G4 & _).
  rewrite !bool_decide_eq_false_2 by done. cbn [orb]. rewrite decide_False by done.
  rewrite !length_app in C2. simpl in C2. replace (MAX_COMPS <=? length cs0)%nat with false by lia. by rewrite take_ge by done.
Qed.

(** A canonical path names its components. *)
Lemma path_comps_of cs : canonical cs -> path_comps (path_of cs) = Some cs.
Proof.
  intros C. unfold path_comps. destruct cs as [|c cs]; [done|]. cbn [path_of]. rewrite pieces_path by (apply C || done).
  rewrite walk_empty. apply (walk_good [] (c :: cs)). done.
Qed.

Lemma normalize_spec p outsz :
  Forall (fun x => x <> 0) p -> (INODE_NAME_MAX + 3 <= outsz)%nat ->
  normalize_abs_path p outsz =
    if decide (head p = Some SLASH) then
      cs ← path_comps p; if (length (path_of cs) <? outsz)%nat then Some (path_of cs) else None
    else None.
Proof.
  intros Hp Ho. unfold normalize_abs_path. destruct (decide (head p = Some SLASH)) as [Hh|Hh].
  2:{ by rewrite bool_decide_eq_false_2. }
  rewrite bool_decide_eq_true_2 by done. cbn [negb orb]. replace (outsz <? 2)%nat with false by lia.
  rewrite norm_loop_spec by apply skip_length. rewrite walk_skip. fold (path_comps p).
  destruct (path_comps p) as [cs|] eqn:E; [|done]. apply path_comps_canonical in E as [Hg _]; [|done]. cbn [mbind option_bind].
  apply join_spec; [done|..]; eapply Forall_impl; try exact Hg; by intros c (? & ? & ? & ? & ?).
Qed.

Lemma head_path_of cs : head (path_of cs) = Some SLASH.
Proof. by destruct cs. Qed.

Lemma path_of_nonzero cs : Forall good_comp cs -> Forall (fun x => x <> 0) (path_of cs).
Proof.
  intros H. destruct cs as [|c cs]; [by repeat constructor|]. cbn [path_of]. apply Forall_concat, Forall_map.
  eapply Forall_impl; [exact H|]. intros q (_ & _ & _ & _ & Hq). constructor; [done|]. eapply Forall_impl; [exact Hq|]. by intros x [].
Qed.

Lemma normalize_canonical p outsz out :
  Forall (fun x => x <> 0) p -> (INODE_NAME_MAX + 3 <= outsz)%nat -> normalize_abs_path p outsz = Some out ->
  exists cs, canonical cs /\ out = path_of cs /\ (length out < outsz)%nat.
Proof.
  intros Hp Ho. rewrite (normalize_spec p outsz Hp Ho). destruct (decide _); [|done].
  destruct (path_comps p) as [cs|] eqn:E; [|done]. cbn [mbind option_bind]. destruct (_ <? outsz)%nat eqn:El; [|done].
  intros [= <-]. exists cs. split_and!; [by apply (path_comps_canonical p)|done|lia].
Qed.

(** Every path that reaches the filesystem is canonical. *)
Lemma resolve_canonical cwd p outsz out :
  Forall (fun x => x <> 0) cwd -> Forall (fun x => x <> 0) p -> (INODE_NAME_MAX + 3 <= outsz)%nat -> resolve_path cwd p outsz = Some out ->
  exists cs, canonical cs /\ out = path_of cs /\ (length out < outsz)%nat.
Proof.
  intros Hc Hp Ho. unfold resolve_path. destruct (outsz <? 2)%nat; [done|].
  destruct (decide _); [by apply normalize_canonical|].
  destruct (decide _); [by apply normalize_canonical; [constructor; [done|by apply Forall_take]|]|].
  cbv zeta. destruct (_ <=? _)%nat; [done|]. apply normalize_canonical; [|done].
  rewrite !Forall_app. split_and!; [by apply Forall_take|by repeat constructor|by apply Forall_take].
Qed.

(** ** Properties *)

(** C40: a path the system calls pass on is canonical and means what the caller wrote.
    For every string, normalisation gives the path of the components that a walk over
    the pieces between the slashes visits: empty and [.] pieces stay, [..] goes to the
    parent and stays at the root, and the others are cut to 31 bytes. The result has
    at most 16 components, none of them [.] or [..], fits the caller's buffer with its
    terminator, and is not changed by normalising it again. It fails only for paths
    that do not start with a slash, are too deep or do not fit. *)
Theorem normalize_correct p outsz :
  Forall (fun x => x <> 0) p -> (INODE_NAME_MAX + 3 <= outsz)%nat ->
  match normalize_abs_path p outsz with
  | Some out => exists cs, path_comps p = Some cs /\ canonical cs /\ out = path_of cs /\ (length out < outsz)%nat /\
      normalize_abs_path out outsz = Some out
  | None => head p <> Some SLASH \/ match path_comps p with Some cs => (outsz <= length (path_of cs))%nat | None => True end
  end.
Proof.
  intros Hp Ho. rewrite (normalize_spec p outsz Hp Ho). destruct (decide (head p = Some SLASH)); [|by left].
  destruct (path_comps p) as [cs|] eqn:E; [|by right]. pose proof (path_comps_canonical p cs Hp E) as C. cbn [mbind option_bind].
  destruct (length (path_of cs) <? outsz)%nat eqn:El; [|right; lia]. exists cs. split_and!; try done; [lia|].
  rewrite (normalize_spec _ outsz (path_of_nonzero cs (proj1 C)) Ho), head_path_of, decide_True by done.
  rewrite (path_comps_of cs C). cbn [mbind option_bind]. by rewrite El.
Qed.

(** [/a/./b//../c] is [/a/c]. *)
Lemma normalize_correct_witness :
  normalize_abs_path [47; 97; 47; 46; 47; 98; 47; 47; 46; 46; 47; 99] MAX_PATH = Some (path_of [[97]; [99]]).
Proof.
  assert (Hp : Forall (fun x : Z => x <> 0) [47; 97; 47; 46; 47; 98; 47; 47; 46; 46; 47; 99]) by by repeat constructor.
  pose proof (normalize_correct _ MAX_PATH Hp ltac:(lia)) as H.
  destruct (normalize_abs_path _ _) as [out|]; [|by destruct H as [H|H]; [done|vm_compute in H; lia]].
  destruct H as (cs & Hc & _ & -> & _). vm_compute in Hc. injection Hc as <-. reflexivity.
Defined.
