(* ===== verification/Inode.v ===== *)
(** * Inodes and device kinds (include/fs.h, include/nvme.h)

    An [inode_t *] is the address of the object, [None] the null pointer; the
    objects themselves are kept in a finite map from addresses, since the
    kernel shares and mutates them through pointers. *)

From S2P Require Import Prelude.

(** [INODE_UNUSED] is the zero of a cleared slot. *)
Inductive inode_type := INODE_UNUSED | INODE_DIR | INODE_FILE | INODE_DEV.
Inductive fs_kind_t := FS_KIND_MEM | FS_KIND_EXT4.

#[global] Instance inode_type_eq_dec : EqDecision inode_type.
Proof. solve_decision. Defined.
#[global] Instance fs_kind_eq_dec : EqDecision fs_kind_t.
Proof. solve_decision. Defined.

(** [dev_kind_t] is an enumeration used arithmetically, so it is its number. *)
Abbreviation DEV_NONE := 0 (only parsing).
Abbreviation DEV_NULL := 1 (only parsing).
Abbreviation DEV_ZERO := 2 (only parsing).
Abbreviation DEV_TTY := 3 (only parsing).
Abbreviation DEV_VDA := 4 (only parsing).
Abbreviation DEV_SDA := 5 (only parsing).
Abbreviation DEV_SDH := 12 (only parsing).
Abbreviation DEV_NVME_BASE := 13 (only parsing).
Abbreviation NVME_MAX_CONTROLLERS := 8 (only parsing).
Abbreviation NVME_MAX_NAMESPACES := 8 (only parsing).
Abbreviation DEV_NVME_LAST := 76 (only parsing).
Abbreviation DEV_NET0 := 77 (only parsing).

Record inode := mk_inode {
  i_name : list Z;
  i_type : inode_type;
  i_fs_kind : fs_kind_t;
  i_fs_id : Z;
  i_fs_ino : Z;
  i_executable : bool;
  i_writable : bool;
  i_dev_kind : Z;
  i_dev_lba_start : Z;
  i_dev_lba_count : Z;
  i_parent : option Z;
  i_children : list Z;
  i_data : Z;
  i_size : Z;
  i_capacity : Z;
}.

(** A pointer to a slot that is not in the map points to zeros. *)
#[global] Instance inode_inhabited : Inhabited inode :=
  populate (mk_inode [] INODE_UNUSED FS_KIND_MEM 0 0 false false 0 0 0 None [] 0 0 0).

Definition inode_set_size (ino : inode) (sz : Z) : inode :=
  mk_inode (i_name ino) (i_type ino) (i_fs_kind ino) (i_fs_id ino) (i_fs_ino ino)
    (i_executable ino) (i_writable ino) (i_dev_kind ino) (i_dev_lba_start ino)
    (i_dev_lba_count ino) (i_parent ino) (i_children ino) (i_data ino) sz (i_capacity ino).

Definition inode_set_name (ino : inode) (n : list Z) : inode :=
  mk_inode n (i_type ino) (i_fs_kind ino) (i_fs_id ino) (i_fs_ino ino) (i_executable ino)
    (i_writable ino) (i_dev_kind ino) (i_dev_lba_start ino) (i_dev_lba_count ino) (i_parent ino)
    (i_children ino) (i_data ino) (i_size ino) (i_capacity ino).

Definition inode_set_parent (ino : inode) (p : option Z) : inode :=
  mk_inode (i_name ino) (i_type ino) (i_fs_kind ino) (i_fs_id ino) (i_fs_ino ino) (i_executable ino)
    (i_writable ino) (i_dev_kind ino) (i_dev_lba_start ino) (i_dev_lba_count ino) p (i_children ino)
    (i_data ino) (i_size ino) (i_capacity ino).

Definition inode_set_children (ino : inode) (cs : list Z) : inode :=
  mk_inode (i_name ino) (i_type ino) (i_fs_kind ino) (i_fs_id ino) (i_fs_ino ino) (i_executable ino)
    (i_writable ino) (i_dev_kind ino) (i_dev_lba_start ino) (i_dev_lba_count ino) (i_parent ino) cs
    (i_data ino) (i_size ino) (i_capacity ino).

Definition inode_set_modes (ino : inode) (executable writable : bool) : inode :=
  mk_inode (i_name ino) (i_type ino) (i_fs_kind ino) (i_fs_id ino) (i_fs_ino ino) executable
    writable (i_dev_kind ino) (i_dev_lba_start ino) (i_dev_lba_count ino) (i_parent ino) (i_children
    ino) (i_data ino) (i_size ino) (i_capacity ino).

Definition inode_set_dev (ino : inode) (kind lba_start lba_count : Z) : inode :=
  mk_inode (i_name ino) (i_type ino) (i_fs_kind ino) (i_fs_id ino) (i_fs_ino ino) (i_executable ino)
    (i_writable ino) kind lba_start lba_count (i_parent ino) (i_children ino) (i_data ino) (i_size
    ino) (i_capacity ino).

Definition inode_set_buffer (ino : inode) (data size capacity : Z) : inode :=
  mk_inode (i_name ino) (i_type ino) (i_fs_kind ino) (i_fs_id ino) (i_fs_ino ino) (i_executable ino)
    (i_writable ino) (i_dev_kind ino) (i_dev_lba_start ino) (i_dev_lba_count ino) (i_parent ino)
    (i_children ino) data size capacity.

Abbreviation inodes := (gmap Z inode) (only parsing).

(** ** Device kinds (kernel/fs.c)

    A SATA disk is its index above [DEV_SDA]; an NVMe namespace is encoded with
    its controller. Failure is a negative index or [None]. *)

Definition sata_index_for_kind (kind : Z) : Z :=
  if (kind <? DEV_SDA) || (DEV_SDH <? kind) then -1 else kind - DEV_SDA.

Definition nvme_kind_decode (kind : Z) : option (Z * Z) :=
  if (kind <? DEV_NVME_BASE) || (DEV_NVME_LAST <? kind) then None
  else
    let idx := u32 (kind - DEV_NVME_BASE) in
    let ctrl := idx / NVME_MAX_NAMESPACES in
    let nsid := idx mod NVME_MAX_NAMESPACES + 1 in
    if (NVME_MAX_CONTROLLERS <=? ctrl) || (nsid =? 0) || (NVME_MAX_NAMESPACES <? nsid) then None
    else Some (ctrl, nsid).

Definition nvme_kind_encode (ctrl nsid : Z) : Z :=
  if (NVME_MAX_CONTROLLERS <=? ctrl) || (nsid =? 0) || (NVME_MAX_NAMESPACES <? nsid) then DEV_NONE
  else DEV_NVME_BASE + (ctrl * NVME_MAX_NAMESPACES + (nsid - 1)).

Definition dev_kind_is_block (kind : Z) : bool :=
  (kind =? DEV_VDA) || (0 <=? sata_index_for_kind kind) ||
  match nvme_kind_decode kind with Some _ => true | None => false end.

Definition fs_is_block_dev (ino : inode) : bool :=
  bool_decide (i_type ino = INODE_DEV) && dev_kind_is_block (i_dev_kind ino).

(** Whether two inode pointers denote the same file: [pagecache_inode_same] of
    kernel/pagecache.c, and [task_inode_same_file] of kernel/task.c, which is
    the same code. *)
Definition pagecache_inode_same (ns : inodes) (a b : option Z) : bool :=
  if decide (a = b) then true
  else
    match a, b with
    | Some pa, Some pb =>
        let x := ns !!! pa in
        let y := ns !!! pb in
        if bool_decide (i_type x <> i_type y) || bool_decide (i_fs_kind x <> i_fs_kind y) then false
        else if decide (i_type x = INODE_DEV) then
          (i_dev_kind x =? i_dev_kind y) && (i_dev_lba_start x =? i_dev_lba_start y) &&
          (i_dev_lba_count x =? i_dev_lba_count y)
        else if bool_decide (i_fs_kind x = FS_KIND_EXT4) && negb (i_fs_id x =? 0) &&
                negb (i_fs_id y =? 0) && negb (i_fs_ino x =? 0) && negb (i_fs_ino y =? 0) then
          (i_fs_id x =? i_fs_id y) && (i_fs_ino x =? i_fs_ino y)
        else false
    | _, _ => false
    end.
