(* ===== verification/BlockCache.v ===== *)
(** * The block cache (kernel/block_cache.c)

    A write-back cache of 128 sectors in front of one partition of one block
    device. The device drivers are the interface [BlockDrivers]: the calls
    block_cache.c makes into virtio_blk.c, ahci.c and nvme.c, with [BlockDriversOk]
    stating what the cache relies on. The state contains the drivers' state [D].

    The theorems are about the view of the partition through the cache
    ([bc_view]): reads and writes act on it as on an array of sectors, evictions
    and failures lose nothing, and a successful flush makes it durable.

    A destination buffer is the list of bytes the call writes; every caller
    passes a non-null buffer, so the [!buf] tests have no counterpart. *)

From S2P Require Import Prelude KString Inode.

Abbreviation VIRTIO_BLK_SECTOR_SIZE := 512%nat (only parsing).
Abbreviation BLOCK_CACHE_LINES := 128%nat (only parsing).

(** ** The drivers' interface

    A transfer takes the caller's 512-byte buffer and gives the result code, the
    buffer afterwards and the drivers' new state. *)

Class BlockDrivers (D : Type) := {
  virtio_blk_ready : D -> bool;
  virtio_blk_rw_sector : Z -> list Z -> bool -> D -> Z * list Z * D;
  virtio_blk_flush : D -> Z * D;
  ahci_disk_present : Z -> D -> bool;
  ahci_rw_sector : Z -> Z -> list Z -> bool -> D -> Z * list Z * D;
  ahci_flush : Z -> D -> Z * D;
  nvme_ns_present : Z -> Z -> D -> bool;
  nvme_ns_rw_sector : Z -> Z -> Z -> list Z -> bool -> D -> Z * list Z * D;
  nvme_ns_flush : Z -> Z -> D -> Z * D;
}.

Section Backend.
Context {D : Type} `{!BlockDrivers D}.

Definition backend_ready (kind : Z) (d : D) : bool :=
  if kind =? DEV_VDA then virtio_blk_ready d
  else
    let sidx := sata_index_for_kind kind in
    if 0 <=? sidx then ahci_disk_present sidx d
    else
      match nvme_kind_decode kind with
      | Some (ctrl, nsid) => nvme_ns_present ctrl nsid d
      | None => false
      end.

Definition backend_rw (kind lba : Z) (buf : list Z) (write : bool) (d : D) : Z * list Z * D :=
  if kind =? DEV_VDA then virtio_blk_rw_sector lba buf write d
  else
    let sidx := sata_index_for_kind kind in
    if 0 <=? sidx then ahci_rw_sector sidx lba buf write d
    else
      match nvme_kind_decode kind with
      | Some (ctrl, nsid) => nvme_ns_rw_sector ctrl nsid lba buf write d
      | None => (-1, buf, d)
      end.

Definition backend_flush (kind : Z) (d : D) : Z * D :=
  if kind =? DEV_VDA then virtio_blk_flush d
  else
    let sidx := sata_index_for_kind kind in
    if 0 <=? sidx then ahci_flush sidx d
    else
      match nvme_kind_decode kind with
      | Some (ctrl, nsid) => nvme_ns_flush ctrl nsid d
      | None => (-1, d)
      end.

End Backend.

(** What the drivers promise: [sector d kind lba] is the content of a sector of
    a device. A transfer touches only its sector, a read changes none; a
    transfer that reports success has moved the 512 bytes, and a write leaves
    the caller's buffer alone. Nothing is said of the buffer of a failed read
    (see [failed_reads_keep_buffer]) nor of the sector of a failed write. *)
Class BlockDriversOk (D : Type) `{!BlockDrivers D} := {
  sector : D -> Z -> Z -> list Z;
  sector_length d kind lba : length (sector d kind lba) = VIRTIO_BLK_SECTOR_SIZE;
  rw_frame kind lba buf w d k' l' :
    (k', l') <> (kind, lba) ->
    sector (backend_rw kind lba buf w d).2 k' l' = sector d k' l';
  rw_read_keeps kind lba buf d :
    sector (backend_rw kind lba buf false d).2 kind lba = sector d kind lba;
  rw_read kind lba buf d :
    (backend_rw kind lba buf false d).1.1 = 0 ->
    (backend_rw kind lba buf false d).1.2 = sector d kind lba;
  rw_write kind lba buf d :
    length buf = VIRTIO_BLK_SECTOR_SIZE ->
    (backend_rw kind lba buf true d).1.1 = 0 ->
    sector (backend_rw kind lba buf true d).2 kind lba = buf;
  rw_write_buf kind lba buf d : (backend_rw kind lba buf true d).1.2 = buf;
  rw_buf_length kind lba buf w d :
    length buf = VIRTIO_BLK_SECTOR_SIZE ->
    length (backend_rw kind lba buf w d).1.2 = VIRTIO_BLK_SECTOR_SIZE;
  flush_keeps kind d k' l' : sector (backend_flush kind d).2 k' l' = sector d k' l';
}.

(** Drivers that read through a bounce buffer leave the caller's buffer alone
    when a read fails (nvme.c does; virtio_blk.c and ahci.c hand the caller's
    buffer to the device). *)
Class BouncedReads (D : Type) `{!BlockDrivers D} :=
  failed_reads_keep_buffer kind lba buf d :
    (backend_rw kind lba buf false d).1.1 <> 0 ->
    (backend_rw kind lba buf false d).1.2 = buf.

(** ** State *)

Record cache_line := mk_line {
  cl_valid : bool;
  cl_dirty : bool;
  cl_lba : Z;
  cl_last_use : Z;
  cl_data : list Z;
}.

Definition line_zero : cache_line := mk_line false false 0 0 (replicate VIRTIO_BLK_SECTOR_SIZE 0).

#[global] Instance cache_line_inhabited : Inhabited cache_line := populate line_zero.

Record bcache (D : Type) := mk_bcache {
  cache_lines : list cache_line;
  use_clock : Z;
  cache_ready_flag : bool;
  active_dev_kind : Z;
  active_lba_base : Z;
  active_lba_count : Z;
  selftest_done : bool;
  bc_dev : D;
}.

#[global] Arguments mk_bcache {D}.
#[global] Arguments cache_lines {D}.
#[global] Arguments use_clock {D}.
#[global] Arguments cache_ready_flag {D}.
#[global] Arguments active_dev_kind {D}.
#[global] Arguments active_lba_base {D}.
#[global] Arguments active_lba_count {D}.
#[global] Arguments selftest_done {D}.
#[global] Arguments bc_dev {D}.

Section Ops.
Context {D : Type} `{!BlockDrivers D}.
Implicit Types s : bcache D.

Definition bc_with_lines s ls : bcache D :=
  mk_bcache ls (use_clock s) (cache_ready_flag s) (active_dev_kind s) (active_lba_base s)
    (active_lba_count s) (selftest_done s) (bc_dev s).
Definition bc_with_clock s c : bcache D :=
  mk_bcache (cache_lines s) c (cache_ready_flag s) (active_dev_kind s) (active_lba_base s)
    (active_lba_count s) (selftest_done s) (bc_dev s).
Definition bc_with_dev s d : bcache D :=
  mk_bcache (cache_lines s) (use_clock s) (cache_ready_flag s) (active_dev_kind s)
    (active_lba_base s) (active_lba_count s) (selftest_done s) d.

Definition line_at s (i : nat) : cache_line := cache_lines s !!! i.
Definition set_line s (i : nat) (cl : cache_line) : bcache D :=
  bc_with_lines s (<[i := cl]> (cache_lines s)).

Definition line_touched (cl : cache_line) (t : Z) : cache_line :=
  mk_line (cl_valid cl) (cl_dirty cl) (cl_lba cl) t (cl_data cl).
Definition line_cleaned (cl : cache_line) : cache_line :=
  mk_line (cl_valid cl) false (cl_lba cl) (cl_last_use cl) (cl_data cl).
Definition line_with_data (cl : cache_line) (data : list Z) : cache_line :=
  mk_line (cl_valid cl) (cl_dirty cl) (cl_lba cl) (cl_last_use cl) data.

(** ** Operations *)

Definition cache_touch (i : nat) s : bcache D :=
  let c := u32 (use_clock s + 1) in
  let c := if c =? 0 then 1 else c in
  set_line (bc_with_clock s c) i (line_touched (line_at s i) c).

Definition cache_writeback_line (i : nat) s : Z * bcache D :=
  let cl := line_at s i in
  if negb (cl_valid cl) || negb (cl_dirty cl) then (0, s)
  else
    let '(rc, _, d) :=
      backend_rw (active_dev_kind s) (u64 (active_lba_base s + cl_lba cl)) (cl_data cl) true
        (bc_dev s) in
    let s := bc_with_dev s d in
    if negb (rc =? 0) then (-1, s)
    else (0, set_line s i (line_cleaned cl)).

Definition line_hit (lba : Z) (cl : cache_line) : bool := cl_valid cl && (cl_lba cl =? lba).

(** The first hit, touched. *)
Definition cache_find (lba : Z) s : option nat * bcache D :=
  match list_find (line_hit lba) (cache_lines s) with
  | Some (i, _) => (Some i, cache_touch i s)
  | None => (None, s)
  end.

Fixpoint select_victim_loop (ls : list cache_line) (i : nat) (best : option (nat * Z))
    : option nat :=
  match ls with
  | [] => fst <$> best
  | cl :: ls' =>
      if negb (cl_valid cl) then Some i
      else
        let best' :=
          match best with
          | None => Some (i, cl_last_use cl)
          | Some (_, u) => if cl_last_use cl <? u then Some (i, cl_last_use cl) else best
          end in
        select_victim_loop ls' (S i) best'
  end.

Definition cache_select_victim s : option nat := select_victim_loop (cache_lines s) 0 None.

Definition cache_get_load (lba : Z) s : option nat * bcache D :=
  match cache_find lba s with
  | (Some i, s) => (Some i, s)
  | (None, s) =>
      match cache_select_victim s with
      | None => (None, s)
      | Some v =>
          let '(rc, s) := cache_writeback_line v s in
          if negb (rc =? 0) then (None, s)
          else
            let '(rc, buf, d) :=
              backend_rw (active_dev_kind s) (u64 (active_lba_base s + lba)) (cl_data (line_at s v))
                false (bc_dev s) in
            let s := set_line (bc_with_dev s d) v (line_with_data (line_at s v) buf) in
            if negb (rc =? 0) then (None, s)
            else
              let s := set_line s v (mk_line true false lba (cl_last_use (line_at s v)) buf) in
              (Some v, cache_touch v s)
      end
  end.

Definition block_cache_init (d : D) : bcache D :=
  mk_bcache (replicate BLOCK_CACHE_LINES line_zero) 0 false DEV_NONE 0 0 false d.

Definition block_cache_ready s : bool :=
  cache_ready_flag s && negb (active_dev_kind s =? DEV_NONE) &&
  backend_ready (active_dev_kind s) (bc_dev s) && negb (active_lba_count s =? 0).

Definition block_cache_device s : Z := active_dev_kind s.

Definition block_cache_capacity_sectors s : Z :=
  if negb (block_cache_ready s) then 0 else active_lba_count s.

Definition bc_range_bad s (lba : Z) (count : nat) : bool :=
  (Z.of_nat count =? 0) || (active_lba_count s <=? lba) ||
  (active_lba_count s - lba <? Z.of_nat count).

(** The copy loops: [n] sectors left, the next one at [lba]. The bytes copied
    before a failure stay in the caller's buffer. *)
Fixpoint bc_read_loop (n : nat) (lba : Z) (acc : list Z) s : Z * list Z * bcache D :=
  match n with
  | O => (0, acc, s)
  | S n' =>
      match cache_get_load lba s with
      | (None, s) => (-1, acc, s)
      | (Some i, s) => bc_read_loop n' (u64 (lba + 1)) (acc ++ cl_data (line_at s i)) s
      end
  end.

Definition block_cache_read (lba : Z) (count : nat) s : Z * list Z * bcache D :=
  if negb (block_cache_ready s) then (-1, [], s)
  else if bc_range_bad s lba count then (-1, [], s)
  else bc_read_loop count lba [] s.

Fixpoint bc_write_loop (n : nat) (lba : Z) (inp : list Z) s : Z * bcache D :=
  match n with
  | O => (0, s)
  | S n' =>
      match cache_get_load lba s with
      | (None, s) => (-1, s)
      | (Some i, s) =>
          let cl := line_at s i in
          let s := set_line s i
                     (mk_line (cl_valid cl) true (cl_lba cl) (cl_last_use cl)
                        (take VIRTIO_BLK_SECTOR_SIZE inp)) in
          bc_write_loop n' (u64 (lba + 1)) (drop VIRTIO_BLK_SECTOR_SIZE inp) (cache_touch i s)
      end
  end.

Definition block_cache_write (lba : Z) (buf : list Z) (count : nat) s : Z * bcache D :=
  if negb (block_cache_ready s) then (-1, s)
  else if bc_range_bad s lba count then (-1, s)
  else bc_write_loop count lba buf s.

(** Lines [i], [i+1], ..., [i+n-1]. *)
Fixpoint bc_flush_loop (n i : nat) s : Z * bcache D :=
  match n with
  | O => (0, s)
  | S n' =>
      let '(rc, s) := cache_writeback_line i s in
      if negb (rc =? 0) then (-1, s) else bc_flush_loop n' (S i) s
  end.

Definition block_cache_flush s : Z * bcache D :=
  if negb (block_cache_ready s) then (-1, s)
  else
    let '(rc, s) := bc_flush_loop BLOCK_CACHE_LINES 0 s in
    if negb (rc =? 0) then (-1, s)
    else
      let '(rc, d) := backend_flush (active_dev_kind s) (bc_dev s) in
      let s := bc_with_dev s d in
      if negb (rc =? 0) then (-1, s) else (0, s).

Definition cache_selftest s : bool * bcache D :=
  let cap := active_lba_count s in
  if cap =? 0 then (false, s)
  else
    let '(rc, a, s) := block_cache_read 0 1 s in
    if negb (rc =? 0) then (false, s)
    else
      let '(rc, b, s) := block_cache_read 0 1 s in
      if negb (rc =? 0) then (false, s)
      else if negb (bool_decide (a = b)) then (false, s)
      else
        let '(rc, _, s) := block_cache_read cap 1 s in
        if rc =? 0 then (false, s) else (true, s).

Definition block_cache_attach_inode (ino : option inode) s : Z * bcache D :=
  match ino with
  | None => (-1, s)
  | Some inode =>
      if bool_decide (i_type inode <> INODE_DEV) then (-1, s)
      else
        let kind := i_dev_kind inode in
        let base := i_dev_lba_start inode in
        let cnt := i_dev_lba_count inode in
        if negb (backend_ready kind (bc_dev s)) || (cnt =? 0) then (-1, s)
        else if cache_ready_flag s && (active_dev_kind s =? kind) &&
                (active_lba_base s =? base) && (active_lba_count s =? cnt) then (0, s)
        else
          let s := if cache_ready_flag s then (block_cache_flush s).2 else s in
          let s := mk_bcache (replicate BLOCK_CACHE_LINES line_zero) 0 true kind base cnt
                     (selftest_done s) (bc_dev s) in
          if negb (selftest_done s) then
            let '(ok, s) := cache_selftest s in
            if negb ok then
              (-1, mk_bcache (cache_lines s) (use_clock s) false DEV_NONE 0 0 (selftest_done s)
                     (bc_dev s))
            else
              (0, mk_bcache (cache_lines s) (use_clock s) (cache_ready_flag s) (active_dev_kind s)
                    (active_lba_base s) (active_lba_count s) true (bc_dev s))
          else (0, s)
  end.

End Ops.

(** ** The view of the partition through the cache *)

Section View.
Context {D : Type} `{!BlockDrivers D, !BlockDriversOk D}.
Implicit Types s : bcache D.

Definition bc_sector s (lba : Z) : list Z :=
  sector (bc_dev s) (active_dev_kind s) (u64 (active_lba_base s + lba)).

Definition bc_view s (lba : Z) : list Z :=
  match list_find (line_hit lba) (cache_lines s) with
  | Some (_, cl) => cl_data cl
  | None => bc_sector s lba
  end.

Definition bc_same_geom s s' : Prop :=
  active_dev_kind s' = active_dev_kind s /\ active_lba_base s' = active_lba_base s /\
  active_lba_count s' = active_lba_count s /\ cache_ready_flag s' = cache_ready_flag s.

(** At most one valid line per sector, valid lines inside the partition, clean
    lines equal to the device. *)
Record bc_wf s : Prop := {
  wf_lines_len : length (cache_lines s) = BLOCK_CACHE_LINES;
  wf_geom : 0 <= active_lba_base s /\ 0 <= active_lba_count s /\
            active_lba_base s + active_lba_count s < 2 ^ 64;
  wf_data i cl : cache_lines s !! i = Some cl -> length (cl_data cl) = VIRTIO_BLK_SECTOR_SIZE;
  wf_range i cl : cache_lines s !! i = Some cl -> cl_valid cl = true ->
            0 <= cl_lba cl < active_lba_count s;
  wf_clean i cl : cache_lines s !! i = Some cl -> cl_valid cl = true -> cl_dirty cl = false ->
            cl_data cl = bc_sector s (cl_lba cl);
  wf_inj i j a b : cache_lines s !! i = Some a -> cache_lines s !! j = Some b ->
            cl_valid a = true -> cl_valid b = true -> cl_lba a = cl_lba b -> i = j;
}.

Lemma line_hit_true lba cl : line_hit lba cl = true <-> cl_valid cl = true /\ cl_lba cl = lba.
Proof. unfold line_hit. rewrite andb_true_iff, Z.eqb_eq. done. Qed.

Lemma view_hit s i cl :
  bc_wf s -> cache_lines s !! i = Some cl -> cl_valid cl = true ->
  bc_view s (cl_lba cl) = cl_data cl.
Proof.
  intros W Hi Hv. unfold bc_view.
  destruct (list_find _ _) as [[j cl']|] eqn:E.
  - apply list_find_Some in E as (Hj & Hp & _). apply Is_true_true, line_hit_true in Hp as [? ?].
    assert (i = j) as -> by (eapply (wf_inj s); eauto). congruence.
  - apply list_find_None in E. rewrite Forall_lookup in E.
    specialize (E _ _ Hi). destruct E. apply Is_true_true, line_hit_true. done.
Qed.

Lemma view_miss s lba :
  (forall i cl, cache_lines s !! i = Some cl -> cl_valid cl = true -> cl_lba cl <> lba) ->
  bc_view s lba = bc_sector s lba.
Proof.
  intros Hno. unfold bc_view. destruct (list_find _ _) as [[j cl']|] eqn:E; [|done].
  apply list_find_Some in E as (Hj & Hp & _). apply Is_true_true, line_hit_true in Hp as [? ?].
  edestruct Hno; eauto.
Qed.

Lemma view_cases s lba :
  (exists i cl, cache_lines s !! i = Some cl /\ cl_valid cl = true /\ cl_lba cl = lba) \/
  (forall i cl, cache_lines s !! i = Some cl -> cl_valid cl = true -> cl_lba cl <> lba).
Proof.
  destruct (list_find (line_hit lba) (cache_lines s)) as [[j cl]|] eqn:E.
  - apply list_find_Some in E as (Hj & Hp & _). apply Is_true_true, line_hit_true in Hp. eauto.
  - right. intros i cl Hi Hv Hl. apply list_find_None in E. rewrite Forall_lookup in E.
    apply (E _ _ Hi), Is_true_true, line_hit_true. done.
Qed.

Lemma view_length s lba : bc_wf s -> length (bc_view s lba) = VIRTIO_BLK_SECTOR_SIZE.
Proof.
  intros W. destruct (view_cases s lba) as [(i & cl & Hi & Hv & <-)|Hno].
  - rewrite (view_hit s i) by done. by eapply wf_data.
  - rewrite view_miss by done. apply sector_length.
Qed.

(** Distinct sectors of the partition are distinct sectors of the device. *)
Lemma dev_lba_inj s a b :
  bc_wf s -> 0 <= a < active_lba_count s -> 0 <= b < active_lba_count s -> a <> b ->
  u64 (active_lba_base s + a) <> u64 (active_lba_base s + b).
Proof.
  intros W Ha Hb Hne. pose proof (wf_geom s W).
  rewrite !u64_small by (unfold is_u64; lia). lia.
Qed.

(** A line replaced by one that serves the same sector with the same bytes, and
    a device that agrees on every sector the lines do not shadow. *)
Definition line_equiv (a b : cache_line) : Prop :=
  cl_valid a = cl_valid b /\ cl_lba a = cl_lba b /\ cl_data a = cl_data b.

Lemma set_line_at s i cl j :
  bc_wf s -> (i < BLOCK_CACHE_LINES)%nat ->
  cache_lines (set_line s i cl) !! j = if decide (i = j) then Some cl else cache_lines s !! j.
Proof.
  intros W Hi. simpl. case_decide as E.
  - subst. apply list_lookup_insert_eq. by rewrite (wf_lines_len s W).
  - by apply list_lookup_insert_ne.
Qed.

Lemma line_at_lookup s i :
  bc_wf s -> (i < BLOCK_CACHE_LINES)%nat -> cache_lines s !! i = Some (line_at s i).
Proof.
  intros W Hi. unfold line_at. apply list_lookup_lookup_total_lt. by rewrite (wf_lines_len s W).
Qed.

Lemma replace_line_wf s i cl d :
  bc_wf s -> (i < BLOCK_CACHE_LINES)%nat -> line_equiv cl (line_at s i) ->
  (forall j a, j <> i -> cache_lines s !! j = Some a -> cl_valid a = true ->
     bc_sector (bc_with_dev s d) (cl_lba a) = bc_sector s (cl_lba a)) ->
  (cl_valid cl = true -> cl_dirty cl = false ->
     cl_data cl = bc_sector (bc_with_dev s d) (cl_lba cl)) ->
  bc_wf (set_line (bc_with_dev s d) i cl).
Proof.
  intros W Hi (Ev & El & Ed) Hd Hc. pose proof (line_at_lookup s i W Hi) as Hl.
  assert (Hlk : forall j, cache_lines (set_line (bc_with_dev s d) i cl) !! j =
                     if decide (i = j) then Some cl else cache_lines s !! j)
    by (intros j; apply (set_line_at s i cl j W Hi)).
  constructor; try setoid_rewrite Hlk.
  - simpl. rewrite length_insert. apply W.
  - apply W.
  - intros j a. case_decide; intros; simplify_eq; [rewrite Ed|]; by eapply wf_data.
  - intros j a. case_decide; intros; simplify_eq; [rewrite El; rewrite Ev in *|];
      by eapply (wf_range s W).
  - intros j a. case_decide; intros; simplify_eq; [by apply Hc|].
    rewrite (wf_clean s W j a) by done. symmetry. eapply Hd; eauto.
  - intros j k a b. repeat case_decide; intros; simplify_eq; try done;
      rewrite ?Ev, ?El in *; eapply (wf_inj s W); eauto.
Qed.

Lemma replace_line_view s i cl d lba :
  bc_wf s -> bc_wf (set_line (bc_with_dev s d) i cl) ->
  (i < BLOCK_CACHE_LINES)%nat -> line_equiv cl (line_at s i) ->
  ((cl_valid cl = true -> cl_lba cl <> lba) ->
     bc_sector (bc_with_dev s d) lba = bc_sector s lba) ->
  bc_view (set_line (bc_with_dev s d) i cl) lba = bc_view s lba.
Proof.
  intros W W' Hi (Ev & El & Ed) Hd. pose proof (line_at_lookup s i W Hi) as Hl.
  assert (Hlk : forall j, cache_lines (set_line (bc_with_dev s d) i cl) !! j =
                     if decide (i = j) then Some cl else cache_lines s !! j)
    by (intros j; apply (set_line_at s i cl j W Hi)).
  destruct (view_cases s lba) as [(j & a & Hj & Hv & <-)|Hno].
  - rewrite (view_hit s j a) by done. specialize (Hlk j). case_decide as E; simplify_eq.
    + rewrite <- El, (view_hit _ j cl W' Hlk); congruence.
    + rewrite Hj in Hlk. exact (view_hit _ j a W' Hlk Hv).
  - rewrite (view_miss s lba Hno). rewrite view_miss.
    + change (bc_sector (bc_with_dev s d) lba = bc_sector s lba). apply Hd.
      rewrite Ev, El. eauto.
    + intros j a. rewrite Hlk. case_decide; [intros [= <-]|]; [rewrite Ev, El|]; eauto.
Qed.

Lemma bc_with_dev_same s : bc_with_dev s (bc_dev s) = s.
Proof. by destruct s. Qed.

(** ** Each step preserves the invariant and the view *)

Definition bc_keeps s s' : Prop :=
  bc_wf s' /\ bc_same_geom s s' /\
  forall lba, 0 <= lba < active_lba_count s -> bc_view s' lba = bc_view s lba.

Lemma same_geom_trans s1 s2 s3 : bc_same_geom s1 s2 -> bc_same_geom s2 s3 -> bc_same_geom s1 s3.
Proof. intros (?&?&?&?) (?&?&?&?). split_and!; congruence. Qed.

Lemma bc_keeps_refl s : bc_wf s -> bc_keeps s s.
Proof. intros W. split; [done|]. by split. Qed.

Lemma bc_keeps_trans s1 s2 s3 : bc_keeps s1 s2 -> bc_keeps s2 s3 -> bc_keeps s1 s3.
Proof.
  unfold bc_keeps, bc_same_geom. intros (?&(?&?&?&?)&V1) (?&(?&?&?&?)&V2).
  split_and!; try congruence. intros l Hl. rewrite V2, V1; [done|lia|congruence].
Qed.

Lemma touch_keeps s i : bc_wf s -> (i < BLOCK_CACHE_LINES)%nat -> bc_keeps s (cache_touch i s).
Proof.
  intros W Hi. unfold cache_touch. cbv zeta.
  match goal with |- context [line_touched _ ?t] => generalize t; intros c end.
  set (cl := line_touched (line_at s i) c).
  assert (W1 : bc_wf (set_line (bc_with_dev s (bc_dev s)) i cl)).
  { apply replace_line_wf; try done. rewrite bc_with_dev_same. simpl.
    intros. apply (wf_clean s W i); [by apply line_at_lookup|done..]. }
  split_and!.
  - destruct W1 as [A B C' E F G]. by constructor.
  - done.
  - intros lba _. transitivity (bc_view (set_line (bc_with_dev s (bc_dev s)) i cl) lba).
    + by destruct s.
    + by apply replace_line_view.
Qed.
Lemma wb_sector_other s i d rc buf lba :
  bc_wf s -> (i < BLOCK_CACHE_LINES)%nat -> cl_valid (line_at s i) = true ->
  backend_rw (active_dev_kind s) (u64 (active_lba_base s + cl_lba (line_at s i)))
    (cl_data (line_at s i)) true (bc_dev s) = (rc, buf, d) ->
  0 <= lba < active_lba_count s -> lba <> cl_lba (line_at s i) ->
  bc_sector (bc_with_dev s d) lba = bc_sector s lba.
Proof.
  intros W Hi Hv Hrw Hr Hne. unfold bc_sector. simpl.
  change d with (rc, buf, d).2. rewrite <- Hrw. apply rw_frame. intros [= E].
  revert E. apply dev_lba_inj; try done.
  eapply (wf_range s W); [by apply line_at_lookup|done].
Qed.

Lemma writeback_keeps s i :
  bc_wf s -> (i < BLOCK_CACHE_LINES)%nat ->
  let '(rc, s') := cache_writeback_line i s in
  bc_keeps s s' /\ line_equiv (line_at s' i) (line_at s i) /\
  (forall j, j <> i -> cache_lines s' !! j = cache_lines s !! j) /\
  (rc = 0 -> cl_valid (line_at s' i) = true -> cl_dirty (line_at s' i) = false).
Proof.
  intros W Hi. unfold cache_writeback_line. set (cl := line_at s i).
  pose proof (line_at_lookup s i W Hi) as Hl. fold cl in Hl.
  destruct (negb (cl_valid cl) || negb (cl_dirty cl)) eqn:Eg.
  { split; [by apply bc_keeps_refl|]. split; [done|]. split; [done|].
    fold cl. intros _ Hv. rewrite Hv in Eg. by destruct (cl_dirty cl). }
  bool_hyps.
  destruct (backend_rw _ _ _ _ _) as [[rc buf] d] eqn:Hrw.
  pose proof (fun lba => wb_sector_other s i d rc buf lba W Hi ltac:(done) Hrw) as Hoth.
  assert (Hoth' : forall j a, j <> i -> cache_lines s !! j = Some a -> cl_valid a = true ->
            bc_sector (bc_with_dev s d) (cl_lba a) = bc_sector s (cl_lba a)).
  { intros j a Hj Ha Hva. apply Hoth; [by eapply (wf_range s W)|].
    intros E. apply Hj. by eapply (wf_inj s W). }
  destruct (negb (rc =? 0)) eqn:Erc; bool_hyps.
  - assert (Es : bc_with_dev s d = set_line (bc_with_dev s d) i cl).
    { unfold set_line, bc_with_lines. simpl. rewrite list_insert_id by done. done. }
    assert (W' : bc_wf (bc_with_dev s d)).
    { rewrite Es. apply replace_line_wf; try done. congruence. }
    split; [|by split_and!]. split; [done|]. split; [done|]. intros lba Hr. rewrite Es.
    apply replace_line_view; try done; [by rewrite <- Es|]. intros Hne. apply Hoth; [done|]. naive_solver.
  - subst rc.
    assert (W' : bc_wf (set_line (bc_with_dev s d) i (line_cleaned cl))).
    { apply replace_line_wf; try done. intros _ _. unfold bc_sector. simpl.
      change d with (0, buf, d).2. rewrite <- Hrw. rewrite rw_write; [done| |by rewrite Hrw].
      by eapply (wf_data s W). }
    assert (Hat : line_at (set_line (bc_with_dev s d) i (line_cleaned cl)) i = line_cleaned cl).
    { unfold line_at. simpl. apply list_lookup_total_insert_eq. by rewrite (wf_lines_len s W). }
    split; [|split_and!].
    + split; [done|]. split; [done|]. intros lba Hr. apply replace_line_view; try done.
      intros Hne. apply Hoth; [done|]. simpl in Hne. naive_solver.
    + by rewrite Hat.
    + intros j Hj. simpl. by apply list_lookup_insert_ne.
    + intros _ _. by rewrite Hat.
Qed.

Lemma select_victim_lt ls i best v :
  select_victim_loop ls i best = Some v ->
  (forall b u, best = Some (b, u) -> (b < i)%nat) -> (v < i + length ls)%nat.
Proof.
  revert i best. induction ls as [|cl ls IH]; intros i best; simpl.
  - destruct best as [[b u]|]; simpl; intros [= <-] Hb. specialize (Hb _ _ eq_refl). lia.
  - destruct (negb _); [intros [= <-]; lia|]. intros Hs Hb.
    apply IH in Hs; [lia|]. destruct best as [[b0 u0]|].
    + specialize (Hb _ _ eq_refl). intros b u. destruct (_ <? _); intros [= <- <-]; lia.
    + intros b u [= <- <-]. lia.
Qed.

Lemma victim_lt s v : bc_wf s -> cache_select_victim s = Some v -> (v < BLOCK_CACHE_LINES)%nat.
Proof.
  intros W Hv. apply select_victim_lt in Hv; [|done]. by rewrite (wf_lines_len s W) in Hv.
Qed.

Lemma dev_read_sectors kind lba buf d k' l' :
  sector (backend_rw kind lba buf false d).2 k' l' = sector d k' l'.
Proof.
  destruct (decide ((k', l') = (kind, lba))) as [[= -> ->]|Hne].
  - apply rw_read_keeps.
  - by apply rw_frame.
Qed.

End View.

(** ** Loads, reads, writes and flushes *)

Section Refinement.
Context {D : Type} `{!BlockDrivers D, !BlockDriversOk D, !BouncedReads D}.
Implicit Types s : bcache D.

(** Filling a clean (or free) line [v] with a sector no line holds. *)
Lemma load_line_keeps s v lba d u :
  bc_wf s -> (v < BLOCK_CACHE_LINES)%nat -> 0 <= lba < active_lba_count s ->
  (forall i cl, cache_lines s !! i = Some cl -> cl_valid cl = true -> cl_lba cl <> lba) ->
  (cl_valid (line_at s v) = true -> cl_dirty (line_at s v) = false) ->
  (forall k l, sector d k l = sector (bc_dev s) k l) ->
  bc_keeps s (set_line (bc_with_dev s d) v (mk_line true false lba u (bc_sector s lba))).
Proof.
  intros W Hv Hr Hno Hcl Hd. set (cl := mk_line _ _ _ _ _).
  assert (Hlk : forall j, cache_lines (set_line (bc_with_dev s d) v cl) !! j =
                     if decide (v = j) then Some cl else cache_lines s !! j)
    by (intros j; apply (set_line_at s v cl j W Hv)).
  assert (Hs : forall l, bc_sector (set_line (bc_with_dev s d) v cl) l = bc_sector s l)
    by (intros l; apply Hd).
  assert (W' : bc_wf (set_line (bc_with_dev s d) v cl)).
  { constructor; try setoid_rewrite Hlk.
    - simpl. rewrite length_insert. apply W.
    - apply W.
    - intros j a. case_decide; intros; simplify_eq; [apply sector_length|by eapply wf_data].
    - intros j a. case_decide; intros; simplify_eq; [done|by eapply (wf_range s W)].
    - intros j a. rewrite Hs. case_decide; intros; simplify_eq; [done|by eapply (wf_clean s W)].
    - intros j k a b. repeat case_decide; intros; simplify_eq; try done; simpl in *.
      + edestruct Hno; eauto.
      + edestruct Hno; eauto.
      + eapply (wf_inj s W); eauto. }
  split; [done|]. split; [done|]. intros l Hl.
  destruct (decide (l = lba)) as [->|Hne].
  { specialize (Hlk v). rewrite decide_True in Hlk by done.
    rewrite (view_miss s lba Hno). exact (view_hit _ v cl W' Hlk eq_refl). }
  destruct (view_cases s l) as [(j & a & Hj & Hva & <-)|Hno'].
  - rewrite (view_hit s j a) by done. destruct (decide (v = j)) as [<-|Hvj].
    + pose proof (line_at_lookup s v W Hv) as Hat. simplify_eq.
      rewrite (wf_clean s W v (line_at s v)) by eauto. rewrite <- Hs. apply view_miss.
      intros k b. rewrite Hlk. case_decide; [intros [= <-] _; simpl; congruence|].
      intros Hk Hvb E. assert (k = v) by (eapply (wf_inj s W); eauto). congruence.
    + specialize (Hlk j). rewrite decide_False, Hj in Hlk by done.
      exact (view_hit _ j a W' Hlk Hva).
  - rewrite (view_miss s l Hno'), <- Hs. apply view_miss. intros j a. rewrite Hlk.
    case_decide; [intros [= <-] _; simpl; congruence|eauto].
Qed.

Lemma find_hit s lba i s' :
  bc_wf s -> cache_find lba s = (Some i, s') ->
  bc_keeps s s' /\ (i < BLOCK_CACHE_LINES)%nat /\ line_hit lba (line_at s' i) = true.
Proof.
  intros W. unfold cache_find. destruct (list_find _ _) as [[j cl]|] eqn:E; [|done].
  intros [= <- <-]. apply list_find_Some in E as (Hj & Hp & _).
  assert (Hlt : (j < BLOCK_CACHE_LINES)%nat).
  { apply lookup_lt_Some in Hj. by rewrite (wf_lines_len s W) in Hj. }
  split; [by apply touch_keeps|]. split; [done|].
  unfold cache_touch, line_at. simpl. rewrite list_lookup_total_insert_eq by
    (by rewrite (wf_lines_len s W)).
  rewrite (list_lookup_total_correct _ _ _ Hj). apply Is_true_true in Hp. exact Hp.
Qed.

Lemma find_miss s lba s' :
  cache_find lba s = (None, s') ->
  s' = s /\ forall i cl, cache_lines s !! i = Some cl -> cl_valid cl = true -> cl_lba cl <> lba.
Proof.
  unfold cache_find. destruct (list_find _ _) as [[j cl]|] eqn:E; [done|].
  intros [= <-]. split; [done|]. apply list_find_None in E. rewrite Forall_lookup in E.
  intros i cl Hi Hv Hl. apply (E _ _ Hi), Is_true_true, line_hit_true. done.
Qed.

Lemma writeback_misses s v rc s' lba :
  bc_wf s -> (v < BLOCK_CACHE_LINES)%nat -> cache_writeback_line v s = (rc, s') ->
  (forall i cl, cache_lines s !! i = Some cl -> cl_valid cl = true -> cl_lba cl <> lba) ->
  forall i cl, cache_lines s' !! i = Some cl -> cl_valid cl = true -> cl_lba cl <> lba.
Proof.
  intros W Hv E Hno i cl Hi Hcv. pose proof (writeback_keeps s v W Hv) as H. rewrite E in H.
  destruct H as ((W' & _) & (Ev & El & _) & Hoth & _).
  destruct (decide (i = v)) as [->|Hne].
  - rewrite (line_at_lookup s' v W' Hv) in Hi. injection Hi as <-.
    rewrite El. rewrite Ev in Hcv. eapply Hno; [by apply line_at_lookup|done].
  - rewrite Hoth in Hi by done. eauto.
Qed.

Lemma get_load_spec s lba r s' :
  bc_wf s -> 0 <= lba < active_lba_count s -> cache_get_load lba s = (r, s') ->
  bc_keeps s s' /\
  forall i, r = Some i -> (i < BLOCK_CACHE_LINES)%nat /\ line_hit lba (line_at s' i) = true.
Proof.
  intros W Hr. unfold cache_get_load. destruct (cache_find lba s) as [[i|] s1] eqn:Ef.
  { intros [= <- <-]. apply find_hit in Ef as (? & ? & ?); [|done]. split; [done|].
    by intros ? [= <-]. }
  apply find_miss in Ef as [-> Hno].
  destruct (cache_select_victim s) as [v|] eqn:Ev; [|intros [= <- <-]; split; [by apply bc_keeps_refl|done]].
  apply victim_lt in Ev; [|done]. rename Ev into Hv.
  destruct (cache_writeback_line v s) as [rc s1] eqn:Ew.
  pose proof (writeback_misses s v rc s1 lba W Hv Ew Hno) as Hno1.
  pose proof (writeback_keeps s v W Hv) as Hw. rewrite Ew in Hw.
  destruct Hw as (K1 & _ & _ & Hclean).
  destruct (negb (rc =? 0)) eqn:Erc; bool_hyps; [intros [= <- <-]; by split|]. subst rc.
  assert (W1 : bc_wf s1) by apply K1.
  assert (Hr1 : 0 <= lba < active_lba_count s1).
  { destruct K1 as (_ & (_ & _ & -> & _) & _). done. }
  destruct (backend_rw _ _ _ _ _) as [[rc buf] d] eqn:Hrw.
  assert (Hd : forall k l, sector d k l = sector (bc_dev s1) k l).
  { intros k l. change d with (rc, buf, d).2. rewrite <- Hrw. apply dev_read_sectors. }
  destruct (negb (rc =? 0)) eqn:Erc; bool_hyps.
  - intros [= <- <-]. split; [|done]. eapply bc_keeps_trans; [exact K1|].
    assert (buf = cl_data (line_at s1 v)) as ->.
    { change buf with (rc, buf, d).1.2. rewrite <- Hrw. apply failed_reads_keep_buffer.
      by rewrite Hrw. }
    assert (WW : bc_wf (set_line (bc_with_dev s1 d) v
                   (line_with_data (line_at s1 v) (cl_data (line_at s1 v))))).
    { apply replace_line_wf; try done; [intros; apply Hd|]. simpl. intros ? ?.
      transitivity (bc_sector s1 (cl_lba (line_at s1 v))); [|symmetry; apply Hd].
      apply (wf_clean s1 W1 v); [by apply line_at_lookup|done..]. }
    split; [done|]. split; [done|]. intros l Hl. apply replace_line_view; try done.
    intros _. apply Hd.
  - subst rc. intros [= <- <-].
    assert (buf = bc_sector s1 lba) as ->.
    { change buf with (0, buf, d).1.2. rewrite <- Hrw. apply rw_read. by rewrite Hrw. }
    set (u := cl_last_use _).
    assert (K2 := load_line_keeps s1 v lba d u W1 Hv Hr1 Hno1 (Hclean eq_refl) Hd).
    assert (Heq : forall a b, set_line (set_line (bc_with_dev s1 d) v a) v b
                  = set_line (bc_with_dev s1 d) v b).
    { intros a b. unfold set_line, bc_with_lines. simpl. by rewrite list_insert_insert_eq. }
    rewrite Heq. set (s2 := set_line (bc_with_dev s1 d) v _) in *.
    split.
    + eapply bc_keeps_trans; [exact K1|]. eapply bc_keeps_trans; [exact K2|].
      apply touch_keeps; [apply K2|done].
    + intros i [= <-]. split; [done|]. unfold cache_touch, line_at. simpl.
      rewrite !list_lookup_total_insert_eq; [by apply line_hit_true|..];
        rewrite ?length_insert; by rewrite (wf_lines_len s1 W1).
Qed.

(** [n] sectors of a view from [lba] on, and a view with [n] sectors
    overwritten. *)
Definition view_bytes (v : Z -> list Z) (lba : Z) (n : nat) : list Z :=
  concat ((fun i => v (lba + Z.of_nat i)) <$> seq 0 n).

Definition view_write (v : Z -> list Z) (lba : Z) (bytes : list Z) (n : nat) (l : Z) : list Z :=
  if (lba <=? l) && (l <? lba + Z.of_nat n) then
    take VIRTIO_BLK_SECTOR_SIZE (drop (VIRTIO_BLK_SECTOR_SIZE * Z.to_nat (l - lba)) bytes)
  else v l.

Lemma view_bytes_S v lba n : view_bytes v lba (S n) = v lba ++ view_bytes v (lba + 1) n.
Proof.
  unfold view_bytes. simpl. rewrite Z.add_0_r. f_equal. f_equal.
  rewrite <- fmap_S_seq, <- list_fmap_compose. apply list_fmap_ext. intros ? i ?. simpl. f_equal. lia.
Qed.

Lemma view_bytes_ext v w lba n :
  (forall l, lba <= l < lba + Z.of_nat n -> v l = w l) -> view_bytes v lba n = view_bytes w lba n.
Proof.
  intros H. unfold view_bytes. f_equal. apply list_fmap_ext. intros ? i Hi.
  apply list_elem_of_lookup_2, elem_of_seq in Hi. apply H. lia.
Qed.

(** The line [cache_get_load] returns holds the sector as the view shows it. *)
Lemma hit_line_data s lba i :
  bc_wf s -> (i < BLOCK_CACHE_LINES)%nat -> line_hit lba (line_at s i) = true ->
  cl_data (line_at s i) = bc_view s lba.
Proof.
  intros W Hi Hh. apply line_hit_true in Hh as [? <-]. symmetry. apply (view_hit s i); try done.
  by apply line_at_lookup.
Qed.

Lemma read_loop_spec n lba acc s rc out s' :
  bc_wf s -> 0 <= lba -> lba + Z.of_nat n <= active_lba_count s ->
  bc_read_loop n lba acc s = (rc, out, s') ->
  bc_keeps s s' /\ (rc = 0 \/ rc = -1) /\ (rc = 0 -> out = acc ++ view_bytes (bc_view s) lba n).
Proof.
  revert lba acc s. induction n as [|n IH]; intros lba acc s W Hl Hc; simpl.
  { intros [= <- <- <-]. split; [by apply bc_keeps_refl|]. split; [by left|].
    intros _. by rewrite app_nil_r. }
  destruct (cache_get_load lba s) as [[i|] s1] eqn:Eg;
    apply get_load_spec in Eg as [K1 Hi]; try done; try lia.
  - intros E. destruct (Hi i eq_refl) as [Hlt Hhit].
    pose proof (wf_geom s W). destruct K1 as (W1 & G1 & V1).
    assert (Ec : active_lba_count s1 = active_lba_count s) by apply G1.
    rewrite (u64_small (lba + 1)) in E by (unfold is_u64; lia).
    apply IH in E as (K2 & Hrc & Hout); [|done|lia|lia]. split.
    { eapply bc_keeps_trans; [|exact K2]. done. }
    split; [done|]. intros H0. rewrite (Hout H0), view_bytes_S, <- app_assoc. f_equal.
    rewrite (hit_line_data s1 lba i W1 Hlt Hhit), V1 by lia. f_equal.
    apply view_bytes_ext. intros l Hr. apply V1. lia.
  - intros [= <- <- <-]. split; [done|]. split; [by right|done].
Qed.

(** Overwriting a line that holds [lba]. *)
Lemma write_line_spec s i lba data :
  bc_wf s -> (i < BLOCK_CACHE_LINES)%nat -> line_hit lba (line_at s i) = true ->
  length data = VIRTIO_BLK_SECTOR_SIZE ->
  let cl := line_at s i in
  let s' := set_line s i (mk_line (cl_valid cl) true (cl_lba cl) (cl_last_use cl) data) in
  bc_wf s' /\ bc_same_geom s s' /\
  forall l, bc_view s' l = if decide (l = lba) then data else bc_view s l.
Proof.
  intros W Hi Hh Hlen cl s'. apply line_hit_true in Hh as [Hv Hl].
  pose proof (line_at_lookup s i W Hi) as Hat. fold cl in Hat, Hv, Hl.
  set (cl' := mk_line (cl_valid cl) true (cl_lba cl) (cl_last_use cl) data) in *.
  assert (Hlk : forall j, cache_lines s' !! j = if decide (i = j) then Some cl' else cache_lines s !! j)
    by (intros j; apply (set_line_at s i cl' j W Hi)).
  assert (W' : bc_wf s').
  { constructor; try setoid_rewrite Hlk.
    - simpl. rewrite length_insert. apply W.
    - apply W.
    - intros j a. case_decide; intros; simplify_eq; [done|by eapply wf_data].
    - intros j a. case_decide; intros; simplify_eq;
        [exact (wf_range s W _ _ Hat Hv)|by eapply (wf_range s W)].
    - intros j a. case_decide; intros; simplify_eq. by eapply (wf_clean s W).
    - intros j k a b. repeat case_decide; intros; simplify_eq; try done; simpl in *;
        eapply (wf_inj s W); eauto. }
  split; [done|]. split; [done|]. intros l. case_decide as E.
  { subst l. specialize (Hlk i). rewrite decide_True in Hlk by done.
    rewrite <- Hl. exact (view_hit _ i cl' W' Hlk Hv). }
  destruct (view_cases s l) as [(j & a & Hj & Hva & <-)|Hno].
  - rewrite (view_hit s j a) by done. specialize (Hlk j). case_decide; simplify_eq.
    rewrite Hj in Hlk. exact (view_hit _ j a W' Hlk Hva).
  - rewrite (view_miss s l Hno). apply (view_miss s' l). intros j a. rewrite Hlk.
    case_decide; [intros [= <-] _; simpl; congruence|eauto].
Qed.

Lemma view_write_S v lba bytes k l :
  view_write v lba bytes (S k) l =
  view_write (fun l => if decide (l = lba) then take VIRTIO_BLK_SECTOR_SIZE bytes else v l)
    (lba + 1) (drop VIRTIO_BLK_SECTOR_SIZE bytes) k l.
Proof.
  unfold view_write. destruct (decide (l = lba)) as [->|Hne].
  - rewrite Z.sub_diag. simpl (Z.to_nat 0). rewrite Nat.mul_0_r, drop_0.
    destruct ((lba <=? lba) && _) eqn:A; destruct ((lba + 1 <=? lba) && _) eqn:B; bool_hyps; try lia; done.
  - destruct ((lba <=? l) && _) eqn:A; destruct ((lba + 1 <=? l) && _) eqn:B; try lia; [|done].
    rewrite drop_drop. do 2 f_equal. lia.
Qed.

Lemma view_write_ext v w lba bytes k l :
  v l = w l -> view_write v lba bytes k l = view_write w lba bytes k l.
Proof. intros H. unfold view_write. by destruct (_ && _). Qed.

Lemma write_loop_spec n lba inp s rc s' :
  bc_wf s -> 0 <= lba -> lba + Z.of_nat n <= active_lba_count s ->
  length inp = (VIRTIO_BLK_SECTOR_SIZE * n)%nat ->
  bc_write_loop n lba inp s = (rc, s') ->
  bc_wf s' /\ bc_same_geom s s' /\ (rc = 0 \/ rc = -1) /\
  exists k, (k <= n)%nat /\ (rc = 0 -> k = n) /\
    forall l, 0 <= l < active_lba_count s -> bc_view s' l = view_write (bc_view s) lba inp k l.
Proof.
  revert lba inp s. induction n as [|n IH]; intros lba inp s W Hl Hc Hlen; cbn [bc_write_loop].
  { intros [= <- <-]. split; [done|]. split; [done|]. split; [by left|]. exists 0%nat.
    split; [lia|]. split; [done|]. intros l _. unfold view_write.
    destruct (_ && _) eqn:E; [lia|done]. }
  destruct (cache_get_load lba s) as [[i|] s1] eqn:Eg;
    apply get_load_spec in Eg as [K1 Hi]; try done; try lia.
  - destruct (Hi i eq_refl) as [Hlt Hhit]. destruct K1 as (W1 & G1 & V1).
    assert (Ht : length (take VIRTIO_BLK_SECTOR_SIZE inp) = VIRTIO_BLK_SECTOR_SIZE)
      by (rewrite length_take; lia).
    destruct (write_line_spec s1 i lba _ W1 Hlt Hhit Ht) as (W2 & G2 & V2).
    cbv zeta in W2, G2, V2 |- *. set (s2 := set_line s1 i _) in *.
    destruct (touch_keeps s2 i W2 Hlt) as (W3 & G3 & V3). intros E.
    pose proof (wf_geom s W). pose proof (same_geom_trans _ _ _ G1 (same_geom_trans _ _ _ G2 G3)) as G.
    assert (Ec : active_lba_count (cache_touch i s2) = active_lba_count s) by apply G.
    assert (Ec1 : active_lba_count s1 = active_lba_count s) by apply G1.
    assert (Ec2 : active_lba_count s2 = active_lba_count s1) by apply G2.
    rewrite (u64_small (lba + 1)) in E by (unfold is_u64; lia).
    apply IH in E as (W4 & G4 & Hrc & k & Hk & Hk0 & V4); [|done|lia| |].
    + split; [done|]. split; [by eapply same_geom_trans|]. split; [done|].
      exists (S k). split; [lia|]. split; [intros H0; by rewrite (Hk0 H0)|]. intros l Hr.
      rewrite V4 by lia.
      rewrite view_write_S. apply view_write_ext.
      rewrite V3, V2 by lia.
      case_decide; [done|]. by apply V1.
    + lia.
    + rewrite length_drop. lia.
  - intros [= <- <-]. destruct K1 as (W1 & G1 & V1). split; [done|]. split; [done|].
    split; [by right|]. exists 0%nat. split; [lia|]. split; [done|]. intros l Hr.
    rewrite V1 by done. unfold view_write. destruct (_ && _) eqn:E; [lia|done].
Qed.

Lemma flush_loop_spec n i s rc s' :
  bc_wf s -> (i + n <= BLOCK_CACHE_LINES)%nat -> bc_flush_loop n i s = (rc, s') ->
  bc_keeps s s' /\
  (forall j, (j < i)%nat -> cache_lines s' !! j = cache_lines s !! j) /\
  (rc = 0 -> forall j cl, (i <= j < i + n)%nat -> cache_lines s' !! j = Some cl ->
     cl_valid cl = true -> cl_dirty cl = false).
Proof.
  revert i s. induction n as [|n IH]; intros i s W Hn; cbn [bc_flush_loop].
  { intros [= <- <-]. split; [by apply bc_keeps_refl|]. split; [done|]. intros; lia. }
  assert (Hi : (i < BLOCK_CACHE_LINES)%nat) by lia.
  pose proof (writeback_keeps s i W Hi) as Hw.
  destruct (cache_writeback_line i s) as [rc1 s1]. destruct Hw as (K1 & Heq & Hoth & Hcl).
  assert (W1 : bc_wf s1) by apply K1.
  destruct (negb (rc1 =? 0)) eqn:E1; bool_hyps.
  { intros [= <- <-]. split; [done|]. split; [|done]. intros j Hj. apply Hoth. lia. }
  intros E. apply IH in E as (K2 & Hlow & Hclean); [|done|lia].
  split; [by eapply bc_keeps_trans|]. split.
  { intros j Hj. rewrite Hlow by lia. apply Hoth. lia. }
  intros H0 j cl Hj Hlj Hv. destruct (decide (j = i)) as [->|].
  - rewrite Hlow, (line_at_lookup s1 i W1 Hi) in Hlj by lia. injection Hlj as <-. by apply Hcl.
  - eapply (Hclean H0 j); [lia|done..].
Qed.

(** Every sector of the partition is on the device as the cache shows it. *)
Definition bc_durable s : Prop :=
  forall lba, 0 <= lba < active_lba_count s -> bc_sector s lba = bc_view s lba.

Lemma clean_durable s :
  bc_wf s ->
  (forall j cl, cache_lines s !! j = Some cl -> cl_valid cl = true -> cl_dirty cl = false) ->
  bc_durable s.
Proof.
  intros W Hc lba _. destruct (view_cases s lba) as [(j & a & Hj & Hv & <-)|Hno].
  - rewrite (view_hit s j a W Hj Hv). symmetry. apply (wf_clean s W j a); eauto.
  - by rewrite (view_miss s lba Hno).
Qed.

Lemma keeps_with_dev s d :
  bc_wf s -> (forall k l, sector d k l = sector (bc_dev s) k l) -> bc_keeps s (bc_with_dev s d).
Proof.
  intros W Hd. assert (Hs : forall l, bc_sector (bc_with_dev s d) l = bc_sector s l)
    by (intros l; apply Hd).
  split; [|split; [done|]].
  - destruct W as [A B C' E F G]. constructor; try done. intros. rewrite Hs. eauto.
  - intros l _. unfold bc_view. by rewrite Hs.
Qed.

Lemma flush_spec s rc s' :
  bc_wf s -> block_cache_flush s = (rc, s') ->
  bc_keeps s s' /\ (rc = 0 \/ rc = -1) /\ (rc = 0 -> bc_durable s').
Proof.
  intros W. unfold block_cache_flush.
  destruct (negb (block_cache_ready s)).
  { intros [= <- <-]. split; [by apply bc_keeps_refl|]. split; [by right|done]. }
  destruct (bc_flush_loop _ 0 s) as [rc1 s1] eqn:El.
  apply flush_loop_spec in El as (K1 & _ & Hc); [|done|lia].
  destruct (negb (rc1 =? 0)) eqn:E1; bool_hyps.
  { intros [= <- <-]. split; [done|]. split; [by right|done]. }
  destruct (backend_flush _ _) as [rc2 d] eqn:Ef.
  assert (Hd : forall k l, sector d k l = sector (bc_dev s1) k l).
  { intros k l. change d with (rc2, d).2. rewrite <- Ef. apply flush_keeps. }
  assert (W1 : bc_wf s1) by apply K1.
  pose proof (keeps_with_dev s1 d W1 Hd) as K2.
  assert (K := bc_keeps_trans _ _ _ K1 K2).
  destruct (negb (rc2 =? 0)); intros [= <- <-]; split; try done; split; auto; try done.
  intros _. apply clean_durable; [apply K2|]. intros j cl Hj Hv. apply (Hc E1 j); try done.
  pose proof (lookup_lt_Some _ _ _ Hj). simpl in H. rewrite (wf_lines_len s1 W1) in H. lia.
Qed.

Lemma read_spec s lba n rc out s' :
  bc_wf s -> 0 <= lba -> block_cache_read lba n s = (rc, out, s') ->
  bc_keeps s s' /\ (rc = 0 \/ rc = -1) /\
  (rc = 0 -> lba + Z.of_nat n <= active_lba_count s /\ out = view_bytes (bc_view s) lba n).
Proof.
  intros W Hl. unfold block_cache_read, bc_range_bad.
  destruct (negb (block_cache_ready s)).
  { intros [= <- <- <-]. split; [by apply bc_keeps_refl|]. split; [by right|done]. }
  destruct (_ || _) eqn:Er.
  { intros [= <- <- <-]. split; [by apply bc_keeps_refl|]. split; [by right|done]. }
  intros E. apply read_loop_spec in E as (K & Hrc & Hout); [|done|done|lia].
  split; [done|]. split; [done|]. intros H0. split; [lia|]. by rewrite (Hout H0).
Qed.

Lemma write_spec s lba buf n rc s' :
  bc_wf s -> 0 <= lba -> length buf = (VIRTIO_BLK_SECTOR_SIZE * n)%nat ->
  block_cache_write lba buf n s = (rc, s') ->
  bc_wf s' /\ bc_same_geom s s' /\ (rc = 0 \/ rc = -1) /\
  (rc = 0 -> lba + Z.of_nat n <= active_lba_count s) /\
  exists k, (k <= n)%nat /\ (rc = 0 -> k = n) /\
    forall l, 0 <= l < active_lba_count s -> bc_view s' l = view_write (bc_view s) lba buf k l.
Proof.
  intros W Hl Hlen. unfold block_cache_write, bc_range_bad.
  assert (Hstay : bc_wf s /\ bc_same_geom s s /\ (-1 = 0 \/ -1 = -1) /\
    (-1 = 0 -> lba + Z.of_nat n <= active_lba_count s) /\
    exists k, (k <= n)%nat /\ (-1 = 0 -> k = n) /\
    forall l, 0 <= l < active_lba_count s -> bc_view s l = view_write (bc_view s) lba buf k l).
  { split; [done|]. split; [done|]. split; [by right|]. split; [done|]. exists 0%nat.
    split; [lia|]. split; [done|]. intros l _. unfold view_write. destruct (_ && _) eqn:E; [lia|done]. }
  destruct (negb (block_cache_ready s)); [by intros [= <- <-]|].
  destruct (_ || _) eqn:Er; [by intros [= <- <-]|].
  intros E. apply write_loop_spec in E as (? & ? & ? & ?); [|done|done|lia|done].
  split_and!; try done. lia.
Qed.

(** ** An array of sectors as the abstract disk *)

Inductive bc_op :=
  | BcRead (lba : Z) (n : nat)
  | BcWrite (lba : Z) (buf : list Z) (n : nat)
  | BcFlush.

Definition bc_op_ok (op : bc_op) : Prop :=
  match op with
  | BcRead lba _ => 0 <= lba
  | BcWrite lba buf n => 0 <= lba /\ length buf = (VIRTIO_BLK_SECTOR_SIZE * n)%nat
  | BcFlush => True
  end.

Definition bc_exec (op : bc_op) s : (Z * list Z) * bcache D :=
  match op with
  | BcRead lba n => block_cache_read lba n s
  | BcWrite lba buf n => let '(rc, s') := block_cache_write lba buf n s in ((rc, []), s')
  | BcFlush => let '(rc, s') := block_cache_flush s in ((rc, []), s')
  end.

Fixpoint bc_run (ops : list bc_op) s : list (bc_op * (Z * list Z)) * bcache D :=
  match ops with
  | [] => ([], s)
  | op :: ops' =>
      let '(r, s1) := bc_exec op s in
      let '(rs, s2) := bc_run ops' s1 in
      ((op, r) :: rs, s2)
  end.

(** One operation on an array of [cap] sectors: a read that succeeds returns the
    sectors, a write that succeeds stores them all, a failing write has stored
    the first [k]; nothing else changes the array. *)
Definition disk_step (cap : Z) (v : Z -> list Z) (op : bc_op) (r : Z * list Z) (v' : Z -> list Z) : Prop :=
  match op with
  | BcRead lba n =>
      (r.1 = 0 \/ r.1 = -1) /\
      (r.1 = 0 -> lba + Z.of_nat n <= cap /\ r.2 = view_bytes v lba n) /\
      forall l, 0 <= l < cap -> v' l = v l
  | BcWrite lba buf n =>
      (r.1 = 0 \/ r.1 = -1) /\ (r.1 = 0 -> lba + Z.of_nat n <= cap) /\
      exists k, (k <= n)%nat /\ (r.1 = 0 -> k = n) /\
        forall l, 0 <= l < cap -> v' l = view_write v lba buf k l
  | BcFlush => forall l, 0 <= l < cap -> v' l = v l
  end.

Inductive disk_run (cap : Z) : (Z -> list Z) -> list (bc_op * (Z * list Z)) -> (Z -> list Z) -> Prop :=
  | disk_run_nil v : disk_run cap v [] v
  | disk_run_cons v op r v1 tr v2 :
      disk_step cap v op r v1 -> disk_run cap v1 tr v2 -> disk_run cap v ((op, r) :: tr) v2.

Lemma exec_refines s op r s' :
  bc_wf s -> bc_op_ok op -> bc_exec op s = (r, s') ->
  bc_wf s' /\ bc_same_geom s s' /\ disk_step (active_lba_count s) (bc_view s) op r (bc_view s').
Proof.
  intros W Hok. destruct op as [lba n|lba buf n|]; simpl in *.
  - destruct r as [rc out]. intros E. apply read_spec in E as ((? & ? & ?) & ? & ?); done.
  - destruct Hok as [Hl Hlen]. destruct (block_cache_write lba buf n s) as [rc s1] eqn:E.
    intros [= <- <-]. simpl. apply write_spec in E as (? & ? & ? & ? & ?); done.
  - destruct (block_cache_flush s) as [rc s1] eqn:E. intros [= <- <-].
    apply flush_spec in E as ((? & ? & ?) & _); done.
Qed.

End Refinement.

(** ** NVMe device numbers *)

Lemma nvme_decode_inv kind ctrl nsid :
  nvme_kind_decode kind = Some (ctrl, nsid) ->
  13 <= kind <= 76 /\ 0 <= ctrl < 8 /\ 1 <= nsid <= 8 /\ kind = 13 + (ctrl * 8 + (nsid - 1)).
Proof.
  unfold nvme_kind_decode. cbv zeta. split_if; [done|].
  rewrite u32_small by (unfold is_u32; lia).
  split_if; [done|]. intros [= <- <-]. dlia.
Qed.

(** ** Memory-backed drivers

    Disks of 64 sectors each, used to exercise the definitions; transfers
    outside a disk fail and leave the buffer alone. *)

Abbreviation ramdisks := (gmap (Z * Z) (list Z)) (only parsing).

Definition ramdisk_sector (d : ramdisks) (kind lba : Z) : list Z :=
  resize VIRTIO_BLK_SECTOR_SIZE 0 (default [] (d !! (kind, lba))).

Definition ramdisk_rw (kind lba : Z) (buf : list Z) (write : bool) (d : ramdisks)
    : Z * list Z * ramdisks :=
  if (lba <? 0) || (64 <=? lba) then (-1, buf, d)
  else if write then (0, buf, <[(kind, lba) := buf]> d)
  else (0, ramdisk_sector d kind lba, d).

#[global] Instance ramdisk_drivers : BlockDrivers ramdisks := {
  virtio_blk_ready _ := true;
  virtio_blk_rw_sector := ramdisk_rw DEV_VDA;
  virtio_blk_flush d := (0, d);
  ahci_disk_present _ _ := true;
  ahci_rw_sector i := ramdisk_rw (DEV_SDA + i);
  ahci_flush _ d := (0, d);
  nvme_ns_present _ _ _ := true;
  nvme_ns_rw_sector c n := ramdisk_rw (nvme_kind_encode c n);
  nvme_ns_flush _ _ d := (0, d);
}.

Lemma ramdisk_backend kind lba buf w d :
  backend_rw kind lba buf w d = ramdisk_rw kind lba buf w d \/
  backend_rw kind lba buf w d = (-1, buf, d).
Proof.
  unfold backend_rw. destruct (kind =? DEV_VDA) eqn:E; bool_hyps; [left; by subst|].
  cbv zeta. destruct (0 <=? sata_index_for_kind kind) eqn:E1; bool_hyps.
  - left. simpl. f_equal. unfold sata_index_for_kind in *. destruct (_ || _) eqn:?; lia.
  - destruct (nvme_kind_decode kind) as [[c n]|] eqn:E2; [|by right]. left. simpl. f_equal.
    apply nvme_decode_inv in E2 as (? & ? & ? & ->). unfold nvme_kind_encode.
    destruct (_ || _) eqn:?; lia.
Qed.

Lemma ramdisk_flush kind d : (backend_flush kind d).2 = d.
Proof.
  unfold backend_flush. destruct (_ =? _); [done|]. cbv zeta. destruct (_ <=? _); [done|].
  by destruct (nvme_kind_decode kind) as [[]|].
Qed.

#[global] Program Instance ramdisk_ok : BlockDriversOk ramdisks := {
  sector := ramdisk_sector;
}.
Next Obligation. intros. apply length_resize. Qed.
Next Obligation.
  intros. destruct (ramdisk_backend kind lba buf w d) as [->| ->]; [|done].
  unfold ramdisk_rw. destruct (_ || _); [done|]. destruct w; [|done].
  unfold ramdisk_sector. simpl. rewrite lookup_insert_ne by congruence. done.
Qed.
Next Obligation.
  intros. destruct (ramdisk_backend kind lba buf false d) as [->| ->]; [|done].
  unfold ramdisk_rw. by destruct (_ || _).
Qed.
Next Obligation.
  intros *. destruct (ramdisk_backend kind lba buf false d) as [->| ->]; [|done].
  unfold ramdisk_rw. by destruct (_ || _).
Qed.
Next Obligation.
  intros *. destruct (ramdisk_backend kind lba buf true d) as [->| ->]; [|done].
  unfold ramdisk_rw. destruct (_ || _); [done|]. intros Hb _.
  unfold ramdisk_sector. simpl. rewrite lookup_insert_eq. simpl. by apply resize_all_alt.
Qed.
Next Obligation.
  intros *. destruct (ramdisk_backend kind lba buf true d) as [->| ->]; [|done].
  unfold ramdisk_rw. by destruct (_ || _).
Qed.
Next Obligation.
  intros *. destruct (ramdisk_backend kind lba buf w d) as [->| ->]; [|done].
  unfold ramdisk_rw. destruct (_ || _); [done|]. destruct w; [done|]. intros _. apply length_resize.
Qed.
Next Obligation. intros. by rewrite ramdisk_flush. Qed.

#[global] Instance ramdisk_bounced : BouncedReads ramdisks.
Proof.
  intros kind lba buf d. destruct (ramdisk_backend kind lba buf false d) as [->| ->]; [|done].
  unfold ramdisk_rw. by destruct (_ || _).
Qed.

(** A partition of 16 sectors at sector 8 of the virtio disk, attached. *)
Definition demo_part : inode :=
  mk_inode [] INODE_DEV FS_KIND_MEM 0 0 false true DEV_VDA 8 16 None [] 0 8192 8192.

Definition demo_bc : bcache ramdisks := (block_cache_attach_inode (Some demo_part) (block_cache_init ∅)).2.

Definition demo_sector : list Z := replicate VIRTIO_BLK_SECTOR_SIZE 7.

(** ** Fresh lines *)

Lemma fresh_wf {D} `{!BlockDrivers D, !BlockDriversOk D} (ready done : bool) (c kind base cnt : Z) (d : D) :
  0 <= base -> 0 <= cnt -> base + cnt < 2 ^ 64 ->
  bc_wf (mk_bcache (replicate BLOCK_CACHE_LINES line_zero) c ready kind base cnt done d).
Proof.
  intros Hb Hc Hs. constructor; cbn [cache_lines active_lba_base active_lba_count].
  - apply length_replicate.
  - done.
  - intros i cl Hi. apply lookup_replicate in Hi as [-> _]. apply length_replicate.
  - intros i cl Hi. by apply lookup_replicate in Hi as [-> _].
  - intros i cl Hi. by apply lookup_replicate in Hi as [-> _].
  - intros i j a b Hi _. by apply lookup_replicate in Hi as [-> _].
Qed.

Lemma fresh_view {D} `{!BlockDrivers D, !BlockDriversOk D} (ready done : bool) (c kind base cnt : Z) (d : D) lba :
  bc_view (mk_bcache (replicate BLOCK_CACHE_LINES line_zero) c ready kind base cnt done d) lba =
  sector d kind (u64 (base + lba)).
Proof.
  rewrite view_miss; [done|]. cbn [cache_lines]. intros i cl Hi.
  by apply lookup_replicate in Hi as [-> _].
Qed.

(** ** Attaching *)

Section Attach.
Context {D : Type} `{!BlockDrivers D, !BlockDriversOk D, !BouncedReads D}.
Implicit Types s : bcache D.

Lemma selftest_keeps s ok s' : bc_wf s -> cache_selftest s = (ok, s') -> bc_keeps s s'.
Proof.
  intros W. pose proof (wf_geom s W) as (_ & Hc & _). unfold cache_selftest.
  destruct (_ =? 0); [intros [= <- <-]; by apply bc_keeps_refl|].
  destruct (block_cache_read 0 1 s) as [[rc a] s1] eqn:E1.
  apply read_spec in E1 as [K1 _]; [|done|lia].
  destruct (negb _); [by intros [= <- <-]|].
  destruct (block_cache_read 0 1 s1) as [[rc2 b] s2] eqn:E2.
  apply read_spec in E2 as [K2 _]; [|apply K1|lia]. assert (K12 := bc_keeps_trans _ _ _ K1 K2).
  destruct (negb _); [by intros [= <- <-]|].
  destruct (negb _); [by intros [= <- <-]|].
  destruct (block_cache_read _ 1 s2) as [[rc3 b'] s3] eqn:E3.
  apply read_spec in E3 as [K3 _]; [|apply K2|lia]. assert (K := bc_keeps_trans _ _ _ K12 K3).
  destruct (_ =? 0); by intros [= <- <-].
Qed.

Definition bc_attached (ino : inode) s : bool :=
  cache_ready_flag s && (active_dev_kind s =? i_dev_kind ino) &&
  (active_lba_base s =? i_dev_lba_start ino) && (active_lba_count s =? i_dev_lba_count ino).

(** The drivers as the flush of the previous partition leaves them. *)
Definition bc_flushed_dev s : D :=
  bc_dev (if cache_ready_flag s then (block_cache_flush s).2 else s).

Lemma wf_selftest_flag s b :
  bc_wf s ->
  bc_wf (mk_bcache (cache_lines s) (use_clock s) (cache_ready_flag s) (active_dev_kind s)
           (active_lba_base s) (active_lba_count s) b (bc_dev s)).
Proof. intros [A B C' E F G]. by constructor. Qed.

(** The state [block_cache_attach_inode] builds for a new partition. *)
Lemma attach_fresh ino s (fresh := mk_bcache (replicate BLOCK_CACHE_LINES line_zero) 0 true
    (i_dev_kind ino) (i_dev_lba_start ino) (i_dev_lba_count ino)
    (selftest_done (if cache_ready_flag s then (block_cache_flush s).2 else s)) (bc_flushed_dev s)) rc s' :
  0 <= i_dev_lba_start ino -> 0 <= i_dev_lba_count ino ->
  i_dev_lba_start ino + i_dev_lba_count ino < 2 ^ 64 ->
  bc_attached ino s = false -> block_cache_attach_inode (Some ino) s = (rc, s') ->
  (rc = 0 /\ bc_keeps fresh s') \/ (rc = -1 /\ (s' = s \/ cache_ready_flag s' = false)).
Proof.
  intros Hb Hc Hs Ha. unfold block_cache_attach_inode.
  destruct (bool_decide _); [intros [= <- <-]; by auto|]. cbv zeta.
  destruct (negb _ || _); [intros [= <- <-]; by auto|].
  unfold bc_attached in Ha. rewrite Ha. fold (bc_flushed_dev s). fold fresh.
  assert (W : bc_wf fresh) by by apply fresh_wf.
  destruct (negb (selftest_done fresh)); [|intros [= <- <-]; left; auto using bc_keeps_refl].
  destruct (cache_selftest fresh) as [ok s1] eqn:Et. apply selftest_keeps in Et as K; [|done].
  destruct (negb ok); intros [= <- <-]; [by auto|]. left. split; [done|].
  destruct K as (W1 & G & V). split; [by apply wf_selftest_flag|]. by split.
Qed.

End Attach.

(** ** Properties *)


Lemma demo_bc_wf : bc_wf demo_bc.
Proof.
  unfold demo_bc.
  destruct (block_cache_attach_inode (Some demo_part) (block_cache_init (∅ : ramdisks))) as [rc s'] eqn:E.
  assert (Hrc : rc = 0).
  { change rc with (rc, s').1. rewrite <- E. vm_compute. reflexivity. }
  apply attach_fresh in E as [[_ K]|[Hf _]]; try done; [apply K|by subst].
Qed.

(** Writing sector 3, then reading it back and flushing. *)
Definition demo_ops : list bc_op := [BcWrite 3 demo_sector 1; BcRead 3 1; BcFlush].

Lemma demo_ops_ok : Forall bc_op_ok demo_ops.
Proof. unfold demo_ops. rewrite !Forall_cons, Forall_nil. split_and!; simpl; lia || done. Qed.



Definition demo_bc_dirty : bcache ramdisks := (block_cache_write 3 demo_sector 1 demo_bc).2.

Lemma demo_bc_dirty_wf : bc_wf demo_bc_dirty.
Proof.
  unfold demo_bc_dirty. destruct (block_cache_write 3 demo_sector 1 demo_bc) as [rc s'] eqn:E.
  apply write_spec in E as [W _]; [exact W|apply demo_bc_wf|lia|reflexivity].
Qed.



Definition demo_part2 : inode :=
  mk_inode [] INODE_DEV FS_KIND_MEM 0 0 false true DEV_SDA 0 32 None [] 0 16384 16384.


(** ** Availability and replacement *)

Lemma select_victim_some ls i best :
  (ls <> [] \/ best <> None) -> exists v, select_victim_loop ls i best = Some v.
Proof.
  revert i best. induction ls as [|cl ls IH]; intros i best H; simpl.
  - destruct best as [[b u]|]; [simpl; eauto|]. by destruct H.
  - destruct (negb _); [eauto|]. apply IH. right. destruct best as [[b u]|]; [|done].
    by destruct (_ <? _).
Qed.

Lemma victim_exists {D} `{!BlockDrivers D, !BlockDriversOk D} (s : bcache D) :
  bc_wf s -> exists v, cache_select_victim s = Some v.
Proof.
  intros W. apply select_victim_some. left. intros H.
  pose proof (wf_lines_len s W) as Hl. by rewrite H in Hl.
Qed.

(** The transfers of a device that serves a partition without errors. *)
Definition bc_healthy {D} `{!BlockDrivers D} (kind base cnt : Z) : Prop :=
  forall lba buf w (d : D), base <= lba < base + cnt -> (backend_rw kind lba buf w d).1.1 = 0.

Section Available.
Context {D : Type} `{!BlockDrivers D, !BlockDriversOk D, !BouncedReads D}.
Implicit Types s : bcache D.

Lemma writeback_healthy s v :
  bc_wf s -> (v < BLOCK_CACHE_LINES)%nat ->
  bc_healthy (D := D) (active_dev_kind s) (active_lba_base s) (active_lba_count s) ->
  (cache_writeback_line v s).1 = 0.
Proof.
  intros W Hv Hh. unfold cache_writeback_line. destruct (_ || _) eqn:Eg; [done|]. bool_hyps.
  pose proof (wf_geom s W). pose proof (wf_range s W v _ (line_at_lookup s v W Hv) ltac:(done)).
  pose proof (Hh (u64 (active_lba_base s + cl_lba (line_at s v))) (cl_data (line_at s v)) true (bc_dev s)) as Hrc.
  destruct (backend_rw _ _ _ _ _) as [[rc buf] d]. simpl in Hrc.
  rewrite u64_small in Hrc by (unfold is_u64; lia). rewrite Hrc by lia. done.
Qed.

Lemma get_load_healthy s lba :
  bc_wf s -> 0 <= lba < active_lba_count s ->
  bc_healthy (D := D) (active_dev_kind s) (active_lba_base s) (active_lba_count s) ->
  exists i, (cache_get_load lba s).1 = Some i.
Proof.
  intros W Hr Hh. unfold cache_get_load. destruct (cache_find lba s) as [[i|] s1] eqn:Ef; [eauto|].
  apply find_miss in Ef as [-> _]. destruct (victim_exists s W) as [v Ev]. rewrite Ev.
  apply victim_lt in Ev; [|done].
  pose proof (writeback_healthy s v W Ev Hh) as Hw. pose proof (writeback_keeps s v W Ev) as Hk.
  destruct (cache_writeback_line v s) as [rc s1]. simpl in Hw. subst rc. simpl.
  destruct Hk as ((W1 & (Gk & Gb & Gc & _) & _) & _).
  pose proof (wf_geom s W).
  pose proof (Hh (u64 (active_lba_base s + lba)) (cl_data (line_at s1 v)) false (bc_dev s1)) as Hrc.
  rewrite Gk, Gb. destruct (backend_rw _ _ _ _ _) as [[rc buf] d]. simpl in Hrc.
  rewrite Hrc by (rewrite u64_small by (unfold is_u64; lia); lia). simpl. eauto.
Qed.

Lemma healthy_geom s s' :
  bc_same_geom s s' ->
  bc_healthy (D := D) (active_dev_kind s) (active_lba_base s) (active_lba_count s) ->
  bc_healthy (D := D) (active_dev_kind s') (active_lba_base s') (active_lba_count s').
Proof. by intros (-> & -> & -> & _). Qed.

Lemma read_loop_healthy n lba acc s :
  bc_wf s -> 0 <= lba -> lba + Z.of_nat n <= active_lba_count s ->
  bc_healthy (D := D) (active_dev_kind s) (active_lba_base s) (active_lba_count s) ->
  (bc_read_loop n lba acc s).1.1 = 0.
Proof.
  revert lba acc s. induction n as [|n IH]; intros lba acc s W Hl Hc Hh; [done|]. cbn [bc_read_loop].
  destruct (get_load_healthy s lba W) as [i Ei]; [lia|done|].
  destruct (cache_get_load lba s) as [r s1] eqn:Eg. simpl in Ei. subst r.
  apply get_load_spec in Eg as [(W1 & G & _) _]; [|done|lia].
  pose proof (wf_geom s W). assert (Ec : active_lba_count s1 = active_lba_count s) by apply G.
  rewrite u64_small by (unfold is_u64; lia). apply IH; [done|lia|lia|by eapply healthy_geom].
Qed.

End Available.

(** On a ready device that serves the partition without errors, every read of
    sectors inside the partition succeeds and returns them. *)
Theorem block_cache_read_available {D} `{!BlockDrivers D, !BlockDriversOk D, !BouncedReads D}
    (s : bcache D) lba n :
  bc_wf s -> block_cache_ready s = true ->
  bc_healthy (D := D) (active_dev_kind s) (active_lba_base s) (active_lba_count s) ->
  0 <= lba -> (0 < n)%nat -> lba + Z.of_nat n <= active_lba_count s ->
  (block_cache_read lba n s).1 = (0, view_bytes (bc_view s) lba n).
Proof.
  intros W Hr Hh Hl Hn Hc.
  assert (Hrc : (block_cache_read lba n s).1.1 = 0).
  { unfold block_cache_read, bc_range_bad. rewrite Hr. simpl.
    destruct (_ || _) eqn:E; [lia|]. by apply read_loop_healthy. }
  destruct (block_cache_read lba n s) as [[rc out] s'] eqn:E. simpl in *. subst rc.
  apply read_spec in E as (_ & _ & Ho); [|done..]. by destruct (Ho eq_refl) as [_ ->].
Qed.

Lemma demo_healthy : bc_healthy (D := ramdisks) DEV_VDA 8 16.
Proof.
  intros lba buf w d H. unfold backend_rw. simpl. unfold ramdisk_rw.
  destruct (_ || _) eqn:E; [lia|]. by destruct w.
Qed.

Lemma block_cache_read_available_witness :
  (block_cache_read 2 3 demo_bc_dirty).1 = (0, view_bytes (bc_view demo_bc_dirty) 2 3).
Proof.
  assert (Hr : block_cache_ready demo_bc_dirty = true) by (vm_compute; reflexivity).
  assert (Hk : active_dev_kind demo_bc_dirty = DEV_VDA) by (vm_compute; reflexivity).
  assert (Hb : active_lba_base demo_bc_dirty = 8) by (vm_compute; reflexivity).
  assert (Hc : active_lba_count demo_bc_dirty = 16) by (vm_compute; reflexivity).
  apply (block_cache_read_available demo_bc_dirty 2 3 demo_bc_dirty_wf Hr).
  - rewrite Hk, Hb, Hc. exact demo_healthy.
  - lia.
  - lia.
  - rewrite Hc. lia.
Defined.

Lemma select_victim_spec ls i best v :
  select_victim_loop ls i best = Some v ->
  (exists j cl, v = (i + j)%nat /\ ls !! j = Some cl /\ cl_valid cl = false /\
     forall k a, (k < j)%nat -> ls !! k = Some a -> cl_valid a = true) \/
  ((forall k a, ls !! k = Some a -> cl_valid a = true) /\
   exists u, (best = Some (v, u) \/ exists j cl, v = (i + j)%nat /\ ls !! j = Some cl /\ u = cl_last_use cl) /\
     (forall b u', best = Some (b, u') -> u <= u') /\
     forall k a, ls !! k = Some a -> u <= cl_last_use a).
Proof.
  revert i best. induction ls as [|cl ls IH]; intros i best; simpl.
  { destruct best as [[b u]|]; simpl; intros [= ->]. right. split; [done|]. exists u.
    split; [by left|]. split; [by intros ? ? [= <- <-]|done]. }
  destruct (negb (cl_valid cl)) eqn:Ev; bool_hyps.
  { intros [= <-]. left. exists 0%nat, cl. split; [lia|]. split; [done|]. split; [done|]. lia. }
  set (best' := match best with None => _ | Some _ => _ end).
  intros H. apply IH in H as [(j & a & -> & Hj & Hva & Hlt)|(Hall & u & Hu & Hbest & Hmin)].
  - left. exists (S j), a. split; [lia|]. split; [done|]. split; [done|].
    intros [|k] b Hk; simpl; [by intros [= <-]|]. apply Hlt. lia.
  - right. split; [intros [|k] a; simpl; [by intros [= <-]|by apply Hall]|].
    exists u. assert (Hb' : exists b0 u0, best' = Some (b0, u0) /\ u0 <= cl_last_use cl /\
        (forall b u', best = Some (b, u') -> u0 <= u') /\
        (best = Some (b0, u0) \/ (b0 = i /\ u0 = cl_last_use cl))).
    { unfold best'. destruct best as [[b u1]|]; [|exists i, (cl_last_use cl); naive_solver lia].
      destruct (_ <? _) eqn:El; bool_hyps; [exists i, (cl_last_use cl)|exists b, u1];
        (split; [done|]); (split; [lia|]); split; eauto; intros ? ? [= <- <-]; lia. }
    destruct Hb' as (b0 & u0 & Eb & Hcl & Hold & Hwho). pose proof (Hbest _ _ Eb) as Huu0.
    split; [|split].
    + destruct Hu as [Hu|(j & a & -> & Hj & ->)].
      * rewrite Eb in Hu. injection Hu as -> ->. destruct Hwho as [?|[-> ->]]; [by left|].
        right. exists 0%nat, cl. split; [lia|done].
      * right. exists (S j), a. split; [lia|done].
    + intros b u' Hb. specialize (Hold _ _ Hb). lia.
    + intros [|k] a; simpl; [intros [= <-]; lia|by apply Hmin].
Qed.

(** The line replaced on a miss is a free one when there is one (the first),
    and otherwise one whose last use is the earliest of all. *)
Theorem cache_select_victim_lru {D} `{!BlockDrivers D} (s : bcache D) v :
  cache_select_victim s = Some v ->
  exists cl, cache_lines s !! v = Some cl /\
  ((cl_valid cl = false /\
    forall k a, (k < v)%nat -> cache_lines s !! k = Some a -> cl_valid a = true) \/
   (forall k a, cache_lines s !! k = Some a -> cl_valid a = true /\ cl_last_use cl <= cl_last_use a)).
Proof.
  intros H. apply select_victim_spec in H as [(j & cl & -> & Hj & Hv & Hlt)|(Hall & u & Hu & _ & Hmin)].
  - exists cl. split; [done|]. by left.
  - destruct Hu as [?|(j & cl & -> & Hj & ->)]; [done|]. exists cl. split; [done|]. right. eauto.
Qed.

Lemma cache_select_victim_lru_witness :
  exists cl, cache_lines demo_bc_dirty !! 2%nat = Some cl /\ cl_valid cl = false.
Proof.
  assert (Hv : cache_select_victim demo_bc_dirty = Some 2%nat) by (vm_compute; reflexivity).
  destruct (cache_select_victim_lru demo_bc_dirty 2 Hv) as (cl & Hcl & [[H _]|H]).
  - exists cl. split; assumption.
  - exists cl. split; [exact Hcl|].
    assert (H5 : exists a, cache_lines demo_bc_dirty !! 5%nat = Some a /\ cl_valid a = false)
      by (eexists; split; vm_compute; reflexivity).
    destruct H5 as (a & Ha & Hf). destruct (H 5%nat a Ha) as [Ht _]. congruence.
Defined.

(** ** A failed load over a live line *)

Lemma find_after_update (ls : list cache_line) v cl cl' lba :
  list_find (line_hit lba) ls = Some (v, cl) -> line_hit lba cl' = true ->
  list_find (line_hit lba) (<[v := cl']> ls) = Some (v, cl').
Proof.
  intros (Hv & _ & Hlt)%list_find_Some Hh. apply list_find_Some. split_and!.
  - apply list_lookup_insert_eq. by eapply lookup_lt_Some.
  - by apply Is_true_true.
  - intros j a Hj Hjv. rewrite list_lookup_insert_ne in Hj by lia. eauto.
Qed.

(** C26: [cache_get_load] reads over the victim's data while the victim is still
    valid, so when the driver fails after part of the transfer the next read of the
    victim's sector succeeds with whatever the failed transfer left in the buffer. *)
Theorem block_cache_failed_read_exposed {D} `{!BlockDrivers D} (s : bcache D) lba lba0 v cl rc buf d :
  block_cache_ready s = true -> 0 <= lba < active_lba_count s -> 0 <= lba0 < active_lba_count s ->
  list_find (line_hit lba) (cache_lines s) = None ->
  cache_select_victim s = Some v ->
  list_find (line_hit lba0) (cache_lines s) = Some (v, cl) -> cl_dirty cl = false ->
  backend_rw (active_dev_kind s) (u64 (active_lba_base s + lba)) (cl_data cl) false (bc_dev s) = (rc, buf, d) ->
  rc <> 0 -> backend_ready (active_dev_kind s) d = true ->
  exists s1, block_cache_read lba 1 s = (-1, [], s1) /\ (block_cache_read lba0 1 s1).1 = (0, buf).
Proof.
  intros Hr Hl Hl0 Hmiss Hv Hhit Hcl Hrw Hrc Hrd.
  pose proof (proj1 (list_find_Some _ _ _ _) Hhit) as (Hlk & Hp & _).
  assert (Hat : line_at s v = cl) by (unfold line_at; by apply list_lookup_total_correct).
  set (s1 := set_line (bc_with_dev s d) v (line_with_data cl buf)).
  assert (Hload : cache_get_load lba s = (None, s1)).
  { unfold cache_get_load, cache_find. rewrite Hmiss, Hv. unfold cache_writeback_line.
    rewrite Hat, Hcl, orb_true_r. simpl. rewrite Hat, Hrw.
    destruct (rc =? 0) eqn:E; bool_hyps; done. }
  assert (Hrng : forall l, 0 <= l < active_lba_count s -> bc_range_bad s l 1 = false)
    by (intros l ?; unfold bc_range_bad; lia).
  assert (Hr1 : block_cache_ready s1 = true).
  { unfold block_cache_ready in *. simpl. rewrite Hrd. bool_hyps. repeat (apply andb_true_iff; split); try done;
      apply negb_true_iff; lia. }
  assert (Hrng1 : bc_range_bad s1 lba0 1 = false) by (by apply Hrng).
  exists s1. split.
  - unfold block_cache_read. rewrite Hr. simpl. rewrite (Hrng lba Hl). simpl. by rewrite Hload.
  - unfold block_cache_read. rewrite Hr1. cbn [negb]. rewrite Hrng1. cbn [bc_read_loop].
    assert (Hf : list_find (line_hit lba0) (cache_lines s1) = Some (v, line_with_data cl buf)).
    { apply (find_after_update _ _ cl); [done|]. by apply Is_true_true in Hp. }
    unfold cache_get_load, cache_find. rewrite Hf. simpl. unfold line_at, cache_touch. simpl.
    rewrite list_insert_insert_eq, list_lookup_total_insert_eq by (by eapply lookup_lt_Some).
    unfold line_at. simpl. rewrite list_lookup_total_insert_eq by (by eapply lookup_lt_Some). done.
Qed.

(** A disk whose transfers at sector 200 fail after scribbling on the buffer. *)
Definition flaky_rw (lba : Z) (buf : list Z) (write : bool) (d : unit) : Z * list Z * unit :=
  if lba =? 200 then (-1, replicate VIRTIO_BLK_SECTOR_SIZE 255, d)
  else (0, if write then buf else replicate VIRTIO_BLK_SECTOR_SIZE 0, d).

Definition flaky_drivers : BlockDrivers unit := {|
  virtio_blk_ready _ := true;
  virtio_blk_rw_sector := flaky_rw;
  virtio_blk_flush d := (0, d);
  ahci_disk_present _ _ := false;
  ahci_rw_sector _ _ buf _ d := (-1, buf, d);
  ahci_flush _ d := (-1, d);
  nvme_ns_present _ _ _ := false;
  nvme_ns_rw_sector _ _ _ buf _ d := (-1, buf, d);
  nvme_ns_flush _ _ d := (-1, d);
|}.

Definition flaky_bc : bcache unit :=
  mk_bcache
    ((fun i => mk_line true false i (i + 1) (replicate VIRTIO_BLK_SECTOR_SIZE 0)) <$> seqZ 0 128)
    128 true DEV_VDA 0 300 true tt.

Lemma block_cache_failed_read_exposed_witness :
  exists s1, block_cache_read (BlockDrivers0 := flaky_drivers) 200 1 flaky_bc = (-1, [], s1) /\
    (block_cache_read (BlockDrivers0 := flaky_drivers) 0 1 s1).1 = (0, replicate VIRTIO_BLK_SECTOR_SIZE 255).
Proof.
  apply (block_cache_failed_read_exposed (BlockDrivers0 := flaky_drivers) flaky_bc 200 0 0
           (mk_line true false 0 1 (replicate VIRTIO_BLK_SECTOR_SIZE 0)) (-1) _ tt);
    try (vm_compute; reflexivity).
  - simpl. lia.
  - simpl. lia.
  - lia.
Defined.
