(* ===== verification/TaskDefs.v ===== *)
(** * Tasks (include/task.h)

    The types of include/task.h. The fields of [task_t] that one part of
    kernel/task.c owns are grouped in a record of their own (waiting, signals,
    address space); a setter per field stands for the assignments of the code.
    Pointers are [option]s: an inode is its address, a pipe its index in the pipe
    table, a socket its handle. A trap frame is the frame the [tf] pointer of the
    task points to. *)

From S2P Require Import Prelude KString Inode.

Inductive task_state :=
  | TASK_UNUSED | TASK_RUNNABLE | TASK_RUNNING | TASK_WAITING | TASK_STOPPED | TASK_ZOMBIE.

Inductive fd_kind_t := FD_NONE | FD_INODE | FD_PIPE_R | FD_PIPE_W | FD_SOCKET.

Inductive wait_kind_t := WAIT_NONE | WAIT_CHILD | WAIT_PIPE_READ | WAIT_PIPE_WRITE | WAIT_SLEEP.

#[global] Instance task_state_eq_dec : EqDecision task_state.
Proof. solve_decision. Defined.
#[global] Instance fd_kind_eq_dec : EqDecision fd_kind_t.
Proof. solve_decision. Defined.
#[global] Instance wait_kind_eq_dec : EqDecision wait_kind_t.
Proof. solve_decision. Defined.

Abbreviation MAX_TASKS := 64%nat (only parsing).
Abbreviation MAX_FDS := 16%nat (only parsing).
Abbreviation MAX_USER_PAGES := 512%nat (only parsing).
Abbreviation MAX_VMAS := 64%nat (only parsing).
Abbreviation TASK_SIGNAL_QUEUE_LEN := 64%nat (only parsing).

(** user_page_t: a tracked user page. *)
Record user_page := mk_user_page {
  up_va : Z;
  up_pa : Z;
  up_writable_intent : bool;
  up_used : bool;
}.

Definition set_up_va (up : user_page) (x : Z) : user_page :=
  mk_user_page x (up_pa up) (up_writable_intent up) (up_used up).
Definition set_up_pa (up : user_page) (x : Z) : user_page :=
  mk_user_page (up_va up) x (up_writable_intent up) (up_used up).
Definition set_up_writable_intent (up : user_page) (x : bool) : user_page :=
  mk_user_page (up_va up) (up_pa up) x (up_used up).
Definition set_up_used (up : user_page) (x : bool) : user_page :=
  mk_user_page (up_va up) (up_pa up) (up_writable_intent up) x.

Definition user_page_zero : user_page :=
  mk_user_page 0 0 false false.

#[global] Instance user_page_inhabited : Inhabited user_page := populate user_page_zero.

(** vm_area_t: a mapped range. *)
Record vm_area := mk_vm_area {
  vma_start : Z;
  vma_end : Z;
  vma_file_offset : Z;
  vma_inode : option Z;
  vma_prot : Z;
  vma_flags : Z;
  vma_used : bool;
}.

Definition set_vma_start (v : vm_area) (x : Z) : vm_area :=
  mk_vm_area x (vma_end v) (vma_file_offset v) (vma_inode v) (vma_prot v) (vma_flags v)
    (vma_used v).
Definition set_vma_end (v : vm_area) (x : Z) : vm_area :=
  mk_vm_area (vma_start v) x (vma_file_offset v) (vma_inode v) (vma_prot v) (vma_flags v)
    (vma_used v).
Definition set_vma_file_offset (v : vm_area) (x : Z) : vm_area :=
  mk_vm_area (vma_start v) (vma_end v) x (vma_inode v) (vma_prot v) (vma_flags v) (vma_used v).
Definition set_vma_inode (v : vm_area) (x : option Z) : vm_area :=
  mk_vm_area (vma_start v) (vma_end v) (vma_file_offset v) x (vma_prot v) (vma_flags v)
    (vma_used v).
Definition set_vma_prot (v : vm_area) (x : Z) : vm_area :=
  mk_vm_area (vma_start v) (vma_end v) (vma_file_offset v) (vma_inode v) x (vma_flags v)
    (vma_used v).
Definition set_vma_flags (v : vm_area) (x : Z) : vm_area :=
  mk_vm_area (vma_start v) (vma_end v) (vma_file_offset v) (vma_inode v) (vma_prot v) x
    (vma_used v).
Definition set_vma_used (v : vm_area) (x : bool) : vm_area :=
  mk_vm_area (vma_start v) (vma_end v) (vma_file_offset v) (vma_inode v) (vma_prot v)
    (vma_flags v) x.

Definition vm_area_zero : vm_area :=
  mk_vm_area 0 0 0 None 0 0 false.

#[global] Instance vm_area_inhabited : Inhabited vm_area := populate vm_area_zero.

(** task_debug_sym_t: a function of the program, its name without the terminator. *)
Record debug_sym := mk_debug_sym {
  ds_start : Z;
  ds_end : Z;
  ds_name : list Z;
}.

Definition set_ds_start (d : debug_sym) (x : Z) : debug_sym :=
  mk_debug_sym x (ds_end d) (ds_name d).
Definition set_ds_end (d : debug_sym) (x : Z) : debug_sym :=
  mk_debug_sym (ds_start d) x (ds_name d).
Definition set_ds_name (d : debug_sym) (x : list Z) : debug_sym :=
  mk_debug_sym (ds_start d) (ds_end d) x.

Definition debug_sym_zero : debug_sym :=
  mk_debug_sym 0 0 [].

#[global] Instance debug_sym_inhabited : Inhabited debug_sym := populate debug_sym_zero.

(** fd_t: an open file. *)
Record fd := mk_fd {
  fd_kind : fd_kind_t;
  fd_inode : option Z;
  fd_pipe : option nat;
  fd_sock : option Z;
  fd_offset : Z;
  fd_flags : Z;
  fd_used : bool;
}.

Definition set_fd_kind (f : fd) (x : fd_kind_t) : fd :=
  mk_fd x (fd_inode f) (fd_pipe f) (fd_sock f) (fd_offset f) (fd_flags f) (fd_used f).
Definition set_fd_inode (f : fd) (x : option Z) : fd :=
  mk_fd (fd_kind f) x (fd_pipe f) (fd_sock f) (fd_offset f) (fd_flags f) (fd_used f).
Definition set_fd_pipe (f : fd) (x : option nat) : fd :=
  mk_fd (fd_kind f) (fd_inode f) x (fd_sock f) (fd_offset f) (fd_flags f) (fd_used f).
Definition set_fd_sock (f : fd) (x : option Z) : fd :=
  mk_fd (fd_kind f) (fd_inode f) (fd_pipe f) x (fd_offset f) (fd_flags f) (fd_used f).
Definition set_fd_offset (f : fd) (x : Z) : fd :=
  mk_fd (fd_kind f) (fd_inode f) (fd_pipe f) (fd_sock f) x (fd_flags f) (fd_used f).
Definition set_fd_flags (f : fd) (x : Z) : fd :=
  mk_fd (fd_kind f) (fd_inode f) (fd_pipe f) (fd_sock f) (fd_offset f) x (fd_used f).
Definition set_fd_used (f : fd) (x : bool) : fd :=
  mk_fd (fd_kind f) (fd_inode f) (fd_pipe f) (fd_sock f) (fd_offset f) (fd_flags f) x.

Definition fd_zero : fd :=
  mk_fd FD_NONE None None None 0 0 false.

#[global] Instance fd_inhabited : Inhabited fd := populate fd_zero.

(** trapframe_t: the saved user registers. *)
Record trapframe := mk_trapframe {
  tf_x : list Z;
  sp_el0 : Z;
  elr_el1 : Z;
  spsr_el1 : Z;
  tpidr_el0 : Z;
  reserved0 : Z;
}.

Definition set_tf_x (tf : trapframe) (x : list Z) : trapframe :=
  mk_trapframe x (sp_el0 tf) (elr_el1 tf) (spsr_el1 tf) (tpidr_el0 tf) (reserved0 tf).
Definition set_sp_el0 (tf : trapframe) (x : Z) : trapframe :=
  mk_trapframe (tf_x tf) x (elr_el1 tf) (spsr_el1 tf) (tpidr_el0 tf) (reserved0 tf).
Definition set_elr_el1 (tf : trapframe) (x : Z) : trapframe :=
  mk_trapframe (tf_x tf) (sp_el0 tf) x (spsr_el1 tf) (tpidr_el0 tf) (reserved0 tf).
Definition set_spsr_el1 (tf : trapframe) (x : Z) : trapframe :=
  mk_trapframe (tf_x tf) (sp_el0 tf) (elr_el1 tf) x (tpidr_el0 tf) (reserved0 tf).
Definition set_tpidr_el0 (tf : trapframe) (x : Z) : trapframe :=
  mk_trapframe (tf_x tf) (sp_el0 tf) (elr_el1 tf) (spsr_el1 tf) x (reserved0 tf).
Definition set_reserved0 (tf : trapframe) (x : Z) : trapframe :=
  mk_trapframe (tf_x tf) (sp_el0 tf) (elr_el1 tf) (spsr_el1 tf) (tpidr_el0 tf) x.

Definition trapframe_zero : trapframe :=
  mk_trapframe (replicate 31 0) 0 0 0 0 0.

#[global] Instance trapframe_inhabited : Inhabited trapframe := populate trapframe_zero.

(** A page-table page: its address and its 512 entries. *)
Record ptable := mk_ptable {
  pt_page : Z;
  pt_ent : gmap Z Z;
}.

Definition set_pt_page (p : ptable) (x : Z) : ptable :=
  mk_ptable x (pt_ent p).
Definition set_pt_ent (p : ptable) (x : gmap Z Z) : ptable :=
  mk_ptable (pt_page p) x.

Definition ptable_zero : ptable :=
  mk_ptable 0 ∅.

#[global] Instance ptable_inhabited : Inhabited ptable := populate ptable_zero.

(** The wait fields of task_t. *)
Record wait_info := mk_wait_info {
  wait_pid : Z;
  wait_kind : wait_kind_t;
  wait_obj : option nat;
  wake_tick : Z;
}.

Definition set_wait_pid (w : wait_info) (x : Z) : wait_info :=
  mk_wait_info x (wait_kind w) (wait_obj w) (wake_tick w).
Definition set_wait_kind (w : wait_info) (x : wait_kind_t) : wait_info :=
  mk_wait_info (wait_pid w) x (wait_obj w) (wake_tick w).
Definition set_wait_obj (w : wait_info) (x : option nat) : wait_info :=
  mk_wait_info (wait_pid w) (wait_kind w) x (wake_tick w).
Definition set_wake_tick (w : wait_info) (x : Z) : wait_info :=
  mk_wait_info (wait_pid w) (wait_kind w) (wait_obj w) x.

Definition wait_info_zero : wait_info :=
  mk_wait_info 0 WAIT_NONE None 0.

#[global] Instance wait_info_inhabited : Inhabited wait_info := populate wait_info_zero.

(** The signal fields of task_t; the queue is its first signal_queue_count entries. *)
Record sig_state := mk_sig_state {
  pending_signals : Z;
  signal_queue : list Z;
  signal_mask : Z;
  signal_handler : list Z;
  signal_restorer : list Z;
  signal_flags : list Z;
  signal_action_mask : list Z;
  signal_saved_tf : trapframe;
  signal_saved_mask : Z;
  signal_active : bool;
  signal_active_num : Z;
}.

Definition set_pending_signals (g : sig_state) (x : Z) : sig_state :=
  mk_sig_state x (signal_queue g) (signal_mask g) (signal_handler g) (signal_restorer g)
    (signal_flags g) (signal_action_mask g) (signal_saved_tf g) (signal_saved_mask g)
    (signal_active g) (signal_active_num g).
Definition set_signal_queue (g : sig_state) (x : list Z) : sig_state :=
  mk_sig_state (pending_signals g) x (signal_mask g) (signal_handler g) (signal_restorer g)
    (signal_flags g) (signal_action_mask g) (signal_saved_tf g) (signal_saved_mask g)
    (signal_active g) (signal_active_num g).
Definition set_signal_mask (g : sig_state) (x : Z) : sig_state :=
  mk_sig_state (pending_signals g) (signal_queue g) x (signal_handler g) (signal_restorer g)
    (signal_flags g) (signal_action_mask g) (signal_saved_tf g) (signal_saved_mask g)
    (signal_active g) (signal_active_num g).
Definition set_signal_handler (g : sig_state) (x : list Z) : sig_state :=
  mk_sig_state (pending_signals g) (signal_queue g) (signal_mask g) x (signal_restorer g)
    (signal_flags g) (signal_action_mask g) (signal_saved_tf g) (signal_saved_mask g)
    (signal_active g) (signal_active_num g).
Definition set_signal_restorer (g : sig_state) (x : list Z) : sig_state :=
  mk_sig_state (pending_signals g) (signal_queue g) (signal_mask g) (signal_handler g) x
    (signal_flags g) (signal_action_mask g) (signal_saved_tf g) (signal_saved_mask g)
    (signal_active g) (signal_active_num g).
Definition set_signal_flags (g : sig_state) (x : list Z) : sig_state :=
  mk_sig_state (pending_signals g) (signal_queue g) (signal_mask g) (signal_handler g)
    (signal_restorer g) x (signal_action_mask g) (signal_saved_tf g) (signal_saved_mask g)
    (signal_active g) (signal_active_num g).
Definition set_signal_action_mask (g : sig_state) (x : list Z) : sig_state :=
  mk_sig_state (pending_signals g) (signal_queue g) (signal_mask g) (signal_handler g)
    (signal_restorer g) (signal_flags g) x (signal_saved_tf g) (signal_saved_mask g)
    (signal_active g) (signal_active_num g).
Definition set_signal_saved_tf (g : sig_state) (x : trapframe) : sig_state :=
  mk_sig_state (pending_signals g) (signal_queue g) (signal_mask g) (signal_handler g)
    (signal_restorer g) (signal_flags g) (signal_action_mask g) x (signal_saved_mask g)
    (signal_active g) (signal_active_num g).
Definition set_signal_saved_mask (g : sig_state) (x : Z) : sig_state :=
  mk_sig_state (pending_signals g) (signal_queue g) (signal_mask g) (signal_handler g)
    (signal_restorer g) (signal_flags g) (signal_action_mask g) (signal_saved_tf g) x
    (signal_active g) (signal_active_num g).
Definition set_signal_active (g : sig_state) (x : bool) : sig_state :=
  mk_sig_state (pending_signals g) (signal_queue g) (signal_mask g) (signal_handler g)
    (signal_restorer g) (signal_flags g) (signal_action_mask g) (signal_saved_tf g)
    (signal_saved_mask g) x (signal_active_num g).
Definition set_signal_active_num (g : sig_state) (x : Z) : sig_state :=
  mk_sig_state (pending_signals g) (signal_queue g) (signal_mask g) (signal_handler g)
    (signal_restorer g) (signal_flags g) (signal_action_mask g) (signal_saved_tf g)
    (signal_saved_mask g) (signal_active g) x.

Definition sig_state_zero : sig_state :=
  mk_sig_state 0 [] 0 (replicate 32 0) (replicate 32 0) (replicate 32 0) (replicate 32 0) trapframe_zero 0 false 0.

#[global] Instance sig_state_inhabited : Inhabited sig_state := populate sig_state_zero.

(** The address-space fields of task_t. *)
Record vm_state := mk_vm_state {
  asid : Z;
  asid_epoch : Z;
  ttbr0_phys : Z;
  l1 : option ptable;
  l2_low : option ptable;
  l3_user_a : option ptable;
  l3_user_b : option ptable;
  pages : list user_page;
  heap_base : Z;
  heap_end : Z;
  heap_limit : Z;
  stack_base : Z;
  stack_mapped_bottom : Z;
  vmas : list vm_area;
  user_page_count : Z;
  cow_page_count : Z;
  private_page_count : Z;
  mem_charge_pages : Z;
}.

Definition set_asid (m : vm_state) (x : Z) : vm_state :=
  mk_vm_state x (asid_epoch m) (ttbr0_phys m) (l1 m) (l2_low m) (l3_user_a m) (l3_user_b m)
    (pages m) (heap_base m) (heap_end m) (heap_limit m) (stack_base m) (stack_mapped_bottom m)
    (vmas m) (user_page_count m) (cow_page_count m) (private_page_count m) (mem_charge_pages m).
Definition set_asid_epoch (m : vm_state) (x : Z) : vm_state :=
  mk_vm_state (asid m) x (ttbr0_phys m) (l1 m) (l2_low m) (l3_user_a m) (l3_user_b m) (pages m)
    (heap_base m) (heap_end m) (heap_limit m) (stack_base m) (stack_mapped_bottom m) (vmas m)
    (user_page_count m) (cow_page_count m) (private_page_count m) (mem_charge_pages m).
Definition set_ttbr0_phys (m : vm_state) (x : Z) : vm_state :=
  mk_vm_state (asid m) (asid_epoch m) x (l1 m) (l2_low m) (l3_user_a m) (l3_user_b m) (pages m)
    (heap_base m) (heap_end m) (heap_limit m) (stack_base m) (stack_mapped_bottom m) (vmas m)
    (user_page_count m) (cow_page_count m) (private_page_count m) (mem_charge_pages m).
Definition set_l1 (m : vm_state) (x : option ptable) : vm_state :=
  mk_vm_state (asid m) (asid_epoch m) (ttbr0_phys m) x (l2_low m) (l3_user_a m) (l3_user_b m)
    (pages m) (heap_base m) (heap_end m) (heap_limit m) (stack_base m) (stack_mapped_bottom m)
    (vmas m) (user_page_count m) (cow_page_count m) (private_page_count m) (mem_charge_pages m).
Definition set_l2_low (m : vm_state) (x : option ptable) : vm_state :=
  mk_vm_state (asid m) (asid_epoch m) (ttbr0_phys m) (l1 m) x (l3_user_a m) (l3_user_b m)
    (pages m) (heap_base m) (heap_end m) (heap_limit m) (stack_base m) (stack_mapped_bottom m)
    (vmas m) (user_page_count m) (cow_page_count m) (private_page_count m) (mem_charge_pages m).
Definition set_l3_user_a (m : vm_state) (x : option ptable) : vm_state :=
  mk_vm_state (asid m) (asid_epoch m) (ttbr0_phys m) (l1 m) (l2_low m) x (l3_user_b m) (pages m)
    (heap_base m) (heap_end m) (heap_limit m) (stack_base m) (stack_mapped_bottom m) (vmas m)
    (user_page_count m) (cow_page_count m) (private_page_count m) (mem_charge_pages m).
Definition set_l3_user_b (m : vm_state) (x : option ptable) : vm_state :=
  mk_vm_state (asid m) (asid_epoch m) (ttbr0_phys m) (l1 m) (l2_low m) (l3_user_a m) x (pages m)
    (heap_base m) (heap_end m) (heap_limit m) (stack_base m) (stack_mapped_bottom m) (vmas m)
    (user_page_count m) (cow_page_count m) (private_page_count m) (mem_charge_pages m).
Definition set_pages (m : vm_state) (x : list user_page) : vm_state :=
  mk_vm_state (asid m) (asid_epoch m) (ttbr0_phys m) (l1 m) (l2_low m) (l3_user_a m)
    (l3_user_b m) x (heap_base m) (heap_end m) (heap_limit m) (stack_base m)
    (stack_mapped_bottom m) (vmas m) (user_page_count m) (cow_page_count m)
    (private_page_count m) (mem_charge_pages m).
Definition set_heap_base (m : vm_state) (x : Z) : vm_state :=
  mk_vm_state (asid m) (asid_epoch m) (ttbr0_phys m) (l1 m) (l2_low m) (l3_user_a m)
    (l3_user_b m) (pages m) x (heap_end m) (heap_limit m) (stack_base m) (stack_mapped_bottom m)
    (vmas m) (user_page_count m) (cow_page_count m) (private_page_count m) (mem_charge_pages m).
Definition set_heap_end (m : vm_state) (x : Z) : vm_state :=
  mk_vm_state (asid m) (asid_epoch m) (ttbr0_phys m) (l1 m) (l2_low m) (l3_user_a m)
    (l3_user_b m) (pages m) (heap_base m) x (heap_limit m) (stack_base m)
    (stack_mapped_bottom m) (vmas m) (user_page_count m) (cow_page_count m)
    (private_page_count m) (mem_charge_pages m).
Definition set_heap_limit (m : vm_state) (x : Z) : vm_state :=
  mk_vm_state (asid m) (asid_epoch m) (ttbr0_phys m) (l1 m) (l2_low m) (l3_user_a m)
    (l3_user_b m) (pages m) (heap_base m) (heap_end m) x (stack_base m) (stack_mapped_bottom m)
    (vmas m) (user_page_count m) (cow_page_count m) (private_page_count m) (mem_charge_pages m).
Definition set_stack_base (m : vm_state) (x : Z) : vm_state :=
  mk_vm_state (asid m) (asid_epoch m) (ttbr0_phys m) (l1 m) (l2_low m) (l3_user_a m)
    (l3_user_b m) (pages m) (heap_base m) (heap_end m) (heap_limit m) x (stack_mapped_bottom m)
    (vmas m) (user_page_count m) (cow_page_count m) (private_page_count m) (mem_charge_pages m).
Definition set_stack_mapped_bottom (m : vm_state) (x : Z) : vm_state :=
  mk_vm_state (asid m) (asid_epoch m) (ttbr0_phys m) (l1 m) (l2_low m) (l3_user_a m)
    (l3_user_b m) (pages m) (heap_base m) (heap_end m) (heap_limit m) (stack_base m) x (vmas m)
    (user_page_count m) (cow_page_count m) (private_page_count m) (mem_charge_pages m).
Definition set_vmas (m : vm_state) (x : list vm_area) : vm_state :=
  mk_vm_state (asid m) (asid_epoch m) (ttbr0_phys m) (l1 m) (l2_low m) (l3_user_a m)
    (l3_user_b m) (pages m) (heap_base m) (heap_end m) (heap_limit m) (stack_base m)
    (stack_mapped_bottom m) x (user_page_count m) (cow_page_count m) (private_page_count m)
    (mem_charge_pages m).
Definition set_user_page_count (m : vm_state) (x : Z) : vm_state :=
  mk_vm_state (asid m) (asid_epoch m) (ttbr0_phys m) (l1 m) (l2_low m) (l3_user_a m)
    (l3_user_b m) (pages m) (heap_base m) (heap_end m) (heap_limit m) (stack_base m)
    (stack_mapped_bottom m) (vmas m) x (cow_page_count m) (private_page_count m)
    (mem_charge_pages m).
Definition set_cow_page_count (m : vm_state) (x : Z) : vm_state :=
  mk_vm_state (asid m) (asid_epoch m) (ttbr0_phys m) (l1 m) (l2_low m) (l3_user_a m)
    (l3_user_b m) (pages m) (heap_base m) (heap_end m) (heap_limit m) (stack_base m)
    (stack_mapped_bottom m) (vmas m) (user_page_count m) x (private_page_count m)
    (mem_charge_pages m).
Definition set_private_page_count (m : vm_state) (x : Z) : vm_state :=
  mk_vm_state (asid m) (asid_epoch m) (ttbr0_phys m) (l1 m) (l2_low m) (l3_user_a m)
    (l3_user_b m) (pages m) (heap_base m) (heap_end m) (heap_limit m) (stack_base m)
    (stack_mapped_bottom m) (vmas m) (user_page_count m) (cow_page_count m) x
    (mem_charge_pages m).
Definition set_mem_charge_pages (m : vm_state) (x : Z) : vm_state :=
  mk_vm_state (asid m) (asid_epoch m) (ttbr0_phys m) (l1 m) (l2_low m) (l3_user_a m)
    (l3_user_b m) (pages m) (heap_base m) (heap_end m) (heap_limit m) (stack_base m)
    (stack_mapped_bottom m) (vmas m) (user_page_count m) (cow_page_count m)
    (private_page_count m) x.

Definition vm_state_zero : vm_state :=
  mk_vm_state 0 0 0 None None None None (replicate MAX_USER_PAGES user_page_zero) 0 0 0 0 0 (replicate MAX_VMAS vm_area_zero) 0 0 0 0.

#[global] Instance vm_state_inhabited : Inhabited vm_state := populate vm_state_zero.

(** task_t. *)
Record task := mk_task {
  pid : Z;
  ppid : Z;
  pgid : Z;
  state : task_state;
  exit_code : Z;
  t_wait : wait_info;
  t_vm : vm_state;
  t_sig : sig_state;
  stop_report_pending : bool;
  cont_report_pending : bool;
  stop_signal : Z;
  comm : list Z;
  debug_syms : list debug_sym;
  fds : list fd;
  cwd : list Z;
  kstack_base : Z;
  kstack_top : Z;
  t_tf : option trapframe;
}.

Definition set_pid (t : task) (x : Z) : task :=
  mk_task x (ppid t) (pgid t) (state t) (exit_code t) (t_wait t) (t_vm t) (t_sig t)
    (stop_report_pending t) (cont_report_pending t) (stop_signal t) (comm t) (debug_syms t)
    (fds t) (cwd t) (kstack_base t) (kstack_top t) (t_tf t).
Definition set_ppid (t : task) (x : Z) : task :=
  mk_task (pid t) x (pgid t) (state t) (exit_code t) (t_wait t) (t_vm t) (t_sig t)
    (stop_report_pending t) (cont_report_pending t) (stop_signal t) (comm t) (debug_syms t)
    (fds t) (cwd t) (kstack_base t) (kstack_top t) (t_tf t).
Definition set_pgid (t : task) (x : Z) : task :=
  mk_task (pid t) (ppid t) x (state t) (exit_code t) (t_wait t) (t_vm t) (t_sig t)
    (stop_report_pending t) (cont_report_pending t) (stop_signal t) (comm t) (debug_syms t)
    (fds t) (cwd t) (kstack_base t) (kstack_top t) (t_tf t).
Definition set_state (t : task) (x : task_state) : task :=
  mk_task (pid t) (ppid t) (pgid t) x (exit_code t) (t_wait t) (t_vm t) (t_sig t)
    (stop_report_pending t) (cont_report_pending t) (stop_signal t) (comm t) (debug_syms t)
    (fds t) (cwd t) (kstack_base t) (kstack_top t) (t_tf t).
Definition set_exit_code (t : task) (x : Z) : task :=
  mk_task (pid t) (ppid t) (pgid t) (state t) x (t_wait t) (t_vm t) (t_sig t)
    (stop_report_pending t) (cont_report_pending t) (stop_signal t) (comm t) (debug_syms t)
    (fds t) (cwd t) (kstack_base t) (kstack_top t) (t_tf t).
Definition set_t_wait (t : task) (x : wait_info) : task :=
  mk_task (pid t) (ppid t) (pgid t) (state t) (exit_code t) x (t_vm t) (t_sig t)
    (stop_report_pending t) (cont_report_pending t) (stop_signal t) (comm t) (debug_syms t)
    (fds t) (cwd t) (kstack_base t) (kstack_top t) (t_tf t).
Definition set_t_vm (t : task) (x : vm_state) : task :=
  mk_task (pid t) (ppid t) (pgid t) (state t) (exit_code t) (t_wait t) x (t_sig t)
    (stop_report_pending t) (cont_report_pending t) (stop_signal t) (comm t) (debug_syms t)
    (fds t) (cwd t) (kstack_base t) (kstack_top t) (t_tf t).
Definition set_t_sig (t : task) (x : sig_state) : task :=
  mk_task (pid t) (ppid t) (pgid t) (state t) (exit_code t) (t_wait t) (t_vm t) x
    (stop_report_pending t) (cont_report_pending t) (stop_signal t) (comm t) (debug_syms t)
    (fds t) (cwd t) (kstack_base t) (kstack_top t) (t_tf t).
Definition set_stop_report_pending (t : task) (x : bool) : task :=
  mk_task (pid t) (ppid t) (pgid t) (state t) (exit_code t) (t_wait t) (t_vm t) (t_sig t) x
    (cont_report_pending t) (stop_signal t) (comm t) (debug_syms t) (fds t) (cwd t)
    (kstack_base t) (kstack_top t) (t_tf t).
Definition set_cont_report_pending (t : task) (x : bool) : task :=
  mk_task (pid t) (ppid t) (pgid t) (state t) (exit_code t) (t_wait t) (t_vm t) (t_sig t)
    (stop_report_pending t) x (stop_signal t) (comm t) (debug_syms t) (fds t) (cwd t)
    (kstack_base t) (kstack_top t) (t_tf t).
Definition set_stop_signal (t : task) (x : Z) : task :=
  mk_task (pid t) (ppid t) (pgid t) (state t) (exit_code t) (t_wait t) (t_vm t) (t_sig t)
    (stop_report_pending t) (cont_report_pending t) x (comm t) (debug_syms t) (fds t) (cwd t)
    (kstack_base t) (kstack_top t) (t_tf t).
Definition set_comm (t : task) (x : list Z) : task :=
  mk_task (pid t) (ppid t) (pgid t) (state t) (exit_code t) (t_wait t) (t_vm t) (t_sig t)
    (stop_report_pending t) (cont_report_pending t) (stop_signal t) x (debug_syms t) (fds t)
    (cwd t) (kstack_base t) (kstack_top t) (t_tf t).
Definition set_debug_syms (t : task) (x : list debug_sym) : task :=
  mk_task (pid t) (ppid t) (pgid t) (state t) (exit_code t) (t_wait t) (t_vm t) (t_sig t)
    (stop_report_pending t) (cont_report_pending t) (stop_signal t) (comm t) x (fds t) (cwd t)
    (kstack_base t) (kstack_top t) (t_tf t).
Definition set_fds (t : task) (x : list fd) : task :=
  mk_task (pid t) (ppid t) (pgid t) (state t) (exit_code t) (t_wait t) (t_vm t) (t_sig t)
    (stop_report_pending t) (cont_report_pending t) (stop_signal t) (comm t) (debug_syms t) x
    (cwd t) (kstack_base t) (kstack_top t) (t_tf t).
Definition set_cwd (t : task) (x : list Z) : task :=
  mk_task (pid t) (ppid t) (pgid t) (state t) (exit_code t) (t_wait t) (t_vm t) (t_sig t)
    (stop_report_pending t) (cont_report_pending t) (stop_signal t) (comm t) (debug_syms t)
    (fds t) x (kstack_base t) (kstack_top t) (t_tf t).
Definition set_kstack_base (t : task) (x : Z) : task :=
  mk_task (pid t) (ppid t) (pgid t) (state t) (exit_code t) (t_wait t) (t_vm t) (t_sig t)
    (stop_report_pending t) (cont_report_pending t) (stop_signal t) (comm t) (debug_syms t)
    (fds t) (cwd t) x (kstack_top t) (t_tf t).
Definition set_kstack_top (t : task) (x : Z) : task :=
  mk_task (pid t) (ppid t) (pgid t) (state t) (exit_code t) (t_wait t) (t_vm t) (t_sig t)
    (stop_report_pending t) (cont_report_pending t) (stop_signal t) (comm t) (debug_syms t)
    (fds t) (cwd t) (kstack_base t) x (t_tf t).
Definition set_t_tf (t : task) (x : option trapframe) : task :=
  mk_task (pid t) (ppid t) (pgid t) (state t) (exit_code t) (t_wait t) (t_vm t) (t_sig t)
    (stop_report_pending t) (cont_report_pending t) (stop_signal t) (comm t) (debug_syms t)
    (fds t) (cwd t) (kstack_base t) (kstack_top t) x.

Definition task_zero : task :=
  mk_task 0 0 0 TASK_UNUSED 0 wait_info_zero vm_state_zero sig_state_zero false false 0 (replicate 32 0) [] (replicate MAX_FDS fd_zero) (replicate 128 0) 0 0 None.

#[global] Instance task_inhabited : Inhabited task := populate task_zero.
