(* ===== verification/Signal.v ===== *)
(** * Pending signals (kernel/task.c)

    The signal state of one task: the pending set, the arrival queue, the mask and
    the actions. The operations here are the ones of kernel/task.c that work on a
    single task; sending, delivering and the effects on other tasks are in
    Proc.v. *)

From S2P Require Import Prelude TaskDefs.

Abbreviation SIGHUP := 1 (only parsing).
Abbreviation SIGINT := 2 (only parsing).
Abbreviation SIGQUIT := 3 (only parsing).
Abbreviation SIGKILL := 9 (only parsing).
Abbreviation SIGPIPE := 13 (only parsing).
Abbreviation SIGTERM := 15 (only parsing).
Abbreviation SIGCHLD := 17 (only parsing).
Abbreviation SIGCONT := 18 (only parsing).
Abbreviation SIGSTOP := 19 (only parsing).
Abbreviation SIG_DFL := 0 (only parsing).
Abbreviation SIG_IGN := 1 (only parsing).
Abbreviation SIG_BLOCK := 0 (only parsing).
Abbreviation SIG_UNBLOCK := 1 (only parsing).
Abbreviation SIG_SETMASK := 2 (only parsing).
Abbreviation SA_RESTART := 0x10000000 (only parsing).
Abbreviation SA_RESTORER := 0x04000000 (only parsing).
Abbreviation SA_NODEFER := 0x40000000 (only parsing).
Abbreviation SA_RESETHAND := 0x80000000 (only parsing).
Abbreviation SA_NOCLDSTOP := 1 (only parsing).
Abbreviation SA_NOCLDWAIT := 2 (only parsing).

(** ** Definitions *)

(** [1U << (sig & 31)]. *)
Definition SIGBIT (sig : Z) : Z := Z.shiftl 1 (Z.land sig 31).

(** The bits [SIGBIT(SIGKILL) | SIGBIT(SIGSTOP)]. *)
Definition unmaskable : Z := Z.lor (SIGBIT SIGKILL) (SIGBIT SIGSTOP).

Definition sig_arr (a : list Z) (sig : Z) : Z := a !!! Z.to_nat sig.

Definition task_signal_supported (sig : Z) : bool :=
  (sig =? 0) || (sig =? SIGHUP) || (sig =? SIGINT) || (sig =? SIGQUIT) || (sig =? SIGPIPE) ||
  (sig =? SIGTERM) || (sig =? SIGKILL) || (sig =? SIGSTOP) || (sig =? SIGCONT) || (sig =? SIGCHLD).

Inductive task_sig_default_action_t :=
  | TASK_SIG_DFL_TERM | TASK_SIG_DFL_IGNORE | TASK_SIG_DFL_STOP | TASK_SIG_DFL_CONT.

Definition task_signal_default_action (sig : Z) : task_sig_default_action_t :=
  if sig =? SIGCHLD then TASK_SIG_DFL_IGNORE
  else if sig =? SIGSTOP then TASK_SIG_DFL_STOP
  else if sig =? SIGCONT then TASK_SIG_DFL_CONT
  else TASK_SIG_DFL_TERM.

Definition task_signal_blocked (g : sig_state) (sig : Z) : bool :=
  if (sig <=? 0) || (32 <=? sig) then false
  else if (sig =? SIGKILL) || (sig =? SIGSTOP) then false
  else negb (Z.land (signal_mask g) (SIGBIT sig) =? 0).

(** Shift the entries after [idx] down by one. *)
Definition task_signal_queue_remove_index (g : sig_state) (idx : nat) : sig_state :=
  if (length (signal_queue g) <=? idx)%nat then g
  else set_signal_queue g (take idx (signal_queue g) ++ drop (S idx) (signal_queue g)).

(** The loop of [task_signal_clear_pending] from index [i]: remove the entry, or
    move on to the next. [n] bounds the entries left to look at. *)
Fixpoint clear_pending_loop (n : nat) (i : nat) (g : sig_state) (sig : Z) : sig_state :=
  match n with
  | O => g
  | S n' =>
      match signal_queue g !! i with
      | None => g
      | Some x =>
          if x =? u8 sig then clear_pending_loop n' i (task_signal_queue_remove_index g i) sig
          else clear_pending_loop n' (S i) g sig
      end
  end.

Definition task_signal_clear_pending (g : sig_state) (sig : Z) : sig_state :=
  if (sig <=? 0) || (32 <=? sig) then g
  else
    let g := set_pending_signals g (Z.land (pending_signals g) (not32 (SIGBIT sig))) in
    clear_pending_loop (length (signal_queue g)) 0 g sig.

Definition task_signal_enqueue (g : sig_state) (sig : Z) : bool * sig_state :=
  if (sig <=? 0) || (32 <=? sig) then (false, g)
  else
    let g := if sig =? SIGCONT then task_signal_clear_pending g SIGSTOP
             else if sig =? SIGSTOP then task_signal_clear_pending g SIGCONT
             else g in
    let bit := SIGBIT sig in
    if negb (Z.land (pending_signals g) bit =? 0) then (true, g)
    else
      let g := set_pending_signals g (Z.lor (pending_signals g) bit) in
      if (length (signal_queue g) <? TASK_SIGNAL_QUEUE_LEN)%nat
      then (true, set_signal_queue g (signal_queue g ++ [u8 sig]))
      else (true, g).

(** The first loop of [task_pick_pending_unblocked], from index [i]: the signal
    taken, if any, and the state. *)
Fixpoint pick_queue_loop (n : nat) (i : nat) (g : sig_state) : option Z * sig_state :=
  match n with
  | O => (None, g)
  | S n' =>
      match signal_queue g !! i with
      | None => (None, g)
      | Some sig =>
          if (sig <=? 0) || (32 <=? sig) || (Z.land (pending_signals g) (SIGBIT sig) =? 0) then
            pick_queue_loop n' i (task_signal_queue_remove_index g i)
          else if task_signal_blocked g sig then pick_queue_loop n' (S i) g
          else
            let g := task_signal_queue_remove_index g i in
            (Some sig, set_pending_signals g (Z.land (pending_signals g) (not32 (SIGBIT sig))))
      end
  end.

(** The second loop, over the signal numbers. *)
Fixpoint pick_pending_loop (sigs : list Z) (g : sig_state) : Z * sig_state :=
  match sigs with
  | [] => (0, g)
  | sig :: sigs' =>
      if Z.land (pending_signals g) (SIGBIT sig) =? 0 then pick_pending_loop sigs' g
      else if task_signal_blocked g sig then pick_pending_loop sigs' g
      else (sig, set_pending_signals g (Z.land (pending_signals g) (not32 (SIGBIT sig))))
  end.

Definition task_pick_pending_unblocked (g : sig_state) : Z * sig_state :=
  match pick_queue_loop (length (signal_queue g)) 0 g with
  | (Some sig, g) => (sig, g)
  | (None, g) => pick_pending_loop (seqZ 1 31) g
  end.

Definition set_action (g : sig_state) (sig handler flags restorer mask : Z) : sig_state :=
  let i := Z.to_nat sig in
  let g := set_signal_handler g (<[i := handler]> (signal_handler g)) in
  let g := set_signal_flags g (<[i := flags]> (signal_flags g)) in
  let g := set_signal_restorer g (<[i := restorer]> (signal_restorer g)) in
  set_signal_action_mask g (<[i := mask]> (signal_action_mask g)).

(** The loop body of [task_reset_signal_state_for_exec] over the signals. *)
Fixpoint exec_reset_loop (sigs : list Z) (g : sig_state) : sig_state :=
  match sigs with
  | [] => g
  | sig :: sigs' =>
      if sig_arr (signal_handler g) sig =? SIG_IGN
      then exec_reset_loop sigs' (set_action g sig (sig_arr (signal_handler g) sig) 0 0 0)
      else exec_reset_loop sigs' (set_action g sig SIG_DFL 0 0 0)
  end.

Definition task_reset_signal_state_for_exec (g : sig_state) : sig_state :=
  let g := set_pending_signals g 0 in
  let g := set_signal_queue g [] in
  let g := set_signal_active g false in
  let g := set_signal_active_num g 0 in
  let g := set_signal_saved_mask g 0 in
  let g := set_signal_saved_tf g trapframe_zero in
  let g := exec_reset_loop (seqZ 1 31) g in
  set_signal_mask g (Z.land (signal_mask g) (not32 unmaskable)).

Definition task_inherit_signal_state_for_fork (child parent : sig_state) : sig_state :=
  let c := set_signal_mask child (Z.land (signal_mask parent) (not32 unmaskable)) in
  let c := set_signal_handler c (signal_handler parent) in
  let c := set_signal_restorer c (signal_restorer parent) in
  let c := set_signal_flags c (signal_flags parent) in
  let c := set_signal_action_mask c (signal_action_mask parent) in
  let c := set_pending_signals c 0 in
  let c := set_signal_queue c [] in
  let c := set_signal_active c false in
  let c := set_signal_active_num c 0 in
  let c := set_signal_saved_mask c 0 in
  set_signal_saved_tf c trapframe_zero.

(** [task_sigprocmask] on the caller: the result and the old mask it stores. *)
Definition task_sigprocmask (g : sig_state) (how set : Z) : Z * Z * sig_state :=
  let old := signal_mask g in
  if negb (how =? SIG_BLOCK) && negb (how =? SIG_UNBLOCK) && negb (how =? SIG_SETMASK)
  then (-22, old, g)
  else
    let set32 := u32 set in
    let newmask :=
      if how =? SIG_BLOCK then Z.lor (signal_mask g) set32
      else if how =? SIG_UNBLOCK then Z.land (signal_mask g) (not32 set32)
      else set32 in
    (0, old, set_signal_mask g (Z.land newmask (not32 unmaskable))).

(** [task_sigreturn]: the frame to return to and the restored state. *)
Definition task_sigreturn (g : sig_state) : option (trapframe * sig_state) :=
  if negb (signal_active g) then None
  else
    let tf := signal_saved_tf g in
    let g := set_signal_mask g (signal_saved_mask g) in
    let g := set_signal_active g false in
    let g := set_signal_active_num g 0 in
    Some (tf, set_signal_saved_mask g 0).

Record sigaction := mk_sigaction { sa_handler : Z; sa_flags : Z; sa_restorer : Z; sa_mask : Z }.

Definition SA_KNOWN : Z :=
  Z.lor (Z.lor (Z.lor (Z.lor (Z.lor SA_RESTART SA_RESTORER) SA_NODEFER) SA_RESETHAND)
           SA_NOCLDSTOP) SA_NOCLDWAIT.

Definition sigaction_old (g : sig_state) (sig : Z) : sigaction :=
  mk_sigaction (sig_arr (signal_handler g) sig) (sig_arr (signal_flags g) sig)
    (sig_arr (signal_restorer g) sig) (sig_arr (signal_action_mask g) sig).

(** The part of [task_sigaction] that works on the caller's own state: [None] for
    EINVAL. The SIGCHLD case goes on in Proc.v. *)
Definition sigaction_store (g : sig_state) (sig : Z) (act : option sigaction) : option sig_state :=
  if (sig <=? 0) || (32 <=? sig) || negb (task_signal_supported sig) then None
  else
    match act with
    | None => Some g
    | Some a =>
        if ((sig =? SIGKILL) || (sig =? SIGSTOP)) && negb (sa_handler a =? SIG_DFL) then None
        else Some (set_action g sig (sa_handler a) (u32 (Z.land (sa_flags a) SA_KNOWN))
                     (sa_restorer a) (u32 (Z.land (sa_mask a) 0x7FFFFFFF)))
    end.

(** Entering a handler, the tail of [task_deliver_pending_signal]: [tf] is the
    interrupted frame; the result is the state and the frame to run. *)
Definition enter_handler (g : sig_state) (tf : trapframe) (sig : Z) : sig_state * trapframe :=
  let handler := sig_arr (signal_handler g) sig in
  let restorer := sig_arr (signal_restorer g) sig in
  let flags := sig_arr (signal_flags g) sig in
  let action_mask := sig_arr (signal_action_mask g) sig in
  let saved :=
    if (tf_x tf !!! 0%nat =? u64 (-2)) && (Z.land flags SA_RESTART =? 0)
    then set_tf_x tf (<[0%nat := u64 (-4)]> (tf_x tf)) else tf in
  let g := set_signal_saved_tf g saved in
  let g := set_signal_saved_mask g (signal_mask g) in
  let g := set_signal_active g true in
  let g := set_signal_active_num g (u8 sig) in
  let g := if negb (Z.land flags SA_RESETHAND =? 0) then set_action g sig SIG_DFL 0 0 0 else g in
  let g := set_signal_mask g (Z.lor (signal_mask g) (Z.land action_mask 0x7FFFFFFF)) in
  let g := if Z.land flags SA_NODEFER =? 0
           then set_signal_mask g (Z.lor (signal_mask g) (SIGBIT sig)) else g in
  let g := set_signal_mask g (Z.land (signal_mask g) (not32 unmaskable)) in
  let tf := set_elr_el1 tf handler in
  let tf := set_tf_x tf (<[0%nat := u64 sig]> (tf_x tf)) in
  (g, set_tf_x tf (<[30%nat := restorer]> (tf_x tf))).

(** ** Bits *)

Lemma not32_testbit x i :
  is_u32 x -> 0 <= i -> Z.testbit (not32 x) i = (i <? 32) && negb (Z.testbit x i).
Proof.
  intros Hx Hi. unfold is_u32 in Hx.
  assert (H : not32 x = Z.ldiff (Z.ones 32) x).
  { unfold not32. rewrite <- Z.sub_nocarry_ldiff; [rewrite Z.ones_equiv; lia|].
    apply Z.bits_inj'. intros n Hn. rewrite Z.ldiff_spec, Z.bits_0, Z.testbit_ones_nonneg by lia.
    destruct (Z.ltb_spec n 32); simpl; [by rewrite andb_false_r|].
    rewrite (Z.bits_above_log2 x n); [done|lia|].
    destruct (decide (x = 0)) as [->|]; [simpl; lia|].
    assert (Z.log2 x < 32) by (apply Z.log2_lt_pow2; lia). lia. }
  rewrite H, Z.ldiff_spec, Z.testbit_ones_nonneg by lia. done.
Qed.

Lemma SIGBIT_pow s : 0 <= s < 32 -> SIGBIT s = 2 ^ s.
Proof.
  intros Hs. unfold SIGBIT. replace 31 with (2 ^ 5 - 1) by done.
  rewrite land_mask_mod, Z.mod_small, Z.shiftl_mul_pow2 by lia. lia.
Qed.

Lemma SIGBIT_testbit s i : 0 <= s < 32 -> 0 <= i -> Z.testbit (SIGBIT s) i = (i =? s).
Proof. intros Hs Hi. rewrite SIGBIT_pow by done. rewrite Z.pow2_bits_eqb by lia. apply Z.eqb_sym. Qed.

Lemma SIGBIT_u32 s : 0 <= s < 32 -> is_u32 (SIGBIT s).
Proof.
  intros Hs. rewrite SIGBIT_pow by done. unfold is_u32. split; [apply Z.pow_nonneg; lia|].
  apply Z.pow_lt_mono_r; lia.
Qed.

Lemma land_SIGBIT p s : 0 <= s < 32 -> (Z.land p (SIGBIT s) =? 0) = negb (Z.testbit p s).
Proof.
  intros Hs. destruct (Z.testbit p s) eqn:E; simpl; [apply Z.eqb_neq|apply Z.eqb_eq].
  - intros H. apply (f_equal (fun z => Z.testbit z s)) in H.
    rewrite Z.land_spec, SIGBIT_testbit, E, Z.eqb_refl, Z.bits_0 in H by lia. done.
  - apply Z.bits_inj'. intros i Hi. rewrite Z.land_spec, SIGBIT_testbit, Z.bits_0 by lia.
    destruct (Z.eqb_spec i s) as [->|]; [by rewrite E|apply andb_false_r].
Qed.

Lemma clear_bit_testbit p s i :
  is_u32 p -> 0 <= s < 32 -> 0 <= i ->
  Z.testbit (Z.land p (not32 (SIGBIT s))) i = Z.testbit p i && negb (i =? s).
Proof.
  intros Hp Hs Hi. rewrite Z.land_spec, not32_testbit, SIGBIT_testbit by (auto using SIGBIT_u32; lia).
  destruct (Z.ltb_spec i 32); [done|]. unfold is_u32 in Hp.
  assert (Z.testbit p i = false) as ->; [|done].
  destruct (decide (p = 0)) as [->|]; [apply Z.bits_0|]. apply Z.bits_above_log2; [lia|].
  assert (Z.log2 p < 32) by (apply Z.log2_lt_pow2; lia). lia.
Qed.

Lemma u32_of_bits p : 0 <= p -> (forall i, 32 <= i -> Z.testbit p i = false) -> is_u32 p.
Proof.
  intros Hp Hb. unfold is_u32. split; [done|]. destruct (decide (p = 0)) as [->|]; [lia|].
  apply Z.log2_lt_pow2; [lia|]. destruct (Z.ltb_spec (Z.log2 p) 32) as [|Hge]; [done|].
  specialize (Hb _ Hge). rewrite Z.bit_log2 in Hb by lia. done.
Qed.

Lemma u32_testbit_high p i : is_u32 p -> 32 <= i -> Z.testbit p i = false.
Proof.
  unfold is_u32. intros Hp Hi. destruct (decide (p = 0)) as [->|]; [apply Z.bits_0|].
  apply Z.bits_above_log2; [lia|]. assert (Z.log2 p < 32) by (apply Z.log2_lt_pow2; lia). lia.
Qed.

Lemma land_u32 p q : is_u32 p -> 0 <= q -> is_u32 (Z.land p q).
Proof.
  intros Hp Hq. apply u32_of_bits; [apply Z.land_nonneg; unfold is_u32 in Hp; lia|].
  intros i Hi. rewrite Z.land_spec, (u32_testbit_high p) by done. done.
Qed.

Lemma lor_u32 p q : is_u32 p -> is_u32 q -> is_u32 (Z.lor p q).
Proof.
  intros Hp Hq. apply u32_of_bits; [apply Z.lor_nonneg; unfold is_u32 in *; lia|].
  intros i Hi. rewrite Z.lor_spec, !u32_testbit_high by done. done.
Qed.

Lemma not32_u32 p : is_u32 p -> is_u32 (not32 p).
Proof. unfold is_u32, not32. lia. Qed.

Lemma unmaskable_u32 : is_u32 unmaskable.
Proof. vm_compute. split; congruence. Qed.

#[export] Hint Resolve SIGBIT_u32 land_u32 lor_u32 not32_u32 unmaskable_u32 : furios.

Lemma maskable_testbit m i :
  is_u32 m -> 0 <= i < 32 ->
  Z.testbit (Z.land m (not32 unmaskable)) i = Z.testbit m i && negb ((i =? SIGKILL) || (i =? SIGSTOP)).
Proof.
  intros Hm Hi. rewrite Z.land_spec, not32_testbit by (auto using unmaskable_u32; lia).
  unfold unmaskable. rewrite Z.lor_spec, !SIGBIT_testbit by lia.
  destruct (Z.ltb_spec i 32); [done|lia].
Qed.

(** ** Invariant *)

(** The queue lists exactly the pending signals, once each, in arrival order;
    SIGKILL and SIGSTOP are never masked and keep their default action. *)
Record sig_wf (g : sig_state) : Prop := {
  sw_pending : is_u32 (pending_signals g);
  sw_mask : is_u32 (signal_mask g);
  sw_saved : is_u32 (signal_saved_mask g);
  sw_range : Forall (fun s => 1 <= s < 32) (signal_queue g);
  sw_nodup : NoDup (signal_queue g);
  sw_bits i : 0 <= i < 32 -> Z.testbit (pending_signals g) i = true <-> i ∈ signal_queue g;
  sw_kill : Z.land (signal_mask g) unmaskable = 0;
  sw_saved_kill : Z.land (signal_saved_mask g) unmaskable = 0;
  sw_len : length (signal_handler g) = 32%nat /\ length (signal_flags g) = 32%nat /\
           length (signal_restorer g) = 32%nat /\ length (signal_action_mask g) = 32%nat;
  sw_amask : Forall is_u32 (signal_action_mask g);
  sw_kill_dfl : sig_arr (signal_handler g) SIGKILL = SIG_DFL;
  sw_stop_dfl : sig_arr (signal_handler g) SIGSTOP = SIG_DFL;
}.

(** A state that differs from a well-formed one only in pending set and queue. *)
Lemma wf_pending_queue g p q :
  sig_wf g -> is_u32 p -> Forall (fun s => 1 <= s < 32) q -> NoDup q ->
  (forall i, 0 <= i < 32 -> Z.testbit p i = true <-> i ∈ q) ->
  sig_wf (set_signal_queue (set_pending_signals g p) q).
Proof. intros W. destruct W. by constructor. Qed.

Lemma masked_kill m : is_u32 m -> Z.land (Z.land m (not32 unmaskable)) unmaskable = 0.
Proof.
  intros Hm. apply Z.bits_inj'. intros i Hi.
  rewrite !Z.land_spec, Z.bits_0, not32_testbit by (auto using unmaskable_u32).
  destruct (Z.testbit m i), (i <? 32), (Z.testbit unmaskable i); done.
Qed.

Lemma wf_mask g m :
  sig_wf g -> is_u32 m -> sig_wf (set_signal_mask g (Z.land m (not32 unmaskable))).
Proof.
  intros W Hm. destruct W. constructor; simpl; try done; [|by apply masked_kill].
  apply land_u32; [done|]. pose proof (not32_u32 _ unmaskable_u32). unfold is_u32 in *. lia.
Qed.

(** The queue has room: at most 31 distinct signals are pending. *)
Lemma wf_queue_length g : sig_wf g -> (length (signal_queue g) <= 31)%nat.
Proof.
  intros W. assert (H : Z.of_nat (length (Z.pred <$> signal_queue g)) <= Z.max 0 31).
  { apply NoDup_bounded_length.
    - apply NoDup_fmap_2; [intros x y; unfold Z.pred; lia|apply W].
    - intros x Hx. apply list_elem_of_fmap in Hx as (y & -> & Hy).
      pose proof (proj1 (Forall_forall _ _) (sw_range g W) y Hy). simpl in *. lia. }
  rewrite length_fmap in H. lia.
Qed.

(** ** The loops *)

Lemma remove_index_queue g i x :
  signal_queue g !! i = Some x ->
  task_signal_queue_remove_index g i =
  set_signal_queue g (take i (signal_queue g) ++ drop (S i) (signal_queue g)).
Proof.
  intros Hx%lookup_lt_Some. unfold task_signal_queue_remove_index.
  destruct (Nat.leb_spec (length (signal_queue g)) i); [lia|done].
Qed.

Lemma set_queue_id g : set_signal_queue g (signal_queue g) = g.
Proof. by destruct g. Qed.

Lemma take_drop_cons (q : list Z) i x :
  q !! i = Some x -> take (S i) q = take i q ++ [x] /\ drop i q = x :: drop (S i) q.
Proof. intros H. split; [by apply take_S_r|by apply drop_S]. Qed.

Lemma clear_loop_spec n i g sig :
  (length (signal_queue g) <= i + n)%nat -> (i <= length (signal_queue g))%nat ->
  clear_pending_loop n i g sig =
  set_signal_queue g (take i (signal_queue g) ++ filter (fun x => x <> u8 sig) (drop i (signal_queue g))).
Proof.
  revert i g. induction n as [|n IH]; intros i g Hn Hi; simpl.
  { rewrite take_ge, drop_ge by lia. cbn. rewrite app_nil_r. by rewrite set_queue_id. }
  destruct (signal_queue g !! i) as [x|] eqn:Ex.
  - destruct (take_drop_cons _ _ _ Ex) as [Et Ed]. pose proof (lookup_lt_Some _ _ _ Ex).
    destruct (x =? u8 sig) eqn:E; bool_hyps.
    + rewrite (remove_index_queue g i x Ex), IH; simpl.
      * rewrite take_app_le, take_take, Nat.min_id by (rewrite length_take; lia).
        rewrite drop_app_ge by (rewrite length_take; lia).
        rewrite length_take, Nat.min_l, Nat.sub_diag, drop_0 by lia.
        rewrite Ed, filter_cons_False by naive_solver. done.
      * rewrite length_app, length_take, length_drop. lia.
      * rewrite length_app, length_take, length_drop. lia.
    + rewrite IH by lia. rewrite Et, Ed, filter_cons_True by done. by rewrite <- app_assoc.
  - apply lookup_ge_None in Ex. rewrite take_ge, drop_ge by lia. cbn. rewrite app_nil_r.
    by rewrite set_queue_id.
Qed.

Lemma u8_sig s : 0 <= s < 32 -> u8 s = s.
Proof. intros. unfold u8. apply Z.mod_small. lia. Qed.

Lemma clear_pending_eq g sig :
  1 <= sig < 32 ->
  task_signal_clear_pending g sig =
  set_signal_queue (set_pending_signals g (Z.land (pending_signals g) (not32 (SIGBIT sig))))
    (filter (fun x => x <> sig) (signal_queue g)).
Proof.
  intros Hs. unfold task_signal_clear_pending. destruct (_ || _) eqn:E; [lia|]. clear E.
  rewrite clear_loop_spec; simpl; [|lia|lia]. by rewrite u8_sig by lia.
Qed.

Lemma clear_pending_wf g sig : sig_wf g -> sig_wf (task_signal_clear_pending g sig).
Proof.
  intros W. destruct (decide (1 <= sig < 32)) as [Hs|Hs].
  - rewrite clear_pending_eq by done. apply wf_pending_queue; try done.
    + apply land_u32; [apply W|]. pose proof (not32_u32 _ (SIGBIT_u32 sig ltac:(lia))). unfold is_u32 in *. lia.
    + apply Forall_forall. intros x Hx. apply list_elem_of_filter in Hx as [_ Hx].
      by apply (proj1 (Forall_forall _ _) (sw_range g W)).
    + apply NoDup_filter, W.
    + intros i Hi. rewrite clear_bit_testbit by (try apply W; lia).
      rewrite andb_true_iff, list_elem_of_filter, (sw_bits g W i Hi), negb_true_iff, Z.eqb_neq. tauto.
  - unfold task_signal_clear_pending. destruct (_ || _) eqn:E; [done|lia].
Qed.

(** [enqueue] after the SIGCONT/SIGSTOP cancellation. *)
Definition enqueue_cancel (g : sig_state) (sig : Z) : sig_state :=
  if sig =? SIGCONT then task_signal_clear_pending g SIGSTOP
  else if sig =? SIGSTOP then task_signal_clear_pending g SIGCONT
  else g.

Lemma enqueue_cancel_wf g sig : sig_wf g -> sig_wf (enqueue_cancel g sig).
Proof. intros W. unfold enqueue_cancel. repeat split_if; auto using clear_pending_wf. Qed.

(** In a well-formed state [enqueue] appends the signal unless it is already
    pending: the queue is never full. *)
Lemma enqueue_eq g sig :
  sig_wf g -> 1 <= sig < 32 ->
  task_signal_enqueue g sig =
  (true,
   let g := enqueue_cancel g sig in
   if bool_decide (sig ∈ signal_queue g) then g
   else set_signal_queue (set_pending_signals g (Z.lor (pending_signals g) (SIGBIT sig)))
          (signal_queue g ++ [sig])).
Proof.
  intros W Hs. unfold task_signal_enqueue. destruct ((sig <=? 0) || _) eqn:E; [lia|]. clear E.
  fold (enqueue_cancel g sig). cbv zeta.
  pose proof (enqueue_cancel_wf g sig W) as W'. set (g' := enqueue_cancel g sig) in *.
  rewrite land_SIGBIT, negb_involutive by lia.
  pose proof (sw_bits g' W' sig ltac:(lia)) as Hb.
  destruct (Z.testbit (pending_signals g') sig).
  - by rewrite bool_decide_true by tauto.
  - rewrite bool_decide_false by (rewrite <- Hb; done).
    pose proof (wf_queue_length g' W'). cbn [signal_queue set_pending_signals].
    destruct (Nat.ltb_spec (length (signal_queue g')) 64); [|lia]. by rewrite u8_sig by lia.
Qed.

Lemma enqueue_wf g sig : sig_wf g -> sig_wf (task_signal_enqueue g sig).2.
Proof.
  intros W. destruct (decide (1 <= sig < 32)) as [Hs|Hs].
  - rewrite enqueue_eq by done. cbv zeta. cbn [snd].
    pose proof (enqueue_cancel_wf g sig W) as W'. set (g' := enqueue_cancel g sig) in *.
    case_bool_decide as Hin; [done|]. apply wf_pending_queue; try done.
    + apply lor_u32; [apply W'|apply SIGBIT_u32; lia].
    + apply Forall_app. split; [apply W'|]. by constructor.
    + apply NoDup_app. split; [apply W'|]. split; [|apply NoDup_singleton].
      intros x Hx Hx'. apply list_elem_of_singleton in Hx'. by subst.
    + intros i Hi. rewrite Z.lor_spec, SIGBIT_testbit, orb_true_iff, elem_of_app, list_elem_of_singleton,
        (sw_bits g' W' i Hi), Z.eqb_eq by lia. done.
  - unfold task_signal_enqueue. destruct (_ || _) eqn:E; [done|lia].
Qed.

(** The pick loop over a well-formed queue: the first entry that is not blocked. *)
Definition unblocked (g : sig_state) (s : Z) : bool := negb (task_signal_blocked g s).

Lemma pick_loop_spec n i g :
  sig_wf g -> (length (signal_queue g) <= i + n)%nat ->
  pick_queue_loop n i g =
  match list_find (unblocked g) (drop i (signal_queue g)) with
  | Some (j, s) =>
      (Some s, set_pending_signals
                 (set_signal_queue g (take (i + j) (signal_queue g) ++ drop (S (i + j)) (signal_queue g)))
                 (Z.land (pending_signals g) (not32 (SIGBIT s))))
  | None => (None, g)
  end.
Proof.
  intros W. revert i. induction n as [|n IH]; intros i Hn; simpl.
  { by rewrite drop_ge by lia. }
  destruct (signal_queue g !! i) as [s|] eqn:Es.
  2:{ apply lookup_ge_None in Es. by rewrite drop_ge by lia. }
  assert (Hin : s ∈ signal_queue g) by (by eapply list_elem_of_lookup_2).
  pose proof (proj1 (Forall_forall _ _) (sw_range g W) s Hin) as Hs. simpl in Hs.
  pose proof (proj2 (sw_bits g W s ltac:(lia)) Hin) as Hb.
  rewrite land_SIGBIT, Hb by lia. destruct ((s <=? 0) || _ || _) eqn:E; [lia|]. clear E.
  rewrite (drop_S _ _ _ Es). cbn [list_find].
  assert (Hu : task_signal_blocked g s = negb (unblocked g s)) by (unfold unblocked; by rewrite negb_involutive).
  rewrite Hu. clear Hu. destruct (decide (unblocked g s)) as [Hd|Hd].
  - apply Is_true_true in Hd. rewrite Hd. cbn [negb].
    rewrite (remove_index_queue g i s Es), Nat.add_0_r. done.
  - apply Is_true_false in Hd. rewrite Hd. cbn [negb]. rewrite IH by lia.
    destruct (list_find _ (drop (S i) _)) as [[j s']|]; simpl; [|done].
    by rewrite Nat.add_succ_r.
Qed.

Lemma pick_pending_none sigs g :
  Forall (fun s => 1 <= s < 32) sigs ->
  (forall s, 1 <= s < 32 -> Z.testbit (pending_signals g) s = true -> task_signal_blocked g s = true) ->
  pick_pending_loop sigs g = (0, g).
Proof.
  intros Hr Hb. induction Hr as [|s sigs Hs Hr IH]; [done|]. cbn [pick_pending_loop].
  rewrite land_SIGBIT by lia. destruct (Z.testbit (pending_signals g) s) eqn:E; simpl; [|done].
  by rewrite Hb.
Qed.

(** [task_pick_pending_unblocked] on a well-formed state. *)
Lemma pick_spec g :
  sig_wf g ->
  (task_pick_pending_unblocked g = (0, g) /\
   forall s, s ∈ signal_queue g -> task_signal_blocked g s = true) \/
  (exists pre s post,
     signal_queue g = pre ++ s :: post /\ Forall (fun x => task_signal_blocked g x = true) pre /\
     task_signal_blocked g s = false /\
     task_pick_pending_unblocked g =
       (s, set_pending_signals (set_signal_queue g (pre ++ post))
             (Z.land (pending_signals g) (not32 (SIGBIT s))))).
Proof.
  intros W. unfold task_pick_pending_unblocked. rewrite pick_loop_spec by (done || lia).
  rewrite drop_0. destruct (list_find _ _) as [[j s]|] eqn:E.
  - right. apply list_find_Some in E as (Hj & Hu & Hlt).
    exists (take j (signal_queue g)), s, (drop (S j) (signal_queue g)).
    split; [by rewrite take_drop_middle|]. split.
    { apply Forall_lookup. intros k x Hx. apply lookup_take_Some in Hx as [Hx Hk].
      specialize (Hlt _ _ Hx Hk). destruct (task_signal_blocked g x) eqn:Eb; [done|].
      destruct Hlt. unfold unblocked. by rewrite Eb. }
    split; [|done]. unfold unblocked in Hu. by destruct (task_signal_blocked g s).
  - left. apply list_find_None in E. rewrite Forall_forall in E.
    assert (Hall : forall s, s ∈ signal_queue g -> task_signal_blocked g s = true).
    { intros s Hs. specialize (E s Hs). unfold unblocked in E. by destruct (task_signal_blocked g s). }
    split; [|done]. apply pick_pending_none.
    + apply Forall_forall. intros s Hs. apply elem_of_seqZ in Hs. lia.
    + intros s Hs Hb. apply Hall. by apply (sw_bits g W); [lia|].
Qed.

Lemma NoDup_remove_middle (pre post : list Z) s :
  NoDup (pre ++ s :: post) -> NoDup (pre ++ post) /\ (s ∉ pre ++ post).
Proof.
  intros H. rewrite (Permutation_middle pre post s) in H || (rewrite <- Permutation_middle in H).
  apply NoDup_cons in H. tauto.
Qed.

Lemma take_signal_wf g pre s post :
  sig_wf g -> signal_queue g = pre ++ s :: post ->
  sig_wf (set_pending_signals (set_signal_queue g (pre ++ post))
            (Z.land (pending_signals g) (not32 (SIGBIT s)))).
Proof.
  intros W Hq. pose proof (sw_range g W) as Hr. pose proof (sw_nodup g W) as Hd.
  rewrite Hq in Hr, Hd. apply NoDup_remove_middle in Hd as [Hd Hns].
  rewrite Forall_app, Forall_cons in Hr. destruct Hr as (Hpre & Hs & Hpost).
  change (set_pending_signals (set_signal_queue g (pre ++ post)) ?p)
    with (set_signal_queue (set_pending_signals g p) (pre ++ post)).
  apply wf_pending_queue; try done.
  - apply land_u32; [apply W|]. pose proof (not32_u32 _ (SIGBIT_u32 s ltac:(lia))). unfold is_u32 in *. lia.
  - by apply Forall_app.
  - intros i Hi. rewrite clear_bit_testbit by (try apply W; lia).
    rewrite andb_true_iff, negb_true_iff, Z.eqb_neq, (sw_bits g W i Hi), Hq.
    rewrite elem_of_app in Hns. rewrite !elem_of_app, elem_of_cons.
    split; [naive_solver|]. intros Hin. split; [naive_solver|]. intros ->. tauto.
Qed.

Lemma pick_wf g : sig_wf g -> sig_wf (task_pick_pending_unblocked g).2.
Proof.
  intros W. destruct (pick_spec g W) as [[-> _]|(pre & s & post & Hq & _ & _ & ->)]; [done|].
  by apply take_signal_wf.
Qed.

Lemma sig_arr_insert (a : list Z) s x i :
  length a = 32%nat -> 0 <= s < 32 -> 0 <= i < 32 ->
  sig_arr (<[Z.to_nat s := x]> a) i = if decide (s = i) then x else sig_arr a i.
Proof.
  intros Hl Hs Hi. unfold sig_arr. case_decide as E.
  - subst. apply list_lookup_total_insert_eq. lia.
  - apply list_lookup_total_insert_ne. lia.
Qed.

Lemma set_action_wf g sig h f r m :
  sig_wf g -> 0 <= sig < 32 -> is_u32 m -> (sig = SIGKILL \/ sig = SIGSTOP -> h = SIG_DFL) ->
  sig_wf (set_action g sig h f r m).
Proof.
  intros W Hs Hm Hk. destruct (sw_len g W) as (L1 & L2 & L3 & L4).
  destruct W. constructor; simpl; try done.
  - by rewrite !length_insert.
  - apply Forall_insert; [done|done].
  - rewrite sig_arr_insert by (done || lia). case_decide; [|done]. apply Hk. lia.
  - rewrite sig_arr_insert by (done || lia). case_decide; [|done]. apply Hk. lia.
Qed.

Lemma exec_loop_wf sigs g :
  sig_wf g -> Forall (fun s => 1 <= s < 32) sigs -> sig_wf (exec_reset_loop sigs g).
Proof.
  intros W Hr. revert g W. induction Hr as [|s sigs Hs Hr IH]; intros g W; [done|]. cbn [exec_reset_loop].
  destruct (_ =? SIG_IGN) eqn:E; apply IH; apply set_action_wf; try done; unfold is_u32; try lia.
  bool_hyps. intros [->| ->]; [rewrite (sw_kill_dfl g W) in E|rewrite (sw_stop_dfl g W) in E]; done.
Qed.

Lemma no_pending_bits i : 0 <= i < 32 -> Z.testbit 0 i = true <-> i ∈ ([] : list Z).
Proof. intros _. rewrite Z.bits_0. split; [done|]. intros H. by apply not_elem_of_nil in H. Qed.

Lemma clean_sig_wf g saved :
  sig_wf g ->
  sig_wf (set_signal_saved_tf (set_signal_saved_mask (set_signal_active_num (set_signal_active
            (set_signal_queue (set_pending_signals g 0) []) false) 0) 0) saved).
Proof.
  intros W. destruct W. constructor; simpl;
    first [apply no_pending_bits | apply Forall_nil_2 | apply NoDup_nil_2 | done | unfold is_u32; lia].
Qed.

Lemma exec_reset_wf g : sig_wf g -> sig_wf (task_reset_signal_state_for_exec g).
Proof.
  intros W. unfold task_reset_signal_state_for_exec. cbv zeta.
  set (g1 := set_signal_saved_tf _ trapframe_zero).
  assert (W1 : sig_wf g1) by (by apply clean_sig_wf).
  assert (W2 : sig_wf (exec_reset_loop (seqZ 1 31) g1)).
  { apply exec_loop_wf; [done|]. apply Forall_forall. intros s Hs. apply elem_of_seqZ in Hs. lia. }
  apply wf_mask; [done|apply W2].
Qed.

Lemma fork_inherit_wf c p : sig_wf p -> sig_wf (task_inherit_signal_state_for_fork c p).
Proof.
  intros W. pose proof (wf_mask p (signal_mask p) W (sw_mask p W)) as [].
  constructor; simpl in *;
    first [apply no_pending_bits | apply Forall_nil_2 | apply NoDup_nil_2 | done | unfold is_u32; lia].
Qed.

Lemma sigprocmask_wf g how set : sig_wf g -> sig_wf (task_sigprocmask g how set).2.
Proof.
  intros W. unfold task_sigprocmask. destruct (_ && _); [done|]. cbn [snd]. apply wf_mask; [done|].
  pose proof (u32_range set) as Hu. pose proof (sw_mask g W) as Hm.
  destruct (how =? SIG_BLOCK); [by apply lor_u32|].
  destruct (how =? SIG_UNBLOCK); [|done]. apply land_u32; [done|].
  pose proof (not32_u32 _ Hu) as Hn. unfold is_u32 in Hn. lia.
Qed.

Lemma sigreturn_wf g tf g' : sig_wf g -> task_sigreturn g = Some (tf, g') -> sig_wf g'.
Proof.
  intros W. unfold task_sigreturn. destruct (negb _); [done|]. intros [= <- <-].
  destruct W. constructor; simpl; try done; unfold is_u32; lia.
Qed.

Lemma sigaction_wf g sig act g' : sig_wf g -> sigaction_store g sig act = Some g' -> sig_wf g'.
Proof.
  intros W. unfold sigaction_store. destruct ((sig <=? 0) || _ || _) eqn:E; [done|]. bool_hyps.
  destruct act as [a|]; [|by intros [= <-]]. destruct (_ && _) eqn:Ek; [done|]. intros [= <-].
  apply set_action_wf; [done|lia|apply u32_range|]. intros [->| ->]; simpl in Ek; lia.
Qed.

Lemma enter_handler_wf g tf sig : sig_wf g -> 1 <= sig < 32 -> sig_wf (enter_handler g tf sig).1.
Proof.
  intros W Hs. unfold enter_handler. cbv zeta. cbn [fst].
  match goal with |- context [set_signal_saved_tf g ?x] => generalize x; intros saved end.
  set (g1 := set_signal_active_num _ (u8 sig)).
  assert (W1 : sig_wf g1) by (destruct W; by constructor).
  set (g2 := if negb (Z.land _ SA_RESETHAND =? 0) then set_action g1 sig SIG_DFL 0 0 0 else g1).
  assert (W2 : sig_wf g2).
  { unfold g2. destruct (negb _); [|done]. apply set_action_wf; try done; unfold is_u32; lia. }
  assert (Ha : is_u32 (sig_arr (signal_action_mask g) sig)).
  { destruct (sw_len g W) as (_ & _ & _ & L). pose proof (sw_amask g W) as Ham.
    rewrite Forall_lookup in Ham. apply (Ham (Z.to_nat sig)).
    apply list_lookup_lookup_total_lt. lia. }
  assert (Hm2 : is_u32 (Z.lor (signal_mask g2) (Z.land (sig_arr (signal_action_mask g) sig) 0x7FFFFFFF))).
  { apply lor_u32; [apply W2|]. apply land_u32; [done|lia]. }
  destruct (Z.land _ SA_NODEFER =? 0).
  - exact (wf_mask g2 _ W2 (lor_u32 _ _ Hm2 (SIGBIT_u32 sig ltac:(lia)))).
  - exact (wf_mask g2 _ W2 Hm2).
Qed.

Lemma sig_zero_wf : sig_wf sig_state_zero.
Proof.
  constructor;
    first [apply no_pending_bits | apply Forall_nil_2 | apply NoDup_nil_2 | reflexivity
          | unfold is_u32; simpl; lia | by repeat split | apply Forall_replicate; unfold is_u32; lia].
Qed.

#[export] Hint Resolve clear_pending_wf enqueue_wf pick_wf exec_reset_wf fork_inherit_wf
  sigprocmask_wf sigreturn_wf sigaction_wf enter_handler_wf sig_zero_wf : furios.

(** The operations on the signal state of a task, from its creation on. *)
Inductive sig_step : sig_state -> sig_state -> Prop :=
  | step_enqueue g sig : sig_step g (task_signal_enqueue g sig).2
  | step_clear g sig : sig_step g (task_signal_clear_pending g sig)
  | step_pick g : sig_step g (task_pick_pending_unblocked g).2
  | step_mask g how set : sig_step g (task_sigprocmask g how set).2
  | step_action g sig act g' : sigaction_store g sig act = Some g' -> sig_step g g'
  | step_enter g tf sig : 1 <= sig < 32 -> sig_step g (enter_handler g tf sig).1
  | step_return g tf g' : task_sigreturn g = Some (tf, g') -> sig_step g g'
  | step_exec g : sig_step g (task_reset_signal_state_for_exec g)
  | step_fork g child : sig_step g (task_inherit_signal_state_for_fork child g).

Lemma sig_step_wf g g' : sig_step g g' -> sig_wf g -> sig_wf g'.
Proof. intros [] W; eauto using clear_pending_wf, enqueue_wf, pick_wf, exec_reset_wf, fork_inherit_wf,
  sigprocmask_wf, sigreturn_wf, sigaction_wf, enter_handler_wf. Qed.

(** ** Properties *)

(** C30: whatever signals are sent, masked, handled, delivered, cleared or
    inherited, the queue lists exactly the pending signals, each once, so it
    never fills up and no pending signal is lost from it; SIGKILL and SIGSTOP are
    never masked and keep their default action. *)
Theorem signal_state_invariant g :
  rtc sig_step sig_state_zero g ->
  sig_wf g /\ (length (signal_queue g) < TASK_SIGNAL_QUEUE_LEN)%nat /\
  task_signal_blocked g SIGKILL = false /\ task_signal_blocked g SIGSTOP = false.
Proof.
  intros H. assert (W : sig_wf g).
  { pose proof sig_zero_wf as W. induction H as [|g1 g2 g3 Hs _ IH]; [done|].
    apply IH. by apply (sig_step_wf g1). }
  pose proof (wf_queue_length g W). split; [done|]. split; [lia|]. by split.
Qed.

(** SIGCHLD, SIGSTOP and SIGCONT sent in this order; SIGCONT cancels SIGSTOP. *)
Definition sig_demo : sig_state :=
  (task_signal_enqueue
     (task_signal_enqueue (task_signal_enqueue sig_state_zero SIGCHLD).2 SIGSTOP).2 SIGCONT).2.

Lemma sig_demo_reach : rtc sig_step sig_state_zero sig_demo.
Proof.
  unfold sig_demo. eapply rtc_l; [exact (step_enqueue _ SIGCHLD)|].
  eapply rtc_l; [exact (step_enqueue _ SIGSTOP)|].
  apply rtc_once. exact (step_enqueue _ SIGCONT).
Qed.

Lemma sig_demo_wf : sig_wf sig_demo.
Proof. unfold sig_demo. apply enqueue_wf, enqueue_wf, enqueue_wf, sig_zero_wf. Qed.

Lemma signal_state_invariant_witness :
  sig_wf sig_demo /\ signal_queue sig_demo = [SIGCHLD; SIGCONT].
Proof.
  split; [|vm_compute; reflexivity].
  destruct (signal_state_invariant sig_demo sig_demo_reach) as [W _]. exact W.
Defined.

(** The signal taken for delivery is the earliest queued one that is not
    blocked; it stops being pending and everything else is unchanged. None is
    taken exactly when every pending signal is blocked. *)
Theorem pick_pending_fifo g s g' :
  sig_wf g -> task_pick_pending_unblocked g = (s, g') ->
  (s = 0 /\ g' = g /\ forall x, x ∈ signal_queue g -> task_signal_blocked g x = true) \/
  (1 <= s < 32 /\ task_signal_blocked g s = false /\
   exists pre post,
     signal_queue g = pre ++ s :: post /\ Forall (fun x => task_signal_blocked g x = true) pre /\
     signal_queue g' = pre ++ post /\
     (forall i, 0 <= i < 32 ->
        Z.testbit (pending_signals g') i = Z.testbit (pending_signals g) i && negb (i =? s)) /\
     signal_mask g' = signal_mask g /\ signal_handler g' = signal_handler g).
Proof.
  intros W E. destruct (pick_spec g W) as [[Ep Hall]|(pre & x & post & Hq & Hpre & Hx & Ep)].
  - left. rewrite Ep in E. injection E as <- <-. done.
  - right. rewrite Ep in E. injection E as <- <-.
    assert (Hr : 1 <= x < 32).
    { apply (proj1 (Forall_forall _ _) (sw_range g W)). rewrite Hq.
      apply elem_of_app. right. apply elem_of_cons. by left. }
    split; [done|]. split; [done|]. exists pre, post. split_and!; try done.
    intros i Hi. simpl. apply clear_bit_testbit; [apply W|lia|lia].
Qed.

Lemma pick_pending_fifo_witness :
  exists pre post, signal_queue sig_demo = pre ++ SIGCHLD :: post.
Proof.
  destruct (pick_pending_fifo sig_demo SIGCHLD (task_pick_pending_unblocked sig_demo).2 sig_demo_wf)
    as [(H & _)|(_ & _ & pre & post & Hq & _)].
  - vm_compute. reflexivity.
  - discriminate H.
  - exists pre, post. exact Hq.
Defined.

(** Sending a signal makes it pending; it is appended to the queue unless it
    was pending already, SIGCONT first discards a pending SIGSTOP and the other
    way round, and no other signal is affected. *)
Theorem enqueue_correct g sig :
  sig_wf g -> 1 <= sig < 32 ->
  let g' := (task_signal_enqueue g sig).2 in
  let cancelled := if sig =? SIGCONT then SIGSTOP else if sig =? SIGSTOP then SIGCONT else 0 in
  (task_signal_enqueue g sig).1 = true /\
  signal_queue g' =
    (let q := filter (fun x => x <> cancelled) (signal_queue g) in
     if bool_decide (sig ∈ q) then q else q ++ [sig]) /\
  (forall i, 1 <= i < 32 ->
     Z.testbit (pending_signals g') i =
     (i =? sig) || (Z.testbit (pending_signals g) i && negb (i =? cancelled))) /\
  signal_mask g' = signal_mask g /\ signal_handler g' = signal_handler g.
Proof.
  intros W Hs. cbv zeta.
  assert (W' : sig_wf (task_signal_enqueue g sig).2) by by apply enqueue_wf.
  set (cancelled := if sig =? SIGCONT then SIGSTOP else if sig =? SIGSTOP then SIGCONT else 0) in *.
  assert (Hc : signal_queue (enqueue_cancel g sig) = filter (fun x => x <> cancelled) (signal_queue g)).
  { unfold enqueue_cancel, cancelled. destruct (sig =? SIGCONT); [by rewrite clear_pending_eq|].
    destruct (sig =? SIGSTOP); [by rewrite clear_pending_eq|]. symmetry.
    apply filter_all. apply Forall_impl with (1 := sw_range g W). intros; lia. }
  assert (Hg : signal_mask (enqueue_cancel g sig) = signal_mask g /\
               signal_handler (enqueue_cancel g sig) = signal_handler g).
  { unfold enqueue_cancel. repeat split_if; try rewrite clear_pending_eq; done. }
  assert (Hq : signal_queue (task_signal_enqueue g sig).2 =
    (let q := filter (fun x => x <> cancelled) (signal_queue g) in
     if bool_decide (sig ∈ q) then q else q ++ [sig])).
  { rewrite enqueue_eq by done. cbv zeta. cbn [snd]. rewrite Hc. by case_bool_decide. }
  split_and!.
  - by rewrite enqueue_eq by done.
  - done.
  - intros i Hi. pose proof (sw_bits _ W' i ltac:(lia)) as Hb. rewrite Hq in Hb. cbv zeta in Hb.
    pose proof (sw_bits g W i ltac:(lia)) as Hb0.
    apply eq_bool_prop_intro. rewrite !Is_true_true, orb_true_iff, andb_true_iff, negb_true_iff, Z.eqb_eq, Z.eqb_neq.
    rewrite Hb, Hb0. case_bool_decide as Hin; rewrite ?elem_of_app, ?list_elem_of_singleton, list_elem_of_filter;
      [rewrite list_elem_of_filter in Hin|]; split; try tauto. intros [->|?]; tauto.
  - rewrite enqueue_eq by done. cbv zeta. cbn [snd]. case_bool_decide; apply Hg.
  - rewrite enqueue_eq by done. cbv zeta. cbn [snd]. case_bool_decide; apply Hg.
Qed.

Lemma enqueue_correct_witness :
  signal_queue (task_signal_enqueue sig_demo SIGSTOP).2 = [SIGCHLD; SIGSTOP].
Proof.
  destruct (enqueue_correct sig_demo SIGSTOP sig_demo_wf ltac:(lia)) as (_ & Hq & _).
  rewrite Hq. vm_compute. reflexivity.
Defined.

Definition handler_mask (g : sig_state) (sig : Z) : Z :=
  Z.land
    (Z.lor (Z.lor (signal_mask g) (Z.land (sig_arr (signal_action_mask g) sig) 0x7FFFFFFF))
       (if Z.land (sig_arr (signal_flags g) sig) SA_NODEFER =? 0 then SIGBIT sig else 0))
    (not32 unmaskable).

Lemma enter_handler_fields g tf sig :
  let g1 := (enter_handler g tf sig).1 in
  let flags := sig_arr (signal_flags g) sig in
  signal_mask g1 = handler_mask g sig /\ signal_saved_mask g1 = signal_mask g /\
  signal_saved_tf g1 =
    (if (tf_x tf !!! 0%nat =? u64 (-2)) && (Z.land flags SA_RESTART =? 0)
     then set_tf_x tf (<[0%nat := u64 (-4)]> (tf_x tf)) else tf) /\
  signal_active g1 = true /\ pending_signals g1 = pending_signals g /\
  signal_queue g1 = signal_queue g.
Proof.
  unfold enter_handler, handler_mask. cbv zeta. cbn [fst].
  destruct (negb (Z.land _ SA_RESETHAND =? 0)), (Z.land _ SA_NODEFER =? 0);
    cbn; rewrite ?Z.lor_0_r; by split_and!.
Qed.

Lemma blocked_testbit g i :
  1 <= i < 32 -> i <> SIGKILL -> i <> SIGSTOP ->
  task_signal_blocked g i = Z.testbit (signal_mask g) i.
Proof.
  intros Hi Hk Hs. unfold task_signal_blocked. rewrite land_SIGBIT, negb_involutive by lia.
  repeat split_if; lia || done.
Qed.

Lemma blocked_inv g i :
  task_signal_blocked g i = true -> 1 <= i < 32 /\ i <> SIGKILL /\ i <> SIGSTOP.
Proof. unfold task_signal_blocked. repeat split_if; done || lia. Qed.

Lemma handler_mask_testbit g sig i :
  sig_wf g -> 1 <= sig < 32 -> 1 <= i < 32 -> i <> SIGKILL -> i <> SIGSTOP ->
  Z.testbit (signal_mask g) i = true \/
  (i = sig /\ Z.land (sig_arr (signal_flags g) sig) SA_NODEFER = 0) ->
  Z.testbit (handler_mask g sig) i = true.
Proof.
  intros W Hs Hi Hk Hst H. unfold handler_mask.
  rewrite Z.land_spec, not32_testbit by (auto using unmaskable_u32; lia).
  unfold unmaskable. rewrite !Z.lor_spec, !SIGBIT_testbit by lia.
  apply andb_true_iff. split; [|lia]. rewrite !orb_true_iff.
  destruct H as [H|[-> H]]; [tauto|]. right. rewrite H. simpl.
  rewrite SIGBIT_testbit by lia. by rewrite Z.eqb_refl.
Qed.


Definition handler_demo : sig_state := set_action sig_demo SIGCHLD 0x400100 SA_RESTORER 0x400200 0.

Lemma handler_demo_wf : sig_wf handler_demo.
Proof. apply set_action_wf; [apply sig_demo_wf|lia|unfold is_u32; lia|intros [?|?]; lia]. Qed.

