(* ===== verification/PageCache.v ===== *)
(** * The page cache (kernel/pagecache.c)

    256 pages of file and block-device contents, each holding one reference of
    its frame. The state [sys] is what the cache works on: the frame allocator
    and RAM, the storage below (block cache, inodes, the ext4 state), the cache
    itself, and on top the state [T] of the tasks, which the cache only reaches
    through [task_pagecache_writeprotect_shared].

    ext4 and the tasks are interfaces here ([Ext4Ops], [SharedMappings]); Vm.v
    gives the instance for the tasks.

    An [inode_t *] is an [option Z]; an entry is its index. The source buffer of a
    write and the result of a read are lists of bytes. *)

From S2P Require Import Prelude KString Pmm Inode BlockCache.

Abbreviation MAX_FILE_CACHE_PAGES := 256%nat (only parsing).
Abbreviation PAGECACHE_WRITEBACK_PERIOD := 8 (only parsing).
Abbreviation PAGECACHE_WRITEBACK_BUDGET := 2 (only parsing).
Abbreviation PAGECACHE_WRITEBACK_MAX_BUDGET := 16 (only parsing).
Abbreviation PAGECACHE_DIRTY_HIGH_WATER := 192 (only parsing).
Abbreviation PAGECACHE_DIRTY_CRITICAL := 248 (only parsing).
Abbreviation PAGECACHE_WRITEBACK_FAIL_BACKOFF_TICKS := 8 (only parsing).
Abbreviation U64_MAX := (2 ^ 64 - 1) (only parsing).

(** ** State *)

Record storage (D E : Type) := mk_storage {
  st_bc : bcache D;
  st_inodes : gmap Z inode;
  st_ext4 : E;
}.
#[global] Arguments mk_storage {D E}.
#[global] Arguments st_bc {D E}.
#[global] Arguments st_inodes {D E}.
#[global] Arguments st_ext4 {D E}.

(** The calls into ext4.c: a read gives the result code and the bytes copied to
    the buffer, a write the result code. *)
Class Ext4Ops (D E : Type) := {
  ext4_read : Z -> Z -> Z -> storage D E -> Z * list Z * storage D E;
  ext4_write : Z -> Z -> list Z -> storage D E -> Z * storage D E;
  ext4_tx_begin : storage D E -> bool * storage D E;
  ext4_tx_commit : storage D E -> bool * storage D E;
  ext4_tx_abort : storage D E -> storage D E;
  ext4_sync_filesystem : storage D E -> bool * storage D E;
}.

(** The call into task.c: write-protect every shared mapping of a file page. *)
Class SharedMappings (T : Type) :=
  task_pagecache_writeprotect_shared : gmap Z inode -> option Z -> Z -> T -> bool * T.

Record pagecache_entry := mk_entry {
  pe_inode : option Z;
  pe_file_off : Z;
  pe_pa : Z;
  pe_last_touch : Z;
  pe_used : bool;
  pe_dirty : bool;
}.

Definition entry_zero : pagecache_entry := mk_entry None 0 0 0 false false.

#[global] Instance pagecache_entry_inhabited : Inhabited pagecache_entry := populate entry_zero.

(** The statics of pagecache.c, [last_writeback_tick] of [pagecache_tick]
    included. *)
Record pcache := mk_pcache {
  pc_ents : list pagecache_entry;
  pagecache_clock : Z;
  pagecache_last_tick : Z;
  pagecache_writeback_fail_streak : Z;
  pagecache_writeback_blocked_until : Z;
  last_writeback_tick : Z;
}.

Record sys (D E T : Type) := mk_sys {
  s_pmm : pmm;
  s_st : storage D E;
  s_pc : pcache;
  s_top : T;
}.
#[global] Arguments mk_sys {D E T}.
#[global] Arguments s_pmm {D E T}.
#[global] Arguments s_st {D E T}.
#[global] Arguments s_pc {D E T}.
#[global] Arguments s_top {D E T}.

Definition pc_set_ents (c : pcache) (l : list pagecache_entry) : pcache :=
  mk_pcache l (pagecache_clock c) (pagecache_last_tick c) (pagecache_writeback_fail_streak c)
    (pagecache_writeback_blocked_until c) (last_writeback_tick c).
Definition pc_set_clock (c : pcache) (t : Z) : pcache :=
  mk_pcache (pc_ents c) t (pagecache_last_tick c) (pagecache_writeback_fail_streak c)
    (pagecache_writeback_blocked_until c) (last_writeback_tick c).
Definition pc_set_last_tick (c : pcache) (t : Z) : pcache :=
  mk_pcache (pc_ents c) (pagecache_clock c) t (pagecache_writeback_fail_streak c)
    (pagecache_writeback_blocked_until c) (last_writeback_tick c).
Definition pc_set_backoff (c : pcache) (streak until : Z) : pcache :=
  mk_pcache (pc_ents c) (pagecache_clock c) (pagecache_last_tick c) streak until
    (last_writeback_tick c).
Definition pc_set_last_wb (c : pcache) (t : Z) : pcache :=
  mk_pcache (pc_ents c) (pagecache_clock c) (pagecache_last_tick c)
    (pagecache_writeback_fail_streak c) (pagecache_writeback_blocked_until c) t.

Definition pe_set_dirty (e : pagecache_entry) (b : bool) : pagecache_entry :=
  mk_entry (pe_inode e) (pe_file_off e) (pe_pa e) (pe_last_touch e) (pe_used e) b.
Definition pe_set_touch (e : pagecache_entry) (t : Z) : pagecache_entry :=
  mk_entry (pe_inode e) (pe_file_off e) (pe_pa e) t (pe_used e) (pe_dirty e).

Section Ops.
Context {D E T : Type} `{!BlockDrivers D, !Ext4Ops D E, !SharedMappings T}.
Implicit Types s : sys D E T.

Definition sys_set_pmm s (m : pmm) : sys D E T := mk_sys m (s_st s) (s_pc s) (s_top s).
Definition sys_set_st s (t : storage D E) : sys D E T := mk_sys (s_pmm s) t (s_pc s) (s_top s).
Definition sys_set_pc s (c : pcache) : sys D E T := mk_sys (s_pmm s) (s_st s) c (s_top s).
Definition sys_set_top s (t : T) : sys D E T := mk_sys (s_pmm s) (s_st s) (s_pc s) t.

Definition s_ram s : mem := ram (s_pmm s).
Definition sys_set_ram s (m : mem) : sys D E T := sys_set_pmm s (with_ram (s_pmm s) m).
Definition s_inodes s : gmap Z inode := st_inodes (s_st s).
Definition sys_set_inode s (p : Z) (i : inode) : sys D E T :=
  sys_set_st s (mk_storage (st_bc (s_st s)) (<[p := i]> (s_inodes s)) (st_ext4 (s_st s))).
Definition sys_set_bc s (b : bcache D) : sys D E T :=
  sys_set_st s (mk_storage b (s_inodes s) (st_ext4 (s_st s))).

Definition inode_at s (p : Z) : inode := s_inodes s !!! p.
Definition s_ents s : list pagecache_entry := pc_ents (s_pc s).
Definition entry_at s (i : nat) : pagecache_entry := s_ents s !!! i.
Definition set_entry s (i : nat) (e : pagecache_entry) : sys D E T :=
  sys_set_pc s (pc_set_ents (s_pc s) (<[i := e]> (s_ents s))).

(** ** Operations *)

Definition pagecache_touch_tick s : Z * sys D E T :=
  let t := u64 (pagecache_clock (s_pc s) + 1) in
  let t := if t =? 0 then 1 else t in
  (t, sys_set_pc s (pc_set_clock (s_pc s) t)).

(** [e->dirty = d; e->last_touch = pagecache_touch_tick()] *)
Definition entry_touch s (i : nat) (dirty : bool) : sys D E T :=
  let s := set_entry s i (pe_set_dirty (entry_at s i) dirty) in
  let '(t, s) := pagecache_touch_tick s in
  set_entry s i (pe_set_touch (entry_at s i) t).

Definition pagecache_zero_tail (i : nat) (keep : Z) s : sys D E T :=
  let e := entry_at s i in
  if negb (pe_used e) || (PAGE_SIZE <=? keep) then s
  else
    let s := sys_set_ram s (memset (s_ram s) (pe_pa e + keep) 0 (PAGE_SIZE - keep)) in
    entry_touch s i false.

Definition pagecache_inode_supported (ns : gmap Z inode) (ino : option Z) : bool :=
  match ino with
  | None => false
  | Some p =>
      let n := ns !!! p in
      match i_type n with
      | INODE_DEV => fs_is_block_dev n
      | INODE_FILE => true
      | INODE_UNUSED | INODE_DIR => false
      end
  end.

Definition dev_sectors s (n : inode) : Z :=
  if negb (i_dev_lba_count n =? 0) then i_dev_lba_count n
  else block_cache_capacity_sectors (st_bc (s_st s)).

Definition pagecache_load_page (ino : option Z) (file_off dst : Z) s : bool * sys D E T :=
  match ino with
  | None => (false, s)
  | Some p =>
      if (dst =? 0) || negb (pagecache_inode_supported (s_inodes s) ino) ||
         negb (Z.land file_off (PAGE_SIZE - 1) =? 0) then (false, s)
      else
        let s := sys_set_ram s (memset (s_ram s) dst 0 PAGE_SIZE) in
        let n := inode_at s p in
        if decide (i_type n = INODE_DEV) then
          if negb (fs_is_block_dev n) then (false, s)
          else
            let '(rc, bc) := block_cache_attach_inode (Some n) (st_bc (s_st s)) in
            let s := sys_set_bc s bc in
            if negb (rc =? 0) then (false, s)
            else
              let secs := dev_sectors s n in
              if secs =? 0 then (false, s)
              else
                let sector_off := file_off / 512 in
                if secs <=? sector_off then (true, s)
                else
                  let rem := secs - sector_off in
                  let nsec := u32 (if rem <? 8 then rem else 8) in
                  if nsec =? 0 then (true, s)
                  else
                    let lba := u64 (i_dev_lba_start n + sector_off) in
                    let '(rc, bytes, bc) :=
                      block_cache_read lba (Z.to_nat nsec) (st_bc (s_st s)) in
                    let s := sys_set_bc s bc in
                    (rc =? 0, sys_set_ram s (store_bytes (s_ram s) dst bytes))
        else if decide (i_fs_kind n = FS_KIND_MEM) then
          if i_data n =? 0 then (false, s)
          else if file_off <? i_size n then
            let rem := i_size n - file_off in
            let k := if rem <? PAGE_SIZE then rem else PAGE_SIZE in
            (true, sys_set_ram s (memcpy (s_ram s) dst (u64 (i_data n + file_off)) k))
          else (true, s)
        else
          let '(rc, bytes, st) := ext4_read p file_off PAGE_SIZE (s_st s) in
          let s := sys_set_st s st in
          (0 <=? rc, sys_set_ram s (store_bytes (s_ram s) dst bytes))
  end.

(** The device branch of [pagecache_store_page_internal]; [n] bytes wanted. *)
Definition store_page_dev (p file_off src n : Z) s : bool * sys D E T :=
  let ino := inode_at s p in
  if negb (fs_is_block_dev ino) || negb (i_writable ino) then (false, s)
  else
    let '(rc, bc) := block_cache_attach_inode (Some ino) (st_bc (s_st s)) in
    let s := sys_set_bc s bc in
    if negb (rc =? 0) then (false, s)
    else
      let cap := u64 (dev_sectors s ino * 512) in
      if cap <=? file_off then (false, s)
      else
        let n := if cap - file_off <? n then cap - file_off else n in
        let lba := u64 (i_dev_lba_start ino + file_off / 512) in
        let whole := u32 (n / 512) in
        let whole := if 8 <? whole then 8 else whole in
        let '(ok, s) :=
          if 0 <? whole then
            let '(rc, bc) :=
              block_cache_write lba (mem_bytes (s_ram s) src (Z.to_nat (whole * 512)))
                (Z.to_nat whole) (st_bc (s_st s)) in
            (rc =? 0, sys_set_bc s bc)
          else (true, s) in
        if negb ok then (false, s)
        else
          let tail := n - whole * 512 in
          let '(ok, s) :=
            if 0 <? tail then
              let tail_lba := u64 (lba + whole) in
              let '(rc, sec, bc) := block_cache_read tail_lba 1 (st_bc (s_st s)) in
              let s := sys_set_bc s bc in
              if negb (rc =? 0) then (false, s)
              else
                let sec := mem_bytes (s_ram s) (src + whole * 512) (Z.to_nat tail) ++
                           drop (Z.to_nat tail) sec in
                let '(rc, bc) := block_cache_write tail_lba sec 1 (st_bc (s_st s)) in
                (rc =? 0, sys_set_bc s bc)
            else (true, s) in
          if negb ok then (false, s)
          else (true, sys_set_inode s p (inode_set_size (inode_at s p) cap)).

(** The memory-filesystem branch. *)
Definition store_page_mem (p file_off src n : Z) s : bool * sys D E T :=
  let ino := inode_at s p in
  if (i_data ino =? 0) || (i_capacity ino <=? file_off) then (true, s)
  else
    let cap_rem := i_capacity ino - file_off in
    let n := if cap_rem <? n then cap_rem else n in
    if n =? 0 then (true, s)
    else
      let s := sys_set_ram s (memcpy (s_ram s) (u64 (i_data ino + file_off)) src n) in
      let fin := u64 (file_off + n) in
      if i_size ino <? fin then (true, sys_set_inode s p (inode_set_size ino fin)) else (true, s).

(** The ext4 branch, inside a transaction of its own when asked. *)
Definition store_page_ext4 (p file_off src n : Z) (manage_ext4_tx : bool) s : bool * sys D E T :=
  let '(started, s) :=
    if manage_ext4_tx then
      let '(ok, st) := ext4_tx_begin (s_st s) in (ok, sys_set_st s st)
    else (true, s) in
  if negb started then (false, s)
  else
    let '(wr, st) := ext4_write p file_off (mem_bytes (s_ram s) src (Z.to_nat n)) (s_st s) in
    let s := sys_set_st s st in
    if negb (wr =? n) then
      (false, if manage_ext4_tx then sys_set_st s (ext4_tx_abort (s_st s)) else s)
    else if manage_ext4_tx then
      let '(ok, st) := ext4_tx_commit (s_st s) in
      let s := sys_set_st s st in
      if ok then (true, s) else (false, sys_set_st s (ext4_tx_abort (s_st s)))
    else (true, s).

Definition pagecache_store_page_internal (ino : option Z) (file_off src max_bytes : Z)
    (manage_ext4_tx : bool) s : bool * sys D E T :=
  match ino with
  | None => (false, s)
  | Some p =>
      if (src =? 0) || negb (pagecache_inode_supported (s_inodes s) ino) ||
         negb (Z.land file_off (PAGE_SIZE - 1) =? 0) || (max_bytes =? 0) then (false, s)
      else
        let n := if PAGE_SIZE <? max_bytes then PAGE_SIZE else max_bytes in
        if decide (i_type (inode_at s p) = INODE_DEV) then store_page_dev p file_off src n s
        else if decide (i_fs_kind (inode_at s p) = FS_KIND_MEM) then store_page_mem p file_off src n s
        else store_page_ext4 p file_off src n manage_ext4_tx s
  end.

Definition pagecache_store_page (ino : option Z) (file_off src max_bytes : Z) s : bool * sys D E T :=
  pagecache_store_page_internal ino file_off src max_bytes true s.

Definition entry_matches (ns : gmap Z inode) (ino : option Z) (file_off : Z) (e : pagecache_entry) : bool :=
  pe_used e && pagecache_inode_same ns (pe_inode e) ino && (pe_file_off e =? file_off).

Definition pagecache_find (ino : option Z) (file_off : Z) s : option nat :=
  fst <$> list_find (entry_matches (s_inodes s) ino file_off) (s_ents s).

Definition pagecache_has_free_slot s : bool :=
  match list_find (fun e => negb (pe_used e)) (s_ents s) with Some _ => true | None => false end.

Definition pagecache_entry_max_bytes (e : pagecache_entry) s : Z :=
  match pe_inode e with
  | None => 0
  | Some p =>
      if negb (pe_used e) then 0
      else if i_size (inode_at s p) <=? pe_file_off e then 0
      else
        let rem := i_size (inode_at s p) - pe_file_off e in
        if rem <? PAGE_SIZE then rem else PAGE_SIZE
  end.

Definition pagecache_note_writeback_result (success : bool) s : sys D E T :=
  let c := s_pc s in
  if success then sys_set_pc s (pc_set_backoff c 0 0)
  else
    let streak := if pagecache_writeback_fail_streak c <? 255
                  then pagecache_writeback_fail_streak c + 1
                  else pagecache_writeback_fail_streak c in
    let backoff := u64 (PAGECACHE_WRITEBACK_FAIL_BACKOFF_TICKS * streak) in
    let backoff := if backoff <? PAGECACHE_WRITEBACK_FAIL_BACKOFF_TICKS then U64_MAX else backoff in
    let until := u64 (pagecache_last_tick c + backoff) in
    let until := if until <? pagecache_last_tick c then U64_MAX else until in
    sys_set_pc s (pc_set_backoff c streak until).

Definition pagecache_writeback_blocked s : bool :=
  negb (pagecache_writeback_fail_streak (s_pc s) =? 0) &&
  (pagecache_last_tick (s_pc s) <? pagecache_writeback_blocked_until (s_pc s)).

(** The scans for the least recently touched entry among those that satisfy
    [ok], from index [i] on. *)
Fixpoint oldest (ok : pagecache_entry -> bool) (l : list pagecache_entry) (i : nat)
    (best : option (nat * Z)) : option nat :=
  match l with
  | [] => fst <$> best
  | e :: l' =>
      let best' :=
        if negb (ok e) then best
        else match best with
             | None => Some (i, pe_last_touch e)
             | Some (_, t) => if pe_last_touch e <? t then Some (i, pe_last_touch e) else best
             end in
      oldest ok l' (S i) best'
  end.

(** Give the page of an entry back and clear the entry. *)
Definition drop_entry (i : nat) s : sys D E T :=
  let s := sys_set_pmm s (pmm_free_page (s_pmm s) (pe_pa (entry_at s i))) in
  set_entry s i entry_zero.

Definition pagecache_slot s : option nat * sys D E T :=
  match list_find (fun e => negb (pe_used e)) (s_ents s) with
  | Some (i, _) => (Some i, s)
  | None =>
      match oldest (fun e => negb (1 <? pmm_page_refcount (s_pmm s) (pe_pa e))) (s_ents s) 0 None with
      | None => (None, s)
      | Some v =>
          let e := entry_at s v in
          let '(ok, s) :=
            if pe_dirty e then
              let max_bytes := pagecache_entry_max_bytes e s in
              if max_bytes =? 0 then (true, set_entry s v (pe_set_dirty e false))
              else
                let '(ok, s) := pagecache_store_page (pe_inode e) (pe_file_off e) (pe_pa e) max_bytes s in
                if negb ok then (false, pagecache_note_writeback_result false s)
                else
                  (true, pagecache_note_writeback_result true (set_entry s v (pe_set_dirty e false)))
            else (true, s) in
          if negb ok then (None, s) else (Some v, drop_entry v s)
      end
  end.

Definition pagecache_entry_writeback (i : nat) s : bool * sys D E T :=
  let e := entry_at s i in
  if negb (pe_used e) || negb (pe_dirty e) then (true, s)
  else
    let is_file s :=
      match pe_inode e with
      | Some p => bool_decide (i_type (inode_at s p) = INODE_FILE)
      | None => false
      end in
    let max_bytes := pagecache_entry_max_bytes e s in
    if max_bytes =? 0 then
      if is_file s then
        let s := sys_set_ram s (memset (s_ram s) (pe_pa e) 0 PAGE_SIZE) in
        let '(ok, t) :=
          task_pagecache_writeprotect_shared (s_inodes s) (pe_inode e) (pe_file_off e) (s_top s) in
        let s := sys_set_top s t in
        if negb ok then (false, s) else (true, entry_touch s i false)
      else (true, entry_touch s i false)
    else
      let '(ok, s) := pagecache_store_page (pe_inode e) (pe_file_off e) (pe_pa e) max_bytes s in
      if negb ok then (false, s)
      else
        let s := if is_file s && (max_bytes <? PAGE_SIZE)
                 then sys_set_ram s (memset (s_ram s) (pe_pa e + max_bytes) 0 (PAGE_SIZE - max_bytes))
                 else s in
        let '(ok, t) :=
          task_pagecache_writeprotect_shared (s_inodes s) (pe_inode e) (pe_file_off e) (s_top s) in
        let s := sys_set_top s t in
        if negb ok then (false, s) else (true, entry_touch s i false).

Definition pagecache_range_overlaps (e : pagecache_entry) (start_off len : Z) : bool :=
  if negb (pe_used e) then false
  else if len =? 0 then start_off <=? pe_file_off e
  else
    let end_off := u64 (start_off + len) in
    let end_off := if end_off <? start_off then U64_MAX else end_off in
    let page_end := u64 (pe_file_off e + PAGE_SIZE) in
    let page_end := if page_end <? pe_file_off e then U64_MAX else page_end in
    negb ((page_end <=? start_off) || (end_off <=? pe_file_off e)).

(** The entries [pagecache_flush_match] looks for. *)
Definition flush_wanted (ns : gmap Z inode) (ino : option Z) (start_off len : Z) (use_range : bool)
    (e : pagecache_entry) : bool :=
  pe_used e && pe_dirty e &&
  (match ino with Some _ => pagecache_inode_same ns (pe_inode e) ino | None => true end) &&
  (negb use_range || pagecache_range_overlaps e start_off len).

Fixpoint pagecache_flush_match (ino : option Z) (start_off len : Z) (use_range : bool) (budget : nat) s
    : Z * sys D E T :=
  match budget with
  | O => (0, s)
  | S budget' =>
      match oldest (flush_wanted (s_inodes s) ino start_off len use_range) (s_ents s) 0 None with
      | None => (0, s)
      | Some v =>
          let '(ok, s) := pagecache_entry_writeback v s in
          if negb ok then (-1, pagecache_note_writeback_result false s)
          else pagecache_flush_match ino start_off len use_range budget'
                 (pagecache_note_writeback_result true s)
      end
  end.

Definition pagecache_dirty_count s : Z :=
  Z.of_nat (length (filter (fun e => pe_used e && pe_dirty e) (s_ents s))).

Definition pagecache_maybe_writeback_pressure s : sys D E T :=
  if pagecache_writeback_blocked s then s
  else
    let dirty := pagecache_dirty_count s in
    if dirty <? PAGECACHE_DIRTY_HIGH_WATER then s
    else
      let budget :=
        if PAGECACHE_DIRTY_CRITICAL <=? dirty then Z.of_nat MAX_FILE_CACHE_PAGES
        else
          let b := PAGECACHE_WRITEBACK_MAX_BUDGET + (dirty - PAGECACHE_DIRTY_HIGH_WATER) in
          if Z.of_nat MAX_FILE_CACHE_PAGES <? b then Z.of_nat MAX_FILE_CACHE_PAGES else b in
      (pagecache_flush_match None 0 0 false (Z.to_nat budget) s).2.

Definition pagecache_init s : sys D E T :=
  sys_set_pc s (mk_pcache (replicate MAX_FILE_CACHE_PAGES entry_zero) 0 0 0 0
                  (last_writeback_tick (s_pc s))).

(** The page's address on success. *)
Definition pagecache_get_or_create (ino : option Z) (file_off : Z) s : option Z * sys D E T :=
  if negb (pagecache_inode_supported (s_inodes s) ino) then (None, s)
  else if negb (Z.land file_off (PAGE_SIZE - 1) =? 0) then (None, s)
  else
    match pagecache_find ino file_off s with
    | Some hit =>
        let '(t, s) := pagecache_touch_tick s in
        let s := set_entry s hit (pe_set_touch (entry_at s hit) t) in
        let pa := pe_pa (entry_at s hit) in
        (Some pa, sys_set_pmm s (pmm_ref_page (s_pmm s) pa))
    | None =>
        let '(page, m) := pmm_alloc_page (s_pmm s) in
        let s := sys_set_pmm s m in
        let '(page, s) :=
          if (page =? 0) && negb (pagecache_has_free_slot s) then
            match pagecache_slot s with
            | (Some _, s) => let '(page, m) := pmm_alloc_page (s_pmm s) in (page, sys_set_pmm s m)
            | (None, s) => (page, s)
            end
          else (page, s) in
        if page =? 0 then (None, s)
        else
          let '(ok, s) := pagecache_load_page ino file_off page s in
          if negb ok then (None, sys_set_pmm s (pmm_free_page (s_pmm s) page))
          else
            match pagecache_slot s with
            | (None, s) => (None, sys_set_pmm s (pmm_free_page (s_pmm s) page))
            | (Some slot, s) =>
                let '(t, s) := pagecache_touch_tick s in
                let s := set_entry s slot (mk_entry ino file_off page t true false) in
                (Some page, sys_set_pmm s (pmm_ref_page (s_pmm s) page))
            end
    end.

Definition pagecache_writeback (ino : option Z) (file_off pa max_bytes : Z) s : bool * sys D E T :=
  match ino with
  | None => (false, s)
  | Some p =>
      if negb (pagecache_inode_supported (s_inodes s) ino) then (false, s)
      else if negb (Z.land file_off (PAGE_SIZE - 1) =? 0) then (false, s)
      else
        let is_file := bool_decide (i_type (inode_at s p) = INODE_FILE) in
        let valid := if PAGE_SIZE <? max_bytes then PAGE_SIZE else max_bytes in
        let file_size := i_size (inode_at s p) in
        if is_file && (file_size <=? file_off) then (true, s)
        else
          let valid := if is_file && (file_size - file_off <? valid) then file_size - file_off else valid in
          if valid =? 0 then (true, s)
          else
            let '(hit, s) :=
              match pagecache_find ino file_off s with
              | Some hit =>
                  if negb (pe_pa (entry_at s hit) =? pa)
                  then (Some hit, sys_set_ram s (memcpy (s_ram s) (pe_pa (entry_at s hit)) pa valid))
                  else (Some hit, s)
              | None =>
                  match pagecache_slot s with
                  | (None, s) => (None, s)
                  | (Some slot, s) =>
                      let '(t, s) := pagecache_touch_tick s in
                      let s := set_entry s slot (mk_entry ino file_off pa t true false) in
                      (Some slot, sys_set_pmm s (pmm_ref_page (s_pmm s) pa))
                  end
              end in
            match hit with
            | None => (false, s)
            | Some hit =>
                let is_file := bool_decide (i_type (inode_at s p) = INODE_FILE) in
                let s := if is_file && (valid <? PAGE_SIZE)
                         then sys_set_ram s (memset (s_ram s) (pe_pa (entry_at s hit) + valid) 0
                                               (PAGE_SIZE - valid))
                         else s in
                (true, entry_touch s hit true)
            end
  end.

(** The page offset and in-page offset of a position, and the bytes of [n - done]
    that fit in its page. *)
Definition page_base (cur : Z) : Z := Z.land cur (not64 (PAGE_SIZE - 1)).
Definition chunk_len (cur n done : Z) : Z :=
  let chunk := PAGE_SIZE - Z.land cur (PAGE_SIZE - 1) in
  if n - done <? chunk then n - done else chunk.

(** The copy loops; every round moves at least one byte, so [n] rounds are
    enough. *)
Fixpoint pc_read_loop (fuel : nat) (ino : option Z) (offset n done : Z) (acc : list Z) s
    : Z * list Z * sys D E T :=
  match fuel with
  | O => (done, acc, s)
  | S fuel' =>
      if done <? n then
        let cur := u64 (offset + done) in
        let chunk := chunk_len cur n done in
        match pagecache_get_or_create ino (page_base cur) s with
        | (None, s) => (done, acc, s)
        | (Some pa, s) =>
            let bytes := mem_bytes (s_ram s) (pa + Z.land cur (PAGE_SIZE - 1)) (Z.to_nat chunk) in
            let s := sys_set_pmm s (pmm_free_page (s_pmm s) pa) in
            pc_read_loop fuel' ino offset n (done + chunk) (acc ++ bytes) s
        end
      else (done, acc, s)
  end.

(** Result code, bytes read and the advanced offset. *)
Definition pagecache_read (ino : option Z) (offset len : Z) s : Z * list Z * Z * sys D E T :=
  match ino with
  | None => (-1, [], offset, s)
  | Some p =>
      if negb (pagecache_inode_supported (s_inodes s) ino) then (-1, [], offset, s)
      else if len =? 0 then (0, [], offset, s)
      else if i_size (inode_at s p) <=? offset then (0, [], offset, s)
      else
        let n := if i_size (inode_at s p) <? u64 (offset + len)
                 then i_size (inode_at s p) - offset else len in
        let '(done, bytes, s) := pc_read_loop (Z.to_nat n) ino offset n 0 [] s in
        if done =? 0 then (-1, bytes, offset, s)
        else (done, bytes, u64 (offset + done), s)
  end.

Fixpoint pc_write_loop (fuel : nat) (ino : option Z) (offset : Z) (src : list Z) (n done : Z) s
    : Z * sys D E T :=
  match fuel with
  | O => (done, s)
  | S fuel' =>
      if done <? n then
        let cur := u64 (offset + done) in
        let chunk := chunk_len cur n done in
        match pagecache_get_or_create ino (page_base cur) s with
        | (None, s) => (done, s)
        | (Some pa, s) =>
            let data := take (Z.to_nat chunk) (drop (Z.to_nat done) src) in
            let s := sys_set_ram s (store_bytes (s_ram s) (pa + Z.land cur (PAGE_SIZE - 1)) data) in
            let s := match pagecache_find ino (page_base cur) s with
                     | Some hit => entry_touch s hit true
                     | None => s
                     end in
            let s := sys_set_pmm s (pmm_free_page (s_pmm s) pa) in
            pc_write_loop fuel' ino offset src n (done + chunk) s
        end
      else (done, s)
  end.

(** [len] is the length of [src]. Result code and the advanced offset. *)
Definition pagecache_write (ino : option Z) (offset : Z) (src : list Z) s : Z * Z * sys D E T :=
  match ino with
  | None => (-1, offset, s)
  | Some p =>
      let i := inode_at s p in
      let len := Z.of_nat (length src) in
      if negb (pagecache_inode_supported (s_inodes s) ino) || negb (i_writable i) then (-1, offset, s)
      else if len =? 0 then (0, offset, s)
      else
        let is_dev := bool_decide (i_type i = INODE_DEV) in
        if is_dev && (i_size i <=? offset) then (-1, offset, s)
        else
          let n := if is_dev && (i_size i <? u64 (offset + len)) then i_size i - offset else len in
          let is_mem := bool_decide (i_fs_kind i = FS_KIND_MEM) in
          if is_mem && ((i_data i =? 0) || (i_capacity i <=? offset)) then (-1, offset, s)
          else
            let n := if is_mem && (i_capacity i - offset <? n) then i_capacity i - offset else n in
            let '(done, s) := pc_write_loop (Z.to_nat n) ino offset src n 0 s in
            if done =? 0 then (-1, offset, s)
            else
              let fin := u64 (offset + done) in
              let s := if i_size (inode_at s p) <? fin
                       then sys_set_inode s p (inode_set_size (inode_at s p) fin) else s in
              (done, u64 (offset + done), pagecache_maybe_writeback_pressure s)
  end.

(** The chunks of [buf] that the cache holds, copied over it. *)
Fixpoint overlay_read_loop (fuel : nat) (ino : option Z) (file_off done : Z) (buf : list Z) s
    : list Z * sys D E T :=
  let len := Z.of_nat (length buf) in
  match fuel with
  | O => (buf, s)
  | S fuel' =>
      if done <? len then
        let cur := u64 (file_off + done) in
        let chunk := chunk_len cur len done in
        match pagecache_find ino (page_base cur) s with
        | Some hit =>
            let '(t, s) := pagecache_touch_tick s in
            let s := set_entry s hit (pe_set_touch (entry_at s hit) t) in
            let bytes := mem_bytes (s_ram s) (pe_pa (entry_at s hit) + Z.land cur (PAGE_SIZE - 1))
                           (Z.to_nat chunk) in
            let buf := take (Z.to_nat done) buf ++ bytes ++ drop (Z.to_nat (done + chunk)) buf in
            overlay_read_loop fuel' ino file_off (done + chunk) buf s
        | None => overlay_read_loop fuel' ino file_off (done + chunk) buf s
        end
      else (buf, s)
  end.

Definition pagecache_overlay_read (ino : option Z) (file_off : Z) (buf : list Z) s
    : list Z * sys D E T :=
  if (Z.of_nat (length buf) =? 0) || negb (pagecache_inode_supported (s_inodes s) ino) then (buf, s)
  else overlay_read_loop (length buf) ino file_off 0 buf s.

Fixpoint notify_write_loop (fuel : nat) (ino : option Z) (file_off done : Z) (src : list Z) s
    : sys D E T :=
  let len := Z.of_nat (length src) in
  match fuel with
  | O => s
  | S fuel' =>
      if done <? len then
        let cur := u64 (file_off + done) in
        let chunk := chunk_len cur len done in
        let s :=
          match pagecache_find ino (page_base cur) s with
          | Some hit =>
              let data := take (Z.to_nat chunk) (drop (Z.to_nat done) src) in
              let s := sys_set_ram s (store_bytes (s_ram s)
                         (pe_pa (entry_at s hit) + Z.land cur (PAGE_SIZE - 1)) data) in
              entry_touch s hit true
          | None => s
          end in
        notify_write_loop fuel' ino file_off (done + chunk) src s
      else s
  end.

Definition pagecache_notify_write (ino : option Z) (file_off : Z) (src : list Z) s : sys D E T :=
  match ino with
  | None => s
  | Some p =>
      if (Z.of_nat (length src) =? 0) || negb (pagecache_inode_supported (s_inodes s) ino) then s
      else
        let s := notify_write_loop (length src) ino file_off 0 src s in
        let fin := u64 (file_off + Z.of_nat (length src)) in
        let s := if i_size (inode_at s p) <? fin
                 then sys_set_inode s p (inode_set_size (inode_at s p) fin) else s in
        pagecache_maybe_writeback_pressure s
  end.

Fixpoint mark_dirty_loop (fuel : nat) (ino : option Z) (file_off len done : Z) s : sys D E T :=
  match fuel with
  | O => s
  | S fuel' =>
      if done <? len then
        let cur := u64 (file_off + done) in
        let s := match pagecache_find ino (page_base cur) s with
                 | Some hit => entry_touch s hit true
                 | None => s
                 end in
        mark_dirty_loop fuel' ino file_off len (done + chunk_len cur len done) s
      else s
  end.

Definition pagecache_mark_dirty (ino : option Z) (file_off len : Z) s : sys D E T :=
  if (len =? 0) || negb (pagecache_inode_supported (s_inodes s) ino) then s
  else pagecache_maybe_writeback_pressure (mark_dirty_loop (Z.to_nat len) ino file_off len 0 s).

Definition pagecache_flush_inode (ino : option Z) s : Z * sys D E T :=
  match ino with
  | None => (0, s)
  | Some _ => pagecache_flush_match ino 0 0 false MAX_FILE_CACHE_PAGES s
  end.

Definition pagecache_flush_inode_range (ino : option Z) (start_off len : Z) s : Z * sys D E T :=
  match ino with
  | None => (-1, s)
  | Some _ => pagecache_flush_match ino start_off len true MAX_FILE_CACHE_PAGES s
  end.

(** The loop over the entries [idxs]; whether a pinned entry was met. *)
Fixpoint invalidate_range_loop (idxs : list nat) (ino : option Z) (start_off len : Z) (busy : bool) s
    : bool * sys D E T :=
  match idxs with
  | [] => (busy, s)
  | i :: idxs' =>
      let e := entry_at s i in
      if negb (pe_used e) || negb (pagecache_inode_same (s_inodes s) (pe_inode e) ino) ||
         negb (pagecache_range_overlaps e start_off len) then
        invalidate_range_loop idxs' ino start_off len busy s
      else if 1 <? pmm_page_refcount (s_pmm s) (pe_pa e) then
        invalidate_range_loop idxs' ino start_off len true s
      else invalidate_range_loop idxs' ino start_off len busy (drop_entry i s)
  end.

Definition pagecache_invalidate_inode_range (ino : option Z) (start_off len : Z) s : Z * sys D E T :=
  match ino with
  | None => (-1, s)
  | Some _ =>
      let '(busy, s) := invalidate_range_loop (seq 0 MAX_FILE_CACHE_PAGES) ino start_off len false s in
      (if busy then -1 else 0, s)
  end.

Definition pagecache_flush_all s : Z * sys D E T :=
  pagecache_flush_match None 0 0 false MAX_FILE_CACHE_PAGES s.

Definition pagecache_tick (now : Z) s : sys D E T :=
  let s := sys_set_pc s (pc_set_last_tick (s_pc s) now) in
  if u64 (now - last_writeback_tick (s_pc s)) <? PAGECACHE_WRITEBACK_PERIOD then s
  else
    let s := sys_set_pc s (pc_set_last_wb (s_pc s) now) in
    if pagecache_writeback_blocked s then s
    else
      let dirty := pagecache_dirty_count s in
      if dirty =? 0 then s
      else
        let budget := PAGECACHE_WRITEBACK_BUDGET + dirty / 8 in
        let budget := if PAGECACHE_WRITEBACK_MAX_BUDGET <? budget
                      then PAGECACHE_WRITEBACK_MAX_BUDGET else budget in
        (pagecache_flush_match None 0 0 false (Z.to_nat budget) s).2.

Fixpoint invalidate_inode_loop (idxs : list nat) (p : Z) s : sys D E T :=
  match idxs with
  | [] => s
  | i :: idxs' =>
      let e := entry_at s i in
      if negb (pe_used e) || negb (pagecache_inode_same (s_inodes s) (pe_inode e) (Some p)) then
        invalidate_inode_loop idxs' p s
      else if 1 <? pmm_page_refcount (s_pmm s) (pe_pa e) then
        invalidate_inode_loop idxs' p
          (if i_size (inode_at s p) <=? pe_file_off e then set_entry s i (pe_set_dirty e false) else s)
      else invalidate_inode_loop idxs' p (drop_entry i s)
  end.

Definition pagecache_invalidate_inode (ino : option Z) s : sys D E T :=
  match ino with
  | None => s
  | Some p => invalidate_inode_loop (seq 0 MAX_FILE_CACHE_PAGES) p s
  end.

Fixpoint invalidate_ext4_loop (idxs : list nat) s : sys D E T :=
  match idxs with
  | [] => s
  | i :: idxs' =>
      let e := entry_at s i in
      match pe_inode e with
      | Some p =>
          if negb (pe_used e) || bool_decide (i_fs_kind (inode_at s p) <> FS_KIND_EXT4)
          then invalidate_ext4_loop idxs' s
          else invalidate_ext4_loop idxs' (drop_entry i s)
      | None => invalidate_ext4_loop idxs' s
      end
  end.

Definition pagecache_invalidate_ext4_all s : sys D E T :=
  invalidate_ext4_loop (seq 0 MAX_FILE_CACHE_PAGES) s.

Fixpoint truncate_loop (idxs : list nat) (ino : option Z) (eof : Z) s : sys D E T :=
  match idxs with
  | [] => s
  | i :: idxs' =>
      let e := entry_at s i in
      if negb (pe_used e) || negb (pagecache_inode_same (s_inodes s) (pe_inode e) ino) then
        truncate_loop idxs' ino eof s
      else if eof <=? pe_file_off e then
        if 1 <? pmm_page_refcount (s_pmm s) (pe_pa e) then
          let s := sys_set_ram s (memset (s_ram s) (pe_pa e) 0 PAGE_SIZE) in
          truncate_loop idxs' ino eof (entry_touch s i false)
        else truncate_loop idxs' ino eof (drop_entry i s)
      else if (pe_file_off e =? page_base eof) && negb (Z.land eof (PAGE_SIZE - 1) =? 0) then
        truncate_loop idxs' ino eof (pagecache_zero_tail i (eof - page_base eof) s)
      else truncate_loop idxs' ino eof s
  end.

Definition pagecache_truncate_inode (ino : option Z) (new_size : Z) s : sys D E T :=
  if negb (pagecache_inode_supported (s_inodes s) ino) then s
  else truncate_loop (seq 0 MAX_FILE_CACHE_PAGES) ino new_size s.

End Ops.

(** ** Steps that keep the cache's pages and references

    Loading, storing, touching and flushing change flags, clocks, memory and the
    storage below, but no reference count and no entry's identity. *)

Definition entry_sim (e e' : pagecache_entry) : Prop :=
  pe_used e' = pe_used e /\ pe_pa e' = pe_pa e /\ pe_inode e' = pe_inode e /\
  pe_file_off e' = pe_file_off e.

#[global] Instance entry_sim_preorder : PreOrder entry_sim.
Proof.
  split; [by intros ?|]. intros a b c (?&?&?&?) (?&?&?&?). unfold entry_sim. split_and!; congruence.
Qed.

Create HintDb pcsame.

(** Takes an equation between a function's body and its result apart into the
    branches of the body; the branches left are chains of state updates. *)
Ltac pc_split :=
  repeat first
    [ match goal with
      | H : (_, _) = (_, _) |- _ => apply pair_equal_spec in H as [? ?]; subst
      | H : context [match ?x with _ => _ end] |- _ => destruct x eqn:?
      end
    | progress cbv zeta beta in * ].

Section Frame.
Context {D E T : Type} `{!BlockDrivers D, !Ext4Ops D E, !SharedMappings T}.
Implicit Types s : sys D E T.

Record pc_same s s' : Prop := {
  same_wf : pmm_wf (s_pmm s) -> pmm_wf (s_pmm s');
  same_refs p : pmm_page_refcount (s_pmm s') p = pmm_page_refcount (s_pmm s) p;
  same_ents : Forall2 entry_sim (s_ents s) (s_ents s');
}.

#[global] Instance pc_same_preorder : PreOrder pc_same.
Proof.
  split.
  - intros s. constructor; [done..|]. reflexivity.
  - intros a b c [A1 A2 A3] [B1 B2 B3]. constructor; [auto| |by etransitivity].
    intros p. by rewrite B2.
Qed.

Lemma same_set_ram s m : pc_same s (sys_set_ram s m).
Proof. constructor; [apply wf_with_ram|done|reflexivity]. Qed.

Lemma same_set_st s t : pc_same s (sys_set_st s t).
Proof. constructor; [done..|reflexivity]. Qed.

Lemma same_set_top s t : pc_same s (sys_set_top s t).
Proof. constructor; [done..|reflexivity]. Qed.

Lemma same_set_pc s c : pc_ents c = s_ents s -> pc_same s (sys_set_pc s c).
Proof. intros H. constructor; [done..|]. unfold s_ents at 2. simpl. rewrite H. reflexivity. Qed.

Lemma same_set_entry s i e e' :
  s_ents s !! i = Some e -> entry_sim e e' -> pc_same s (set_entry s i e').
Proof.
  intros Hi He. constructor; [done..|]. unfold s_ents at 2. simpl.
  apply Forall2_same_length_lookup_2; [by rewrite length_insert|].
  intros j x y Hx Hy. destruct (decide (i = j)) as [<-|Hne].
  - rewrite list_lookup_insert_eq in Hy by (by eapply lookup_lt_Some). simplify_eq. done.
  - rewrite list_lookup_insert_ne in Hy by done. simplify_eq. reflexivity.
Qed.

(** Writing a similar entry back at an index, in range or not. *)
Lemma same_update s i e' : entry_sim (entry_at s i) e' -> pc_same s (set_entry s i e').
Proof.
  intros He. destruct (decide (i < length (s_ents s))%nat) as [Hi|Hi].
  - eapply same_set_entry; [by apply list_lookup_lookup_total_lt|done].
  - unfold set_entry. rewrite list_insert_ge by lia. by apply same_set_pc.
Qed.

Lemma same_touch_tick s t s' : pagecache_touch_tick s = (t, s') -> pc_same s s'.
Proof. intros [= <- <-]. by apply same_set_pc. Qed.

Lemma same_entry_touch s i d : pc_same s (entry_touch s i d).
Proof.
  unfold entry_touch. cbv zeta.
  destruct (pagecache_touch_tick _) as [t s1] eqn:Et. apply same_touch_tick in Et.
  etransitivity; [apply (same_update s i (pe_set_dirty (entry_at s i) d)); by split_and!|].
  etransitivity; [exact Et|]. apply same_update. by split_and!.
Qed.

Lemma same_note b s : pc_same s (pagecache_note_writeback_result b s).
Proof. unfold pagecache_note_writeback_result. destruct b; by apply same_set_pc. Qed.

#[local] Hint Resolve same_set_ram same_set_st same_set_top same_entry_touch same_note : pcsame.

Ltac pc_chain :=
  unfold sys_set_bc, sys_set_inode in *;
  repeat first
    [ reflexivity | assumption
    | solve [eauto with pcsame]
    | etransitivity; [|solve [apply same_set_ram | apply same_set_st | apply same_set_top
                             | apply same_entry_touch | apply same_note]] ].

Lemma same_load_page ino off dst s ok s' :
  pagecache_load_page ino off dst s = (ok, s') -> pc_same s s'.
Proof. intros H. unfold pagecache_load_page in H. pc_split; pc_chain. Qed.

Lemma same_store_dev p off src n s ok s' : store_page_dev p off src n s = (ok, s') -> pc_same s s'.
Proof. intros H. unfold store_page_dev in H. pc_split; pc_chain. Qed.

Lemma same_store_mem p off src n s ok s' : store_page_mem p off src n s = (ok, s') -> pc_same s s'.
Proof. intros H. unfold store_page_mem in H. pc_split; pc_chain. Qed.

Lemma same_store_ext4 p off src n b s ok s' :
  store_page_ext4 p off src n b s = (ok, s') -> pc_same s s'.
Proof. intros H. unfold store_page_ext4 in H. pc_split; pc_chain. Qed.

Lemma same_store_page_internal ino off src n b s ok s' :
  pagecache_store_page_internal ino off src n b s = (ok, s') -> pc_same s s'.
Proof.
  intros H. unfold pagecache_store_page_internal in H. destruct ino as [p|]; [|pc_split; pc_chain].
  destruct (_ || _); [pc_split; pc_chain|]. cbv zeta in H.
  destruct (decide _); [by eapply same_store_dev|].
  destruct (decide _); [by eapply same_store_mem|by eapply same_store_ext4].
Qed.

Lemma same_store_page ino off src n s ok s' :
  pagecache_store_page ino off src n s = (ok, s') -> pc_same s s'.
Proof. apply same_store_page_internal. Qed.

Lemma same_entry_writeback i s ok s' : pagecache_entry_writeback i s = (ok, s') -> pc_same s s'.
Proof.
  intros H. unfold pagecache_entry_writeback in H. destruct (negb _ || negb _); [pc_split; pc_chain|].
  cbv zeta in H. destruct (_ =? 0); [pc_split; pc_chain|].
  destruct (pagecache_store_page _ _ _ _ s) as [ok1 s1] eqn:Es. apply same_store_page in Es.
  etransitivity; [exact Es|]. clear Es. pc_split; pc_chain.
Qed.

Lemma same_flush_match ino so len ur b s rc s' :
  pagecache_flush_match ino so len ur b s = (rc, s') -> pc_same s s'.
Proof.
  revert s. induction b as [|b IH]; intros s H; cbn [pagecache_flush_match] in H; [pc_split; pc_chain|].
  destruct (oldest _ _ _ _) as [v|]; [|pc_split; pc_chain].
  destruct (pagecache_entry_writeback v s) as [ok s1] eqn:Ew. apply same_entry_writeback in Ew.
  etransitivity; [exact Ew|]. destruct (negb ok); [pc_split; pc_chain|].
  etransitivity; [apply (same_note true)|]. by apply IH.
Qed.

Lemma same_pressure s : pc_same s (pagecache_maybe_writeback_pressure s).
Proof.
  unfold pagecache_maybe_writeback_pressure. destruct (pagecache_writeback_blocked s); [reflexivity|].
  cbv zeta. destruct (_ <? _); [reflexivity|].
  destruct (pagecache_flush_match _ _ _ _ _ s) as [rc s'] eqn:Ef. by eapply same_flush_match.
Qed.

Lemma same_mark_dirty_loop fuel ino off len done s : pc_same s (mark_dirty_loop fuel ino off len done s).
Proof.
  revert done s. induction fuel as [|fuel IH]; intros done s; simpl; [reflexivity|].
  destruct (_ <? _); [|reflexivity].
  destruct (pagecache_find _ _ _); [|apply IH]. etransitivity; [apply same_entry_touch|apply IH].
Qed.

Lemma same_mark_dirty ino off len s : pc_same s (pagecache_mark_dirty ino off len s).
Proof.
  unfold pagecache_mark_dirty. destruct (_ || _); [reflexivity|].
  etransitivity; [apply same_mark_dirty_loop|apply same_pressure].
Qed.

Lemma same_tick now s : pc_same s (pagecache_tick now s).
Proof.
  unfold pagecache_tick. cbv zeta. set (s1 := sys_set_pc s _).
  assert (H1 : pc_same s s1) by by apply same_set_pc.
  destruct (_ <? _); [done|]. set (s2 := sys_set_pc s1 _).
  assert (H2 : pc_same s s2) by (etransitivity; [exact H1|by apply same_set_pc]).
  destruct (pagecache_writeback_blocked s2); [done|]. destruct (_ =? 0); [done|].
  destruct (pagecache_flush_match _ _ _ _ _ s2) as [rc s'] eqn:Ef.
  etransitivity; [exact H2|by eapply same_flush_match].
Qed.

(** ** Ownership

    The references of a frame that the cache does not hold: mappings of tasks and
    callers in the middle of an operation. *)

Definition cache_refs s (p : Z) : Z := countb (fun e => pe_used e && (pe_pa e =? p)) (s_ents s).
Definition ext_refs s (p : Z) : Z := pmm_page_refcount (s_pmm s) p - cache_refs s p.

(** The allocator is sound and every entry in use holds a reference of its page. *)
Record pc_own s : Prop := {
  own_pmm : pmm_wf (s_pmm s);
  own_len : length (s_ents s) = MAX_FILE_CACHE_PAGES;
  own_refs p : 0 <= ext_refs s p < 2 ^ 31;
}.

(** [s'] owns what [s] does, but for [d p] external references of frame [p]. *)
Definition pc_delta (d : Z -> Z) s s' : Prop :=
  pmm_wf (s_pmm s') /\ length (s_ents s') = MAX_FILE_CACHE_PAGES /\
  forall p, ext_refs s' p = ext_refs s p + d p.

Definition d0 (p : Z) : Z := 0.
Definition d1 (q p : Z) : Z := if decide (q = p) then 1 else 0.

Lemma delta_same s s' : pc_own s -> pc_same s s' -> pc_delta d0 s s'.
Proof.
  intros [W L R] [A1 A2 A3]. split_and!; [auto|by rewrite <- (Forall2_length _ _ _ A3)|].
  intros p. unfold ext_refs, cache_refs, d0. rewrite A2.
  rewrite (countb_Forall2 _ entry_sim (s_ents s)); [lia| |done].
  intros x y (-> & -> & _). done.
Qed.

Lemma delta_own s s' : pc_own s -> pc_delta d0 s s' -> pc_own s'.
Proof.
  intros [W L R] (W' & L' & H). constructor; try done. intros p. rewrite H. unfold d0.
  specialize (R p). lia.
Qed.

Lemma cache_refs_bound s p : length (s_ents s) = MAX_FILE_CACHE_PAGES -> 0 <= cache_refs s p <= 256.
Proof. intros H. unfold cache_refs. pose proof (countb_nonneg (fun e => pe_used e && (pe_pa e =? p)) (s_ents s)). lia. Qed.

Lemma cache_refs_entry s i e :
  s_ents s !! i = Some e -> pe_used e = true -> 1 <= cache_refs s (pe_pa e).
Proof.
  intros Hi Hu. unfold cache_refs. eapply countb_pos; [exact Hi|]. simpl. by rewrite Hu, Z.eqb_refl.
Qed.

(** Replacing an entry. *)
Lemma cache_refs_set s i e e' p :
  s_ents s !! i = Some e ->
  cache_refs (set_entry s i e') p =
  cache_refs s p - Z.b2z (pe_used e && (pe_pa e =? p)) + Z.b2z (pe_used e' && (pe_pa e' =? p)).
Proof.
  intros Hi. unfold cache_refs. unfold s_ents at 1. simpl.
  by rewrite (countb_insert _ _ _ e).
Qed.

Lemma drop_entry_delta s i e :
  pc_own s -> s_ents s !! i = Some e -> pe_used e = true ->
  pc_delta d0 s (drop_entry i s) /\ s_ents (drop_entry i s) !! i = Some entry_zero.
Proof.
  intros [W L R] Hi Hu. assert (Hat : entry_at s i = e) by (by apply list_lookup_total_correct).
  unfold drop_entry. rewrite Hat. set (s1 := sys_set_pmm s _).
  split; [split_and!|].
  - by apply free_page_wf.
  - unfold s_ents. simpl. by rewrite length_insert.
  - intros p. unfold ext_refs. rewrite (cache_refs_set s1 i e entry_zero p Hi). rewrite Hu.
    change (cache_refs s1 p) with (cache_refs s p). simpl. rewrite free_page_refcount by done.
    pose proof (cache_refs_entry s i e Hi Hu) as Hc. pose proof (R (pe_pa e)) as Hr. unfold ext_refs in Hr.
    unfold d0. destruct (Z.eqb_spec (pe_pa e) p) as [<-|Hne]; simpl.
    + rewrite decide_True by done. lia.
    + rewrite decide_False by done. lia.
  - unfold s_ents. simpl. apply list_lookup_insert_eq. by eapply lookup_lt_Some.
Qed.

Lemma delta_trans d d' s1 s2 s3 : pc_delta d s1 s2 -> pc_delta d' s2 s3 -> pc_delta (fun p => d p + d' p) s1 s3.
Proof. intros (W & L & H) (W' & L' & H'). split_and!; try done. intros p. rewrite H', H. lia. Qed.

Lemma delta_ext d d' s s' : (forall p, d p = d' p) -> pc_delta d s s' -> pc_delta d' s s'.
Proof. intros Hd (W & L & H). split_and!; try done. intros p. by rewrite H, Hd. Qed.

Lemma delta0_trans d s1 s2 s3 : pc_delta d s1 s2 -> pc_delta d0 s2 s3 -> pc_delta d s1 s3.
Proof. intros H H'. eapply delta_ext; [|exact (delta_trans _ _ _ _ _ H H')]. unfold d0. intros; lia. Qed.

(** The entries in use after a step were in use before it, unchanged but for
    their flags. *)
Definition ents_sub s s' : Prop :=
  forall j e', s_ents s' !! j = Some e' -> pe_used e' = true ->
    exists e, s_ents s !! j = Some e /\ entry_sim e e'.

Lemma ents_sub_trans s1 s2 s3 : ents_sub s1 s2 -> ents_sub s2 s3 -> ents_sub s1 s3.
Proof.
  intros A B j e3 Hj Hu. destruct (B j e3 Hj Hu) as (e2 & H2 & Sim).
  destruct (A j e2 H2) as (e1 & H1 & Sim1); [destruct Sim as (<- & _); done|].
  exists e1. split; [done|by etransitivity].
Qed.

Lemma ents_sub_same s s' : pc_same s s' -> ents_sub s s'.
Proof.
  intros [_ _ A] j e' Hj _. destruct (Forall2_lookup_r _ _ _ _ _ A Hj) as (e & He & Sim). eauto.
Qed.

Lemma ents_sub_refl s : ents_sub s s.
Proof. intros j e Hj _. by exists e. Qed.

Lemma drop_entry_sub s i : ents_sub s (drop_entry i s).
Proof.
  intros j e' Hj Hu. unfold drop_entry, s_ents in Hj. simpl in Hj.
  apply list_lookup_insert_Some in Hj as [(_ & <- & _)|(_ & Hj)]; [done|]. by exists e'.
Qed.

Lemma oldest_spec ok l i best v :
  oldest ok l i best = Some v ->
  (exists u, best = Some (v, u)) \/
  exists j e, v = (i + j)%nat /\ l !! j = Some e /\ ok e = true.
Proof.
  revert i best. induction l as [|e l IH]; intros i best; simpl.
  { destruct best as [[b u]|]; simpl; intros [= ->]. eauto. }
  intros H. apply IH in H as [[u Hu]|(j & e' & -> & Hj & Hok)].
  - destruct (ok e) eqn:Eo; simpl in Hu; [|eauto].
    destruct best as [[b t]|].
    + destruct (_ <? t); injection Hu as <- <-; [|eauto]. right. exists 0%nat, e. split; [lia|done].
    + injection Hu as <- <-. right. exists 0%nat, e. split; [lia|done].
  - right. exists (S j), e'. split; [lia|done].
Qed.

Lemma slot_delta s r s' :
  pc_own s -> pagecache_slot s = (r, s') ->
  pc_delta d0 s s' /\ ents_sub s s' /\
  forall i, r = Some i -> exists e, s_ents s' !! i = Some e /\ pe_used e = false.
Proof.
  intros O. unfold pagecache_slot.
  destruct (list_find _ _) as [[i e]|] eqn:Ef.
  { intros [= <- <-]. apply list_find_Some in Ef as (Hi & Hu & _).
    split; [by apply delta_same|]. split; [apply ents_sub_refl|].
    intros ? [= <-]. exists e. split; [done|]. by destruct (pe_used e). }
  apply list_find_None in Ef.
  destruct (oldest _ _ _ _) as [v|] eqn:Eo.
  2:{ intros [= <- <-]. split; [by apply delta_same|]. split; [apply ents_sub_refl|done]. }
  apply oldest_spec in Eo as [[u Hu]|(v' & e & -> & Hv & _)]; [done|]. cbn [Nat.add].
  assert (Hu : pe_used e = true).
  { rewrite Forall_lookup in Ef. specialize (Ef _ _ Hv). by destruct (pe_used e). }
  assert (Hat : entry_at s v' = e) by (by apply list_lookup_total_correct). rewrite Hat. clear Hat.
  destruct (if pe_dirty e then _ else _) as [ok s1] eqn:Es.
  assert (Hs : pc_same s s1).
  { destruct (pe_dirty e); [|pc_split; pc_chain]. destruct (_ =? 0).
    - injection Es as _ <-. apply (same_set_entry _ _ e); [done|]. by split_and!.
    - destruct (pagecache_store_page _ _ _ _ s) as [ok2 s2] eqn:Est. apply same_store_page in Est.
      etransitivity; [exact Est|]. destruct (negb ok2); apply pair_equal_spec in Es as [_ <-]; [apply same_note|].
      etransitivity; [|apply same_note].
      destruct (Forall2_lookup_l _ _ _ _ _ (same_ents _ _ Est) Hv) as (e2 & He2 & Sim).
      apply (same_set_entry _ _ e2); [done|]. destruct Sim as (?&?&?&?). by split_and!. }
  pose proof (delta_same s s1 O Hs) as Hd. pose proof (delta_own s s1 O Hd) as O1.
  destruct (negb ok).
  { intros [= <- <-]. split; [done|]. split; [by apply ents_sub_same|done]. }
  intros H. apply pair_equal_spec in H as [<- <-].
  destruct (Forall2_lookup_l _ _ _ _ _ (same_ents _ _ Hs) Hv) as (e1 & He1 & Sim).
  assert (Hu1 : pe_used e1 = true) by (destruct Sim as (-> & _); done).
  destruct (drop_entry_delta s1 v' e1 O1 He1 Hu1) as [Hd2 Hz].
  split; [by eapply delta0_trans|]. split.
  - eapply ents_sub_trans; [by apply ents_sub_same|apply drop_entry_sub].
  - intros ? [= <-]. eauto.
Qed.

(** Filling a free slot with a page and taking the cache's reference on it. *)
Lemma fill_slot_delta s i e ino off pa t :
  pmm_wf (s_pmm s) -> length (s_ents s) = MAX_FILE_CACHE_PAGES ->
  s_ents s !! i = Some e -> pe_used e = false ->
  pmm_page_refcount (s_pmm s) pa <> 0 -> pmm_page_refcount (s_pmm s) pa < 2 ^ 32 - 1 ->
  let s1 := set_entry s i (mk_entry ino off pa t true false) in
  pc_delta d0 s (sys_set_pmm s1 (pmm_ref_page (s_pmm s1) pa)).
Proof.
  intros W L Hi Hu Hr Hb s1. split_and!.
  - by apply ref_page_wf.
  - unfold s_ents. simpl. by rewrite length_insert.
  - intros p. unfold ext_refs. simpl. rewrite ref_page_refcount by done.
    change (cache_refs (sys_set_pmm s1 _) p) with (cache_refs s1 p).
    unfold s1. rewrite (cache_refs_set s i e) by done. rewrite Hu. simpl. unfold d0.
    destruct (Z.eqb_spec pa p); case_decide; simpl; subst; lia || done.
Qed.

Lemma free_page_delta s p :
  pmm_wf (s_pmm s) -> length (s_ents s) = MAX_FILE_CACHE_PAGES -> pmm_page_refcount (s_pmm s) p <> 0 ->
  pc_delta (fun q => - d1 p q) s (sys_set_pmm s (pmm_free_page (s_pmm s) p)).
Proof.
  intros W L Hr. split_and!; [by apply free_page_wf|done|]. intros q. unfold ext_refs. simpl.
  rewrite free_page_refcount by done. change (cache_refs (sys_set_pmm s _) q) with (cache_refs s q).
  pose proof (refcount_range (s_pmm s) p W) as Hu. unfold is_u32 in Hu. unfold d1.
  case_decide; subst; lia.
Qed.

Lemma alloc_page_delta s page m :
  pc_own s -> pmm_alloc_page (s_pmm s) = (page, m) ->
  (page = 0 /\ m = s_pmm s) \/
  (page <> 0 /\ pc_delta (d1 page) s (sys_set_pmm s m) /\ pc_own (sys_set_pmm s m) /\
   ext_refs (sys_set_pmm s m) page = 1).
Proof.
  intros [W L R] Ha. destruct (decide (page = 0)) as [->|Hne].
  { left. split; [done|]. by eapply alloc_page_fail. }
  right. split; [done|]. destruct (alloc_page_ok _ _ _ W Ha Hne) as (W' & Hg).
  destruct Hg as (_ & H0 & _ & _ & Hq & _).
  assert (Hd : forall q, ext_refs (sys_set_pmm s m) q = ext_refs s q + d1 page q).
  { intros q. unfold ext_refs. simpl. rewrite Hq.
    change (cache_refs (sys_set_pmm s m) q) with (cache_refs s q). unfold d1. case_decide; subst; lia. }
  assert (Hz : ext_refs s page = 0).
  { pose proof (R page) as Hp. unfold ext_refs in *. rewrite H0 in *.
    pose proof (cache_refs_bound s page L). lia. }
  split; [by split_and!|]. split.
  - constructor; try done. intros q. rewrite Hd. specialize (R q). unfold d1. case_decide; subst; lia.
  - rewrite Hd, Hz. unfold d1. by rewrite decide_True.
Qed.

(** The second half of [pagecache_get_or_create]: load the new page, find a slot
    and enter it. *)
Lemma load_and_enter_delta ino off page s1 r s' :
  pc_own s1 -> ext_refs s1 page = 1 ->
  (let '(ok, s) := pagecache_load_page ino off page s1 in
   if negb ok then (None, sys_set_pmm s (pmm_free_page (s_pmm s) page))
   else
     match pagecache_slot s with
     | (None, s) => (None, sys_set_pmm s (pmm_free_page (s_pmm s) page))
     | (Some slot, s) =>
         let '(t, s) := pagecache_touch_tick s in
         let s := set_entry s slot (mk_entry ino off page t true false) in
         (Some page, sys_set_pmm s (pmm_ref_page (s_pmm s) page))
     end) = (r, s') ->
  match r with
  | Some pa => pa = page /\ pc_delta d0 s1 s'
  | None => pc_delta (fun q => - d1 page q) s1 s'
  end.
Proof.
  intros O1 H1. destruct (pagecache_load_page _ _ _ _) as [ok s2] eqn:El. apply same_load_page in El.
  pose proof (delta_same _ _ O1 El) as D2. pose proof (delta_own _ _ O1 D2) as O2.
  assert (Hfree : forall s3, pc_delta d0 s1 s3 ->
    pc_delta (fun q => - d1 page q) s1 (sys_set_pmm s3 (pmm_free_page (s_pmm s3) page))).
  { intros s3 (W3 & L3 & H3).
    assert (Hr : pmm_page_refcount (s_pmm s3) page <> 0).
    { specialize (H3 page). unfold d0 in H3. rewrite H1 in H3. unfold ext_refs in H3.
      pose proof (cache_refs_bound s3 page L3). lia. }
    pose proof (free_page_delta s3 page W3 L3 Hr) as (W4 & L4 & H4). split_and!; try done.
    intros q. rewrite H4, H3. unfold d0. lia. }
  destruct (negb ok).
  { intros H. apply pair_equal_spec in H as [<- <-]. by apply Hfree. }
  destruct (pagecache_slot s2) as [[slot|] s3] eqn:Es; apply slot_delta in Es as (D3 & _ & Hslot); try done.
  2:{ intros H. apply pair_equal_spec in H as [<- <-]. apply Hfree. by eapply delta0_trans. }
  destruct (Hslot slot eq_refl) as (e & He & Hu).
  pose proof (delta0_trans _ _ _ _ D2 D3) as D13. pose proof (delta_own _ _ O1 D13) as O3.
  destruct (pagecache_touch_tick s3) as [t s4] eqn:Et. apply same_touch_tick in Et as Hs4.
  assert (Hents : s_ents s4 = s_ents s3) by (injection Et as _ <-; done).
  pose proof (delta_same _ _ O3 Hs4) as D4. pose proof (delta0_trans _ _ _ _ D13 D4) as D14.
  destruct D14 as (W4 & L4 & H4).
  intros H. apply pair_equal_spec in H as [<- <-]. split; [done|].
  eapply delta0_trans; [split_and!; [exact W4|exact L4|exact H4]|].
  pose proof (H4 page) as Hp. rewrite H1 in Hp. unfold d0, ext_refs in Hp.
  pose proof (cache_refs_bound s4 page L4).
  apply (fill_slot_delta s4 slot e); try done; [by rewrite Hents|lia|lia].
Qed.

Lemma find_Some ino off s hit :
  pagecache_find ino off s = Some hit ->
  exists e, s_ents s !! hit = Some e /\ pe_used e = true /\
    pagecache_inode_same (s_inodes s) (pe_inode e) ino = true /\ pe_file_off e = off.
Proof.
  unfold pagecache_find. destruct (list_find _ _) as [[i e]|] eqn:Ef; [|done]. intros [= <-].
  apply list_find_Some in Ef as (Hi & Hm & _). exists e. unfold entry_matches in Hm.
  apply Is_true_true in Hm. bool_hyps. done.
Qed.

(** A hit: touch the entry and take a reference for the caller. *)
Lemma get_hit_delta s hit e t s1 :
  pc_own s -> s_ents s !! hit = Some e -> pe_used e = true -> pagecache_touch_tick s = (t, s1) ->
  let s2 := set_entry s1 hit (pe_set_touch (entry_at s1 hit) t) in
  let pa := pe_pa (entry_at s2 hit) in
  pc_delta (d1 pa) s (sys_set_pmm s2 (pmm_ref_page (s_pmm s2) pa)).
Proof.
  intros O He Hu Et s2 pa. apply same_touch_tick in Et.
  assert (H2 : pc_same s s2).
  { etransitivity; [exact Et|]. apply same_update. by split_and!. }
  pose proof (delta_same _ _ O H2) as D2. pose proof (delta_own _ _ O D2) as [W2 L2 R2].
  destruct (Forall2_lookup_l _ _ _ _ _ (same_ents _ _ H2) He) as (e2 & He2 & (Hu2 & _)).
  rewrite Hu in Hu2.
  assert (Hpa : pa = pe_pa e2) by (unfold pa, entry_at; by rewrite (list_lookup_total_correct _ _ _ He2)).
  pose proof (cache_refs_entry s2 hit e2 He2 Hu2) as Hc. rewrite <- Hpa in Hc. clear Hpa. clearbody pa. clearbody s2.
  pose proof (R2 pa) as Hr. unfold ext_refs in Hr. pose proof (cache_refs_bound s2 pa L2).
  destruct D2 as (_ & _ & D2). split_and!; [apply ref_page_wf; [done|lia|lia]|done|].
  intros q. unfold ext_refs at 1. simpl.
  change (cache_refs (sys_set_pmm s2 _) q) with (cache_refs s2 q).
  rewrite ref_page_refcount by (done || lia). specialize (D2 q). unfold ext_refs, d0 in D2.
  unfold d1, ext_refs. case_decide; subst; lia.
Qed.

Lemma get_or_create_delta ino off s r s' :
  pc_own s -> pagecache_get_or_create ino off s = (r, s') ->
  pc_delta (match r with Some pa => d1 pa | None => d0 end) s s'.
Proof.
  intros O. unfold pagecache_get_or_create. pose proof (delta_same s s O ltac:(reflexivity)) as Drefl.
  destruct (negb (pagecache_inode_supported _ _)); [intros [= <- <-]; done|].
  destruct (negb (_ =? 0)); [intros [= <- <-]; done|].
  destruct (pagecache_find ino off s) as [hit|] eqn:Ef.
  - apply find_Some in Ef as (e & He & Hu & _).
    destruct (pagecache_touch_tick s) as [t s1] eqn:Et. cbv zeta.
    intros H. apply pair_equal_spec in H as [<- <-]. by apply (get_hit_delta s hit e t s1).
  - destruct (pmm_alloc_page (s_pmm s)) as [page m] eqn:Ea.
    destruct (alloc_page_delta s page m O Ea) as [[-> ->]|(Hne & Da & Oa & Ea1)].
    + assert (Hid : sys_set_pmm s (s_pmm s) = s) by by destruct s. rewrite Hid. cbn [Z.eqb andb].
      destruct (negb (pagecache_has_free_slot s)); [|by intros [= <- <-]].
      destruct (pagecache_slot s) as [[v|] s1] eqn:Es; apply slot_delta in Es as (D1 & _ & _); try done.
      2:{ cbn [Z.eqb]. by intros [= <- <-]. }
      pose proof (delta_own _ _ O D1) as O1.
      destruct (pmm_alloc_page (s_pmm s1)) as [page m] eqn:Ea1.
      destruct (alloc_page_delta s1 page m O1 Ea1) as [[-> ->]|(Hne & Da & Oa & Hx)].
      * cbn [Z.eqb]. intros [= <- <-]. by destruct s1.
      * destruct (page =? 0) eqn:E0; bool_hyps; [done|]. intros H. apply load_and_enter_delta in H; try done.
        destruct r as [pa|].
        -- destruct H as [-> H]. eapply delta_ext; [|exact (delta_trans _ _ _ _ _ D1 (delta0_trans _ _ _ _ Da H))].
           unfold d0. intros; lia.
        -- eapply delta_ext; [|exact (delta_trans _ _ _ _ _ D1 (delta_trans _ _ _ _ _ Da H))].
           unfold d0. intros q; simpl; lia.
    + destruct (page =? 0) eqn:E0; bool_hyps; [done|]. cbn [andb]. rewrite (proj2 (Z.eqb_neq page 0) E0).
      intros H. apply load_and_enter_delta in H; try done. destruct r as [pa|].
      * destruct H as [-> H]. by eapply delta0_trans.
      * eapply delta_ext; [|exact (delta_trans _ _ _ _ _ Da H)]. unfold d0. intros q; simpl; lia.
Qed.

(** Getting a page and giving the caller's reference back cancel out; in between
    only steps that keep the references. *)
Lemma get_release_delta ino off s pa s1 s2 :
  pc_own s -> pagecache_get_or_create ino off s = (Some pa, s1) -> pc_same s1 s2 ->
  pc_delta d0 s (sys_set_pmm s2 (pmm_free_page (s_pmm s2) pa)).
Proof.
  intros O Hg Hs. apply get_or_create_delta in Hg as (W1 & L1 & H1); [|done]. simpl in H1.
  pose proof (same_wf _ _ Hs W1) as W2.
  assert (L2 : length (s_ents s2) = MAX_FILE_CACHE_PAGES) by (by rewrite <- (Forall2_length _ _ _ (same_ents _ _ Hs))).
  assert (H2 : forall p, ext_refs s2 p = ext_refs s p + d1 pa p).
  { intros p. rewrite <- H1. unfold ext_refs, cache_refs. rewrite (same_refs _ _ Hs).
    f_equal. eapply countb_Forall2; [|exact (same_ents _ _ Hs)]. intros x y (-> & -> & _). done. }
  assert (Hr : pmm_page_refcount (s_pmm s2) pa <> 0).
  { specialize (H2 pa). unfold d1, ext_refs at 1 in H2. rewrite decide_True in H2 by done.
    pose proof (own_refs s O pa). pose proof (cache_refs_bound s2 pa L2). lia. }
  destruct (free_page_delta s2 pa W2 L2 Hr) as (W3 & L3 & H3). split_and!; try done.
  intros p. rewrite H3, H2. unfold d0. lia.
Qed.

Lemma read_loop_delta fuel ino offset n done acc s s' d bytes :
  pc_own s -> pc_read_loop fuel ino offset n done acc s = (d, bytes, s') -> pc_delta d0 s s'.
Proof.
  revert done acc s. induction fuel as [|fuel IH]; intros done acc s O; cbn [pc_read_loop].
  { intros [= <- <- <-]. by apply delta_same. }
  destruct (done <? n); [|intros [= <- <- <-]; by apply delta_same]. cbv zeta.
  destruct (pagecache_get_or_create _ _ s) as [[pa|] s1] eqn:Eg.
  - intros H. pose proof (get_release_delta _ _ _ _ _ s1 O Eg ltac:(reflexivity)) as D1.
    apply IH in H; [|by eapply delta_own]. by eapply delta0_trans.
  - intros [= <- <- <-]. by apply get_or_create_delta in Eg.
Qed.

Lemma write_loop_delta fuel ino offset src n done s s' d :
  pc_own s -> pc_write_loop fuel ino offset src n done s = (d, s') -> pc_delta d0 s s'.
Proof.
  revert done s. induction fuel as [|fuel IH]; intros done s O; cbn [pc_write_loop].
  { intros [= <- <-]. by apply delta_same. }
  destruct (done <? n); [|intros [= <- <-]; by apply delta_same]. cbv zeta.
  destruct (pagecache_get_or_create _ _ s) as [[pa|] s1] eqn:Eg.
  - set (s2 := sys_set_ram s1 _).
    set (s3 := match pagecache_find ino _ s2 with Some hit => entry_touch s2 hit true | None => s2 end).
    assert (H3 : pc_same s1 s3).
    { etransitivity; [apply same_set_ram|]. unfold s3. fold s2.
      destruct (pagecache_find _ _ _); [apply same_entry_touch|reflexivity]. }
    intros H. pose proof (get_release_delta _ _ _ _ _ s3 O Eg H3) as D1.
    apply IH in H; [|by eapply delta_own]. by eapply delta0_trans.
  - intros [= <- <-]. by apply get_or_create_delta in Eg.
Qed.

Lemma read_delta ino offset len s rc bytes off' s' :
  pc_own s -> pagecache_read ino offset len s = (rc, bytes, off', s') -> pc_delta d0 s s'.
Proof.
  intros O. pose proof (delta_same s s O ltac:(reflexivity)) as Drefl. unfold pagecache_read.
  destruct ino as [p|]; [|by intros [= <- <- <- <-]]. destruct (negb _); [by intros [= <- <- <- <-]|].
  destruct (len =? 0); [by intros [= <- <- <- <-]|].
  destruct (i_size _ <=? offset); [by intros [= <- <- <- <-]|]. cbv zeta.
  destruct (pc_read_loop _ _ _ _ _ _ s) as [[d bs] s1] eqn:El. apply read_loop_delta in El; [|done].
  destruct (d =? 0); by intros [= <- <- <- <-].
Qed.

Lemma write_delta ino offset src s rc off' s' :
  pc_own s -> pagecache_write ino offset src s = (rc, off', s') -> pc_delta d0 s s'.
Proof.
  intros O. pose proof (delta_same s s O ltac:(reflexivity)) as Drefl. unfold pagecache_write.
  destruct ino as [p|]; [|by intros [= <- <- <-]]. cbv zeta. destruct (negb _ || negb _); [by intros [= <- <- <-]|].
  destruct (_ =? 0); [by intros [= <- <- <-]|].
  destruct (_ && (i_size _ <=? offset)); [by intros [= <- <- <-]|].
  destruct (_ && (_ || _)); [by intros [= <- <- <-]|].
  destruct (pc_write_loop _ _ _ _ _ _ s) as [d s1] eqn:El. apply write_loop_delta in El; [|done].
  destruct (d =? 0); [by intros [= <- <- <-]|]. set (s2 := if _ <? _ then sys_set_inode _ _ _ else s1).
  intros H. apply pair_equal_spec in H as [_ <-]. pose proof (delta_own _ _ O El) as O1.
  eapply delta0_trans; [exact El|]. apply delta_same; [done|].
  etransitivity; [|apply same_pressure]. unfold s2. destruct (_ <? _); [|reflexivity]. apply same_set_st.
Qed.

Lemma writeback_delta ino off pa mb s ok s' :
  pc_own s -> 1 <= ext_refs s pa -> pagecache_writeback ino off pa mb s = (ok, s') -> pc_delta d0 s s'.
Proof.
  intros O Hpa. pose proof (delta_same s s O ltac:(reflexivity)) as Drefl. unfold pagecache_writeback.
  destruct ino as [p|]; [|by intros [= <- <-]]. destruct (negb _); [by intros [= <- <-]|].
  destruct (negb _); [by intros [= <- <-]|]. cbv zeta.
  destruct (_ && (_ <=? off)); [by intros [= <- <-]|]. destruct (_ =? 0); [by intros [= <- <-]|].
  match goal with |- context [memcpy _ _ pa ?v] => set (valid := v) end.
  destruct (match pagecache_find _ _ s with Some _ => _ | None => _ end) as [hit s1] eqn:Eh.
  assert (D1 : pc_delta d0 s s1).
  { destruct (pagecache_find (Some p) off s) as [h|].
    - destruct (negb _); apply pair_equal_spec in Eh as [_ <-]; [|done]. apply delta_same; [done|apply same_set_ram].
    - destruct (pagecache_slot s) as [[slot|] s2] eqn:Es; apply slot_delta in Es as (D2 & _ & Hslot); try done;
        [|by apply pair_equal_spec in Eh as [_ <-]].
      destruct (Hslot slot eq_refl) as (e & He & Hu). pose proof (delta_own _ _ O D2) as O2.
      destruct (pagecache_touch_tick s2) as [t s3] eqn:Et. apply same_touch_tick in Et as Hs3.
      assert (Hents : s_ents s3 = s_ents s2) by (injection Et as _ <-; done).
      pose proof (delta0_trans _ _ _ _ D2 (delta_same _ _ O2 Hs3)) as (W3 & L3 & H3).
      apply pair_equal_spec in Eh as [_ <-]. eapply delta0_trans; [by split_and!|].
      pose proof (H3 pa) as Hp. pose proof (own_refs s O pa). unfold d0, ext_refs at 1 in Hp.
      pose proof (cache_refs_bound s3 pa L3).
      apply (fill_slot_delta s3 slot e); try done; [by rewrite Hents|lia|lia]. }
  destruct hit as [hit|]; [|by intros [= <- <-]]. intros H. apply pair_equal_spec in H as [_ <-].
  pose proof (delta_own _ _ O D1) as O1. eapply delta0_trans; [exact D1|]. apply delta_same; [done|].
  etransitivity; [|apply same_entry_touch]. destruct (_ && (valid <? _)); [apply same_set_ram|reflexivity].
Qed.

Lemma drop_used_delta s i :
  pc_own s -> pe_used (entry_at s i) = true -> pc_delta d0 s (drop_entry i s).
Proof.
  intros O Hu. destruct (s_ents s !! i) as [e|] eqn:Ei.
  - apply (drop_entry_delta s i e O Ei). by rewrite <- (list_lookup_total_correct _ _ _ Ei).
  - unfold entry_at in Hu. rewrite list_lookup_total_alt, Ei in Hu. done.
Qed.

Lemma invalidate_range_delta idxs ino so len b s b' s' :
  pc_own s -> invalidate_range_loop idxs ino so len b s = (b', s') -> pc_delta d0 s s'.
Proof.
  revert b s. induction idxs as [|i idxs IH]; intros b s O; cbn [invalidate_range_loop].
  { intros [= <- <-]. by apply delta_same. }
  cbv zeta. destruct (negb _ || _ || _) eqn:Eu; [by apply IH|]. bool_hyps.
  destruct (1 <? _); [by apply IH|]. intros HL.
  pose proof (drop_used_delta s i O ltac:(done)) as D1. apply IH in HL; [|by eapply delta_own].
  by eapply delta0_trans.
Qed.

Lemma invalidate_inode_delta idxs p s : pc_own s -> pc_delta d0 s (invalidate_inode_loop idxs p s).
Proof.
  revert s. induction idxs as [|i idxs IH]; intros s O; cbn [invalidate_inode_loop].
  { by apply delta_same. }
  cbv zeta. destruct (negb _ || _) eqn:Eu; [by apply IH|]. bool_hyps.
  assert (D1 : pc_delta d0 s (if 1 <? pmm_page_refcount (s_pmm s) (pe_pa (entry_at s i))
    then if i_size (inode_at s p) <=? pe_file_off (entry_at s i)
         then set_entry s i (pe_set_dirty (entry_at s i) false) else s
    else drop_entry i s)).
  { destruct (1 <? _); [|by apply drop_used_delta]. apply delta_same; [done|].
    destruct (_ <=? _); [|reflexivity]. apply same_update. by split_and!. }
  destruct (1 <? _); (eapply delta0_trans; [exact D1|]); apply IH; by eapply delta_own.
Qed.

Lemma invalidate_ext4_delta idxs s : pc_own s -> pc_delta d0 s (invalidate_ext4_loop idxs s).
Proof.
  revert s. induction idxs as [|i idxs IH]; intros s O; cbn [invalidate_ext4_loop].
  { by apply delta_same. }
  cbv zeta. destruct (pe_inode _) as [p|]; [|by apply IH].
  destruct (negb _ || _) eqn:Eu; [by apply IH|]. bool_hyps.
  pose proof (drop_used_delta s i O ltac:(done)) as D1. eapply delta0_trans; [exact D1|].
  apply IH. by eapply delta_own.
Qed.

Lemma same_zero_tail i k s : pc_same s (pagecache_zero_tail i k s).
Proof.
  unfold pagecache_zero_tail. cbv zeta. destruct (_ || _); [reflexivity|].
  etransitivity; [apply same_set_ram|apply same_entry_touch].
Qed.

Lemma truncate_delta idxs ino eof s : pc_own s -> pc_delta d0 s (truncate_loop idxs ino eof s).
Proof.
  revert s. induction idxs as [|i idxs IH]; intros s O; cbn [truncate_loop].
  { by apply delta_same. }
  assert (Hgo : forall s1, pc_delta d0 s s1 -> pc_delta d0 s (truncate_loop idxs ino eof s1)).
  { intros s1 D1. eapply delta0_trans; [exact D1|]. apply IH. by eapply delta_own. }
  cbv zeta. destruct (negb _ || _) eqn:Eu; [by apply IH|]. bool_hyps.
  destruct (eof <=? _).
  - destruct (1 <? _); apply Hgo; [|by apply drop_used_delta]. apply delta_same; [done|].
    etransitivity; [apply same_set_ram|apply same_entry_touch].
  - destruct (_ && _); [|by apply IH]. apply Hgo, delta_same; [done|apply same_zero_tail].
Qed.

(** The operations of the cache, with the external references they hand out. *)
Inductive pc_step s : (Z -> Z) -> sys D E T -> Prop :=
  | pc_get ino off r s' : pagecache_get_or_create ino off s = (r, s') ->
      pc_step s (match r with Some pa => d1 pa | None => d0 end) s'
  | pc_wb ino off pa mb ok s' : 1 <= ext_refs s pa -> pagecache_writeback ino off pa mb s = (ok, s') ->
      pc_step s d0 s'
  | pc_rd ino off len rc bytes off' s' : pagecache_read ino off len s = (rc, bytes, off', s') -> pc_step s d0 s'
  | pc_wr ino off src rc off' s' : pagecache_write ino off src s = (rc, off', s') -> pc_step s d0 s'
  | pc_dirty ino off len : pc_step s d0 (pagecache_mark_dirty ino off len s)
  | pc_flush ino rc s' : pagecache_flush_inode ino s = (rc, s') -> pc_step s d0 s'
  | pc_flush_range ino so len rc s' : pagecache_flush_inode_range ino so len s = (rc, s') -> pc_step s d0 s'
  | pc_flush_all rc s' : pagecache_flush_all s = (rc, s') -> pc_step s d0 s'
  | pc_tick now : pc_step s d0 (pagecache_tick now s)
  | pc_inval_range ino so len rc s' :
      pagecache_invalidate_inode_range ino so len s = (rc, s') -> pc_step s d0 s'
  | pc_inval ino : pc_step s d0 (pagecache_invalidate_inode ino s)
  | pc_inval_ext4 : pc_step s d0 (pagecache_invalidate_ext4_all s)
  | pc_truncate ino sz : pc_step s d0 (pagecache_truncate_inode ino sz s).

End Frame.

(** ** Properties *)

(** C10: the cache accounts for every page it holds. Each operation leaves the
    references of every frame that belong to mappings and callers exactly as they
    were, except that [pagecache_get_or_create] hands out one on the page it
    returns; so no operation frees a page somebody still uses, and none leaks
    one. *)
Theorem pagecache_ownership {D E T} `{!BlockDrivers D, !Ext4Ops D E, !SharedMappings T}
    (s : sys D E T) d s' :
  pc_own s -> pc_step s d s' -> pc_delta d s s'.
Proof.
  intros O []; eauto using get_or_create_delta, writeback_delta, read_delta, write_delta.
  - apply delta_same; [done|apply same_mark_dirty].
  - unfold pagecache_flush_inode in H. apply delta_same; [done|].
    destruct ino; [by eapply same_flush_match|by simplify_eq].
  - unfold pagecache_flush_inode_range in H. apply delta_same; [done|].
    destruct ino; [by eapply same_flush_match|by simplify_eq].
  - apply delta_same; [done|by eapply same_flush_match].
  - apply delta_same; [done|apply same_tick].
  - unfold pagecache_invalidate_inode_range in H. destruct ino; [|by simplify_eq; apply delta_same].
    destruct (invalidate_range_loop _ _ _ _ _ _) eqn:Ei. injection H as <- <-.
    by apply invalidate_range_delta in Ei.
  - unfold pagecache_invalidate_inode. destruct ino; [by apply invalidate_inode_delta|by apply delta_same].
  - by apply invalidate_ext4_delta.
  - unfold pagecache_truncate_inode. destruct (negb _); [by apply delta_same|by apply truncate_delta].
Qed.

(** ** File identity

    What [pagecache_inode_same] looks at. Only ext4 could change it behind the
    cache's back; [Ext4Ok] says that reading, writing and transactions do not. *)

Definition inode_ident (n : inode) :=
  (i_type n, i_fs_kind n, i_fs_id n, i_fs_ino n, i_dev_kind n, i_dev_lba_start n, i_dev_lba_count n).

Definition ident_same (a b : gmap Z inode) : Prop :=
  forall q, inode_ident (a !!! q) = inode_ident (b !!! q).

Class Ext4Ok (D E : Type) `{!Ext4Ops D E} := {
  ext4_read_ident p off len (st : storage D E) :
    ident_same (st_inodes (ext4_read p off len st).2) (st_inodes st);
  ext4_write_ident p off bytes (st : storage D E) :
    ident_same (st_inodes (ext4_write p off bytes st).2) (st_inodes st);
  ext4_begin_ident (st : storage D E) : ident_same (st_inodes (ext4_tx_begin st).2) (st_inodes st);
  ext4_commit_ident (st : storage D E) : ident_same (st_inodes (ext4_tx_commit st).2) (st_inodes st);
  ext4_abort_ident (st : storage D E) : ident_same (st_inodes (ext4_tx_abort st)) (st_inodes st);
  ext4_sync_ident (st : storage D E) : ident_same (st_inodes (ext4_sync_filesystem st).2) (st_inodes st);
}.

Lemma inode_same_ident a b x y :
  ident_same a b -> pagecache_inode_same a x y = pagecache_inode_same b x y.
Proof.
  intros H. unfold pagecache_inode_same. case_decide; [done|]. destruct x as [p|], y as [q|]; try done.
  pose proof (H p) as Hp. pose proof (H q) as Hq. unfold inode_ident in Hp, Hq.
  injection Hp as P1 P2 P3 P4 P5 P6 P7. injection Hq as Q1 Q2 Q3 Q4 Q5 Q6 Q7. cbv zeta.
  rewrite P1, P2, P3, P4, P5, P6, P7, Q1, Q2, Q3, Q4, Q5, Q6, Q7. done.
Qed.

Lemma inode_same_true ns x y :
  pagecache_inode_same ns x y = true <->
  x = y \/
  exists p q, x = Some p /\ y = Some q /\ i_type (ns !!! p) = i_type (ns !!! q) /\
    i_fs_kind (ns !!! p) = i_fs_kind (ns !!! q) /\
    ((i_type (ns !!! p) = INODE_DEV /\ i_dev_kind (ns !!! p) = i_dev_kind (ns !!! q) /\
      i_dev_lba_start (ns !!! p) = i_dev_lba_start (ns !!! q) /\
      i_dev_lba_count (ns !!! p) = i_dev_lba_count (ns !!! q)) \/
     (i_type (ns !!! p) <> INODE_DEV /\ i_fs_kind (ns !!! p) = FS_KIND_EXT4 /\
      i_fs_id (ns !!! p) <> 0 /\ i_fs_ino (ns !!! p) <> 0 /\
      i_fs_id (ns !!! p) = i_fs_id (ns !!! q) /\ i_fs_ino (ns !!! p) = i_fs_ino (ns !!! q))).
Proof.
  unfold pagecache_inode_same. case_decide as E; [tauto|].
  destruct x as [p|], y as [q|]; [|split; [done|]; intros [?|(?&?&?&?&_)]; done..]. cbv zeta.
  destruct (bool_decide _ || _) eqn:E1.
  { split; [done|]. intros [?|(? & ? & [= <-] & [= <-] & Ht & Hk & _)]; [done|].
    rewrite !bool_decide_false in E1 by (intros Hn; contradiction). done. }
  bool_hyps. rewrite bool_decide_eq_false in *.
  assert (Ht : i_type (ns !!! p) = i_type (ns !!! q)) by (by apply dec_stable).
  assert (Hk : i_fs_kind (ns !!! p) = i_fs_kind (ns !!! q)) by (by apply dec_stable).
  destruct (decide (i_type (ns !!! p) = INODE_DEV)).
  - rewrite !andb_true_iff, !Z.eqb_eq. split; [intros; right; exists p, q; tauto|].
    intros [?|(? & ? & [= <-] & [= <-] & _ & _ & [?|?])]; tauto.
  - destruct (_ && _) eqn:E2.
    + rewrite !andb_true_iff, bool_decide_eq_true, !negb_true_iff, !Z.eqb_neq in E2.
      rewrite andb_true_iff, !Z.eqb_eq.
      split; [intros; right; exists p, q; tauto|].
      intros [?|(? & ? & [= <-] & [= <-] & _ & _ & [?|?])]; tauto.
    + split; [done|]. intros [?|(? & ? & [= <-] & [= <-] & _ & _ & [?|(?&Hx&?&?&Ei&En)])]; [done|tauto|].
      rewrite bool_decide_true in E2 by done. rewrite Ei, En in *. lia.
Qed.

Lemma inode_same_sym ns x y : pagecache_inode_same ns x y = pagecache_inode_same ns y x.
Proof.
  assert (H : forall a b, pagecache_inode_same ns a b = true -> pagecache_inode_same ns b a = true).
  { intros a b. rewrite !inode_same_true. intros [->|(p & q & -> & -> & Ht & Hk & Hc)]; [by left|].
    right. exists q, p. rewrite <- Ht, <- Hk. split_and!; try done.
    destruct Hc as [(? & ? & ? & ?)|(? & ? & ? & ? & Hi & Hn)]; [left|right].
    - split_and!; congruence.
    - rewrite <- Hi, <- Hn. split_and!; congruence. }
  apply eq_true_iff_eq. split; apply H.
Qed.

Lemma inode_same_refl ns x : pagecache_inode_same ns x x = true.
Proof. apply inode_same_true. by left. Qed.

(** ** Loads and stores leave the cache and the file identities alone *)

Section Ident.
Context {D E T : Type} `{!BlockDrivers D, !Ext4Ops D E, !Ext4Ok D E, !SharedMappings T}.
Implicit Types s : sys D E T.

Record st_frame s s' : Prop := {
  fr_pc : s_pc s' = s_pc s;
  fr_ident : ident_same (s_inodes s') (s_inodes s);
}.

#[global] Instance st_frame_preorder : PreOrder st_frame.
Proof.
  split; [by intros s|]. intros a b c [A1 A2] [B1 B2]. split; [congruence|].
  intros q. by rewrite B2.
Qed.

Lemma fr_set_ram s m : st_frame s (sys_set_ram s m).
Proof. by split. Qed.

Lemma fr_set_top s t : st_frame s (sys_set_top s t).
Proof. by split. Qed.

Lemma fr_set_pmm s m : st_frame s (sys_set_pmm s m).
Proof. by split. Qed.

Lemma fr_set_bc s b : st_frame s (sys_set_bc s b).
Proof. by split. Qed.

Lemma fr_set_size s p n sz :
  inode_ident n = inode_ident (inode_at s p) -> st_frame s (sys_set_inode s p (inode_set_size n sz)).
Proof.
  intros Hn. split; [done|]. intros q. unfold s_inodes at 1. simpl.
  destruct (decide (p = q)) as [<-|Hne].
  - rewrite lookup_total_insert_eq. exact Hn.
  - by rewrite lookup_total_insert_ne.
Qed.

Lemma fr_set_st s st : ident_same (st_inodes st) (s_inodes s) -> st_frame s (sys_set_st s st).
Proof. intros H. by split. Qed.

Lemma fr_ext4_read s p off len rc bytes st :
  ext4_read p off len (s_st s) = (rc, bytes, st) -> st_frame s (sys_set_st s st).
Proof. intros H. apply fr_set_st. change st with (rc, bytes, st).2. rewrite <- H. apply ext4_read_ident. Qed.

Lemma fr_ext4_write s p off bytes rc st :
  ext4_write p off bytes (s_st s) = (rc, st) -> st_frame s (sys_set_st s st).
Proof. intros H. apply fr_set_st. change st with (rc, st).2. rewrite <- H. apply ext4_write_ident. Qed.

Lemma fr_ext4_begin s ok st : ext4_tx_begin (s_st s) = (ok, st) -> st_frame s (sys_set_st s st).
Proof. intros H. apply fr_set_st. change st with (ok, st).2. rewrite <- H. apply ext4_begin_ident. Qed.

Lemma fr_ext4_commit s ok st : ext4_tx_commit (s_st s) = (ok, st) -> st_frame s (sys_set_st s st).
Proof. intros H. apply fr_set_st. change st with (ok, st).2. rewrite <- H. apply ext4_commit_ident. Qed.

Lemma fr_ext4_abort s : st_frame s (sys_set_st s (ext4_tx_abort (s_st s))).
Proof. apply fr_set_st, ext4_abort_ident. Qed.

Ltac fr_chain :=
  repeat first
    [ reflexivity | assumption
    | etransitivity; [|solve [apply fr_set_ram | apply fr_set_top | apply fr_set_pmm | apply fr_set_bc
                             | apply fr_ext4_abort | eapply fr_ext4_read; eassumption
                             | eapply fr_ext4_write; eassumption | eapply fr_ext4_begin; eassumption
                             | eapply fr_ext4_commit; eassumption | by apply fr_set_size]] ].

Lemma fr_load_page ino off dst s ok s' : pagecache_load_page ino off dst s = (ok, s') -> st_frame s s'.
Proof. intros H. unfold pagecache_load_page in H. pc_split; fr_chain. Qed.

Lemma fr_store_dev p off src n s ok s' : store_page_dev p off src n s = (ok, s') -> st_frame s s'.
Proof. intros H. unfold store_page_dev in H. pc_split; fr_chain. Qed.

Lemma fr_store_mem p off src n s ok s' : store_page_mem p off src n s = (ok, s') -> st_frame s s'.
Proof. intros H. unfold store_page_mem in H. pc_split; fr_chain. Qed.

Lemma fr_store_ext4 p off src n b s ok s' : store_page_ext4 p off src n b s = (ok, s') -> st_frame s s'.
Proof. intros H. unfold store_page_ext4 in H. pc_split; fr_chain. Qed.

Lemma fr_store_page ino off src n s ok s' : pagecache_store_page ino off src n s = (ok, s') -> st_frame s s'.
Proof.
  intros H. unfold pagecache_store_page, pagecache_store_page_internal in H.
  destruct ino as [p|]; [|pc_split; fr_chain]. destruct (_ || _); [pc_split; fr_chain|]. cbv zeta in H.
  destruct (decide _); [by eapply fr_store_dev|].
  destruct (decide _); [by eapply fr_store_mem|by eapply fr_store_ext4].
Qed.

(** ** One page per file page *)

(** No two entries hold the same page of the same file. *)
Definition pc_unique s : Prop :=
  forall i j e e', s_ents s !! i = Some e -> s_ents s !! j = Some e' ->
    pe_used e = true -> pe_used e' = true ->
    pagecache_inode_same (s_inodes s) (pe_inode e) (pe_inode e') = true ->
    pe_file_off e = pe_file_off e' -> i = j.

(** Steps that add no entry and change no file's identity. *)
Definition pc_shrink s s' : Prop := ents_sub s s' /\ ident_same (s_inodes s') (s_inodes s).

#[global] Instance pc_shrink_preorder : PreOrder pc_shrink.
Proof.
  split; [by intros s; split; [apply ents_sub_refl|]|].
  intros a b c [A1 A2] [B1 B2]. split; [by eapply ents_sub_trans|]. intros q. by rewrite B2.
Qed.

Lemma shrink_unique s s' : pc_shrink s s' -> pc_unique s -> pc_unique s'.
Proof.
  intros [Hs Hi] U i j e e' He He' Hu Hu' Hsame Hoff.
  destruct (Hs i e He Hu) as (a & Ha & (A1 & _ & A3 & A4)).
  destruct (Hs j e' He' Hu') as (b & Hb & (B1 & _ & B3 & B4)).
  apply (U i j a b Ha Hb); try congruence.
  rewrite <- (inode_same_ident _ _ _ _ Hi). congruence.
Qed.

Lemma shrink_same s s' : pc_same s s' -> s_st s' = s_st s -> pc_shrink s s'.
Proof. intros H Hst. split; [by apply ents_sub_same|]. unfold s_inodes. by rewrite Hst. Qed.

Lemma shrink_frame s s' : pc_same s s' -> st_frame s s' -> pc_shrink s s'.
Proof. intros H [_ Hi]. split; [by apply ents_sub_same|done]. Qed.

Lemma shrink_note b s : pc_shrink s (pagecache_note_writeback_result b s).
Proof. apply shrink_same; [apply same_note|]. by destruct b. Qed.

Lemma shrink_touch s i d : pc_shrink s (entry_touch s i d).
Proof. apply shrink_same; [apply same_entry_touch|done]. Qed.

Lemma shrink_store ino off src n s ok s' :
  pagecache_store_page ino off src n s = (ok, s') -> pc_shrink s s'.
Proof. intros H. apply shrink_frame; [by eapply same_store_page|by eapply fr_store_page]. Qed.

Lemma shrink_ram s m : pc_shrink s (sys_set_ram s m).
Proof. apply shrink_same; [apply same_set_ram|done]. Qed.

Lemma shrink_top s t : pc_shrink s (sys_set_top s t).
Proof. apply shrink_same; [apply same_set_top|done]. Qed.

Lemma shrink_drop i s : pc_shrink s (drop_entry i s).
Proof. split; [apply drop_entry_sub|done]. Qed.

Lemma shrink_update s i e' : entry_sim (entry_at s i) e' -> pc_shrink s (set_entry s i e').
Proof. intros H. apply shrink_same; [by apply same_update|done]. Qed.

Lemma shrink_entry_writeback i s ok s' : pagecache_entry_writeback i s = (ok, s') -> pc_shrink s s'.
Proof.
  intros H. unfold pagecache_entry_writeback in H.
  destruct (negb _ || negb _); [apply pair_equal_spec in H as [_ <-]; reflexivity|].
  cbv zeta in H. destruct (_ =? 0).
  - destruct (match pe_inode _ with Some _ => _ | None => _ end);
      [|apply pair_equal_spec in H as [_ <-]; apply shrink_touch].
    etransitivity; [apply shrink_ram|]. destruct (task_pagecache_writeprotect_shared _ _ _ _) as [ok1 t].
    etransitivity; [apply shrink_top|].
    destruct (negb ok1); apply pair_equal_spec in H as [_ <-]; [reflexivity|apply shrink_touch].
  - destruct (pagecache_store_page _ _ _ _ s) as [ok1 s1] eqn:Es. apply shrink_store in Es.
    etransitivity; [exact Es|]. destruct (negb ok1); [apply pair_equal_spec in H as [_ <-]; reflexivity|].
    destruct (task_pagecache_writeprotect_shared _ _ _ _) as [ok2 t].
    match type of H with context [sys_set_top ?x t] => assert (Hx : pc_shrink s1 x) end.
    { destruct (_ && _); [apply shrink_ram|reflexivity]. }
    etransitivity; [exact Hx|]. etransitivity; [apply shrink_top|].
    destruct (negb ok2); apply pair_equal_spec in H as [_ <-]; [reflexivity|apply shrink_touch].
Qed.

Lemma shrink_flush_match ino so len ur b s rc s' :
  pagecache_flush_match ino so len ur b s = (rc, s') -> pc_shrink s s'.
Proof.
  revert s. induction b as [|b IH]; intros s H; cbn [pagecache_flush_match] in H.
  { apply pair_equal_spec in H as [_ <-]. reflexivity. }
  destruct (oldest _ _ _ _) as [v|]; [|apply pair_equal_spec in H as [_ <-]; reflexivity].
  destruct (pagecache_entry_writeback v s) as [ok s1] eqn:Ew. apply shrink_entry_writeback in Ew.
  etransitivity; [exact Ew|].
  destruct (negb ok); [apply pair_equal_spec in H as [_ <-]; apply shrink_note|].
  etransitivity; [apply (shrink_note true)|]. by apply IH.
Qed.

Lemma shrink_slot s r s' : pagecache_slot s = (r, s') -> pc_shrink s s'.
Proof.
  unfold pagecache_slot. destruct (list_find _ _) as [[i e]|].
  { intros [= <- <-]. reflexivity. }
  destruct (oldest _ _ _ _) as [v|]; [|intros [= <- <-]; reflexivity]. cbv zeta.
  set (e := entry_at s v). destruct (if pe_dirty e then _ else _) as [ok s1] eqn:Es.
  assert (Hs : pc_shrink s s1).
  { destruct (pe_dirty e); [|apply pair_equal_spec in Es as [_ <-]; reflexivity]. destruct (_ =? 0).
    - apply pair_equal_spec in Es as [_ <-]. apply shrink_update. by split_and!.
    - destruct (pagecache_store_page _ _ _ _ s) as [ok2 s2] eqn:Est.
      pose proof (fr_store_page _ _ _ _ _ _ _ Est) as [Hpc _]. apply shrink_store in Est.
      etransitivity; [exact Est|].
      destruct (negb ok2); apply pair_equal_spec in Es as [_ <-]; [apply shrink_note|].
      etransitivity; [|apply shrink_note]. apply shrink_update.
      unfold e, entry_at, s_ents. rewrite Hpc. by split_and!. }
  destruct (negb ok); intros H; apply pair_equal_spec in H as [_ <-]; [done|].
  etransitivity; [exact Hs|apply shrink_drop].
Qed.

Lemma shrink_pressure s : pc_shrink s (pagecache_maybe_writeback_pressure s).
Proof.
  unfold pagecache_maybe_writeback_pressure. destruct (pagecache_writeback_blocked s); [reflexivity|].
  cbv zeta. destruct (_ <? _); [reflexivity|].
  destruct (pagecache_flush_match _ _ _ _ _ s) as [rc s'] eqn:Ef. by eapply shrink_flush_match.
Qed.

(** Entering a page that no entry holds. *)
Lemma fill_unique s0 s slot e ino off pa t :
  pc_shrink s0 s -> pc_unique s0 -> pagecache_find ino off s0 = None ->
  s_ents s !! slot = Some e -> pe_used e = false ->
  pc_unique (set_entry s slot (mk_entry ino off pa t true false)).
Proof.
  intros Hs U Hf He Hu. pose proof (shrink_unique _ _ Hs U) as U1. destruct Hs as [Hs Hi].
  assert (Hno : forall j a, s_ents s !! j = Some a -> pe_used a = true -> pe_file_off a = off ->
                 pagecache_inode_same (s_inodes s) (pe_inode a) ino = false).
  { intros j a Ha Hua Hoa. destruct (Hs j a Ha Hua) as (b & Hb & (B1 & _ & B3 & B4)).
    unfold pagecache_find in Hf. destruct (list_find _ _) eqn:Ef; [done|].
    apply list_find_None in Ef. rewrite Forall_lookup in Ef. specialize (Ef _ _ Hb).
    unfold entry_matches in Ef. rewrite <- B1, <- B3, <- B4, Hua, Hoa, Z.eqb_refl, andb_true_r in Ef.
    rewrite (inode_same_ident _ _ _ _ Hi). simpl in Ef. by destruct (pagecache_inode_same _ _ _). }
  intros i j a b. unfold s_ents. simpl. change (s_inodes (set_entry s slot _)) with (s_inodes s).
  intros Ha Hb Hua Hub Hsame Hoff.
  apply list_lookup_insert_Some in Ha as [(<- & <- & _)|(Hi' & Ha)];
    apply list_lookup_insert_Some in Hb as [(<- & <- & _)|(Hj & Hb)]; simpl in *; try done.
  - rewrite inode_same_sym, (Hno j b) in Hsame by done. done.
  - rewrite (Hno i a) in Hsame by done. done.
  - exact (U1 i j a b Ha Hb Hua Hub Hsame Hoff).
Qed.

(** The cache keeps one page per file page and every file's identity. *)
Definition keeps_unique s s' : Prop := pc_unique s' /\ ident_same (s_inodes s') (s_inodes s).

Lemma keeps_shrink s s' : pc_unique s -> pc_shrink s s' -> keeps_unique s s'.
Proof. intros U H. split; [by eapply shrink_unique|apply H]. Qed.

Lemma keeps_then_shrink s s1 s2 : keeps_unique s s1 -> pc_shrink s1 s2 -> keeps_unique s s2.
Proof.
  intros [U I1] H. split; [by eapply shrink_unique|]. destruct H as [_ I2]. intros q. by rewrite I2.
Qed.

Lemma keeps_trans s s1 s2 : keeps_unique s s1 -> keeps_unique s1 s2 -> keeps_unique s s2.
Proof. intros [_ I1] [U I2]. split; [done|]. intros q. by rewrite I2. Qed.

Lemma shrink_pmm s m : pc_shrink s (sys_set_pmm s m).
Proof. split; [exact (ents_sub_refl s)|done]. Qed.

Lemma shrink_touch_tick s t s1 : pagecache_touch_tick s = (t, s1) -> pc_shrink s s1.
Proof. intros H. apply shrink_same; [by eapply same_touch_tick|]. by injection H as _ <-. Qed.

Lemma enter_unique ino off pa s0 s slot s1 :
  pc_shrink s0 s -> pc_unique s0 -> pagecache_find ino off s0 = None -> pc_own s ->
  pagecache_slot s = (Some slot, s1) ->
  let '(t, s2) := pagecache_touch_tick s1 in
  let s3 := set_entry s2 slot (mk_entry ino off pa t true false) in
  keeps_unique s0 (sys_set_pmm s3 (pmm_ref_page (s_pmm s3) pa)).
Proof.
  intros Hs U Hf O Hslot. apply shrink_slot in Hslot as H1.
  apply slot_delta in Hslot as (_ & _ & Hfree); [|done]. destruct (Hfree slot eq_refl) as (e & He & Hu).
  destruct (pagecache_touch_tick s1) as [t s2] eqn:Et. apply shrink_touch_tick in Et as H2.
  assert (H02 : pc_shrink s0 s2) by (etransitivity; [exact Hs|]; by etransitivity).
  cbv zeta. split; [|apply H02].
  change (pc_unique (set_entry s2 slot (mk_entry ino off pa t true false))).
  eapply fill_unique; try done. by injection Et as _ <-.
Qed.

Lemma load_and_enter_unique ino off page s0 s1 r s' :
  pc_shrink s0 s1 -> pc_unique s0 -> pagecache_find ino off s0 = None -> pc_own s1 ->
  (let '(ok, s) := pagecache_load_page ino off page s1 in
   if negb ok then (None, sys_set_pmm s (pmm_free_page (s_pmm s) page))
   else
     match pagecache_slot s with
     | (None, s) => (None, sys_set_pmm s (pmm_free_page (s_pmm s) page))
     | (Some slot, s) =>
         let '(t, s) := pagecache_touch_tick s in
         let s := set_entry s slot (mk_entry ino off page t true false) in
         (Some page, sys_set_pmm s (pmm_ref_page (s_pmm s) page))
     end) = (r, s') ->
  keeps_unique s0 s'.
Proof.
  intros H1 U Hf O1. destruct (pagecache_load_page _ _ _ _) as [ok s2] eqn:El.
  assert (H2 : pc_shrink s0 s2).
  { etransitivity; [exact H1|]. apply shrink_frame; [by eapply same_load_page|by eapply fr_load_page]. }
  apply same_load_page in El. pose proof (delta_own _ _ O1 (delta_same _ _ O1 El)) as O2.
  destruct (negb ok).
  { intros H. apply pair_equal_spec in H as [_ <-]. apply keeps_shrink; [done|].
    etransitivity; [exact H2|apply shrink_pmm]. }
  destruct (pagecache_slot s2) as [[slot|] s3] eqn:Es.
  - pose proof (enter_unique ino off page s0 s2 slot s3 H2 U Hf O2 Es) as K.
    destruct (pagecache_touch_tick s3) as [t s4]. intros H. by apply pair_equal_spec in H as [_ <-].
  - intros H. apply pair_equal_spec in H as [_ <-]. apply keeps_shrink; [done|]. apply shrink_slot in Es.
    etransitivity; [exact H2|]. etransitivity; [exact Es|apply shrink_pmm].
Qed.

Lemma get_or_create_unique ino off s r s' :
  pc_own s -> pc_unique s -> pagecache_get_or_create ino off s = (r, s') -> keeps_unique s s'.
Proof.
  intros O U. pose proof (keeps_shrink s s U ltac:(reflexivity)) as Krefl. unfold pagecache_get_or_create.
  destruct (negb (pagecache_inode_supported _ _)); [by intros [= <- <-]|].
  destruct (negb (_ =? 0)); [by intros [= <- <-]|].
  destruct (pagecache_find ino off s) as [hit|] eqn:Ef.
  { destruct (pagecache_touch_tick s) as [t s1] eqn:Et. cbv zeta. intros H.
    apply pair_equal_spec in H as [_ <-]. apply keeps_shrink; [done|].
    apply shrink_touch_tick in Et. etransitivity; [exact Et|]. etransitivity; [|apply shrink_pmm].
    apply shrink_update. by split_and!. }
  destruct (pmm_alloc_page (s_pmm s)) as [page m] eqn:Ea.
  destruct (alloc_page_delta s page m O Ea) as [[-> ->]|(Hne & _ & Oa & _)].
  - assert (Hid : sys_set_pmm s (s_pmm s) = s) by by destruct s. rewrite Hid. cbn [Z.eqb andb].
    destruct (negb (pagecache_has_free_slot s)); [|by intros [= <- <-]].
    destruct (pagecache_slot s) as [[v|] s1] eqn:Es; apply slot_delta in Es as D1; try done;
      destruct D1 as (D1 & _ & _); apply shrink_slot in Es.
    2:{ cbn [Z.eqb]. intros [= <- <-]. by apply keeps_shrink. }
    pose proof (delta_own _ _ O D1) as O1. destruct (pmm_alloc_page (s_pmm s1)) as [page m] eqn:Ea1.
    destruct (alloc_page_delta s1 page m O1 Ea1) as [[-> ->]|(Hne & _ & Oa & _)].
    + cbn [Z.eqb]. intros [= <- <-]. apply keeps_shrink; [done|]. etransitivity; [exact Es|apply shrink_pmm].
    + destruct (page =? 0) eqn:E0; bool_hyps; [done|]. by apply load_and_enter_unique.
  - destruct (page =? 0) eqn:E0; bool_hyps; [done|]. cbn [andb]. rewrite (proj2 (Z.eqb_neq page 0) E0).
    apply load_and_enter_unique; try done. apply shrink_pmm.
Qed.

Lemma writeback_unique ino off pa mb s ok s' :
  pc_own s -> pc_unique s -> pagecache_writeback ino off pa mb s = (ok, s') -> keeps_unique s s'.
Proof.
  intros O U. pose proof (keeps_shrink s s U ltac:(reflexivity)) as Krefl. unfold pagecache_writeback.
  destruct ino as [p|]; [|by intros [= <- <-]]. destruct (negb _); [by intros [= <- <-]|].
  destruct (negb _); [by intros [= <- <-]|]. cbv zeta.
  destruct (_ && (_ <=? off)); [by intros [= <- <-]|]. destruct (_ =? 0); [by intros [= <- <-]|].
  match goal with |- context [memcpy _ _ pa ?v] => set (valid := v) end.
  destruct (match pagecache_find _ _ s with Some _ => _ | None => _ end) as [hit s1] eqn:Eh.
  assert (K1 : keeps_unique s s1).
  { destruct (pagecache_find (Some p) off s) as [h|] eqn:Ef.
    - destruct (negb _); apply pair_equal_spec in Eh as [_ <-]; [|done]. apply keeps_shrink; [done|apply shrink_ram].
    - destruct (pagecache_slot s) as [[slot|] s2] eqn:Es.
      + pose proof (enter_unique (Some p) off pa s s slot s2 ltac:(reflexivity) U Ef O Es) as K.
        destruct (pagecache_touch_tick s2) as [t s3]. by apply pair_equal_spec in Eh as [_ <-].
      + apply pair_equal_spec in Eh as [_ <-]. apply keeps_shrink; [done|by eapply shrink_slot]. }
  destruct hit as [hit|]; [|by intros [= <- <-]]. intros H. apply pair_equal_spec in H as [_ <-].
  eapply keeps_then_shrink; [exact K1|]. etransitivity; [|apply shrink_touch].
  destruct (_ && (valid <? _)); [apply shrink_ram|reflexivity].
Qed.

Lemma get_release_unique ino off s pa s1 s2 :
  pc_own s -> pc_unique s -> pagecache_get_or_create ino off s = (Some pa, s1) ->
  pc_shrink s1 s2 -> keeps_unique s (sys_set_pmm s2 (pmm_free_page (s_pmm s2) pa)).
Proof.
  intros O U Hg Hs. apply get_or_create_unique in Hg; [|done..].
  eapply keeps_then_shrink; [exact Hg|]. etransitivity; [exact Hs|apply shrink_pmm].
Qed.

Lemma read_loop_unique fuel ino offset n done acc s s' d bytes :
  pc_own s -> pc_unique s -> pc_read_loop fuel ino offset n done acc s = (d, bytes, s') ->
  keeps_unique s s'.
Proof.
  revert done acc s. induction fuel as [|fuel IH]; intros done acc s O U; cbn [pc_read_loop];
    pose proof (keeps_shrink s s U ltac:(reflexivity)) as Krefl.
  { by intros [= <- <- <-]. }
  destruct (done <? n); [|by intros [= <- <- <-]]. cbv zeta.
  destruct (pagecache_get_or_create _ _ s) as [[pa|] s1] eqn:Eg.
  - intros H. pose proof (get_release_delta _ _ _ _ _ s1 O Eg ltac:(reflexivity)) as D1.
    pose proof (get_release_unique _ _ _ _ _ s1 O U Eg ltac:(reflexivity)) as K1.
    apply IH in H; [|by eapply delta_own|apply K1]. by eapply keeps_trans.
  - intros [= <- <- <-]. by apply get_or_create_unique in Eg.
Qed.

Lemma write_loop_unique fuel ino offset src n done s s' d :
  pc_own s -> pc_unique s -> pc_write_loop fuel ino offset src n done s = (d, s') -> keeps_unique s s'.
Proof.
  revert done s. induction fuel as [|fuel IH]; intros done s O U; cbn [pc_write_loop];
    pose proof (keeps_shrink s s U ltac:(reflexivity)) as Krefl.
  { by intros [= <- <-]. }
  destruct (done <? n); [|by intros [= <- <-]]. cbv zeta.
  destruct (pagecache_get_or_create _ _ s) as [[pa|] s1] eqn:Eg.
  - set (s2 := sys_set_ram s1 _).
    set (s3 := match pagecache_find ino _ s2 with Some hit => entry_touch s2 hit true | None => s2 end).
    assert (H3 : pc_same s1 s3 /\ pc_shrink s1 s3).
    { unfold s3. fold s2. destruct (pagecache_find _ _ _); split.
      - etransitivity; [apply same_set_ram|apply same_entry_touch].
      - etransitivity; [apply shrink_ram|apply shrink_touch].
      - apply same_set_ram.
      - apply shrink_ram. }
    destruct H3 as [H3 H3']. intros H.
    pose proof (get_release_delta _ _ _ _ _ s3 O Eg H3) as D1.
    pose proof (get_release_unique _ _ _ _ _ s3 O U Eg H3') as K1.
    apply IH in H; [|by eapply delta_own|apply K1]. by eapply keeps_trans.
  - intros [= <- <-]. by apply get_or_create_unique in Eg.
Qed.

Lemma read_unique ino offset len s rc bytes off' s' :
  pc_own s -> pc_unique s -> pagecache_read ino offset len s = (rc, bytes, off', s') -> keeps_unique s s'.
Proof.
  intros O U. pose proof (keeps_shrink s s U ltac:(reflexivity)) as Krefl. unfold pagecache_read.
  destruct ino as [p|]; [|by intros [= <- <- <- <-]]. destruct (negb _); [by intros [= <- <- <- <-]|].
  destruct (len =? 0); [by intros [= <- <- <- <-]|].
  destruct (i_size _ <=? offset); [by intros [= <- <- <- <-]|]. cbv zeta.
  destruct (pc_read_loop _ _ _ _ _ _ s) as [[d bs] s1] eqn:El. apply read_loop_unique in El; [|done..].
  destruct (d =? 0); by intros [= <- <- <- <-].
Qed.

Lemma write_unique ino offset src s rc off' s' :
  pc_own s -> pc_unique s -> pagecache_write ino offset src s = (rc, off', s') -> keeps_unique s s'.
Proof.
  intros O U. pose proof (keeps_shrink s s U ltac:(reflexivity)) as Krefl. unfold pagecache_write.
  destruct ino as [p|]; [|by intros [= <- <- <-]]. cbv zeta. destruct (negb _ || negb _); [by intros [= <- <- <-]|].
  destruct (_ =? 0); [by intros [= <- <- <-]|].
  destruct (_ && (i_size _ <=? offset)); [by intros [= <- <- <-]|].
  destruct (_ && (_ || _)); [by intros [= <- <- <-]|].
  destruct (pc_write_loop _ _ _ _ _ _ s) as [d s1] eqn:El. apply write_loop_unique in El; [|done..].
  destruct (d =? 0); [by intros [= <- <- <-]|]. set (s2 := if _ <? _ then sys_set_inode _ _ _ else s1).
  intros H. apply pair_equal_spec in H as [_ <-]. eapply keeps_then_shrink; [exact El|].
  etransitivity; [|apply shrink_pressure]. unfold s2. destruct (_ <? _); [|reflexivity].
  apply shrink_frame; [apply same_set_st|by apply fr_set_size].
Qed.

Lemma shrink_mark_dirty ino off len s : pc_shrink s (pagecache_mark_dirty ino off len s).
Proof.
  unfold pagecache_mark_dirty. destruct (_ || _); [reflexivity|].
  etransitivity; [|apply shrink_pressure]. generalize (Z.to_nat len) as fuel. intros fuel. generalize 0 as done.
  revert s. induction fuel as [|fuel IH]; intros s done; cbn [mark_dirty_loop]; [reflexivity|].
  destruct (_ <? _); [|reflexivity]. destruct (pagecache_find _ _ _); [|apply IH].
  etransitivity; [apply shrink_touch|apply IH].
Qed.

Lemma shrink_tick now s : pc_shrink s (pagecache_tick now s).
Proof.
  unfold pagecache_tick. cbv zeta. set (s1 := sys_set_pc s _).
  assert (H1 : pc_shrink s s1) by by apply shrink_same; [apply same_set_pc|].
  destruct (_ <? _); [done|]. set (s2 := sys_set_pc s1 _).
  assert (H2 : pc_shrink s s2) by (etransitivity; [exact H1|by apply shrink_same; [apply same_set_pc|]]).
  destruct (pagecache_writeback_blocked s2); [done|]. destruct (_ =? 0); [done|].
  destruct (pagecache_flush_match _ _ _ _ _ s2) as [rc s'] eqn:Ef.
  etransitivity; [exact H2|by eapply shrink_flush_match].
Qed.

Lemma shrink_invalidate_range idxs ino so len b s b' s' :
  invalidate_range_loop idxs ino so len b s = (b', s') -> pc_shrink s s'.
Proof.
  revert b s. induction idxs as [|i idxs IH]; intros b s; cbn [invalidate_range_loop].
  { intros [= <- <-]. reflexivity. }
  cbv zeta. destruct (negb _ || _ || _); [by apply IH|]. destruct (1 <? _); [by apply IH|].
  intros H%IH. etransitivity; [apply shrink_drop|exact H].
Qed.

Lemma shrink_invalidate_inode idxs p s : pc_shrink s (invalidate_inode_loop idxs p s).
Proof.
  revert s. induction idxs as [|i idxs IH]; intros s; cbn [invalidate_inode_loop]; [reflexivity|].
  cbv zeta. destruct (negb _ || _); [by apply IH|].
  destruct (1 <? _); [|etransitivity; [apply shrink_drop|apply IH]].
  destruct (_ <=? _); [|apply IH]. etransitivity; [|apply IH]. apply shrink_update. by split_and!.
Qed.

Lemma shrink_invalidate_ext4 idxs s : pc_shrink s (invalidate_ext4_loop idxs s).
Proof.
  revert s. induction idxs as [|i idxs IH]; intros s; cbn [invalidate_ext4_loop]; [reflexivity|].
  cbv zeta. destruct (pe_inode _) as [p|]; [|by apply IH]. destruct (negb _ || _); [by apply IH|].
  etransitivity; [apply shrink_drop|apply IH].
Qed.

Lemma shrink_truncate idxs ino eof s : pc_shrink s (truncate_loop idxs ino eof s).
Proof.
  revert s. induction idxs as [|i idxs IH]; intros s; cbn [truncate_loop]; [reflexivity|].
  cbv zeta. destruct (negb _ || _); [by apply IH|]. destruct (eof <=? _).
  - destruct (1 <? _); [|etransitivity; [apply shrink_drop|apply IH]].
    etransitivity; [apply shrink_ram|]. etransitivity; [apply shrink_touch|apply IH].
  - destruct (_ && _); [|by apply IH]. etransitivity; [|apply IH].
    unfold pagecache_zero_tail. cbv zeta. destruct (_ || _); [reflexivity|].
    etransitivity; [apply shrink_ram|apply shrink_touch].
Qed.

End Ident.

(** C27: the cache never holds two copies of a page: whatever operation runs, no
    two entries in use name the same page of the same file, also when the file is
    reached through different inodes. *)
Theorem pagecache_one_copy {D E T} `{!BlockDrivers D, !Ext4Ops D E, !Ext4Ok D E, !SharedMappings T}
    (s : sys D E T) d s' :
  pc_own s -> pc_unique s -> pc_step s d s' -> pc_unique s'.
Proof.
  intros O U H. cut (keeps_unique s s'); [by intros [? _]|].
  destruct H; eauto using get_or_create_unique, writeback_unique, read_unique, write_unique;
    apply keeps_shrink; try done.
  - apply shrink_mark_dirty.
  - unfold pagecache_flush_inode in H. destruct ino; [by eapply shrink_flush_match|].
    apply pair_equal_spec in H as [_ <-]. reflexivity.
  - unfold pagecache_flush_inode_range in H. destruct ino; [by eapply shrink_flush_match|].
    apply pair_equal_spec in H as [_ <-]. reflexivity.
  - by eapply shrink_flush_match.
  - apply shrink_tick.
  - unfold pagecache_invalidate_inode_range in H. destruct ino; [|by injection H as _ <-; reflexivity].
    destruct (invalidate_range_loop _ _ _ _ _ _) eqn:Ei. injection H as _ <-. by eapply shrink_invalidate_range.
  - unfold pagecache_invalidate_inode. destruct ino; [apply shrink_invalidate_inode|reflexivity].
  - apply shrink_invalidate_ext4.
  - unfold pagecache_truncate_inode. destruct (negb _); [reflexivity|apply shrink_truncate].
Qed.

(** ** A small system to run the definitions on

    An ext4 that refuses everything, no tasks, an empty cache, a memory file of
    5000 bytes and a partition. *)

#[global] Instance no_ext4 D : Ext4Ops D unit := {|
  ext4_read _ _ _ st := (-1, [], st);
  ext4_write _ _ _ st := (-1, st);
  ext4_tx_begin st := (false, st);
  ext4_tx_commit st := (false, st);
  ext4_tx_abort st := st;
  ext4_sync_filesystem st := (false, st);
|}.

#[global] Instance no_ext4_ok D : Ext4Ok D unit.
Proof. by split. Qed.

#[global] Instance no_tasks : SharedMappings unit := fun _ _ _ t => (true, t).

Definition demo_file : inode :=
  mk_inode [] INODE_FILE FS_KIND_MEM 0 0 false true DEV_NONE 0 0 None [] 0x50000000 5000 8192.

Definition demo_sys : sys ramdisks unit unit :=
  mk_sys pmm_demo
    (mk_storage demo_bc (<[1 := demo_file]> (<[2 := demo_part]> ∅)) tt)
    (mk_pcache (replicate MAX_FILE_CACHE_PAGES entry_zero) 0 0 0 0 0) tt.

Lemma demo_sys_own : pc_own demo_sys.
Proof.
  constructor.
  - apply pmm_demo_wf.
  - apply length_replicate.
  - intros p. unfold ext_refs. assert (Hr : pmm_page_refcount (s_pmm demo_sys) p = 0).
    { unfold pmm_page_refcount. by destruct (page_index p). }
    assert (Hc : cache_refs demo_sys p = 0).
    { unfold cache_refs. change (s_ents demo_sys) with (replicate MAX_FILE_CACHE_PAGES entry_zero).
      induction MAX_FILE_CACHE_PAGES as [|n IH]; [done|]. cbn [replicate]. rewrite countb_cons, IH. done. }
    rewrite Hr, Hc. lia.
Qed.

Lemma demo_sys_unique : pc_unique demo_sys.
Proof.
  intros i j e e' He _ Hu. change (s_ents demo_sys) with (replicate MAX_FILE_CACHE_PAGES entry_zero) in He.
  by apply lookup_replicate in He as [-> _].
Qed.

Lemma pagecache_ownership_witness :
  exists pa s', pagecache_get_or_create (Some 1) 4096 demo_sys = (Some pa, s') /\
    pa <> 0 /\ ext_refs s' pa = ext_refs demo_sys pa + 1.
Proof.
  destruct (pagecache_get_or_create (Some 1) 4096 demo_sys) as [r s'] eqn:E.
  assert (Hr : r = Some 1075838976) by (change r with (r, s').1; rewrite <- E; vm_compute; reflexivity).
  exists 1075838976, s'. split; [by rewrite Hr|]. split; [lia|].
  destruct (pagecache_ownership demo_sys _ s' demo_sys_own (pc_get demo_sys (Some 1) 4096 r s' E)) as (_ & _ & H).
  rewrite Hr in H. exact (H 1075838976).
Defined.

Lemma pagecache_one_copy_witness :
  pc_unique (pagecache_read (Some 1) 4000 200 demo_sys).2 /\
  (pagecache_read (Some 1) 4000 200 demo_sys).1.1.1 = 200.
Proof.
  split; [|vm_compute; reflexivity].
  destruct (pagecache_read (Some 1) 4000 200 demo_sys) as [[[rc bytes] off'] s'] eqn:E.
  exact (pagecache_one_copy demo_sys d0 s' demo_sys_own demo_sys_unique
           (pc_rd demo_sys (Some 1) 4000 200 rc bytes off' s' E)).
Defined.

(** ** Flushing *)

Lemma oldest_None ok l i best : oldest ok l i best = None -> best = None /\ Forall (fun e => ok e = false) l.
Proof.
  revert i best. induction l as [|e l IH]; intros i best; simpl.
  { destruct best as [[b u]|]; simpl; [done|]. intros _. by split; [|apply Forall_nil]. }
  intros H. apply IH in H as [Hb Hl]. destruct (ok e) eqn:Eo; simpl in Hb.
  - destruct best as [[b t]|]; [|done]. by destruct (_ <? t).
  - split; [done|]. by apply Forall_cons.
Qed.

Section Flush.
Context {D E T : Type} `{!BlockDrivers D, !Ext4Ops D E, !Ext4Ok D E, !SharedMappings T}.
Implicit Types s : sys D E T.

Lemma entry_touch_ents s i d :
  exists t, s_ents (entry_touch s i d) = <[i := pe_set_touch (pe_set_dirty (entry_at s i) d) t]> (s_ents s).
Proof.
  unfold entry_touch. cbv zeta. destruct (pagecache_touch_tick _) as [t s1] eqn:Et. exists t.
  assert (Hs : s_ents s1 = <[i := pe_set_dirty (entry_at s i) d]> (s_ents s)) by (injection Et as _ <-; done).
  unfold set_entry, s_ents in *. simpl. unfold entry_at, s_ents. rewrite Hs, list_insert_insert_eq.
  destruct (decide (i < length (pc_ents (s_pc s)))%nat).
  - rewrite list_lookup_total_insert_eq by done. done.
  - rewrite !list_insert_ge by lia. done.
Qed.

(** A successful write-back of a dirty entry makes it clean and changes no other. *)
Lemma entry_writeback_ents i s s' :
  pe_used (entry_at s i) = true -> pe_dirty (entry_at s i) = true ->
  pagecache_entry_writeback i s = (true, s') ->
  exists t, s_ents s' = <[i := pe_set_touch (pe_set_dirty (entry_at s i) false) t]> (s_ents s).
Proof.
  intros Hu Hd H. unfold pagecache_entry_writeback in H. rewrite Hu, Hd in H. cbn [negb orb] in H.
  cbv zeta in H.
  assert (Hout : forall s1, s_pc s1 = s_pc s -> (true, entry_touch s1 i false) = (true, s') ->
    exists t, s_ents s' = <[i := pe_set_touch (pe_set_dirty (entry_at s i) false) t]> (s_ents s)).
  { intros s1 Hpc Heq. apply pair_equal_spec in Heq as [_ <-].
    destruct (entry_touch_ents s1 i false) as [t Ht]. exists t. rewrite Ht. unfold entry_at, s_ents.
    by rewrite Hpc. }
  destruct (_ =? 0).
  - destruct (match pe_inode _ with Some _ => _ | None => _ end); [|by apply (Hout s)].
    destruct (task_pagecache_writeprotect_shared _ _ _ _) as [ok1 t]. destruct (negb ok1); [done|].
    revert H. by apply Hout.
  - destruct (pagecache_store_page _ _ _ _ s) as [ok1 s1] eqn:Es.
    apply fr_store_page in Es as [Hpc _]. destruct (negb ok1); [done|].
    destruct (task_pagecache_writeprotect_shared _ _ _ _) as [ok2 t]. destruct (negb ok2); [done|].
    revert H. apply Hout. destruct (_ && _); exact Hpc.
Qed.

Definition wanted_count ino so len ur s : Z :=
  countb (flush_wanted (s_inodes s) ino so len ur) (s_ents s).

Lemma wanted_ident a b ino so len ur e :
  ident_same a b -> flush_wanted a ino so len ur e = flush_wanted b ino so len ur e.
Proof. intros H. unfold flush_wanted. destruct ino; [|done]. by rewrite (inode_same_ident a b). Qed.

Lemma countb_ext {A} (f g : A -> bool) l : (forall x, f x = g x) -> countb f l = countb g l.
Proof. intros H. induction l as [|x l IH]; [done|]. by rewrite !countb_cons, H, IH. Qed.

Lemma countb_zero {A} (f : A -> bool) l : countb f l <= 0 -> Forall (fun x => f x = false) l.
Proof.
  induction l as [|x l IH]; intros H; [apply Forall_nil_2|]. rewrite countb_cons in H.
  pose proof (countb_nonneg f l). apply Forall_cons_2; [|apply IH]; destruct (f x); simpl in *; lia || done.
Qed.

Lemma writeback_wanted ino so len ur v s s' :
  flush_wanted (s_inodes s) ino so len ur (entry_at s v) = true ->
  s_ents s !! v = Some (entry_at s v) ->
  pagecache_entry_writeback v s = (true, s') ->
  wanted_count ino so len ur (pagecache_note_writeback_result true s') = wanted_count ino so len ur s - 1.
Proof.
  intros Hw Hv H. pose proof Hw as Hw'. unfold flush_wanted in Hw'. bool_hyps.
  pose proof (shrink_entry_writeback _ _ _ _ H) as [_ Hi].
  apply entry_writeback_ents in H as [t Ht]; [|done..].
  unfold wanted_count. change (s_ents (pagecache_note_writeback_result true s')) with (s_ents s').
  change (s_inodes (pagecache_note_writeback_result true s')) with (s_inodes s').
  rewrite (countb_ext _ (flush_wanted (s_inodes s) ino so len ur)) by (intros; by apply wanted_ident).
  rewrite Ht, (countb_insert _ _ _ _ _ Hv), Hw.
  assert (Hn : flush_wanted (s_inodes s) ino so len ur
                 (pe_set_touch (pe_set_dirty (entry_at s v) false) t) = false).
  { unfold flush_wanted. simpl. by rewrite andb_false_r. }
  rewrite Hn. simpl. lia.
Qed.

Lemma flush_match_clean ino so len ur b s s' :
  pagecache_flush_match ino so len ur b s = (0, s') -> wanted_count ino so len ur s <= Z.of_nat b ->
  Forall (fun e => flush_wanted (s_inodes s') ino so len ur e = false) (s_ents s').
Proof.
  revert s. induction b as [|b IH]; intros s H Hc; cbn [pagecache_flush_match] in H.
  { apply pair_equal_spec in H as [_ <-]. apply countb_zero. unfold wanted_count in Hc. lia. }
  destruct (oldest _ _ _ _) as [v|] eqn:Eo.
  2:{ apply pair_equal_spec in H as [_ <-]. by apply oldest_None in Eo as [_ Eo]. }
  apply oldest_spec in Eo as [[u Hu]|(v' & e & -> & Hv & Hw)]; [done|]. cbn [Nat.add] in H.
  assert (Hat : entry_at s v' = e) by by apply list_lookup_total_correct. rewrite <- Hat in Hv, Hw.
  destruct (pagecache_entry_writeback v' s) as [ok s1] eqn:Ew.
  destruct ok; [|done]. cbn [negb] in H. apply IH in H; [done|].
  rewrite (writeback_wanted ino so len ur v' s s1) by done. lia.
Qed.

End Flush.

(** C28: when flushing a file reports success no dirty page of the file is left in
    the cache; one pass over the 256 entries is enough for any number of dirty
    pages. The same holds for flushing a range and for flushing everything. *)
Theorem pagecache_flush_complete {D E T} `{!BlockDrivers D, !Ext4Ops D E, !Ext4Ok D E, !SharedMappings T}
    (s : sys D E T) s' :
  pc_own s ->
  (forall p, pagecache_flush_inode (Some p) s = (0, s') ->
     forall e, e ∈ s_ents s' -> pe_used e = true ->
       pagecache_inode_same (s_inodes s') (pe_inode e) (Some p) = true -> pe_dirty e = false) /\
  (forall p so len, pagecache_flush_inode_range (Some p) so len s = (0, s') ->
     forall e, e ∈ s_ents s' -> pe_used e = true ->
       pagecache_inode_same (s_inodes s') (pe_inode e) (Some p) = true ->
       pagecache_range_overlaps e so len = true -> pe_dirty e = false) /\
  (pagecache_flush_all s = (0, s') ->
     forall e, e ∈ s_ents s' -> pe_used e = true -> pe_dirty e = false).
Proof.
  intros O. assert (Hc : forall ino so len ur, wanted_count ino so len ur s <= Z.of_nat MAX_FILE_CACHE_PAGES).
  { intros. unfold wanted_count. pose proof (own_len s O).
    pose proof (countb_nonneg (flush_wanted (s_inodes s) ino so len ur) (s_ents s)). lia. }
  split_and!.
  - intros p H e He Hu Hs. apply flush_match_clean in H; [|apply Hc].
    apply (proj1 (Forall_forall _ _) H) in He. unfold flush_wanted in He. rewrite Hu, Hs in He.
    by destruct (pe_dirty e).
  - intros p so len H e He Hu Hs Hr. apply flush_match_clean in H; [|apply Hc].
    apply (proj1 (Forall_forall _ _) H) in He. unfold flush_wanted in He. rewrite Hu, Hs, Hr in He.
    by destruct (pe_dirty e).
  - intros H e He Hu. apply flush_match_clean in H; [|apply Hc].
    apply (proj1 (Forall_forall _ _) H) in He. unfold flush_wanted in He. rewrite Hu in He.
    by destruct (pe_dirty e).
Qed.

(** Ten bytes written to the memory file: one dirty page, then flushed. *)
Definition demo_written : sys ramdisks unit unit :=
  (pagecache_write (Some 1) 100 (replicate 10 65) demo_sys).2.

Lemma demo_written_own : pc_own demo_written.
Proof.
  unfold demo_written. destruct (pagecache_write (Some 1) 100 (replicate 10 65) demo_sys) as [[rc o] s'] eqn:E.
  eapply delta_own; [apply demo_sys_own|]. by eapply write_delta; [apply demo_sys_own|].
Qed.

Lemma pagecache_flush_complete_witness :
  pagecache_dirty_count demo_written = 1 /\
  forall e, e ∈ s_ents (pagecache_flush_all demo_written).2 -> pe_used e = true -> pe_dirty e = false.
Proof.
  split; [vm_compute; reflexivity|].
  destruct (pagecache_flush_all demo_written) as [rc s'] eqn:E.
  assert (Hrc : rc = 0) by (change rc with (rc, s').1; rewrite <- E; vm_compute; reflexivity).
  rewrite Hrc in E.
  destruct (pagecache_flush_complete demo_written s' demo_written_own) as (_ & _ & H).
  exact (H E).
Defined.

(** ** Partitions *)

Lemma attach_geom {D} `{!BlockDrivers D, !BlockDriversOk D, !BouncedReads D} (n : inode) (b b' : bcache D) :
  0 <= i_dev_lba_start n -> 0 <= i_dev_lba_count n ->
  i_dev_lba_start n + i_dev_lba_count n < 2 ^ 64 ->
  block_cache_attach_inode (Some n) b = (0, b') -> active_lba_count b' = i_dev_lba_count n.
Proof.
  intros H0 H1 H2 H. destruct (bc_attached n b) eqn:Ea.
  - assert (b' = b) as ->.
    { revert H. unfold block_cache_attach_inode, bc_attached in *. rewrite Ea. repeat split_if; by intros [= <-]. }
    unfold bc_attached in Ea. bool_hyps. done.
  - apply (attach_fresh n b 0 b' H0 H1 H2 Ea) in H as [[_ (_ & (_ & _ & Gc & _) & _)]|[? _]]; [exact Gc|done].
Qed.

(** C29: [pagecache_load_page] adds the start of the partition to the sector number
    it passes to the block cache, which is relative to the partition already. So
    a page that lies in the partition but less than the partition's start before
    its end cannot be loaded at all (and the pages before it come from the wrong
    sectors). *)
Theorem pagecache_partition_page_unreadable
    {D E T} `{!BlockDrivers D, !BlockDriversOk D, !BouncedReads D, !Ext4Ops D E, !SharedMappings T}
    (s : sys D E T) p off dst :
  let n := inode_at s p in
  fs_is_block_dev n = true -> 0 <= i_dev_lba_start n -> 0 < i_dev_lba_count n ->
  i_dev_lba_start n + i_dev_lba_count n < 2 ^ 64 ->
  0 <= off -> off / 512 < i_dev_lba_count n -> i_dev_lba_count n <= i_dev_lba_start n + off / 512 ->
  (pagecache_load_page (Some p) off dst s).1 = false.
Proof.
  intros n Hb Hs0 Hc Hsc Ho Hin Hout. unfold pagecache_load_page.
  destruct (_ || _ || _); [done|]. cbv zeta.
  change (inode_at (sys_set_ram s _) p) with n.
  assert (Ht : i_type n = INODE_DEV).
  { unfold fs_is_block_dev in Hb. apply andb_true_iff in Hb as [Hb _]. by apply bool_decide_eq_true in Hb. }
  rewrite (decide_True _ _ Ht), Hb. cbn [negb].
  destruct (block_cache_attach_inode _ _) as [rc bc] eqn:Ea.
  destruct (rc =? 0) eqn:Erc; bool_hyps; [|done]. subst rc. cbn [negb].
  apply attach_geom in Ea; [|lia..]. unfold dev_sectors.
  destruct (i_dev_lba_count n =? 0) eqn:E0; [lia|]. cbn [negb]. rewrite E0.
  destruct (i_dev_lba_count n <=? off / 512) eqn:El; [lia|].
  assert (Hd : 0 <= off / 512) by dlia.
  rewrite (u64_small (i_dev_lba_start n + off / 512)) by (unfold is_u64; lia).
  destruct (u32 _ =? 0) eqn:En.
  { assert (Hu : u32 (if i_dev_lba_count n - off / 512 <? 8 then i_dev_lba_count n - off / 512 else 8) =
                 (if i_dev_lba_count n - off / 512 <? 8 then i_dev_lba_count n - off / 512 else 8)).
    { apply u32_small. unfold is_u32. split_if; lia. }
    rewrite Hu in En. repeat split_if; lia. }
  destruct (block_cache_read _ _ _) as [[rc bytes] bc'] eqn:Er. cbn [fst].
  unfold block_cache_read, bc_range_bad in Er. cbn [st_bc s_st sys_set_bc sys_set_st] in Er. rewrite Ea in Er.
  destruct (negb (block_cache_ready _)); [by injection Er as <- _ _|].
  destruct (_ || _ || _) eqn:Ebad; [by injection Er as <- _ _|lia].
Qed.

Lemma pagecache_partition_page_unreadable_witness :
  (pagecache_load_page (Some 2) 4096 (2 ^ 30) demo_sys).1 = false.
Proof.
  apply (pagecache_partition_page_unreadable demo_sys 2 4096 (2 ^ 30)); vm_compute; congruence.
Defined.

(** ** The tasks, seen from the cache

    The cache reaches the tasks only through [task_pagecache_writeprotect_shared]:
    loads, stores and lookups leave their state alone, and whatever relation the
    write-protection respects, every operation respects. *)

Section Top.
Context {D E T : Type} `{!BlockDrivers D, !Ext4Ops D E, !SharedMappings T}.
Implicit Types s : sys D E T.

Lemma top_entry_touch s i d : s_top (entry_touch s i d) = s_top s.
Proof. reflexivity. Qed.

Lemma top_note b s : s_top (pagecache_note_writeback_result b s) = s_top s.
Proof. by destruct b. Qed.

Lemma top_load_page ino off dst s ok s' : pagecache_load_page ino off dst s = (ok, s') -> s_top s' = s_top s.
Proof. intros H. unfold pagecache_load_page in H. pc_split; reflexivity. Qed.

Lemma top_store_page ino off src n s ok s' : pagecache_store_page ino off src n s = (ok, s') -> s_top s' = s_top s.
Proof.
  unfold pagecache_store_page, pagecache_store_page_internal. destruct ino as [p|]; [|by intros [= _ <-]].
  destruct (_ || _); [by intros [= _ <-]|]. cbv zeta.
  destruct (decide _); [|destruct (decide _)]; intros H.
  - unfold store_page_dev in H. pc_split; reflexivity.
  - unfold store_page_mem in H. pc_split; reflexivity.
  - unfold store_page_ext4 in H. pc_split; reflexivity.
Qed.

Lemma top_slot s r s' : pagecache_slot s = (r, s') -> s_top s' = s_top s.
Proof.
  unfold pagecache_slot. destruct (list_find _ _) as [[i e]|]; [by intros [= _ <-]|].
  destruct (oldest _ _ _ _) as [v|]; [|by intros [= _ <-]]. cbv zeta.
  destruct (pe_dirty _); [|by intros [= _ <-]]. destruct (_ =? 0); [by intros [= _ <-]|].
  destruct (pagecache_store_page _ _ _ _ s) as [ok s1] eqn:Es. apply top_store_page in Es.
  destruct ok; cbn [negb]; intros H; pc_split; simpl; by rewrite ?top_note.
Qed.

Lemma top_get_or_create ino off s r s' : pagecache_get_or_create ino off s = (r, s') -> s_top s' = s_top s.
Proof.
  unfold pagecache_get_or_create. destruct (negb _); [by intros [= _ <-]|].
  destruct (negb _); [by intros [= _ <-]|]. destruct (pagecache_find _ _ _); [by intros [= _ <-]|].
  destruct (pmm_alloc_page _) as [page m]. cbv zeta.
  match goal with |- context [if ?c then ?a else (page, ?b)] =>
    destruct (if c then a else (page, b)) as [page' s1] eqn:E1 end.
  assert (H1 : s_top s1 = s_top s).
  { destruct (_ && _); [|by simplify_eq]. destruct (pagecache_slot _) as [[k|] s2] eqn:Es.
    - apply top_slot in Es. destruct (pmm_alloc_page _). by simplify_eq.
    - apply top_slot in Es. by simplify_eq. }
  destruct (page' =? 0); [by intros [= _ <-]|].
  destruct (pagecache_load_page _ _ _ s1) as [ok s2] eqn:El. apply top_load_page in El.
  destruct (negb ok); [intros [= _ <-]; simpl; congruence|].
  destruct (pagecache_slot s2) as [[k|] s3] eqn:Es; apply top_slot in Es; intros [= _ <-]; simpl; congruence.
Qed.

Lemma top_writeback ino off pa mb s ok s' : pagecache_writeback ino off pa mb s = (ok, s') -> s_top s' = s_top s.
Proof.
  unfold pagecache_writeback. destruct ino as [p|]; [|by intros [= _ <-]].
  destruct (negb _); [by intros [= _ <-]|]. destruct (negb _); [by intros [= _ <-]|]. cbv zeta.
  destruct (_ && (_ <=? off)); [by intros [= _ <-]|]. destruct (_ =? 0); [by intros [= _ <-]|].
  destruct (match pagecache_find _ _ s with Some _ => _ | None => _ end) as [hit s1] eqn:Eh.
  assert (H1 : s_top s1 = s_top s).
  { destruct (pagecache_find (Some p) off s) as [h|].
    - by destruct (negb _); simplify_eq.
    - destruct (pagecache_slot s) as [[slot|] s2] eqn:Es; apply top_slot in Es;
        apply pair_equal_spec in Eh as [_ <-]; exact Es. }
  destruct hit as [h|]; [|by intros [= _ <-]]. clear Eh. intros H. apply pair_equal_spec in H as [_ <-].
  rewrite top_entry_touch. match goal with |- context [if ?b then _ else s1] => by destruct b end.
Qed.

Context (R : T -> T -> Prop) `{!PreOrder R}.
Context (HR : forall ns ino off t, R t (task_pagecache_writeprotect_shared ns ino off t).2).

Lemma topr_entry_writeback i s ok s' : pagecache_entry_writeback i s = (ok, s') -> R (s_top s) (s_top s').
Proof.
  unfold pagecache_entry_writeback. destruct (negb _ || negb _); [by intros [= _ <-]|]. cbv zeta.
  assert (Hwp : forall s1 ino off, s_top s1 = s_top s ->
    R (s_top s) (task_pagecache_writeprotect_shared (s_inodes s1) ino off (s_top s1)).2).
  { intros s1 ino off E1. rewrite <- E1 at 1. apply HR. }
  destruct (_ =? 0).
  - destruct (match pe_inode _ with Some _ => _ | None => _ end); [|by intros [= _ <-]].
    match goal with |- context [task_pagecache_writeprotect_shared ?a ?b ?c ?d] =>
      specialize (Hwp (sys_set_ram s (memset (s_ram s) (pe_pa (entry_at s i)) 0 PAGE_SIZE)) b c eq_refl);
      destruct (task_pagecache_writeprotect_shared a b c d) as [ok1 t] end.
    intros H. pc_split; exact Hwp.
  - destruct (pagecache_store_page _ _ _ _ s) as [ok1 s1] eqn:Es. apply top_store_page in Es.
    destruct (negb ok1); [intros [= _ <-]; by rewrite Es|].
    match goal with |- context [if ?b then sys_set_ram s1 ?m else s1] =>
      set (s2 := if b then sys_set_ram s1 m else s1) end.
    assert (E2 : s_top s2 = s_top s) by (unfold s2; by destruct (_ && _)). clearbody s2.
    match goal with |- context [task_pagecache_writeprotect_shared ?a ?b ?c ?d] =>
      specialize (Hwp s2 b c E2); destruct (task_pagecache_writeprotect_shared a b c d) as [ok2 t] end.
    intros H. pc_split; exact Hwp.
Qed.

Lemma topr_flush_match ino so len ur b s rc s' :
  pagecache_flush_match ino so len ur b s = (rc, s') -> R (s_top s) (s_top s').
Proof.
  revert s. induction b as [|b IH]; intros s H; cbn [pagecache_flush_match] in H; [by simplify_eq|].
  destruct (oldest _ _ _ _) as [v|]; [|by simplify_eq].
  destruct (pagecache_entry_writeback v s) as [ok s1] eqn:Ew. apply topr_entry_writeback in Ew.
  etransitivity; [exact Ew|]. destruct (negb ok).
  - apply pair_equal_spec in H as [_ <-]. by rewrite top_note.
  - apply IH in H. by rewrite top_note in H.
Qed.

Lemma topr_mark_dirty ino off len s : R (s_top s) (s_top (pagecache_mark_dirty ino off len s)).
Proof.
  unfold pagecache_mark_dirty. destruct (_ || _); [done|].
  assert (H : forall fuel done s0, s_top (mark_dirty_loop fuel ino off len done s0) = s_top s0).
  { induction fuel as [|fuel IH]; intros d s0; cbn [mark_dirty_loop]; [done|].
    destruct (d <? len); [|done]. rewrite IH. by destruct (pagecache_find _ _ _). }
  rewrite <- (H (Z.to_nat len) 0 s). unfold pagecache_maybe_writeback_pressure.
  destruct (pagecache_writeback_blocked _); [done|]. cbv zeta. destruct (_ <? _); [done|].
  destruct (pagecache_flush_match _ _ _ _ _ _) as [rc s'] eqn:Ef. by apply topr_flush_match in Ef.
Qed.

Lemma top_invalidate_range idxs ino so len b s b' s' :
  invalidate_range_loop idxs ino so len b s = (b', s') -> s_top s' = s_top s.
Proof.
  revert b s. induction idxs as [|i idxs IH]; intros b s; cbn [invalidate_range_loop]; [by intros [= _ <-]|].
  destruct (_ || _); [by apply IH|]. destruct (1 <? _); [by apply IH|].
  intros H. apply IH in H. by rewrite H.
Qed.

End Top.
