(* ===== verification/FsIo.v ===== *)
(** * Reading, writing and syncing inodes (kernel/fs.c)

    The entry points of fs.c that move file contents: they choose between the
    page cache, ext4 and the devices by the kind of the inode. *)

From S2P Require Import Prelude KString Pmm Inode BlockCache PageCache.

Section Sync.
Context {D E T : Type} `{!BlockDrivers D, !Ext4Ops D E, !SharedMappings T}.
Implicit Types s : sys D E T.

Definition sync_ext4 s : bool * sys D E T :=
  let '(ok, st) := ext4_sync_filesystem (s_st s) in (ok, sys_set_st s st).

Definition sync_blocks s : Z * sys D E T :=
  let '(rc, b) := block_cache_flush (st_bc (s_st s)) in (rc, sys_set_bc s b).

Definition fs_sync_inode (ino : option Z) s : Z * sys D E T :=
  match ino with
  | None => (-1, s)
  | Some p =>
      let n := inode_at s p in
      let '(rc, s) :=
        if bool_decide (i_type n = INODE_FILE) || fs_is_block_dev n then pagecache_flush_inode ino s else (0, s) in
      if negb (rc =? 0) then (-1, s)
      else
        let '(ok, s) := if decide (i_fs_kind (inode_at s p) = FS_KIND_EXT4) then sync_ext4 s else (true, s) in
        if negb ok then (-1, s)
        else
          let '(rc, s) :=
            if fs_is_block_dev (inode_at s p) then sync_blocks s else (0, s) in
          if negb (rc =? 0) then (-1, s) else (0, s)
  end.

Definition fs_sync_all s : Z * sys D E T :=
  let '(rc, s) := pagecache_flush_all s in
  if negb (rc =? 0) then (-1, s)
  else
    let '(ok, s) := sync_ext4 s in
    if negb ok then (-1, s)
    else
      let '(rc, s) := sync_blocks s in
      if negb (rc =? 0) then (-1, s) else (0, s).

End Sync.
