(* ===== verification/Fs.v ===== *)
(** * The filesystem layer (kernel/fs.c)

    The tree of inodes in memory, with the device nodes and the mount table: lookup,
    creation, removal, renaming, mounting and the status of files. The inodes of the
    tree are slots of [inode_pool]; an inode that is not in the map of PageCache.v is
    a slot of zeros. Directories of ext4 are reached through the interface
    [Ext4Names], the drivers' inventory of disks through [DiskInventory], and the
    tasks' use of a mount through [MountUsers].

    A string is the list of its bytes before the terminator. The pointers the callers
    never pass as null have no test here; [None] is the null pointer otherwise. *)

From S2P Require Import Prelude KString Path Pmm Inode BlockCache PageCache FsIo.

Abbreviation INODE_POOL_MAX := 512%nat (only parsing).
Abbreviation MOUNT_TABLE_MAX := 4%nat (only parsing).
Abbreviation DEV_PARTS_PER_DISK_MAX := 16 (only parsing).
Abbreviation DIR_MAX_CHILDREN := 32%nat (only parsing).
Abbreviation FILE_CAPACITY := 4096 (only parsing).
Abbreviation SIZEOF_INODE := 368 (only parsing).

Record mount_entry := mk_mount {
  m_used : bool;
  m_point : option Z;
  m_kind : fs_kind_t;
  m_source : Z;
}.

Definition mount_zero : mount_entry := mk_mount false None FS_KIND_MEM 0.

#[global] Instance mount_entry_inhabited : Inhabited mount_entry := populate mount_zero.

(** The statics of fs.c: [inode_pool] is the address of the pool. *)
Record fsys (D E T : Type) := mk_fsys {
  f_sys : sys D E T;
  inode_pool : Z;
  root_inode : option Z;
  dev_root_inode : option Z;
  mount_table : list mount_entry;
}.
#[global] Arguments mk_fsys {D E T}.
#[global] Arguments f_sys {D E T}.
#[global] Arguments inode_pool {D E T}.
#[global] Arguments root_inode {D E T}.
#[global] Arguments dev_root_inode {D E T}.
#[global] Arguments mount_table {D E T}.

Record fu_stat := mk_stat {
  stat_type : Z;
  stat_mode : Z;
  stat_size : Z;
  stat_nlink : Z;
  stat_fs_kind : Z;
}.

(** ** Interfaces *)

(** The drivers' calls that find disks and tell their sizes. *)
Class DiskInventory (D : Type) := {
  ahci_poll : D -> D;
  nvme_poll : D -> D;
  ahci_disk_count : D -> Z;
  nvme_controller_count : D -> Z;
  virtio_blk_capacity_sectors : D -> Z;
  ahci_disk_capacity_sectors : Z -> D -> Z;
  nvme_ns_capacity_sectors512 : Z -> Z -> D -> Z;
}.

(** The calls into ext4.c on names and attributes. They work on inodes of ext4's own,
    on the page cache and, to follow symbolic links, on the tree. [ext4_read_dir] is
    [ext4_read] of a directory: result code, bytes and the new offset. *)
Class Ext4Names (D E T : Type) := {
  ext4_mount : Z -> Z -> fsys D E T -> bool * fsys D E T;
  ext4_unmount : Z -> fsys D E T -> bool * fsys D E T;
  ext4_lookup_child : Z -> list Z -> fsys D E T -> option Z * fsys D E T;
  ext4_lookup_child_nofollow : Z -> list Z -> fsys D E T -> option Z * fsys D E T;
  ext4_create_file : Z -> list Z -> fsys D E T -> option Z * fsys D E T;
  ext4_create_dir : Z -> list Z -> fsys D E T -> option Z * fsys D E T;
  ext4_link : Z -> Z -> list Z -> fsys D E T -> Z * fsys D E T;
  ext4_symlink : Z -> list Z -> list Z -> fsys D E T -> option Z * fsys D E T;
  ext4_readlink : Z -> Z -> fsys D E T -> Z * list Z * fsys D E T;
  ext4_lstat : Z -> fu_stat -> fsys D E T -> Z * fu_stat * fsys D E T;
  ext4_chmod : Z -> Z -> fsys D E T -> Z * fsys D E T;
  ext4_unlink : Z -> fsys D E T -> Z * fsys D E T;
  ext4_rmdir : Z -> fsys D E T -> Z * fsys D E T;
  ext4_rename : Z -> Z -> list Z -> fsys D E T -> Z * fsys D E T;
  ext4_truncate : Z -> Z -> fsys D E T -> Z * fsys D E T;
  ext4_read_dir : Z -> Z -> Z -> fsys D E T -> Z * list Z * Z * fsys D E T;
  ext4_last_error : fsys D E T -> Z;
}.

(** Whether a task has its working directory, an open file or a mapping under a
    mount. *)
Class MountUsers (T : Type) := task_mount_busy : gmap Z inode -> Z -> list Z -> T -> bool.

Section Fs.
Context {D E T : Type} `{!BlockDrivers D, !DiskInventory D, !Ext4Ops D E, !SharedMappings T, !Ext4Names D E T, !MountUsers T}.
Abbreviation st := (fsys D E T).
Implicit Types f : st.

Definition on_sys f (g : sys D E T -> sys D E T) : st :=
  mk_fsys (g (f_sys f)) (inode_pool f) (root_inode f) (dev_root_inode f) (mount_table f).
Definition set_sys f (s : sys D E T) : st := on_sys f (fun _ => s).
Definition set_mounts f (ms : list mount_entry) : st :=
  mk_fsys (f_sys f) (inode_pool f) (root_inode f) (dev_root_inode f) ms.
Definition f_inodes f : gmap Z inode := s_inodes (f_sys f).
Definition node f (p : Z) : inode := inode_at (f_sys f) p.
Definition set_node f (p : Z) (n : inode) : st := on_sys f (fun s => sys_set_inode s p n).
Definition upd_node f (p : Z) (g : inode -> inode) : st := set_node f p (g (node f p)).
(** [memset(ino, 0, sizeof( *ino))]. *)
Definition clear_node f (p : Z) : st :=
  on_sys f (fun s => sys_set_st s (mk_storage (st_bc (s_st s)) (delete p (st_inodes (s_st s))) (st_ext4 (s_st s)))).
Definition f_dev f : D := bc_dev (st_bc (s_st (f_sys f))).
Definition set_dev f (d : D) : st := on_sys f (fun s => sys_set_bc s (bc_with_dev (st_bc (s_st s)) d)).
Definition is_dir f (p : Z) : bool := bool_decide (i_type (node f p) = INODE_DIR).

(** ** The pool *)

Definition pool_slot f (i : nat) : Z := inode_pool f + SIZEOF_INODE * Z.of_nat i.

(** The bytes of a name that fit an inode. *)
Definition inode_name (name : list Z) : list Z := take INODE_NAME_MAX name.

Definition inode_new (name : list Z) (type : inode_type) : inode :=
  mk_inode (inode_name name) type FS_KIND_MEM 0 0 false false 0 0 0 None [] 0 0 0.

Definition inode_alloc (name : list Z) (type : inode_type) f : option Z * st :=
  match List.find (fun i => bool_decide (i_type (node f (pool_slot f i)) = INODE_UNUSED)) (seq 0 INODE_POOL_MAX) with
  | Some i => (Some (pool_slot f i), set_node f (pool_slot f i) (inode_new name type))
  | None => (None, f)
  end.

Definition inode_free (ino : option Z) f : st :=
  match ino with
  | None => f
  | Some p =>
      let f := if decide (i_type (node f p) = INODE_FILE) then on_sys f (pagecache_invalidate_inode (Some p)) else f in
      clear_node f p
  end.

(** ** The mount table *)

Definition mount_find_by_point (p : Z) f : option nat :=
  find_idx (fun m => m_used m && bool_decide (m_point m = Some p)) (mount_table f).

Definition mount_is_active (p : Z) f : bool :=
  match mount_find_by_point p f with Some _ => true | None => false end.

Definition mount_alloc_entry f : option nat := find_idx (fun m => negb (m_used m)) (mount_table f).

Definition mount_uses_source_dev (source_dev : Z) f : bool :=
  existsb (fun m => m_used m && (m_source m =? source_dev)) (mount_table f).

(** ** Directories *)

Definition dir_add_child (dir : option Z) (child : Z) f : bool * st :=
  match dir with
  | None => (false, f)
  | Some d =>
      if negb (is_dir f d) || (DIR_MAX_CHILDREN <=? length (i_children (node f d)))%nat then (false, f)
      else
        let f := upd_node f d (fun n => inode_set_children n (i_children n ++ [child])) in
        (true, upd_node f child (fun n => inode_set_parent n (Some d)))
  end.

Fixpoint remove_first (x : Z) (l : list Z) : option (list Z) :=
  match l with
  | [] => None
  | y :: l => if y =? x then Some l else l' ← remove_first x l; Some (y :: l')
  end.

Definition dir_remove_child (dir : option Z) (child : Z) f : bool * st :=
  match dir with
  | None => (false, f)
  | Some d =>
      if negb (is_dir f d) then (false, f)
      else
        match remove_first child (i_children (node f d)) with
        | Some cs =>
            let f := upd_node f d (fun n => inode_set_children n cs) in
            (true, upd_node f child (fun n => inode_set_parent n None))
        | None => (false, f)
        end
  end.

Definition dir_find_child (dir : Z) (name : list Z) f : option Z :=
  if negb (is_dir f dir) then None
  else List.find (fun c => bool_decide (i_name (node f c) = name)) (i_children (node f dir)).

Definition fs_lookup_child_mode (dir : Z) (name : list Z) (follow_symlink : bool) f : option Z * st :=
  if negb (is_dir f dir) then (None, f)
  else if decide (i_fs_kind (node f dir) = FS_KIND_EXT4) then
    if follow_symlink then ext4_lookup_child dir name f else ext4_lookup_child_nofollow dir name f
  else (dir_find_child dir name f, f).

(** ** Block devices *)

Definition dev_block_ready_kind (kind : Z) f : bool := backend_ready kind (f_dev f).

Definition dev_block_capacity_sectors (kind : Z) f : Z :=
  if kind =? DEV_VDA then virtio_blk_capacity_sectors (f_dev f)
  else if 0 <=? sata_index_for_kind kind then ahci_disk_capacity_sectors (sata_index_for_kind kind) (f_dev f)
  else
    match nvme_kind_decode kind with
    | Some (ctrl, nsid) => nvme_ns_capacity_sectors512 ctrl nsid (f_dev f)
    | None => 0
    end.

Definition dev_block_rw_sector (kind lba : Z) (buf : list Z) (write : bool) f : Z * list Z * st :=
  let '(rc, buf, d) := backend_rw kind lba buf write (f_dev f) in (rc, buf, set_dev f d).

(** ** Creation of nodes *)

(** A new node under its parent, or none. *)
Definition attach_new (parent : option Z) (p : Z) f : option Z * st :=
  match parent with
  | None => (Some p, f)
  | Some _ =>
      let '(ok, f) := dir_add_child parent p f in
      if ok then (Some p, f) else (None, inode_free (Some p) f)
  end.

Definition mk_dir (parent : option Z) (name : list Z) f : option Z * st :=
  match inode_alloc name INODE_DIR f with
  | (None, f) => (None, f)
  | (Some p, f) => attach_new parent p f
  end.

(** [data] is the address of the contents, 0 for a new empty file. *)
Definition mk_file (parent : option Z) (name : list Z) (data size : Z) (executable writable : bool) f : option Z * st :=
  match inode_alloc name INODE_FILE f with
  | (None, f) => (None, f)
  | (Some p, f) =>
      let '(ok, f) :=
        if negb (data =? 0) && negb (size =? 0) then (true, upd_node f p (fun n => inode_set_buffer n data size size))
        else
          let '(a, m) := pmm_alloc (s_pmm (f_sys f)) FILE_CAPACITY 16 in
          let f := on_sys f (fun s => sys_set_pmm s m) in
          let f := upd_node f p (fun n => inode_set_buffer n a 0 FILE_CAPACITY) in
          (negb (a =? 0), f) in
      if negb ok then (None, inode_free (Some p) f)
      else attach_new parent p (upd_node f p (fun n => inode_set_modes n executable writable))
  end.

(** [addr] is the address of the text. *)
Definition mk_text_file (parent : option Z) (name : list Z) (addr : Z) (text : list Z) (writable : bool) f : option Z * st :=
  if addr =? 0 then (None, f) else mk_file parent name addr (Z.of_nat (length text)) false writable f.

Definition mk_dev (parent : option Z) (name : list Z) (kind : Z) (writable : bool) f : option Z * st :=
  match inode_alloc name INODE_DEV f with
  | (None, f) => (None, f)
  | (Some p, f) =>
      let f := upd_node f p (fun n => inode_set_buffer (inode_set_modes (inode_set_dev n kind 0 0) false writable) 0 0 0) in
      let f :=
        if dev_kind_is_block kind && dev_block_ready_kind kind f then
          let sectors := dev_block_capacity_sectors kind f in
          let cap := u64 (sectors * 512) in
          upd_node f p (fun n => inode_set_buffer (inode_set_dev n kind 0 sectors) 0 cap cap)
        else f in
      attach_new parent p f
  end.

Definition mk_dev_part (parent : Z) (base_kind : Z) (name : list Z) (lba_start lba_count : Z) f : option Z * st :=
  if (lba_count =? 0) || negb (dev_block_ready_kind base_kind f) then (None, f)
  else
    let disk_cap := dev_block_capacity_sectors base_kind f in
    if (disk_cap <=? lba_start) || (disk_cap - lba_start <? lba_count) then (None, f)
    else
      match mk_dev (Some parent) name base_kind true f with
      | (None, f) => (None, f)
      | (Some p, f) =>
          let cap := u64 (lba_count * 512) in
          (Some p, upd_node f p (fun n => inode_set_buffer (inode_set_dev n base_kind lba_start lba_count) (i_data n) cap cap))
      end.

(** ** Growth of files in memory *)

Abbreviation MEMFS_MAX := 16777216 (only parsing).

(** The capacity is doubled until it is enough. *)
Fixpoint grow_loop (fuel : nat) (cap need : Z) : option Z :=
  if negb (cap <? need) then Some cap
  else if MEMFS_MAX / 2 <=? cap then Some MEMFS_MAX
  else match fuel with O => None | S fuel => grow_loop fuel (cap * 2) need end.

Definition memfs_ensure_capacity (p : Z) (need : Z) f : bool * st :=
  let n := node f p in
  if bool_decide (i_fs_kind n <> FS_KIND_MEM) || bool_decide (i_type n <> INODE_FILE) || negb (i_writable n) || (i_data n =? 0)
  then (false, f)
  else if need <=? i_capacity n then (true, f)
  else if MEMFS_MAX <? need then (false, f)
  else
    let cap := if i_capacity n =? 0 then FILE_CAPACITY else i_capacity n in
    match grow_loop 25 cap need with
    | None => (false, f)
    | Some cap =>
        if (cap <? need) || (MEMFS_MAX <? cap) then (false, f)
        else
          let '(a, m) := pmm_alloc (s_pmm (f_sys f)) cap 16 in
          let f := on_sys f (fun s => sys_set_pmm s m) in
          if a =? 0 then (false, f)
          else
            let f := on_sys f (fun s => sys_set_ram s (memset (s_ram s) a 0 cap)) in
            let f := if i_size n =? 0 then f
                     else on_sys f (fun s => sys_set_ram s (memcpy (s_ram s) a (i_data n) (i_size n))) in
            (true, upd_node f p (fun n => inode_set_buffer n a (i_size n) cap))
    end.

(** ** Names of devices *)

(** The decimal digits, the last one first. *)
Fixpoint dec_loop (n : nat) (v : Z) : list Z :=
  match n with
  | O => []
  | S n => if 0 <? v then (48 + v mod 10) :: dec_loop n (v / 10) else []
  end.

Definition u32_to_dec (v : Z) (outsz : nat) : option (list Z) :=
  if (outsz =? 0)%nat then None
  else if v =? 0 then if (outsz <? 2)%nat then None else Some [48]
  else
    let tmp := dec_loop 12 v in
    if (outsz <? length tmp + 1)%nat then None else Some (rev tmp).

Definition make_part_name (base : list Z) (pnum : Z) (outsz : nat) : option (list Z) :=
  let needs_p := match last base with Some c => (48 <=? c) && (c <=? 57) | None => false end in
  match u32_to_dec pnum 12 with
  | None => None
  | Some num =>
      let mid := if needs_p then [112] else [] in
      if (outsz <? length base + length mid + length num + 1)%nat then None else Some (base ++ mid ++ num)
  end.

Definition make_nvme_name (ctrl nsid : Z) (outsz : nat) : option (list Z) :=
  if (outsz =? 0)%nat || (nsid =? 0) then None
  else
    match u32_to_dec ctrl 12, u32_to_dec nsid 12 with
    | Some cnum, Some nnum =>
        if (outsz <? 4 + length cnum + 1 + length nnum + 1)%nat then None
        else Some ([110; 118; 109; 101] ++ cnum ++ [110] ++ nnum)
    | _, _ => None
    end.

(** ** Partitions *)

Definition sec_byte (b : list Z) (i : Z) : Z := nth (Z.to_nat i) b 0.
Definition rd_le16 (b : list Z) (i : Z) : Z := Z.lor (sec_byte b i) (Z.shiftl (sec_byte b (i + 1)) 8).
Definition rd_le32 (b : list Z) (i : Z) : Z :=
  Z.lor (Z.lor (Z.lor (sec_byte b i) (Z.shiftl (sec_byte b (i + 1)) 8)) (Z.shiftl (sec_byte b (i + 2)) 16))
    (Z.shiftl (sec_byte b (i + 3)) 24).
Definition rd_le64 (b : list Z) (i : Z) : Z := Z.lor (rd_le32 b i) (Z.shiftl (rd_le32 b (i + 4)) 32).

Definition sector_zero : list Z := replicate VIRTIO_BLK_SECTOR_SIZE 0.

Definition EFI_PART : list Z := [69; 70; 73; 32; 80; 65; 82; 84].

(** The entries of a GUID partition table from entry [i] on. The state of the loop
    is the number of partitions created and the buffer [mbr], which receives an
    entry that lies in two sectors. *)
Fixpoint gpt_loop (n : nat) (i : Z) (dev_dir kind : Z) (base_name : list Z) (ent_lba ent_sz created : Z) (mbr : list Z) f
    : Z * list Z * st :=
  match n with
  | O => (created, mbr, f)
  | S n =>
      if negb (created <? DEV_PARTS_PER_DISK_MAX) then (created, mbr, f)
      else
        let off := i * ent_sz in
        let lba := u64 (ent_lba + off / 512) in
        let ino := off mod 512 in
        let '(rc, sec0, f) := dev_block_rw_sector kind lba sector_zero false f in
        if negb (rc =? 0) then (created, mbr, f)
        else
          let '(rc, sec1, f) :=
            if ino + ent_sz <=? 512 then (0, sector_zero, f)
            else dev_block_rw_sector kind (u64 (lba + 1)) sector_zero false f in
          if negb (rc =? 0) then (created, mbr, f)
          else
            let k := Z.to_nat (512 - ino) in
            let mbr :=
              if ino + ent_sz <=? 512 then mbr
              else take k (drop (Z.to_nat ino) sec0) ++ take (Z.to_nat ent_sz - k) sec1 ++ drop (Z.to_nat ent_sz) mbr in
            let e := if ino + ent_sz <=? 512 then drop (Z.to_nat ino) sec0 else mbr in
            let first_lba := rd_le64 e 32 in
            let last_lba := rd_le64 e 40 in
            if forallb (fun b => b =? 0) (take 16 e) || (first_lba =? 0) || (last_lba <? first_lba)
            then gpt_loop n (i + 1) dev_dir kind base_name ent_lba ent_sz created mbr f
            else
              match make_part_name base_name (i + 1) (S INODE_NAME_MAX) with
              | None => gpt_loop n (i + 1) dev_dir kind base_name ent_lba ent_sz created mbr f
              | Some pname =>
                  let '(r, f) := mk_dev_part dev_dir kind pname first_lba (u64 (last_lba - first_lba + 1)) f in
                  let created := match r with Some _ => created + 1 | None => created end in
                  gpt_loop n (i + 1) dev_dir kind base_name ent_lba ent_sz created mbr f
              end
  end.

(** The four entries of the boot record. *)
Fixpoint mbr_loop (idxs : list Z) (dev_dir kind : Z) (base_name : list Z) (created : Z) (mbr : list Z) f : st :=
  match idxs with
  | [] => f
  | i :: idxs =>
      if negb (created <? DEV_PARTS_PER_DISK_MAX) then f
      else
        let e := drop (Z.to_nat (446 + i * 16)) mbr in
        let type := sec_byte e 4 in
        let first := rd_le32 e 8 in
        let count := rd_le32 e 12 in
        if (type =? 0) || (type =? 238) || (first =? 0) || (count =? 0) then mbr_loop idxs dev_dir kind base_name created mbr f
        else
          match make_part_name base_name (i + 1) (S INODE_NAME_MAX) with
          | None => mbr_loop idxs dev_dir kind base_name created mbr f
          | Some pname =>
              let '(r, f) := mk_dev_part dev_dir kind pname first count f in
              let created := match r with Some _ => created + 1 | None => created end in
              mbr_loop idxs dev_dir kind base_name created mbr f
          end
  end.

Definition probe_partitions (dev_dir kind : Z) (base_name : list Z) f : st :=
  if negb (dev_kind_is_block kind) || negb (dev_block_ready_kind kind f) then f
  else
    let '(rc, mbr, f) := dev_block_rw_sector kind 0 sector_zero false f in
    if negb (rc =? 0) || negb (sec_byte mbr 510 =? 85) || negb (sec_byte mbr 511 =? 170) then f
    else
      let has_gpt := existsb (fun i => sec_byte mbr (446 + i * 16 + 4) =? 238) [0; 1; 2; 3] in
      let '(rc, sec0, f) := if has_gpt then dev_block_rw_sector kind 1 sector_zero false f else (-1, sector_zero, f) in
      let ent_sz := rd_le32 sec0 84 in
      let '(created, mbr, f) :=
        if (rc =? 0) && bool_decide (take 8 sec0 = EFI_PART) && (128 <=? ent_sz) && (ent_sz <=? 512) then
          gpt_loop (Z.to_nat (Z.min (rd_le32 sec0 80) 128)) 0 dev_dir kind base_name (rd_le64 sec0 72) ent_sz 0 mbr f
        else (0, mbr, f) in
      if 0 <? created then f else mbr_loop [0; 1; 2; 3] dev_dir kind base_name created mbr f.

(** ** Disks that come and go *)

(** Remove the children of [dev] that [gone] picks, from child [j] on. *)
Fixpoint unplug_loop (fuel : nat) (gone : inode -> bool) (dev : Z) (j : nat) f : st :=
  match fuel with
  | O => f
  | S fuel =>
      match i_children (node f dev) !! j with
      | None => f
      | Some c =>
          if gone (node f c) then
            let '(ok, f) := dir_remove_child (Some dev) c f in
            if ok then unplug_loop fuel gone dev j (inode_free (Some c) f) else unplug_loop fuel gone dev (S j) f
          else unplug_loop fuel gone dev (S j) f
      end
  end.

Definition unplug (gone : inode -> bool) (dev : Z) f : st :=
  unplug_loop (length (i_children (node f dev))) gone dev 0 f.

(** A disk that has appeared gets its node and those of its partitions. *)
Definition plug (dev kind : Z) (name : list Z) f : st :=
  match dir_find_child dev name f with
  | Some _ => f
  | None =>
      let '(n, f) := mk_dev (Some dev) name kind true f in
      match n with Some _ => probe_partitions dev kind name f | None => f end
  end.

Definition name_byte (n : inode) (i : nat) : Z := nth i (i_name n) 0.

Definition sata_part (letter : Z) (n : inode) : bool :=
  (name_byte n 0 =? 115) && (name_byte n 1 =? 100) && (name_byte n 2 =? letter) && (49 <=? name_byte n 3) && (name_byte n 3 <=? 57).

Definition sync_sata (dev : Z) (i : Z) f : st :=
  let letter := 97 + i in
  let name := [115; 100; letter] in
  let k := DEV_SDA + i in
  if negb (ahci_disk_present i (f_dev f)) then
    if mount_uses_source_dev k f then f
    else
      let f := unplug (sata_part letter) dev f in
      match dir_find_child dev name f with
      | Some n => let '(ok, f) := dir_remove_child (Some dev) n f in if ok then inode_free (Some n) f else f
      | None => f
      end
  else plug dev k name f.

Definition nvme_node (name : list Z) (n : inode) : bool :=
  let b := length name in
  bool_decide (take b (i_name n) = name) &&
  ((name_byte n b =? 0) || ((name_byte n b =? 112) && (49 <=? name_byte n (S b)) && (name_byte n (S b) <=? 57))).

Definition sync_nvme (dev : Z) (cn : Z * Z) f : st :=
  let k := nvme_kind_encode cn.1 cn.2 in
  match make_nvme_name cn.1 cn.2 (S INODE_NAME_MAX) with
  | None => f
  | Some name =>
      if k =? DEV_NONE then f
      else if negb (nvme_ns_present cn.1 cn.2 (f_dev f)) then
        if mount_uses_source_dev k f then f else unplug (nvme_node name) dev f
      else plug dev k name f
  end.

Definition fs_sync_hotplug_block_devs f : st :=
  match dev_root_inode f with
  | None => f
  | Some dev =>
      if negb (is_dir f dev) then f
      else
        let f := set_dev f (nvme_poll (ahci_poll (f_dev f))) in
        let sata := Z.min (ahci_disk_count (f_dev f)) 8 in
        let f := foldl (fun f i => sync_sata dev i f) f (seqZ 0 sata) in
        let nctrls := Z.min (nvme_controller_count (f_dev f)) NVME_MAX_CONTROLLERS in
        foldl (fun f cn => sync_nvme dev cn f) f (ctrl ← seqZ 0 nctrls; nsid ← seqZ 1 NVME_MAX_NAMESPACES; [(ctrl, nsid)])
  end.

(** ** Lookup *)

(** At most 31 bytes of a component. *)
Fixpoint read_part (n : nat) (p : list Z) : list Z * list Z :=
  match p with
  | [] => ([], [])
  | c :: p' =>
      if (c =? SLASH) || (INODE_NAME_MAX <=? n)%nat then ([], p)
      else let '(part, rest) := read_part (S n) p' in (c :: part, rest)
  end.

Fixpoint lookup_loop (fuel : nat) (follow : bool) (cur : Z) (p : list Z) f : option Z * st :=
  match fuel, p with
  | _, [] => (Some cur, f)
  | O, _ => (None, f)
  | S fuel, _ =>
      let '(part, rest) := read_part 0 p in
      let rest := skip_slashes rest in
      let last_component := bool_decide (rest = []) in
      if decide (part = []) then lookup_loop fuel follow cur rest f
      else
        match fs_lookup_child_mode cur part (negb last_component || follow) f with
        | (None, f) => (None, f)
        | (Some c, f) => lookup_loop fuel follow c rest f
        end
  end.

(** The paths that have the disks checked. *)
Definition under_dev (path : list Z) : bool :=
  bool_decide (take 4 path = [SLASH; 100; 101; 118]) && match path !! 4%nat with None => true | Some c => c =? SLASH end.

Definition fs_lookup_internal (path : list Z) (follow_final_symlink : bool) f : option Z * st :=
  match root_inode f with
  | None => (None, f)
  | Some root =>
      let f := if under_dev path then fs_sync_hotplug_block_devs f else f in
      if decide (path = [SLASH]) then (Some root, f)
      else
        let p := match path with c :: p => if c =? SLASH then p else path | [] => [] end in
        lookup_loop (length p) follow_final_symlink root p f
  end.

Definition fs_lookup (path : list Z) f : option Z * st := fs_lookup_internal path true f.
Definition fs_lookup_nofollow (path : list Z) f : option Z * st := fs_lookup_internal path false f.

(** The position of the last slash, 0 if there is none. *)
Fixpoint last_slash (p : list Z) (i lst : nat) : nat :=
  match p with
  | [] => lst
  | c :: p => last_slash p (S i) (if c =? SLASH then i else lst)
  end.

(** The parent directory and the name in it, which the caller has 32 bytes for. *)
Definition lookup_parent (path : list Z) f : option Z * list Z * st :=
  if negb (bool_decide (head path = Some SLASH)) then (None, [], f)
  else
    let lst := last_slash path 0 0 in
    if (lst =? 0)%nat then (root_inode f, drop 1 path, f)
    else if (MAX_PATH <=? lst)%nat then (None, [], f)
    else
      let '(r, f) := fs_lookup (take lst path) f in (r, drop (S lst) path, f).

(** ** Status *)

Definition inode_type_num (t : inode_type) : Z :=
  match t with INODE_UNUSED => 0 | INODE_DIR => 1 | INODE_FILE => 2 | INODE_DEV => 3 end.
Definition fs_kind_num (k : fs_kind_t) : Z := match k with FS_KIND_MEM => 0 | FS_KIND_EXT4 => 1 end.

Definition fs_is_tty (n : inode) : bool := bool_decide (i_type n = INODE_DEV) && (i_dev_kind n =? DEV_TTY).

(** The modes are 0755 and 0555 for a directory, 0644 and 0444 for a file, with 0111
    if it is executable, and 0666 and 0444 for a device. *)
Definition fs_mode_from_inode (n : inode) : Z :=
  match i_type n with
  | INODE_DIR => Z.lor 0x4000 (if i_writable n then 0x1ED else 0x16D)
  | INODE_FILE =>
      let perms := if i_writable n then 0x1A4 else 0x124 in
      Z.lor 0x8000 (if i_executable n then Z.lor perms 0x49 else perms)
  | _ => Z.lor 0x2000 (if i_writable n then 0x1B6 else 0x124)
  end.

Definition fs_fill_stat (p : Z) f : Z * fu_stat * st :=
  let n := node f p in
  let stat := mk_stat (inode_type_num (i_type n)) (fs_mode_from_inode n) (i_size n) 1 (fs_kind_num (i_fs_kind n)) in
  if decide (i_fs_kind n = FS_KIND_EXT4) then ext4_lstat p stat f else (0, stat, f).

Definition fs_stat_inode (p : Z) f : Z * fu_stat * st := fs_fill_stat p f.

Definition stat_zero : fu_stat := mk_stat 0 0 0 0 0.

Definition stat_path (r : option Z * st) : Z * fu_stat * st :=
  match r with
  | (None, f) => (-1, stat_zero, f)
  | (Some p, f) => fs_fill_stat p f
  end.

Definition fs_lstat (path : list Z) f : Z * fu_stat * st := stat_path (fs_lookup_nofollow path f).
Definition fs_stat (path : list Z) f : Z * fu_stat * st := stat_path (fs_lookup path f).

(** ** Transactions of ext4 *)

Definition on_st {R} (g : storage D E -> R * storage D E) f : R * st :=
  let '(r, t) := g (s_st (f_sys f)) in (r, on_sys f (fun s => sys_set_st s t)).

Definition tx_abort f : st := on_sys f (fun s => sys_set_st s (ext4_tx_abort (s_st s))).

Definition fs_ext4_tx_error f : Z := let err := ext4_last_error f in if 0 <? err then - err else -1.

(** The frame every change of ext4 is made in: a transaction that is aborted if the
    change or the commit fails. *)
Definition ext4_change (op : st -> Z * st) f : Z * st :=
  let '(ok, f) := on_st ext4_tx_begin f in
  if negb ok then (fs_ext4_tx_error f, f)
  else
    let '(rc, f) := op f in
    let '(ok, f) := if rc =? 0 then on_st ext4_tx_commit f else (false, f) in
    if ok then (0, f)
    else let f := tx_abort f in (if negb (rc =? 0) then rc else fs_ext4_tx_error f, f).

Definition ext4_make (op : st -> option Z * st) f : option Z * st :=
  let '(ok, f) := on_st ext4_tx_begin f in
  if negb ok then (None, f)
  else
    match op f with
    | (None, f) => (None, tx_abort f)
    | (Some p, f) => let '(ok, f) := on_st ext4_tx_commit f in if ok then (Some p, f) else (None, tx_abort f)
    end.

(** ** Mounting *)

(** The name [ext4]. *)
Definition EXT4 : list Z := [101; 120; 116; 52].

Definition fs_mount (source target fstype : list Z) (flags : Z) f : Z * st :=
  if negb (flags =? 0) || bool_decide (fstype <> EXT4) then (-1, f)
  else
    let '(src, f) := fs_lookup source f in
    let '(mnt, f) := fs_lookup target f in
    match src, mnt with
    | Some src, Some mnt =>
        if bool_decide (i_type (node f src) <> INODE_DEV) || negb (dev_kind_is_block (i_dev_kind (node f src))) ||
           negb (dev_block_ready_kind (i_dev_kind (node f src)) f) then (-1, f)
        else if negb (is_dir f mnt) || bool_decide (Some mnt = root_inode f) then (-1, f)
        else if bool_decide (i_fs_kind (node f mnt) <> FS_KIND_MEM) || negb (bool_decide (i_children (node f mnt) = [])) then (-1, f)
        else if mount_is_active mnt f then (-1, f)
        else
          match mount_alloc_entry f with
          | None => (-1, f)
          | Some e =>
              let '(rc, b) := block_cache_attach_inode (Some (node f src)) (st_bc (s_st (f_sys f))) in
              let f := on_sys f (fun s => sys_set_bc s b) in
              if negb (rc =? 0) then (-1, f)
              else
                let '(ok, f) := ext4_mount mnt src f in
                if negb ok then (-1, f)
                else
                  (0, set_mounts f (<[e := mk_mount true (Some mnt) FS_KIND_EXT4 (i_dev_kind (node f src))]> (mount_table f)))
          end
    | _, _ => (-1, f)
    end.

Definition fs_umount (target : list Z) (flags : Z) f : Z * st :=
  if negb (flags =? 0) then (-1, f)
  else
    match fs_lookup target f with
    | (None, f) => (-1, f)
    | (Some mnt, f) =>
        if negb (is_dir f mnt) then (-1, f)
        else
          match mount_find_by_point mnt f with
          | None => (-1, f)
          | Some e =>
              if task_mount_busy (f_inodes f) mnt target (s_top (f_sys f)) then (-1, f)
              else
                let '(rc, s) := pagecache_flush_all (f_sys f) in
                let f := set_sys f s in
                if negb (rc =? 0) then (-1, f)
                else if decide (m_kind (mount_table f !!! e) = FS_KIND_EXT4) then
                  let '(ok, f) := ext4_unmount mnt f in
                  if negb ok then (-1, f) else (0, set_mounts f (<[e := mount_zero]> (mount_table f)))
                else (-1, f)
          end
    end.

(** ** Creation, links and removal *)

(** The directory and the name for a new entry. *)
Definition new_entry (path : list Z) f : option (Z * list Z) * st :=
  match lookup_parent path f with
  | (Some parent, name, f) => if negb (is_dir f parent) || bool_decide (name = []) then (None, f) else (Some (parent, name), f)
  | (None, _, f) => (None, f)
  end.

Definition fs_create (ext4_op : Z -> list Z -> st -> option Z * st) (mem_op : Z -> list Z -> st -> option Z * st)
    (path : list Z) f : option Z * st :=
  match new_entry path f with
  | (None, f) => (None, f)
  | (Some (parent, name), f) =>
      match fs_lookup_child_mode parent name false f with
      | (Some _, f) => (None, f)
      | (None, f) =>
          if decide (i_fs_kind (node f parent) = FS_KIND_EXT4) then ext4_make (ext4_op parent name) f
          else mem_op parent name f
      end
  end.

Definition fs_create_file (path : list Z) f : option Z * st :=
  fs_create ext4_create_file (fun parent name => mk_file (Some parent) name 0 0 false true) path f.

Definition fs_create_dir (path : list Z) f : option Z * st :=
  fs_create ext4_create_dir (fun parent name => mk_dir (Some parent) name) path f.

Definition fs_link (old_path new_path : list Z) f : Z * st :=
  match fs_lookup_nofollow old_path f with
  | (None, f) => (-1, f)
  | (Some src, f) =>
      if bool_decide (i_type (node f src) <> INODE_FILE) || bool_decide (i_fs_kind (node f src) = FS_KIND_MEM) then (-1, f)
      else
        match new_entry new_path f with
        | (None, f) => (-1, f)
        | (Some (parent, name), f) =>
            match fs_lookup_nofollow new_path f with
            | (Some _, f) => (-1, f)
            | (None, f) =>
                if bool_decide (i_fs_kind (node f src) <> i_fs_kind (node f parent)) then (-1, f)
                else ext4_change (ext4_link src parent name) f
            end
        end
  end.

Definition fs_symlink (target link_path : list Z) f : Z * st :=
  if bool_decide (target = []) || (MAX_PATH <=? length target)%nat then (-1, f)
  else
    match new_entry link_path f with
    | (None, f) => (-1, f)
    | (Some (parent, name), f) =>
        match fs_lookup_nofollow link_path f with
        | (Some _, f) => (-1, f)
        | (None, f) =>
            if decide (i_fs_kind (node f parent) = FS_KIND_EXT4) then
              let '(ok, f) := on_st ext4_tx_begin f in
              if negb ok then (fs_ext4_tx_error f, f)
              else
                let '(n, f) := ext4_symlink parent name target f in
                let '(ok, f) := match n with Some _ => on_st ext4_tx_commit f | None => (false, f) end in
                if ok then (0, f) else let f := tx_abort f in (fs_ext4_tx_error f, f)
            else (-1, f)
        end
    end.

Definition fs_readlink (path : list Z) (buflen : Z) f : Z * list Z * st :=
  match fs_lookup_nofollow path f with
  | (None, f) => (-1, [], f)
  | (Some p, f) =>
      if bool_decide (i_type (node f p) <> INODE_FILE) then (-1, [], f)
      else if decide (i_fs_kind (node f p) = FS_KIND_EXT4) then ext4_readlink p buflen f
      else (-1, [], f)
  end.

(** The bits 0777, 0222 and 0111 of a mode. *)
Definition fs_chmod (path : list Z) (mode : Z) f : Z * st :=
  match fs_lookup_nofollow path f with
  | (None, f) => (-1, f)
  | (Some p, f) =>
      if bool_decide (Some p = root_inode f) then (-1, f)
      else
        let n := node f p in
        if decide (i_fs_kind n = FS_KIND_EXT4) then ext4_change (ext4_chmod p (Z.land mode 0x1FF)) f
        else
          let w := negb (Z.land mode 0x92 =? 0) in
          match i_type n with
          | INODE_FILE =>
              let immutable_blob := negb (i_data n =? 0) && (i_capacity n =? i_size n) && negb (i_writable n) in
              let x := negb (Z.land mode 0x49 =? 0) in
              (0, upd_node f p (fun n => inode_set_modes n x (if immutable_blob then i_writable n else w)))
          | INODE_DIR | INODE_DEV => (0, upd_node f p (fun n => inode_set_modes n (i_executable n) w))
          | INODE_UNUSED => (-1, f)
          end
  end.

(** A node of the tree is taken out of its directory and its slot cleared. *)
Definition remove_node (p : Z) f : Z * st :=
  let '(ok, f) := dir_remove_child (i_parent (node f p)) p f in
  if ok then (0, inode_free (Some p) f) else (-1, f).

Definition fs_unlink (path : list Z) f : Z * st :=
  match fs_lookup_nofollow path f with
  | (None, f) => (-1, f)
  | (Some p, f) =>
      let n := node f p in
      if bool_decide (i_type n <> INODE_FILE) || bool_decide (i_parent n = None) then (-1, f)
      else if decide (i_fs_kind n = FS_KIND_EXT4) then
        let '(rc, f) := ext4_change (ext4_unlink p) f in
        if rc =? 0 then (0, on_sys f (pagecache_invalidate_inode (Some p))) else (rc, f)
      else remove_node p f
  end.

Definition fs_rmdir (path : list Z) f : Z * st :=
  match fs_lookup_nofollow path f with
  | (None, f) => (-1, f)
  | (Some p, f) =>
      let n := node f p in
      if bool_decide (Some p = root_inode f) || negb (is_dir f p) || bool_decide (i_parent n = None) then (-1, f)
      else if mount_is_active p f then (-1, f)
      else if decide (i_fs_kind n = FS_KIND_EXT4) then ext4_change (ext4_rmdir p) f
      else if negb (bool_decide (i_children n = [])) then (-1, f)
      else remove_node p f
  end.

(** Whether [p] is [anc] or below it: the walk to the root. A chain of parents has at
    most as many nodes as the pool. *)
Fixpoint is_below (fuel : nat) (anc p : Z) f : bool :=
  if p =? anc then true
  else
    match fuel, i_parent (node f p) with
    | S fuel, Some q => is_below fuel anc q f
    | _, _ => false
    end.

Definition fs_rename (old_path new_path : list Z) f : Z * st :=
  match fs_lookup_nofollow old_path f with
  | (None, f) => (-1, f)
  | (Some p, f) =>
      if bool_decide (Some p = root_inode f) || bool_decide (i_parent (node f p) = None) then (-1, f)
      else if mount_is_active p f then (-1, f)
      else if decide (old_path = new_path) then (0, f)
      else
        match fs_lookup_nofollow new_path f with
        | (Some _, f) => (-1, f)
        | (None, f) =>
            match new_entry new_path f with
            | (None, f) => (-1, f)
            | (Some (new_parent, new_name), f) =>
                if decide (i_fs_kind (node f p) = FS_KIND_EXT4) then
                  if bool_decide (i_fs_kind (node f new_parent) <> FS_KIND_EXT4) then (-1, f)
                  else ext4_change (ext4_rename p new_parent new_name) f
                else if bool_decide (i_fs_kind (node f new_parent) <> FS_KIND_MEM) then (-1, f)
                else if (DIR_MAX_CHILDREN <=? length (i_children (node f new_parent)))%nat then (-1, f)
                else if is_dir f p && is_below INODE_POOL_MAX p new_parent f then (-1, f)
                else
                  let old_parent := i_parent (node f p) in
                  let old_name := i_name (node f p) in
                  let '(ok, f) := dir_remove_child old_parent p f in
                  if negb ok then (-1, f)
                  else
                    let f := upd_node f p (fun n => inode_set_name n (inode_name new_name)) in
                    let '(ok, f) := dir_add_child (Some new_parent) p f in
                    if ok then (0, f)
                    else
                      let f := upd_node f p (fun n => inode_set_name n (inode_name old_name)) in
                      (-1, (dir_add_child old_parent p f).2)
            end
        end
  end.

End Fs.
