(* ===== verification/FsInit.v ===== *)
(** * The initial filesystem (kernel/fs.c)

    [fs_init] fills the tree with the programs and headers linked into the kernel,
    makes the device nodes and mounts the first disk. The linker's symbols are
    parameters: [blob] gives the start and end address of a linked file, [sdk] the
    address and bytes of one of the texts of fs.c. *)

From Stdlib Require Import String Ascii.
From S2P Require Import Prelude KString Path Pmm Inode BlockCache PageCache FsIo Fs.

(** The bytes of a literal. *)
Definition str (s : string) : list Z := map (fun a => Z.of_N (N_of_ascii a)) (list_ascii_of_string s).

Inductive boot_item :=
  | Blob (name symbol : string) (executable : bool)
  | Text (name symbol : string).

Definition program (name : string) : boot_item := Blob name (append (append "user_" name) "_elf") true.
Definition object (name symbol : string) : boot_item := Blob name (append "tccrt_" symbol) false.

Open Scope string_scope.

Definition bin_files : list boot_item :=
  map program
    ["init"; "sh"; "ls"; "cat"; "echo"; "clear"; "nano"; "elfinfo"; "mkdir"; "rmdir"; "rm"; "pwd"; "touch"; "cp"; "mv"; "sleep";
     "kill"; "ping"; "ifconfig"; "route"; "arp"; "nc"; "nslookup"; "dhcp"; "mount"; "umount"; "ln"; "chmod"; "tcc"; "ar"; "ranlib"; "as"].

Definition sbin_files : list boot_item := [Blob "mkfs.ext4" "user_mkfs_ext4_elf" true; Blob "fsck.ext4" "user_fsck_ext4_elf" true].

Definition crt_files : list boot_item :=
  [object "crt1.o" "crt1_o"; object "crti.o" "crti_o"; object "crtn.o" "crtn_o"; object "crtbegin.o" "crtbegin_o";
   object "crtend.o" "crtend_o"; object "libc.a" "libc_a"; object "libtcc1.a" "libtcc1_a"].

Definition lib_files : list boot_item := Blob "ld-furios.so" "user_ld_furios_elf" true :: crt_files.

Definition include_files : list boot_item :=
  [Text "stddef.h" "sdk_stddef_h"; Text "stdint.h" "sdk_stdint_h"; Text "stdbool.h" "sdk_stdbool_h";
   Blob "tccdefs.h" "third_party_tinycc_include_tccdefs_h" false; Text "stdarg.h" "sdk_stdarg_h"; Text "errno.h" "sdk_errno_h";
   Text "poll.h" "sdk_poll_h"; Text "signal.h" "sdk_signal_h"; Text "limits.h" "sdk_limits_h"; Text "assert.h" "sdk_assert_h";
   Text "inttypes.h" "sdk_inttypes_h"; Text "time.h" "sdk_time_h"; Text "furios.h" "sdk_furios_h"; Text "unistd.h" "sdk_unistd_h";
   Text "fcntl.h" "sdk_fcntl_h"; Text "string.h" "sdk_string_h"; Text "stdio.h" "sdk_stdio_h"; Text "stdlib.h" "sdk_stdlib_h";
   Text "netdb.h" "sdk_netdb_h"].

Definition sys_files : list boot_item :=
  [Text "stat.h" "sdk_sys_stat_h"; Text "types.h" "sdk_sys_types_h"; Text "wait.h" "sdk_sys_wait_h";
   Text "mman.h" "sdk_sys_mman_h"; Text "socket.h" "sdk_sys_socket_h"].

Definition motd_text : list Z := str "FuriOS EL0 userspace online" ++ [10].

Close Scope string_scope.

Section Init.
Context {D E T : Type} `{!BlockDrivers D, !DiskInventory D, !Ext4Ops D E, !SharedMappings T, !Ext4Names D E T, !MountUsers T}.
Abbreviation st := (fsys D E T).
Implicit Types f : st.
Context (blob : string -> Z * Z) (sdk : string -> Z * list Z) (net_ready : bool).

Definition blob_size (b : Z * Z) : Z := u64 (b.2 - b.1).

Definition mk_item (dir : option Z) (i : boot_item) f : st :=
  match i with
  | Blob name symbol x => (mk_file dir (str name) (blob symbol).1 (blob_size (blob symbol)) x false f).2
  | Text name symbol => (mk_text_file dir (str name) (sdk symbol).1 (sdk symbol).2 false f).2
  end.

Definition mk_items (dir : option Z) (l : list boot_item) f : st := foldl (fun f i => mk_item dir i f) f l.

(** [if (dir) { ... }]. *)
Definition when_dir (dir : option Z) (g : Z -> st -> st) f : st := match dir with Some d => g d f | None => f end.
Definition sub_dir (dir : option Z) (name : string) f : option Z * st :=
  match dir with Some d => mk_dir (Some d) (str name) f | None => (None, f) end.

Definition set_root f (r : option Z) : st := mk_fsys (f_sys f) (inode_pool f) r (dev_root_inode f) (mount_table f).
Definition set_dev_root f (r : option Z) : st := mk_fsys (f_sys f) (inode_pool f) (root_inode f) r (mount_table f).

(** [memset(inode_pool, 0, sizeof(inode_pool))]. *)
Definition clear_pool f : st := foldl (fun f i => clear_node f (pool_slot f i)) f (seq 0 INODE_POOL_MAX).

Definition make_root f : st := let '(r, f) := mk_dir None [] f in set_dev_root (set_root f r) None.

(** The tables cleared and the root made. *)
Definition fs_reset f : st := make_root (set_mounts (clear_pool f) (replicate MOUNT_TABLE_MAX mount_zero)).

(** The headers, once under [/usr/include] and once under [/include]. *)
Definition init_usr_include (inc sys arpa : option Z) f : st :=
  let f := when_dir inc (fun d => mk_items (Some d) include_files) f in
  let f := when_dir sys (fun d => mk_items (Some d) sys_files) f in
  let '(netinet, f) := sub_dir inc "netinet" f in
  let f := when_dir netinet (fun d => mk_items (Some d) [Text "in.h" "sdk_netinet_in_h"]) f in
  when_dir arpa (fun d => mk_items (Some d) [Text "inet.h" "sdk_arpa_inet_h"]) f.

Definition init_include (inc : option Z) f : st :=
  when_dir inc (fun d f =>
    let f := mk_items (Some d) include_files f in
    let '(sys, f) := mk_dir (Some d) (str "sys") f in
    let f := when_dir sys (fun d => mk_items (Some d) sys_files) f in
    let '(netinet, f) := mk_dir (Some d) (str "netinet") f in
    let f := when_dir netinet (fun d => mk_items (Some d) [Text "in.h" "sdk_netinet_in_h"]) f in
    let '(arpa, f) := mk_dir (Some d) (str "arpa") f in
    when_dir arpa (fun d => mk_items (Some d) [Text "inet.h" "sdk_arpa_inet_h"]) f) f.

Definition init_etc (etc : option Z) f : st :=
  let '(motd, f) := mk_file etc (str "motd") 0 0 false true f in
  let f :=
    match motd with
    | Some p =>
        if i_data (node f p) =? 0 then f
        else
          let f := on_sys f (fun s => sys_set_ram s (store_bytes (s_ram s) (i_data (node f p)) motd_text)) in
          upd_node f p (fun n => inode_set_size n (Z.of_nat (length motd_text)))
    | None => f
    end in
  let f := (mk_text_file etc (str "resolv.conf") (sdk "resolv.conf").1 (sdk "resolv.conf").2 true f).2 in
  (mk_text_file etc (str "hosts") (sdk "hosts").1 (sdk "hosts").2 true f).2.

(** A node for a disk and the nodes of its partitions. *)
Definition init_disk (dev kind : Z) (name : list Z) f : st :=
  match mk_dev (Some dev) name kind true f with
  | (Some _, f) => probe_partitions dev kind name f
  | (None, f) => f
  end.

Definition init_dev (dev : Z) f : st :=
  let f := set_dev_root f (Some dev) in
  let f := (mk_dev (Some dev) (str "null") DEV_NULL true f).2 in
  let f := (mk_dev (Some dev) (str "zero") DEV_ZERO true f).2 in
  let f := (mk_dev (Some dev) (str "tty") DEV_TTY true f).2 in
  let f := if net_ready then (mk_dev (Some dev) (str "net0") DEV_NET0 true f).2 else f in
  let f := if dev_block_ready_kind DEV_VDA f then init_disk dev DEV_VDA (str "vda") f else f in
  let f :=
    foldl (fun f i => if ahci_disk_present i (f_dev f) then init_disk dev (DEV_SDA + i) [115; 100; 97 + i] f else f) f
      (seqZ 0 (Z.min (ahci_disk_count (f_dev f)) 8)) in
  foldl (fun f cn =>
      let kind := nvme_kind_encode cn.1 cn.2 in
      if (kind =? DEV_NONE) || negb (nvme_ns_present cn.1 cn.2 (f_dev f)) then f
      else match make_nvme_name cn.1 cn.2 (S INODE_NAME_MAX) with Some name => init_disk dev kind name f | None => f end) f
    (ctrl ← seqZ 0 (Z.min (nvme_controller_count (f_dev f)) NVME_MAX_CONTROLLERS); nsid ← seqZ 1 NVME_MAX_NAMESPACES; [(ctrl, nsid)]).

(** The first of the disks that exists is mounted. *)
Fixpoint init_mount (disks : list string) f : st :=
  match disks with
  | [] => f
  | d :: disks =>
      match fs_lookup (str d) f with
      | (Some _, f) => (fs_mount (str d) (str "/mnt") EXT4 0 f).2
      | (None, f) => init_mount disks f
      end
  end.

Definition fs_init f : st :=
  let f := fs_reset f in
  let root := root_inode f in
  let '(bin, f) := mk_dir root (str "bin") f in
  let '(sbin, f) := mk_dir root (str "sbin") f in
  let '(lib, f) := mk_dir root (str "lib") f in
  let '(usr, f) := mk_dir root (str "usr") f in
  let '(etc, f) := mk_dir root (str "etc") f in
  let '(dev, f) := mk_dir root (str "dev") f in
  let '(compat_include, f) := mk_dir root (str "include") f in
  let f := (mk_dir root (str "mnt") f).2 in
  let '(usr_include, f) := sub_dir usr "include" f in
  let '(usr_include_sys, f) := sub_dir usr_include "sys" f in
  let '(usr_include_arpa, f) := sub_dir usr_include "arpa" f in
  let '(usr_lib, f) := sub_dir usr "lib" f in
  let f := mk_items bin bin_files f in
  let f := when_dir sbin (fun d => mk_items (Some d) sbin_files) f in
  let f := when_dir lib (fun d => mk_items (Some d) lib_files) f in
  let f := when_dir usr_lib (fun d => mk_items (Some d) crt_files) f in
  let f := init_usr_include usr_include usr_include_sys usr_include_arpa f in
  let f := init_include compat_include f in
  let f := init_etc etc f in
  let f := when_dir dev init_dev f in
  init_mount ["/dev/vda1"; "/dev/vda"; "/dev/sda1"; "/dev/sda"; "/dev/nvme0n1p1"; "/dev/nvme0n1"]%string f.

End Init.
