(* ===== verification/FsData.v ===== *)
(** * File contents (kernel/fs.c)

    [fs_read], [fs_write] and [fs_truncate]: files and block devices go through the
    page cache, directories are read as a list of entries, and the character devices
    and ext4 directories through their interfaces. *)

From S2P Require Import Prelude KString Path Pmm Inode BlockCache PageCache FsIo Fs.

(** [uart_getc] waits for a byte. [net_dev_read] gives the number of bytes and the
    bytes of a frame, [net_dev_write] the number of bytes sent. *)
Class CharDevices (T : Type) := {
  uart_getc : T -> Z * T;
  uart_putc : Z -> T -> T;
  net_dev_read : Z -> T -> Z * list Z * T;
  net_dev_write : list Z -> T -> Z * T;
}.

Abbreviation SIZEOF_DIRENT := 36 (only parsing).

(** [name[32]] and the 32-bit type. *)
Definition dirent_bytes (name : list Z) (type : Z) : list Z :=
  let name := inode_name name in
  name ++ replicate (S INODE_NAME_MAX - length name) 0 ++ map (fun k => Z.land (Z.shiftr type (8 * k)) 255) [0; 1; 2; 3].

Section Data.
Context {D E T : Type} `{!BlockDrivers D, !Ext4Ops D E, !SharedMappings T, !Ext4Names D E T, !CharDevices T}.
Abbreviation st := (fsys D E T).
Implicit Types f : st.

Definition on_top f (t : T) : st := on_sys f (fun s => sys_set_top s t).

(** A line of the terminal, at most [n] bytes. *)
Fixpoint tty_loop (n : nat) (acc : list Z) (t : T) : list Z * T :=
  match n with
  | O => (acc, t)
  | S n =>
      let '(c, t) := uart_getc t in
      let acc := acc ++ [u8 c] in
      if (c =? 10) || (c =? 13) then (acc, t) else tty_loop n acc t
  end.

(** Result code, the bytes written to the buffer and the new offset. *)
Definition fs_read (p : Z) (offset len : Z) f : Z * list Z * Z * st :=
  let n := node f p in
  let through_cache :=
    let '(rc, bytes, off, s) := pagecache_read (Some p) offset len (f_sys f) in (rc, bytes, off, set_sys f s) in
  if decide (i_fs_kind n = FS_KIND_EXT4) then
    if decide (i_type n = INODE_FILE) then through_cache
    else ext4_read_dir p offset len f
  else
    match i_type n with
    | INODE_DEV =>
        if len =? 0 then (0, [], offset, f)
        else
          let k := i_dev_kind n in
          if k =? DEV_NULL then (0, [], offset, f)
          else if k =? DEV_ZERO then (to_int len, replicate (Z.to_nat len) 0, u64 (offset + len), f)
          else if k =? DEV_TTY then
            let '(bytes, t) := tty_loop (Z.to_nat len) [] (s_top (f_sys f)) in
            (to_int (Z.of_nat (length bytes)), bytes, u64 (offset + Z.of_nat (length bytes)), on_top f t)
          else if k =? DEV_NET0 then
            let '(rc, bytes, t) := net_dev_read len (s_top (f_sys f)) in
            (rc, bytes, if 0 <? rc then u64 (offset + rc) else offset, on_top f t)
          else if fs_is_block_dev n then through_cache
          else (-1, [], offset, f)
    | INODE_DIR =>
        match i_children n !! Z.to_nat (offset / SIZEOF_DIRENT) with
        | None => (0, [], offset, f)
        | Some c =>
            if len <? SIZEOF_DIRENT then (-1, [], offset, f)
            else
              (SIZEOF_DIRENT, dirent_bytes (i_name (node f c)) (inode_type_num (i_type (node f c))), u64 (offset + SIZEOF_DIRENT), f)
        end
    | INODE_FILE => through_cache
    | INODE_UNUSED => (0, [], offset, f)
    end.

(** Result code and the new offset. *)
Definition fs_write (p : Z) (offset : Z) (src : list Z) f : Z * Z * st :=
  let n := node f p in
  let len := Z.of_nat (length src) in
  let through_cache f :=
    let '(rc, off, s) := pagecache_write (Some p) offset src (f_sys f) in (rc, off, set_sys f s) in
  if decide (i_fs_kind n = FS_KIND_EXT4) then
    if decide (i_type n = INODE_FILE) then through_cache f else (-1, offset, f)
  else if decide (i_type n = INODE_DEV) then
    let k := i_dev_kind n in
    if (k =? DEV_NULL) || (k =? DEV_ZERO) then (to_int len, u64 (offset + len), f)
    else if k =? DEV_TTY then
      (to_int len, u64 (offset + len), on_top f (foldl (fun t c => uart_putc c t) (s_top (f_sys f)) src))
    else if k =? DEV_NET0 then
      let '(rc, t) := net_dev_write src (s_top (f_sys f)) in
      (rc, if 0 <? rc then u64 (offset + rc) else offset, on_top f t)
    else if fs_is_block_dev n then through_cache f
    else (-1, offset, f)
  else if bool_decide (i_type n <> INODE_FILE) || negb (i_writable n) then (-1, offset, f)
  else
    let '(ok, f) :=
      if 0 <? len then
        if u64 (-1) - len <? offset then (false, f) else memfs_ensure_capacity p (offset + len) f
      else (true, f) in
    if negb ok then (-1, offset, f) else through_cache f.

Definition fs_truncate (p : Z) (size : Z) f : Z * st :=
  let n := node f p in
  let flush f := let '(rc, s) := pagecache_flush_inode (Some p) (f_sys f) in (rc, set_sys f s) in
  if decide (i_fs_kind n = FS_KIND_EXT4) then
    let '(rc, f) := flush f in
    if negb (rc =? 0) then (-1, f)
    else
      let '(rc, f) := ext4_change (ext4_truncate p size) f in
      if rc =? 0 then (0, on_sys f (pagecache_truncate_inode (Some p) size)) else (rc, f)
  else if bool_decide (i_type n <> INODE_FILE) || negb (i_writable n) then (-1, f)
  else
    let '(rc, f) := flush f in
    if negb (rc =? 0) then (-1, f)
    else
      let '(ok, f) := if i_capacity (node f p) <? size then memfs_ensure_capacity p size f else (true, f) in
      if negb ok then (-1, f)
      else
        let n := node f p in
        let f := if i_size n <? size
                 then on_sys f (fun s => sys_set_ram s (memset (s_ram s) (i_data n + i_size n) 0 (size - i_size n))) else f in
        let f := upd_node f p (fun n => inode_set_size n size) in
        (0, on_sys f (pagecache_truncate_inode (Some p) size)).

End Data.
