(* ===== verification/FsTree.v ===== *)
(** * The tree of names (kernel/fs.c)

    The directories of the memory filesystem form a tree: every node but the root has
    one parent and one name. A path then denotes at most one node and a node has one
    path, and creation, removal and renaming are an insertion, a deletion and a move
    of a subtree in the map from paths to nodes. *)

From S2P Require Import Prelude KString Path Pmm Inode BlockCache PageCache FsIo Fs.

(** ** Graphs of named edges *)

Section Graph.
Abbreviation edges := (Z -> list (list Z * Z)).
Implicit Types (K : edges) (cs q : list (list Z)) (nm x : list Z).

(** The first edge with a name. *)
Fixpoint assoc (nm : list Z) (l : list (list Z * Z)) : option Z :=
  match l with
  | [] => None
  | e :: l => if decide (e.1 = nm) then Some e.2 else assoc nm l
  end.

Fixpoint walk (K : edges) (p : Z) (cs : list (list Z)) : option Z :=
  match cs with
  | [] => Some p
  | nm :: cs => match assoc nm (K p) with Some c => walk K c cs | None => None end
  end.

(** No name is given twice in a directory, no node has two parents, and the root has
    none. *)
Record forest K (r : Z) : Prop := {
  fo_names d nm c c' : (nm, c) ∈ K d -> (nm, c') ∈ K d -> c = c';
  fo_parent d d' nm nm' c : (nm, c) ∈ K d -> (nm', c) ∈ K d' -> d = d' /\ nm = nm';
  fo_root d nm : (nm, r) ∉ K d;
}.

Definition detach K (d c : Z) : edges := fun p => if decide (p = d) then filter (fun e => e.2 <> c) (K p) else K p.
Definition attach K (d : Z) (nm : list Z) (c : Z) : edges := fun p => if decide (p = d) then K p ++ [(nm, c)] else K p.

Lemma assoc_in nm l c : assoc nm l = Some c -> (nm, c) ∈ l.
Proof.
  induction l as [|[x y] l IH]; simpl; [done|]. destruct (decide (x = nm)) as [->|]; [intros [= ->]; by left|].
  intros H. right. auto.
Qed.

Lemma assoc_None nm l : assoc nm l = None <-> forall c, (nm, c) ∉ l.
Proof.
  induction l as [|[x y] l IH]; simpl; [split; [|done]; intros _ c; apply not_elem_of_nil|].
  destruct (decide (x = nm)) as [->|Hn].
  - split; [done|]. intros H. exfalso. apply (H y). by left.
  - rewrite IH. split; intros H c Hc; [|by apply (H c); right]. apply elem_of_cons in Hc as [?|?]; [simplify_eq|by apply (H c)].
Qed.

Lemma assoc_Some nm l c :
  (forall c', (nm, c') ∈ l -> c' = c) -> (nm, c) ∈ l -> assoc nm l = Some c.
Proof.
  intros Hu Hin. destruct (assoc nm l) as [c'|] eqn:E; [f_equal; apply Hu; by apply assoc_in|].
  exfalso. by apply (proj1 (assoc_None nm l) E c).
Qed.

Lemma assoc_app nm l l' : assoc nm (l ++ l') = match assoc nm l with Some c => Some c | None => assoc nm l' end.
Proof. induction l as [|[x y] l IH]; simpl; [done|]. by destruct (decide _). Qed.

Lemma walk_app K p cs cs' : walk K p (cs ++ cs') = walk K p cs ≫= fun d => walk K d cs'.
Proof. revert p. induction cs as [|nm cs IH]; intros p; simpl; [done|]. by destruct (assoc nm (K p)). Qed.

Lemma walk_snoc K p cs nm : walk K p (cs ++ [nm]) = walk K p cs ≫= fun d => assoc nm (K d).
Proof. rewrite walk_app. destruct (walk K p cs) as [d|]; simpl; [|done]. by destruct (assoc nm (K d)). Qed.

Lemma walk_edge K p cs nm c : walk K p (cs ++ [nm]) = Some c -> exists d, walk K p cs = Some d /\ (nm, c) ∈ K d.
Proof. rewrite walk_snoc. destruct (walk K p cs) as [d|]; simpl; [|done]. intros H. exists d. split; [done|]. by apply assoc_in. Qed.

(** A node has one path. *)
Lemma walk_unique K r cs cs' p : forest K r -> walk K r cs = Some p -> walk K r cs' = Some p -> cs = cs'.
Proof.
  intros F. revert cs' p. induction cs as [|nm cs IH] using rev_ind; intros cs' p; destruct cs' as [|nm' cs' _] using rev_ind; [done|..].
  - intros [= <-] H. apply walk_edge in H as (d & _ & H). by apply (fo_root _ _ F) in H.
  - intros H [= <-]. apply walk_edge in H as (d & _ & H). by apply (fo_root _ _ F) in H.
  - intros (d & W & H)%walk_edge (d' & W' & H')%walk_edge. destruct (fo_parent _ _ F _ _ _ _ _ H H') as [<- <-].
    by rewrite (IH cs' d W W').
Qed.

Lemma prefix_snoc_inv {A} (l k : list A) (x : A) : l `prefix_of` k ++ [x] -> l `prefix_of` k \/ l = k ++ [x].
Proof.
  intros [m Hm]. destruct m as [|y m _] using rev_ind; [right; by rewrite app_nil_r in Hm|].
  left. rewrite app_assoc in Hm. apply app_inj_tail in Hm as [-> _]. by exists m.
Qed.

Lemma walk_detach_from K r d nm c cs :
  forest K r -> (nm, c) ∈ K d -> walk K r cs = Some d -> forall q p pre,
  walk K r pre = Some p -> ~ cs ++ [nm] `prefix_of` pre ->
  walk (detach K d c) p q = if decide (cs ++ [nm] `prefix_of` pre ++ q) then None else walk K p q.
Proof.
  intros F He Hd. induction q as [|x q IH]; intros p pre Hp Hn.
  { rewrite app_nil_r, decide_False by done. done. }
  assert (Step : forall c', assoc x (K p) = Some c' -> ~ cs ++ [nm] `prefix_of` pre ++ [x] ->
    walk (detach K d c) c' q = if decide (cs ++ [nm] `prefix_of` pre ++ x :: q) then None else walk K c' q).
  { intros c' Hc' Hn'. rewrite (cons_middle x pre q), app_assoc. apply IH; [|done]. by rewrite walk_snoc, Hp. }
  cbn [walk]. unfold detach at 1. destruct (decide (p = d)) as [->|Hpd].
  - pose proof (walk_unique K r _ _ _ F Hp Hd) as ->. destruct (decide (x = nm)) as [->|Hx].
    + rewrite decide_True by (exists q; by rewrite <- app_assoc). rewrite (proj2 (assoc_None nm _)); [done|].
      intros c'. rewrite list_elem_of_filter. intros [Hc Hin]. apply Hc. simpl. by apply (fo_names _ _ F d nm).
    + destruct (assoc x (K d)) as [c'|] eqn:E.
      * pose proof (assoc_in _ _ _ E) as Hin. assert (c' <> c) by (intros ->; by destruct (fo_parent _ _ F _ _ _ _ _ Hin He)).
        rewrite (assoc_Some x _ c'); [apply Step; [done|]| |by apply list_elem_of_filter].
        -- intros [k Hk]. rewrite <- app_assoc in Hk. apply app_inv_head in Hk. simplify_eq/=.
        -- intros c2 [_ H2]%list_elem_of_filter. by apply (fo_names _ _ F d x).
      * rewrite (proj2 (assoc_None x _)); [by destruct (decide _)|]. intros c'. rewrite list_elem_of_filter. intros [_ Hin].
        by apply (proj1 (assoc_None _ _) E c').
  - destruct (assoc x (K p)) as [c'|] eqn:E; [|by destruct (decide _)]. apply Step; [done|].
    intros [?|Heq]%prefix_snoc_inv; [done|]. apply app_inj_tail in Heq as [-> ->]. apply Hpd. congruence.
Qed.

(** Detaching a subtree removes the paths through its root. *)
Lemma walk_detach K r d nm c cs q :
  forest K r -> (nm, c) ∈ K d -> walk K r cs = Some d ->
  walk (detach K d c) r q = if decide (cs ++ [nm] `prefix_of` q) then None else walk K r q.
Proof.
  intros F He Hd. apply (walk_detach_from K r d nm c cs F He Hd q r []); [done|]. intros H%prefix_nil_inv. by destruct cs.
Qed.

(** A walk that does not come to [d] does not notice a change there. *)
Lemma walk_attach_away K d nm c q p : (forall q', walk K p q' <> Some d) -> walk (attach K d nm c) p q = walk K p q.
Proof.
  revert p. induction q as [|x q IH]; intros p Hp; [done|]. cbn [walk]. unfold attach at 1.
  rewrite decide_False by (intros ->; by apply (Hp [])). destruct (assoc x (K p)) as [c'|] eqn:E; [|done]. apply IH.
  intros q' Hq. apply (Hp (x :: q')). cbn [walk]. by rewrite E.
Qed.

Lemma prefix_short {A} (a b l : list A) : a `prefix_of` l -> b `prefix_of` l -> (length a <= length b)%nat -> a `prefix_of` b.
Proof.
  intros Ha Hb Hl. destruct (prefix_weak_total a b l Ha Hb) as [?|Hba]; [done|].
  destruct Hba as [m ->]. rewrite length_app in Hl. destruct m; [by rewrite app_nil_r|simpl in Hl; lia].
Qed.

Lemma walk_attach_from K r d nm c cs :
  forest K r -> assoc nm (K d) = None -> walk K r cs = Some d -> (forall q, walk K c q <> Some d) -> forall q p pre,
  walk K r pre = Some p ->
  walk (attach K d nm c) p q =
    if decide (cs ++ [nm] `prefix_of` pre ++ q) then walk K c (drop (length (cs ++ [nm])) (pre ++ q)) else walk K p q.
Proof.
  intros F Hnew Hd Hsep. induction q as [|x q IH]; intros p pre Hp.
  { rewrite app_nil_r, decide_False; [done|]. intros [k ->]. rewrite walk_app, walk_snoc, Hd in Hp. simpl in Hp. by rewrite Hnew in Hp. }
  assert (Step : forall c', assoc x (K p) = Some c' ->
    walk (attach K d nm c) c' q =
      if decide (cs ++ [nm] `prefix_of` pre ++ x :: q) then walk K c (drop (length (cs ++ [nm])) (pre ++ x :: q)) else walk K c' q).
  { intros c' Hc'. rewrite (cons_middle x pre q), app_assoc. apply IH. by rewrite walk_snoc, Hp. }
  cbn [walk]. unfold attach at 1. destruct (decide (p = d)) as [->|Hpd].
  - pose proof (walk_unique K r _ _ _ F Hp Hd) as ->. rewrite assoc_app. destruct (assoc x (K d)) as [c'|] eqn:E; [by apply Step|].
    cbn [assoc fst snd]. destruct (decide (nm = x)) as [->|Hx].
    + rewrite decide_True by (exists q; by rewrite <- app_assoc). rewrite (cons_middle x cs q), app_assoc, drop_app_length.
      by apply walk_attach_away.
    + rewrite decide_False; [done|]. intros [k Hk]. rewrite <- app_assoc in Hk. apply app_inv_head in Hk. simplify_eq/=.
  - destruct (assoc x (K p)) as [c'|] eqn:E; [by apply Step|]. destruct (decide _) as [Hpre|]; [|done]. exfalso.
    destruct (decide (length pre <= length cs)%nat) as [Hl|Hl].
    + assert (Hcs : pre `prefix_of` cs).
      { apply (prefix_short _ _ (pre ++ x :: q)); [by exists (x :: q)| |done]. etrans; [|exact Hpre]. by exists [nm]. }
      destruct Hcs as [m ->]. destruct Hpre as [k Hk]. destruct m as [|y m]; [rewrite app_nil_r in Hd; congruence|].
      rewrite <- !app_assoc in Hk. apply app_inv_head in Hk. simplify_eq/=. rewrite walk_app, Hp in Hd. simpl in Hd. by rewrite E in Hd.
    + assert (Hcs : cs ++ [nm] `prefix_of` pre).
      { apply (prefix_short _ _ (pre ++ x :: q)); [done|by exists (x :: q)|]. rewrite length_app. simpl. lia. }
      destruct Hcs as [m ->]. rewrite walk_app, walk_snoc, Hd in Hp. simpl in Hp. by rewrite Hnew in Hp.
Qed.

(** Attaching a subtree adds the paths through its root. *)
Lemma walk_attach K r d nm c cs q :
  forest K r -> assoc nm (K d) = None -> walk K r cs = Some d -> (forall q', walk K c q' <> Some d) ->
  walk (attach K d nm c) r q = if decide (cs ++ [nm] `prefix_of` q) then walk K c (drop (length (cs ++ [nm])) q) else walk K r q.
Proof. intros F Hnew Hd Hsep. by apply (walk_attach_from K r d nm c cs F Hnew Hd Hsep q r []). Qed.

Lemma walk_detach_away K d c q p : (forall q', walk K p q' <> Some d) -> walk (detach K d c) p q = walk K p q.
Proof.
  revert p. induction q as [|x q IH]; intros p Hp; [done|]. cbn [walk]. unfold detach at 1.
  rewrite decide_False by (intros ->; by apply (Hp [])). destruct (assoc x (K p)) as [c'|] eqn:E; [|done]. apply IH.
  intros q' Hq. apply (Hp (x :: q')). cbn [walk]. by rewrite E.
Qed.

Lemma walk_ext K K' p q : (forall d, K d = K' d) -> walk K p q = walk K' p q.
Proof. intros H. revert p. induction q as [|x q IH]; intros p; [done|]. cbn [walk]. rewrite H. by destruct (assoc x (K' p)). Qed.

Lemma forest_ext K K' r : (forall d, K d = K' d) -> forest K r -> forest K' r.
Proof. intros H [F1 F2 F3]. split; intros; rewrite <- ?H in *; eauto. Qed.

Lemma forest_detach K r d c : forest K r -> forest (detach K d c) r.
Proof.
  intros [F1 F2 F3]. assert (S : forall p e, e ∈ detach K d c p -> e ∈ K p).
  { intros p e. unfold detach. destruct (decide _); [|done]. by intros [_ H]%list_elem_of_filter. }
  split; intros; eauto. intros H%S. by apply F3 in H.
Qed.

Lemma in_attach K d nm c p e : e ∈ attach K d nm c p <-> e ∈ K p \/ (p = d /\ e = (nm, c)).
Proof.
  unfold attach. destruct (decide (p = d)) as [->|]; [|naive_solver]. rewrite elem_of_app, list_elem_of_singleton. naive_solver.
Qed.

Lemma forest_attach K r d nm c :
  forest K r -> assoc nm (K d) = None -> (forall d' nm', (nm', c) ∉ K d') -> c <> r -> forest (attach K d nm c) r.
Proof.
  intros [F1 F2 F3] Hnew Hno Hr. rewrite assoc_None in Hnew. split.
  - intros d' nm' c1 c2. rewrite !in_attach. intros [H1|[-> [= -> ->]]] [H2|[H3 H4]]; simplify_eq; eauto; exfalso; by eapply Hnew.
  - intros d1 d2 n1 n2 c'. rewrite !in_attach. intros [H1|[-> [= -> ->]]] [H2|[H3 H4]]; simplify_eq; eauto; exfalso; by eapply Hno.
  - intros d' nm'. rewrite in_attach. intros [H|[_ [= -> ->]]]; [by apply F3 in H|done].
Qed.

End Graph.

(** ** Trees of inodes *)

Section Tree.
Context (P : Z -> bool) (r : Z).
Implicit Types (n : Z -> inode) (cs q : list (list Z)) (nm : list Z).

Definition fupd (n : Z -> inode) (p : Z) (x : inode) : Z -> inode := fun y => if decide (y = p) then x else n y.

Definition mem_dir (x : inode) : bool := bool_decide (i_type x = INODE_DIR) && bool_decide (i_fs_kind x = FS_KIND_MEM).
Definition in_use n (p : Z) : Prop := i_type (n p) <> INODE_UNUSED.

(** The named edges of the directories in memory. *)
Definition kids n (d : Z) : list (list Z * Z) :=
  if P d && mem_dir (n d) then map (fun c => (i_name (n c), c)) (i_children (n d)) else [].

(** The namespace: the node a list of components denotes. *)
Definition view n cs : option Z := walk (kids n) r cs.

(** [P] are the slots of the pool, [r] is the root. *)
Record tree n : Prop := {
  tr_root : P r = true /\ mem_dir (n r) = true /\ i_parent (n r) = None;
  tr_child d c : P d = true -> c ∈ i_children (n d) -> P c = true /\ in_use n c /\ i_parent (n c) = Some d;
  tr_dir d : P d = true -> i_children (n d) <> [] -> mem_dir (n d) = true;
  tr_nodup d : P d = true -> NoDup (i_children (n d)) /\ (length (i_children (n d)) <= DIR_MAX_CHILDREN)%nat;
  tr_names d c c' : P d = true -> c ∈ i_children (n d) -> c' ∈ i_children (n d) -> i_name (n c) = i_name (n c') -> c = c';
  tr_good p : P p = true -> in_use n p -> p <> r -> good_comp (i_name (n p));
  tr_reach p : P p = true -> in_use n p -> exists cs, view n cs = Some p;
}.

Lemma in_kids n d nm c :
  tree n -> (nm, c) ∈ kids n d <-> P d = true /\ c ∈ i_children (n d) /\ nm = i_name (n c).
Proof.
  intros T. unfold kids. split.
  - destruct (P d) eqn:Hd; simpl; [|by intros ?%not_elem_of_nil]. destruct (mem_dir (n d)); [|by intros ?%not_elem_of_nil].
    intros (x & [= -> ->] & Hx)%list_elem_of_fmap. done.
  - intros (Hd & Hc & ->). assert (Hm : mem_dir (n d) = true) by (apply (tr_dir _ T d Hd); by destruct (i_children (n d)); [apply not_elem_of_nil in Hc|]).
    rewrite Hd, Hm. simpl. apply list_elem_of_fmap. by exists c.
Qed.

Lemma tree_forest n : tree n -> forest (kids n) r.
Proof.
  intros T. split.
  - intros d nm c c' (Hd & Hc & ->)%(in_kids _ _ _ _ T) (_ & Hc' & He)%(in_kids _ _ _ _ T). by apply (tr_names _ T d).
  - intros d d' nm nm' c (Hd & Hc & ->)%(in_kids _ _ _ _ T) (Hd' & Hc' & ->)%(in_kids _ _ _ _ T).
    destruct (tr_child _ T d c Hd Hc) as (_ & _ & E1). destruct (tr_child _ T d' c Hd' Hc') as (_ & _ & E2). split; congruence.
  - intros d nm (Hd & Hc & _)%(in_kids _ _ _ _ T). destruct (tr_child _ T d r Hd Hc) as (_ & _ & E1).
    destruct (tr_root _ T) as (_ & _ & E2). congruence.
Qed.

(** What a path leads to is in the pool and in use. *)
Lemma view_used n cs p : tree n -> view n cs = Some p -> P p = true /\ in_use n p.
Proof.
  intros T. destruct cs as [|nm cs _] using rev_ind.
  - intros [= <-]. destruct (tr_root _ T) as (HP & Hm & _). split; [done|]. unfold in_use, mem_dir in *.
    by apply andb_true_iff in Hm as [->%bool_decide_eq_true _].
  - intros (d & _ & (Hd & Hc & _)%(in_kids _ _ _ _ T))%walk_edge. by destruct (tr_child _ T d p Hd Hc) as (? & ? & _).
Qed.

Lemma view_parent n cs nm p : tree n -> view n (cs ++ [nm]) = Some p ->
  exists d, view n cs = Some d /\ i_parent (n p) = Some d /\ p ∈ i_children (n d) /\ nm = i_name (n p).
Proof.
  intros T (d & Wd & (Hd & Hc & ->)%(in_kids _ _ _ _ T))%walk_edge. exists d.
  by destruct (tr_child _ T d p Hd Hc) as (_ & _ & ->).
Qed.

Lemma view_child n cs d c : tree n -> view n cs = Some d -> c ∈ i_children (n d) -> view n (cs ++ [i_name (n c)]) = Some c.
Proof.
  intros T Hd Hc. destruct (view_used n cs d T Hd) as [HP _]. unfold view. rewrite walk_snoc. unfold view in Hd. rewrite Hd. simpl.
  apply assoc_Some; [|by apply (in_kids _ _ _ _ T)]. intros c' (_ & Hc' & He)%(in_kids _ _ _ _ T). by apply (tr_names _ T d).
Qed.

Lemma view_unique n cs cs' p : tree n -> view n cs = Some p -> view n cs' = Some p -> cs = cs'.
Proof. intros T. apply walk_unique. by apply tree_forest. Qed.

Lemma no_self_child n d c : tree n -> P d = true -> in_use n d -> c ∈ i_children (n d) -> c <> d.
Proof.
  intros T Hd Hu Hc ->. destruct (tr_reach _ T d Hd Hu) as [cs Hcs].
  pose proof (view_unique n _ _ _ T (view_child n cs d d T Hcs Hc) Hcs) as E. apply (f_equal length) in E. rewrite length_app in E. simpl in E. lia.
Qed.

Lemma child_dir n d c : tree n -> P d = true -> c ∈ i_children (n d) -> in_use n d.
Proof.
  intros T Hd Hc. unfold in_use. assert (Hm : mem_dir (n d) = true) by (apply (tr_dir _ T d Hd); by destruct (i_children (n d)); [apply not_elem_of_nil in Hc|]).
  unfold mem_dir in Hm. by apply andb_true_iff in Hm as [->%bool_decide_eq_true _].
Qed.

(** *** A new node *)

Definition add_node n (d c : Z) (x : inode) : Z -> inode :=
  fupd (fupd n d (inode_set_children (n d) (i_children (n d) ++ [c]))) c x.

Record can_add n (d c : Z) (x : inode) : Prop := {
  ca_dir : P d = true /\ mem_dir (n d) = true;
  ca_room : (length (i_children (n d)) < DIR_MAX_CHILDREN)%nat;
  ca_free : P c = true /\ i_type (n c) = INODE_UNUSED;
  ca_new : i_type x <> INODE_UNUSED /\ i_children x = [] /\ i_parent x = Some d;
  ca_good : good_comp (i_name x);
  ca_name : assoc (i_name x) (kids n d) = None;
}.

Lemma free_not_child n d c : tree n -> i_type (n c) = INODE_UNUSED -> P d = true -> c ∉ i_children (n d).
Proof. intros T Hf Hd Hc. by destruct (tr_child _ T d c Hd Hc) as (_ & Hu & _). Qed.

Lemma kids_add n d c x p : tree n -> can_add n d c x -> kids (add_node n d c x) p = attach (kids n) d (i_name x) c p.
Proof.
  intros T [[Hd Hm] _ [Hc Hf] (Hu & Hx & _) _ _]. unfold kids at 1, attach, add_node, fupd.
  assert (Hcd : c <> d) by (intros ->; unfold mem_dir in Hm; rewrite Hf in Hm; done).
  assert (Hmap : forall d', P d' = true ->
    map (fun y => (i_name (if decide (y = c) then x else if decide (y = d) then inode_set_children (n d) (i_children (n d) ++ [c]) else n y), y)) (i_children (n d')) =
    map (fun y => (i_name (n y), y)) (i_children (n d'))).
  { intros d' Hd'. apply map_ext_in. intros y Hy. apply list_elem_of_In in Hy.
    rewrite decide_False by (intros ->; by apply (free_not_child n d' c T Hf Hd')). by destruct (decide (y = d)) as [->|]. }
  destruct (decide (p = c)) as [->|Hpc].
  { rewrite decide_False by done. unfold kids. rewrite Hc. unfold mem_dir at 2. rewrite Hf. cbn [andb bool_decide decide].
    rewrite Hx. by destruct (mem_dir x). }
  destruct (decide (p = d)) as [->|Hpd].
  - unfold kids. rewrite Hd, Hm. change (mem_dir (inode_set_children (n d) (i_children (n d) ++ [c]))) with (mem_dir (n d)). rewrite Hm.
    cbn [andb i_children inode_set_children]. rewrite map_app, (Hmap d Hd). cbn [map]. by rewrite decide_True.
  - unfold kids. destruct (P p) eqn:Hp; [|done]. destruct (mem_dir (n p)); [|done]. cbn [andb]. by apply Hmap.
Qed.

Lemma view_add n d c x cs q :
  tree n -> can_add n d c x -> view n cs = Some d ->
  view (add_node n d c x) q = if decide (q = cs ++ [i_name x]) then Some c else view n q.
Proof.
  intros T A Hd. unfold view. rewrite (walk_ext _ _ _ _ (fun p => kids_add n d c x p T A)).
  destruct A as [[HP Hm] _ [Hc Hf] _ _ Hnew].
  assert (Hk : kids n c = []) by (unfold kids, mem_dir; rewrite Hf; by destruct (P c)).
  assert (Hw : forall q', walk (kids n) c q' = if decide (q' = []) then Some c else None).
  { intros [|y q']; [done|]. cbn [walk]. by rewrite Hk. }
  rewrite (walk_attach _ r d _ c cs); [|by apply tree_forest|done|done|].
  2:{ intros q'. rewrite Hw. destruct (decide _); [|done]. intros [= ->]. unfold mem_dir in Hm. by rewrite Hf in Hm. }
  destruct (decide (cs ++ [i_name x] `prefix_of` q)) as [[k ->]|Hn].
  - rewrite drop_app_length, Hw. destruct (decide (k = [])) as [->|Hk0].
    + rewrite app_nil_r, decide_True by done. done.
    + rewrite decide_False by (intros E; apply Hk0; rewrite <- (app_nil_r (cs ++ [i_name x])) in E at 2; by apply app_inv_head in E).
      rewrite walk_app, walk_snoc. unfold view in Hd. rewrite Hd. simpl. by rewrite Hnew.
  - rewrite decide_False; [done|]. intros ->. by apply Hn.
Qed.

Lemma view_unborn n d c x cs : can_add n d c x -> view n cs = Some d -> view n (cs ++ [i_name x]) = None.
Proof. intros A Hd. unfold view in *. rewrite walk_snoc, Hd. simpl. apply (ca_name _ _ _ _ A). Qed.

(** Away from the new node nothing but the children of its directory changes. *)
Lemma add_other n d c x y :
  y <> c -> let z := add_node n d c x y in
  i_name z = i_name (n y) /\ i_type z = i_type (n y) /\ i_parent z = i_parent (n y) /\ mem_dir z = mem_dir (n y) /\
  i_children z = if decide (y = d) then i_children (n d) ++ [c] else i_children (n y).
Proof. intros Hy. unfold add_node, fupd. cbv zeta. rewrite decide_False by done. by destruct (decide (y = d)) as [->|]. Qed.

Lemma add_new n d c x : add_node n d c x c = x.
Proof. unfold add_node, fupd. by rewrite decide_True. Qed.

Lemma add_children n d c x p y :
  tree n -> can_add n d c x -> P p = true -> y ∈ i_children (add_node n d c x p) ->
  (y = c /\ p = d) \/ (y <> c /\ p <> c /\ y ∈ i_children (n p)).
Proof.
  intros T A Hp Hy. destruct (decide (p = c)) as [->|Hpc].
  { rewrite add_new in Hy. destruct (ca_new _ _ _ _ A) as (_ & Hx & _). rewrite Hx in Hy. by apply not_elem_of_nil in Hy. }
  destruct (add_other n d c x p Hpc) as (_ & _ & _ & _ & E). rewrite E in Hy. destruct (decide (p = d)) as [->|].
  - apply elem_of_app in Hy as [Hy|Hy%list_elem_of_singleton]; [|by left]. right. split_and!; try done.
    intros ->. by apply (free_not_child n d c T (proj2 (ca_free _ _ _ _ A)) Hp).
  - right. split_and!; try done. intros ->. by apply (free_not_child n p c T (proj2 (ca_free _ _ _ _ A)) Hp).
Qed.

Lemma tree_add n d c x : tree n -> can_add n d c x -> tree (add_node n d c x).
Proof.
  intros T A. pose proof A as [[HP Hm] Hroom [Hc Hf] (Hu & Hx & Hpar) Hgood Hnew].
  assert (Hdu : in_use n d) by (unfold in_use, mem_dir in *; by apply andb_true_iff in Hm as [->%bool_decide_eq_true _]).
  destruct (tr_reach _ T d HP Hdu) as [cs Hcs].
  assert (Hrc : r <> c).
  { intros <-. destruct (tr_root _ T) as (_ & Hmr & _). unfold mem_dir in Hmr. by rewrite Hf in Hmr. }
  split.
  - destruct (tr_root _ T) as (? & ? & ?). destruct (add_other n d c x r Hrc) as (_ & _ & -> & -> & _). done.
  - intros p y Hp Hy. destruct (add_children n d c x p y T A Hp Hy) as [[-> ->]|(Hyc & Hpc & Hin)].
    + unfold in_use. by rewrite add_new.
    + destruct (tr_child _ T p y Hp Hin) as (? & ? & ?). unfold in_use. destruct (add_other n d c x y Hyc) as (_ & -> & -> & _). done.
  - intros p Hp Hne. destruct (decide (p = c)) as [->|Hpc]; [by rewrite add_new, Hx in Hne|].
    destruct (add_other n d c x p Hpc) as (_ & _ & _ & -> & E). rewrite E in Hne. destruct (decide (p = d)) as [->|]; [done|].
    by apply (tr_dir _ T).
  - intros p Hp. destruct (decide (p = c)) as [->|Hpc]; [rewrite add_new, Hx; split; [constructor|simpl; lia]|].
    destruct (add_other n d c x p Hpc) as (_ & _ & _ & _ & ->). destruct (decide (p = d)) as [->|]; [|by apply (tr_nodup _ T)].
    destruct (tr_nodup _ T d Hp) as [Hnd _]. rewrite length_app. split; [|simpl; lia]. apply NoDup_app. split_and!; [done| |apply NoDup_singleton].
    intros y Hy ->%list_elem_of_singleton. by apply (free_not_child n d c T Hf HP).
  - intros p y y' Hp Hy Hy' He.
    assert (Hno : forall z, z <> c -> z ∈ i_children (n d) -> i_name x <> i_name (add_node n d c x z)).
    { intros z Hz Hin E. destruct (add_other n d c x z Hz) as (Ez & _). rewrite Ez in E.
      apply (proj1 (assoc_None _ _) Hnew z). by apply (in_kids _ _ _ _ T). }
    destruct (add_children n d c x p y T A Hp Hy) as [[E1 E2]|(Hyc & Hpc & Hin)], (add_children n d c x p y' T A Hp Hy') as [[E1' E2']|(Hyc' & _ & Hin')].
    + congruence.
    + subst. rewrite add_new in He. by apply Hno in He.
    + subst. rewrite add_new in He. symmetry in He. by apply Hno in He.
    + destruct (add_other n d c x y Hyc) as (E & _), (add_other n d c x y' Hyc') as (E' & _). rewrite E, E' in He. by apply (tr_names _ T p).
  - intros p Hp Hup Hpr. destruct (decide (p = c)) as [->|Hpc]; [by rewrite add_new|]. unfold in_use in Hup.
    destruct (add_other n d c x p Hpc) as (-> & E & _). rewrite E in Hup. by apply (tr_good _ T).
  - intros p Hp Hup. destruct (decide (p = c)) as [->|Hpc].
    + exists (cs ++ [i_name x]). by rewrite (view_add n d c x cs), decide_True.
    + unfold in_use in Hup. destruct (add_other n d c x p Hpc) as (_ & E & _). rewrite E in Hup.
      destruct (tr_reach _ T p Hp Hup) as [cs' Hcs']. exists cs'. rewrite (view_add n d c x cs), decide_False; [done| |done..].
      intros ->. by rewrite (view_unborn n d c x cs A Hcs) in Hcs'.
Qed.

(** *** Removal *)

Lemma filter_map_snd (g : Z -> list Z) c (l : list Z) :
  filter (fun e : list Z * Z => e.2 <> c) (map (fun y => (g y, y)) l) = map (fun y => (g y, y)) (filter (fun y => y <> c) l).
Proof.
  induction l as [|y l IH]; [done|]. cbn [map]. rewrite !filter_cons. cbn [snd]. destruct (decide (y <> c)); cbn [map]; by rewrite IH.
Qed.

Lemma filter_absent (c : Z) (l : list Z) : c ∉ l -> filter (fun y => y <> c) l = l.
Proof.
  induction l as [|y l IH]; [done|]. intros [H1 H2]%not_elem_of_cons. rewrite filter_cons, decide_True by done. by rewrite IH.
Qed.

Lemma remove_first_spec c (l : list Z) :
  NoDup l -> remove_first c l = if decide (c ∈ l) then Some (filter (fun y => y <> c) l) else None.
Proof.
  induction 1 as [|y l Hy Hl IH]; cbn [remove_first].
  { by rewrite decide_False by apply not_elem_of_nil. }
  rewrite filter_cons. destruct (y =? c) eqn:E.
  - assert (y = c) as -> by lia. rewrite decide_True by by left. rewrite decide_False by (by intros H; apply H).
    by rewrite filter_absent.
  - rewrite IH. assert (y <> c) by lia. rewrite (decide_True (P := y <> c)) by done. destruct (decide (c ∈ l)) as [Hc|Hc].
    + by rewrite decide_True by by right.
    + rewrite decide_False; [done|]. intros [?|?]%elem_of_cons; [congruence|done].
Qed.

Definition drop_node n (d c : Z) : Z -> inode :=
  fupd (fupd n d (inode_set_children (n d) (filter (fun y => y <> c) (i_children (n d))))) c inhabitant.

Lemma one_parent n d d' c : tree n -> P d = true -> P d' = true -> c ∈ i_children (n d) -> c ∈ i_children (n d') -> d = d'.
Proof.
  intros T Hd Hd' Hc Hc'. destruct (tr_child _ T d c Hd Hc) as (_ & _ & E), (tr_child _ T d' c Hd' Hc') as (_ & _ & E'). congruence.
Qed.

Lemma kids_other n c p (g : Z -> list Z) :
  tree n -> (forall y, y <> c -> g y = i_name (n y)) -> P p = true -> c ∉ i_children (n p) ->
  map (fun y => (g y, y)) (i_children (n p)) = map (fun y => (i_name (n y), y)) (i_children (n p)).
Proof. intros T Hg Hp Hc. apply map_ext_in. intros y Hy. apply list_elem_of_In in Hy. by rewrite Hg by congruence. Qed.

Lemma drop_other n d c y :
  y <> c -> let z := drop_node n d c y in
  i_name z = i_name (n y) /\ i_type z = i_type (n y) /\ i_parent z = i_parent (n y) /\ mem_dir z = mem_dir (n y) /\
  i_children z = if decide (y = d) then filter (fun x => x <> c) (i_children (n d)) else i_children (n y).
Proof. intros Hy. unfold drop_node, fupd. cbv zeta. rewrite decide_False by done. by destruct (decide (y = d)) as [->|]. Qed.

Lemma drop_gone n d c : drop_node n d c c = inhabitant.
Proof. unfold drop_node, fupd. by rewrite decide_True. Qed.

Lemma kids_drop n d c p :
  tree n -> P d = true -> c ∈ i_children (n d) -> i_children (n c) = [] -> kids (drop_node n d c) p = detach (kids n) d c p.
Proof.
  intros T Hd Hc Hleaf. pose proof (no_self_child n d c T Hd (child_dir n d c T Hd Hc) Hc) as Hcd.
  assert (Hg : forall y, y <> c -> i_name (drop_node n d c y) = i_name (n y)).
  { intros y Hy. unfold drop_node, fupd. rewrite decide_False by done. by destruct (decide (y = d)) as [->|]. }
  unfold kids at 1, detach. destruct (decide (p = c)) as [->|Hpc].
  { rewrite drop_gone, decide_False by done. unfold kids. rewrite Hleaf. by destruct (P c), (mem_dir (n c)). }
  destruct (drop_other n d c p Hpc) as (_ & _ & _ & -> & ->). unfold kids. destruct (P p) eqn:Hp; [|by destruct (decide _)].
  destruct (mem_dir (n p)); [|by destruct (decide _)]. cbn [andb]. destruct (decide (p = d)) as [->|Hpd].
  - rewrite filter_map_snd. apply map_ext_in. intros y Hy. apply list_elem_of_In, list_elem_of_filter in Hy as [Hy _]. by rewrite Hg.
  - apply (kids_other n c); try done. intros Hin. by apply Hpd, (one_parent n p d c).
Qed.

Lemma view_drop n d c cs q :
  tree n -> view n cs = Some d -> c ∈ i_children (n d) -> i_children (n c) = [] ->
  view (drop_node n d c) q = if decide (cs ++ [i_name (n c)] `prefix_of` q) then None else view n q.
Proof.
  intros T Hd Hc Hleaf. destruct (view_used n cs d T Hd) as [HP _]. unfold view.
  rewrite (walk_ext _ _ _ _ (fun p => kids_drop n d c p T HP Hc Hleaf)).
  apply walk_detach; [by apply tree_forest|by apply (in_kids _ _ _ _ T)|done].
Qed.

Lemma drop_children n d c p y :
  tree n -> P d = true -> c ∈ i_children (n d) -> P p = true -> y ∈ i_children (drop_node n d c p) -> y <> c /\ p <> c /\ y ∈ i_children (n p).
Proof.
  intros T Hd Hc Hp Hy. destruct (decide (p = c)) as [->|Hpc]; [rewrite drop_gone in Hy; by apply not_elem_of_nil in Hy|].
  destruct (drop_other n d c p Hpc) as (_ & _ & _ & _ & E). rewrite E in Hy. destruct (decide (p = d)) as [->|Hpd].
  - by apply list_elem_of_filter in Hy as [? ?].
  - split_and!; try done. intros ->. by apply Hpd, (one_parent n p d c).
Qed.

Lemma tree_drop n d c : tree n -> P d = true -> c ∈ i_children (n d) -> i_children (n c) = [] -> tree (drop_node n d c).
Proof.
  intros T Hd Hc Hleaf. pose proof (child_dir n d c T Hd Hc) as Hdu. destruct (tr_reach _ T d Hd Hdu) as [cs Hcs].
  assert (Hrc : r <> c).
  { intros <-. destruct (tr_root _ T) as (_ & _ & E). by destruct (tr_child _ T d r Hd Hc) as (_ & _ & E'); rewrite E in E'. }
  split.
  - destruct (tr_root _ T) as (? & ? & ?). destruct (drop_other n d c r Hrc) as (_ & _ & -> & -> & _). done.
  - intros p y Hp Hy. destruct (drop_children n d c p y T Hd Hc Hp Hy) as (Hyc & Hpc & Hin).
    destruct (tr_child _ T p y Hp Hin) as (? & ? & ?). unfold in_use. destruct (drop_other n d c y Hyc) as (_ & -> & -> & _). done.
  - intros p Hp Hne. destruct (decide (p = c)) as [->|Hpc]; [by rewrite drop_gone in Hne|].
    destruct (drop_other n d c p Hpc) as (_ & _ & _ & -> & E). rewrite E in Hne. apply (tr_dir _ T); [done|].
    destruct (decide (p = d)) as [->|]; [|done]. intros E0. by rewrite E0 in Hne.
  - intros p Hp. destruct (decide (p = c)) as [->|Hpc]; [rewrite drop_gone; split; [constructor|simpl; lia]|].
    destruct (drop_other n d c p Hpc) as (_ & _ & _ & _ & ->). destruct (tr_nodup _ T p Hp) as [Hnd Hl].
    destruct (decide (p = d)) as [->|]; [|done]. split; [by apply NoDup_filter|]. etrans; [apply length_filter|done].
  - intros p y y' Hp Hy Hy' He.
    destruct (drop_children n d c p y T Hd Hc Hp Hy) as (Hyc & _ & Hin), (drop_children n d c p y' T Hd Hc Hp Hy') as (Hyc' & _ & Hin').
    destruct (drop_other n d c y Hyc) as (E & _), (drop_other n d c y' Hyc') as (E' & _). rewrite E, E' in He. by apply (tr_names _ T p).
  - intros p Hp Hup Hpr. destruct (decide (p = c)) as [->|Hpc]; [by unfold in_use in Hup; rewrite drop_gone in Hup|]. unfold in_use in Hup.
    destruct (drop_other n d c p Hpc) as (-> & E & _). rewrite E in Hup. by apply (tr_good _ T).
  - intros p Hp Hup. destruct (decide (p = c)) as [->|Hpc]; [by unfold in_use in Hup; rewrite drop_gone in Hup|].
    unfold in_use in Hup. destruct (drop_other n d c p Hpc) as (_ & E & _). rewrite E in Hup.
    destruct (tr_reach _ T p Hp Hup) as [cs' Hcs']. exists cs'. rewrite (view_drop n d c cs), decide_False; [done| |done..].
    intros [k ->]. pose proof (view_child n cs d c T Hcs Hc) as Hvc. destruct k as [|x k].
    { rewrite app_nil_r in Hcs'. congruence. }
    unfold view in *. rewrite walk_app, Hvc in Hcs'. simpl in Hcs'. unfold kids at 1 in Hcs'. rewrite Hleaf in Hcs'.
    by destruct (P c && mem_dir (n c)).
Qed.

(** *** Renaming *)

Definition move_node n (d c d' : Z) nm : Z -> inode := fun y =>
  if decide (y = c) then inode_set_name (inode_set_parent (n c) (Some d')) nm
  else
    let k := if decide (y = d) then filter (fun x => x <> c) (i_children (n y)) else i_children (n y) in
    inode_set_children (n y) (if decide (y = d') then k ++ [c] else k).

(** [c] goes from [d], whose path is [cs], to [d'], whose path is [cs'] and which is
    not below [c]. *)
Record can_move n (d c d' : Z) nm cs cs' : Prop := {
  cm_from : view n cs = Some d /\ c ∈ i_children (n d);
  cm_to : view n cs' = Some d' /\ mem_dir (n d') = true;
  cm_room : (length (i_children (n d')) < DIR_MAX_CHILDREN)%nat;
  cm_good : good_comp nm;
  cm_free : view n (cs' ++ [nm]) = None;
  cm_apart : ~ cs ++ [i_name (n c)] `prefix_of` cs';
}.

Section Move.
Context n (d c d' : Z) nm cs cs' (T : tree n) (M : can_move n d c d' nm cs cs').

Lemma mv_slots : P d = true /\ P d' = true /\ P c = true /\ c <> d /\ c <> d' /\ c <> r.
Proof.
  destruct M as [[Hd Hc] [Hd' _] _ _ _ Hap]. destruct (view_used n cs d T Hd) as [HP Hu], (view_used n cs' d' T Hd') as [HP' _].
  destruct (tr_child _ T d c HP Hc) as (HPc & _ & Hpar). split_and!; try done.
  - by apply (no_self_child n d c).
  - intros ->. apply Hap. by rewrite (view_unique n _ _ _ T (view_child n cs d d' T Hd Hc) Hd').
  - intros ->. destruct (tr_root _ T) as (_ & _ & E). congruence.
Qed.

Lemma mv_other y :
  y <> c -> let z := move_node n d c d' nm y in
  i_name z = i_name (n y) /\ i_type z = i_type (n y) /\ i_parent z = i_parent (n y) /\ mem_dir z = mem_dir (n y) /\
  i_children z =
    let k := if decide (y = d) then filter (fun x => x <> c) (i_children (n y)) else i_children (n y) in
    if decide (y = d') then k ++ [c] else k.
Proof. intros Hy. unfold move_node. by rewrite decide_False. Qed.

Lemma mv_self :
  let z := move_node n d c d' nm c in
  i_name z = nm /\ i_type z = i_type (n c) /\ i_parent z = Some d' /\ mem_dir z = mem_dir (n c) /\ i_children z = i_children (n c).
Proof. unfold move_node. by rewrite decide_True. Qed.

Lemma mv_mem p : mem_dir (move_node n d c d' nm p) = mem_dir (n p) /\ i_type (move_node n d c d' nm p) = i_type (n p).
Proof.
  destruct (decide (p = c)) as [->|Hp]; [destruct mv_self as (_ & -> & _ & -> & _)|destruct (mv_other p Hp) as (_ & -> & _ & -> & _)]; done.
Qed.

Lemma mv_children p y :
  P p = true -> y ∈ i_children (move_node n d c d' nm p) -> (y = c /\ p = d') \/ (y <> c /\ y ∈ i_children (n p)).
Proof.
  intros Hp. destruct mv_slots as (HP & HP' & HPc & Hcd & Hcd' & _). destruct M as [[_ Hc] _ _ _ _ _].
  assert (Hno : p <> d -> y ∈ i_children (n p) -> y <> c) by (intros Hpd Hin ->; by apply Hpd, (one_parent n p d c)).
  destruct (decide (p = c)) as [->|Hpc].
  { destruct mv_self as (_ & _ & _ & _ & ->). intros Hy. right. split; [by apply Hno|done]. }
  destruct (mv_other p Hpc) as (_ & _ & _ & _ & ->). cbv zeta. intros Hy.
  assert (Hk : y ∈ (if decide (p = d) then filter (fun x => x <> c) (i_children (n p)) else i_children (n p)) -> y <> c /\ y ∈ i_children (n p)).
  { destruct (decide (p = d)); [by intros [? ?]%list_elem_of_filter|]. intros Hin. split; [by apply Hno|done]. }
  destruct (decide (p = d')) as [->|]; [|by right; apply Hk]. apply elem_of_app in Hy as [Hy|Hy%list_elem_of_singleton]; [by right; apply Hk|by left].
Qed.

Lemma kids_move p : kids (move_node n d c d' nm) p = attach (detach (kids n) d c) d' nm c p.
Proof.
  destruct mv_slots as (HP & HP' & HPc & Hcd & Hcd' & _). destruct M as [[_ Hc] [_ Hm'] _ _ _ _].
  assert (Hg : forall y, y <> c -> i_name (move_node n d c d' nm y) = i_name (n y)) by (intros y Hy; by destruct (mv_other y Hy) as (-> & _)).
  assert (Hk : forall l, c ∉ l -> map (fun y => (i_name (move_node n d c d' nm y), y)) l = map (fun y => (i_name (n y), y)) l).
  { intros l Hl. apply map_ext_in. intros y Hy. apply list_elem_of_In in Hy. by rewrite Hg by congruence. }
  assert (Hin : forall z, P z = true -> c ∈ i_children (n z) -> z = d) by (intros z Hz Hz'; by apply (one_parent n z d c)).
  unfold kids at 1, attach, detach. destruct (mv_mem p) as [-> _]. destruct (decide (p = c)) as [->|Hpc].
  { destruct mv_self as (_ & _ & _ & _ & ->). rewrite !decide_False by done. unfold kids. destruct (_ && _); [|done]. apply Hk.
    intros Hcc. by apply Hcd, Hin. }
  destruct (mv_other p Hpc) as (_ & _ & _ & _ & ->). cbv zeta. unfold kids.
  assert (Hmap : P p = true -> map (fun y => (i_name (move_node n d c d' nm y), y)) (if decide (p = d) then filter (fun x => x <> c) (i_children (n p)) else i_children (n p)) =
    if decide (p = d) then filter (fun e : list Z * Z => e.2 <> c) (map (fun y => (i_name (n y), y)) (i_children (n p)))
    else map (fun y => (i_name (n y), y)) (i_children (n p))).
  { intros Hp. destruct (decide (p = d)) as [->|Hpd].
    - rewrite filter_map_snd. apply Hk. by intros [? _]%list_elem_of_filter.
    - apply Hk. intros Hcc. by apply Hpd, Hin. }
  destruct (decide (p = d')) as [->|Hpd'].
  - rewrite HP', Hm'. cbn [andb]. rewrite map_app. cbn [map]. destruct mv_self as (-> & _). by rewrite Hmap.
  - destruct (P p) eqn:Hp; [|by destruct (decide _)]. destruct (mem_dir (n p)); [|by destruct (decide _)]. cbn [andb]. by rewrite Hmap.
Qed.

(** The subtree moves; nothing else does. *)
Lemma view_move q :
  view (move_node n d c d' nm) q =
    if decide (cs' ++ [nm] `prefix_of` q) then view n ((cs ++ [i_name (n c)]) ++ drop (length (cs' ++ [nm])) q)
    else if decide (cs ++ [i_name (n c)] `prefix_of` q) then None else view n q.
Proof.
  destruct mv_slots as (HP & HP' & HPc & Hcd & Hcd' & _). pose proof (tree_forest n T) as F.
  destruct M as [[Hd Hc] [Hd' Hm'] _ _ Hfree Hap]. pose proof (view_child n cs d c T Hd Hc) as Hvc.
  assert (He : (i_name (n c), c) ∈ kids n d) by by apply (in_kids _ _ _ _ T).
  assert (Hsub : forall k, walk (kids n) c k = view n ((cs ++ [i_name (n c)]) ++ k)).
  { intros k. unfold view in *. by rewrite (walk_app _ _ (cs ++ _)), Hvc. }
  assert (Haway : forall k, walk (kids n) c k <> Some d).
  { intros k Hk. rewrite Hsub in Hk. pose proof (view_unique n _ _ _ T Hk Hd) as E. apply (f_equal length) in E.
    rewrite !length_app in E. simpl in E. lia. }
  unfold view at 1. rewrite (walk_ext _ _ _ _ kids_move). rewrite (walk_attach _ r d' nm c cs').
  - rewrite walk_detach_away by done. rewrite Hsub. destruct (decide _); [done|]. by apply walk_detach.
  - by apply forest_detach.
  - unfold view in Hfree, Hd'. rewrite walk_snoc, Hd' in Hfree. simpl in Hfree. apply assoc_None. intros c' Hc'.
    apply (proj1 (assoc_None _ _) Hfree c'). unfold detach in Hc'. destruct (decide _); [by apply list_elem_of_filter in Hc' as [_ ?]|done].
  - rewrite (walk_detach _ r d (i_name (n c)) c cs), decide_False by done. done.
  - intros k. rewrite walk_detach_away by done. rewrite Hsub. intros Hk. apply Hap. exists k. symmetry. by apply (view_unique n _ _ d' T).
Qed.

Lemma tree_move : tree (move_node n d c d' nm).
Proof.
  destruct mv_slots as (HP & HP' & HPc & Hcd & Hcd' & Hcr). pose proof M as [[Hd Hc] [Hd' Hm'] Hroom Hgood Hfree Hap].
  assert (Hu : forall p, in_use (move_node n d c d' nm) p <-> in_use n p) by (intros p; unfold in_use; by destruct (mv_mem p) as [_ ->]).
  assert (Hnew : forall y, y <> c -> y ∈ i_children (n d') -> nm <> i_name (move_node n d c d' nm y)).
  { intros y Hy Hin. destruct (mv_other y Hy) as (-> & _). intros ->. by rewrite (view_child n cs' d' y T Hd' Hin) in Hfree. }
  split.
  - destruct (tr_root _ T) as (? & ? & ?). destruct (mv_other r ltac:(done)) as (_ & _ & -> & -> & _). done.
  - intros p y Hp Hy. rewrite Hu. destruct (mv_children p y Hp Hy) as [[-> ->]|[Hyc Hin]].
    + destruct mv_self as (_ & _ & -> & _). split_and!; try done. by destruct (tr_child _ T d c HP Hc) as (_ & ? & _).
    + destruct (mv_other y Hyc) as (_ & _ & -> & _). by apply (tr_child _ T).
  - intros p Hp Hne. destruct (mv_mem p) as [-> _]. destruct (i_children (move_node n d c d' nm p)) as [|y l] eqn:E; [done|].
    assert (Hy : y ∈ i_children (move_node n d c d' nm p)) by (rewrite E; by left).
    destruct (mv_children p y Hp Hy) as [[_ ->]|[_ Hin]]; [done|]. apply (tr_dir _ T p Hp). by destruct (i_children (n p)); [apply not_elem_of_nil in Hin|].
  - intros p Hp. destruct (tr_nodup _ T p Hp) as [Hnd Hl]. destruct (decide (p = c)) as [->|Hpc]; [by destruct mv_self as (_ & _ & _ & _ & ->)|].
    destruct (mv_other p Hpc) as (_ & _ & _ & _ & ->). cbv zeta.
    set (k := if decide (p = d) then filter (fun x => x <> c) (i_children (n p)) else i_children (n p)).
    assert (Hk : NoDup k /\ (length k <= length (i_children (n p)))%nat /\ c ∉ k).
    { unfold k. destruct (decide (p = d)) as [->|Hpd]; split_and!; [by apply NoDup_filter|apply length_filter|by intros [? _]%list_elem_of_filter|done|done|].
      intros Hin. by apply Hpd, (one_parent n p d c). }
    destruct Hk as (Hk1 & Hk2 & Hk3). destruct (decide (p = d')) as [->|]; [|split; [done|lia]]. split.
    + apply NoDup_app. split_and!; [done| |apply NoDup_singleton]. by intros y Hy ->%list_elem_of_singleton.
    + rewrite length_app. simpl. lia.
  - intros p y y' Hp Hy Hy' Hn. destruct (mv_children p y Hp Hy) as [[E1 E2]|[Hyc Hin]], (mv_children p y' Hp Hy') as [[E1' E2']|[Hyc' Hin']].
    + congruence.
    + subst. destruct mv_self as (E & _). rewrite E in Hn. by apply Hnew in Hn.
    + subst. destruct mv_self as (E & _). rewrite E in Hn. symmetry in Hn. by apply Hnew in Hn.
    + destruct (mv_other y Hyc) as (E & _), (mv_other y' Hyc') as (E' & _). rewrite E, E' in Hn. by apply (tr_names _ T p).
  - intros p Hp Hup%Hu Hpr. destruct (decide (p = c)) as [->|Hpc]; [by destruct mv_self as (-> & _)|].
    destruct (mv_other p Hpc) as (-> & _). by apply (tr_good _ T).
  - intros p Hp Hup%Hu. destruct (tr_reach _ T p Hp Hup) as [k Hk].
    destruct (decide (cs ++ [i_name (n c)] `prefix_of` k)) as [[m ->]|Hn].
    + exists ((cs' ++ [nm]) ++ m). rewrite view_move, decide_True by by exists m. by rewrite drop_app_length.
    + exists k. rewrite view_move. rewrite decide_False; [by rewrite decide_False|]. intros [m ->].
      unfold view in Hk, Hfree. by rewrite walk_app, Hfree in Hk.
Qed.
End Move.

(** *** Changes that keep the shape *)

Definition shape (x : inode) := (i_name x, i_type x, i_fs_kind x, i_parent x, i_children x).

(** The shapes are the same, but for what is left in slots that are not in use. *)
Definition same_shape n n' : Prop := forall p, P p = true ->
  shape (n' p) = shape (n p) \/ (i_type (n p) = INODE_UNUSED /\ i_type (n' p) = INODE_UNUSED /\ i_children (n' p) = []).

Lemma tree_shape n n' : same_shape n n' -> tree n -> tree n' /\ forall q, view n' q = view n q.
Proof.
  intros H T.
  assert (C : forall p, P p = true -> i_children (n' p) = i_children (n p) /\ mem_dir (n' p) = mem_dir (n p) /\ (in_use n' p <-> in_use n p)).
  { intros p Hp. unfold in_use, mem_dir. destruct (H p Hp) as [E|(E1 & E2 & ->)].
    - unfold shape in E. injection E as _ E2 E3 _ E5. by rewrite E2, E3, E5.
    - rewrite E1, E2. split_and!; try done. destruct (i_children (n p)) eqn:E; [done|]. exfalso.
      assert (Hm : mem_dir (n p) = true) by (apply (tr_dir _ T); [done|by rewrite E]). unfold mem_dir in Hm. by rewrite E1 in Hm. }
  assert (U : forall p, P p = true -> in_use n p -> i_name (n' p) = i_name (n p) /\ i_parent (n' p) = i_parent (n p)).
  { intros p Hp Hu. destruct (H p Hp) as [E|(E1 & _)]; [|done]. unfold shape in E. by injection E as -> _ _ -> _. }
  assert (K : forall d, kids n' d = kids n d).
  { intros d. unfold kids. destruct (P d) eqn:Hd; [|done]. destruct (C d Hd) as (-> & -> & _). destruct (mem_dir (n d)); [|done].
    apply map_ext_in. intros y Hy. apply list_elem_of_In in Hy. destruct (tr_child _ T d y Hd Hy) as (Hy' & Hu & _). by destruct (U y Hy' Hu) as [-> _]. }
  assert (V : forall q, view n' q = view n q) by (intros q; by apply walk_ext). split; [|done]. split.
  - destruct (tr_root _ T) as (Hr & Hm & Hp). destruct (C r Hr) as (_ & -> & _). destruct (U r Hr) as [_ ->]; [|done].
    unfold in_use, mem_dir in *. by apply andb_true_iff in Hm as [->%bool_decide_eq_true _].
  - intros d y Hd. destruct (C d Hd) as (-> & _). intros Hy. destruct (tr_child _ T d y Hd Hy) as (Hp & Hu & Hpar).
    destruct (C y Hp) as (_ & _ & ->). by destruct (U y Hp Hu) as [_ ->].
  - intros d Hd. destruct (C d Hd) as (-> & -> & _). by apply (tr_dir _ T).
  - intros d Hd. destruct (C d Hd) as (-> & _). by apply (tr_nodup _ T).
  - intros d y y' Hd. destruct (C d Hd) as (-> & _). intros Hy Hy'.
    destruct (tr_child _ T d y Hd Hy) as (Hp & Hu & _), (tr_child _ T d y' Hd Hy') as (Hp' & Hu' & _).
    destruct (U y Hp Hu) as [-> _], (U y' Hp' Hu') as [-> _]. by apply (tr_names _ T d).
  - intros p Hp. destruct (C p Hp) as (_ & _ & ->). intros Hu. destruct (U p Hp Hu) as [-> _]. by apply (tr_good _ T).
  - intros p Hp. destruct (C p Hp) as (_ & _ & ->). intros Hu. destruct (tr_reach _ T p Hp Hu) as [cs Hcs]. exists cs. by rewrite V.
Qed.

End Tree.
