(* ===== verification/FsOps.v ===== *)
(** * Operations on the tree of names (kernel/fs.c)

    The operations of Fs.v act on the namespace of FsTree.v as insertions, deletions
    and moves, or fail and leave it as it is. *)

From S2P Require Import Prelude KString Path Pmm Inode BlockCache PageCache FsIo Fs FsTree.

(** ** Paths of components *)

Definition join (cs : list (list Z)) : list Z :=
  match cs with
  | [] => []
  | c :: cs => c ++ concat (map (cons SLASH) cs)
  end.

Definition tail_of (cs : list (list Z)) : list Z := concat (map (cons SLASH) cs).

Lemma path_of_join c cs : path_of (c :: cs) = SLASH :: join (c :: cs).
Proof. done. Qed.

Lemma path_of_tail cs : cs <> [] -> path_of cs = tail_of cs.
Proof. by destruct cs. Qed.

Lemma tail_of_app cs cs' : tail_of (cs ++ cs') = tail_of cs ++ tail_of cs'.
Proof. unfold tail_of. by rewrite map_app, concat_app. Qed.

Lemma good_cons c : good_comp c -> exists x l, c = x :: l /\ x <> SLASH.
Proof. intros (Hn & _ & _ & _ & Hf). destruct c as [|x l]; [done|]. exists x, l. inversion Hf; naive_solver. Qed.

Lemma skip_tail cs : Forall good_comp cs -> skip_slashes (tail_of cs) = join cs.
Proof.
  destruct 1 as [|c cs Hc Hcs]; [done|]. destruct (good_cons c Hc) as (x & l & -> & Hx).
  unfold tail_of. cbn [map concat app skip_slashes join]. rewrite Z.eqb_refl. cbn [skip_slashes]. by replace (x =? SLASH) with false by lia.
Qed.

Lemma read_part_good n c rest :
  Forall (fun x => x <> SLASH) c -> (n + length c <= INODE_NAME_MAX)%nat -> rest = [] \/ head rest = Some SLASH ->
  read_part n (c ++ rest) = (c, rest).
Proof.
  intros Hc. revert n. induction Hc as [|x c Hx Hc IH]; intros n Hl Hr.
  - destruct rest as [|y rest]; [done|]. destruct Hr as [?|[= ->]]; [done|]. cbn [app read_part]. by rewrite Z.eqb_refl.
  - cbn [app read_part]. simpl in Hl. replace (x =? SLASH) with false by lia. replace (INODE_NAME_MAX <=? n)%nat with false by lia.
    cbn [orb]. by rewrite IH by (done || lia).
Qed.

Lemma read_part_join c cs : good_comp c -> read_part 0 (join (c :: cs)) = (c, tail_of cs).
Proof.
  intros Hc. apply read_part_good; [by apply good_comp_no_slash|apply Hc|]. destruct cs; [by left|by right].
Qed.

Lemma join_nil cs : Forall good_comp cs -> join cs = [] -> cs = [].
Proof. destruct 1 as [|c cs Hc _]; [done|]. by destruct (good_cons c Hc) as (x & l & -> & _). Qed.

Lemma join_tail_length cs : (length (join cs) <= length (tail_of cs))%nat.
Proof. destruct cs as [|c cs]; [done|]. unfold tail_of. cbn [map concat join]. rewrite !length_app. simpl. lia. Qed.

(** The position of the last slash. *)
Lemma last_slash_spec p i lst nm :
  Forall (fun x => x <> SLASH) nm -> last_slash (p ++ SLASH :: nm) i lst = (i + length p)%nat.
Proof.
  intros Hn. revert i lst. induction p as [|x p IH]; intros i lst; cbn [app last_slash length].
  - rewrite Z.eqb_refl, Nat.add_0_r. generalize (S i). induction Hn as [|y nm Hy Hn IH]; intros k; cbn [last_slash]; [done|].
    by replace (y =? SLASH) with false by lia.
  - rewrite IH. lia.
Qed.

Definition DEVNAME : list Z := [100; 101; 118].

Lemma under_dev_path cs : Forall good_comp cs -> under_dev (path_of cs) = true -> head cs = Some DEVNAME.
Proof.
  destruct 1 as [|c cs Hc Hcs]; [done|]. rewrite path_of_join. unfold under_dev. intros [H1%bool_decide_eq_true H2]%andb_true_iff.
  cbn [join] in H1, H2. fold (tail_of cs) in H1, H2. destruct Hc as (Hn & _ & _ & _ & Hf). simpl. f_equal.
  assert (Ht : tail_of cs = [] \/ head (tail_of cs) = Some SLASH) by (destruct cs; [by left|by right]).
  destruct c as [|a [|b [|d [|e c]]]]; [done|..]; simpl in H1, H2.
  1, 2: destruct (tail_of cs) as [|y l]; simpl in H1, Ht; destruct Ht as [?|?]; simplify_eq.
  - by injection H1 as -> -> ->.
  - rewrite !Forall_cons in Hf. destruct Hf as (_ & _ & _ & [He _] & _). lia.
Qed.

(** ** Nodes *)

Section Ops.
Context {D E T : Type} `{!BlockDrivers D, !DiskInventory D, !Ext4Ops D E, !SharedMappings T, !Ext4Names D E T, !MountUsers T}.
Abbreviation st := (fsys D E T).
Implicit Types (f : st) (cs q : list (list Z)) (nm : list Z).

Definition in_pool (pool p : Z) : bool := existsb (fun i => p =? pool + SIZEOF_INODE * Z.of_nat i) (seq 0 INODE_POOL_MAX).

Lemma pool_slot_in f i : (i < INODE_POOL_MAX)%nat -> in_pool (inode_pool f) (pool_slot f i) = true.
Proof. intros Hi. apply existsb_exists. exists i. split; [apply in_seq; lia|]. apply Z.eqb_refl. Qed.

Lemma node_set f p x y : node (set_node f p x) y = if decide (y = p) then x else node f y.
Proof.
  unfold node, set_node, inode_at, s_inodes. simpl. destruct (decide (y = p)) as [->|]; [by rewrite lookup_total_insert_eq|by rewrite lookup_total_insert_ne].
Qed.

Lemma node_upd f p g y : node (upd_node f p g) y = if decide (y = p) then g (node f p) else node f y.
Proof. apply node_set. Qed.

Lemma node_clear f p y : node (clear_node f p) y = if decide (y = p) then inhabitant else node f y.
Proof.
  unfold node, clear_node, inode_at, s_inodes. simpl. rewrite !lookup_total_alt.
  destruct (decide (y = p)) as [->|]; [by rewrite lookup_delete_eq|by rewrite lookup_delete_ne].
Qed.

(** What the operations leave alone: the pool and the root. *)
Definition fs_keep f f' : Prop := inode_pool f' = inode_pool f /\ root_inode f' = root_inode f /\ mount_table f' = mount_table f.

#[global] Instance fs_keep_preorder : PreOrder fs_keep.
Proof. split; [done|]. intros a b c (E1 & E2 & E3) (E4 & E5 & E6). unfold fs_keep. by rewrite E4, E5, E6. Qed.

Lemma keep_node f p x : fs_keep f (set_node f p x).
Proof. done. Qed.

Lemma keep_clear f p : fs_keep f (clear_node f p).
Proof. done. Qed.

Lemma keep_sys f g : fs_keep f (on_sys f g).
Proof. done. Qed.

Lemma invalidate_nodes p (s : sys D E T) : s_st (pagecache_invalidate_inode (Some p) s) = s_st s.
Proof.
  unfold pagecache_invalidate_inode. generalize (seq 0 MAX_FILE_CACHE_PAGES). intros l. revert s.
  induction l as [|i l IH]; intros s; cbn [invalidate_inode_loop]; [done|]. cbv zeta.
  destruct (_ || _); [apply IH|]. destruct (1 <? _); rewrite IH; [by destruct (_ <=? _)|done].
Qed.

Lemma node_free f p y : node (inode_free (Some p) f) y = if decide (y = p) then inhabitant else node f y.
Proof.
  unfold inode_free. rewrite node_clear. destruct (decide (y = p)); [done|]. destruct (decide _); [|done].
  unfold node, inode_at, s_inodes, on_sys. cbn [f_sys]. by rewrite invalidate_nodes.
Qed.

Lemma keep_free f p : fs_keep f (inode_free p f).
Proof. destruct p as [p|]; [|done]. unfold inode_free. by destruct (decide _). Qed.

(** ** The invariant *)

Record fs_tree (r : Z) f : Prop := {
  ft_root : root_inode f = Some r;
  ft_tree : tree (in_pool (inode_pool f)) r (node f);
}.

(** The namespace. *)
Definition fs_view (r : Z) f cs : option Z := view (in_pool (inode_pool f)) r (node f) cs.

(** The path stays in memory: no directory before its end belongs to ext4. *)
Definition in_mem (r : Z) f cs : Prop := forall pre d, pre `prefix_of` cs -> pre <> cs -> fs_view r f pre = Some d -> i_fs_kind (node f d) = FS_KIND_MEM.

Lemma find_assoc f nm l :
  List.find (fun c => bool_decide (i_name (node f c) = nm)) l = assoc nm (map (fun c => (i_name (node f c), c)) l).
Proof.
  induction l as [|c l IH]; [done|]. cbn [List.find map assoc fst snd].
  destruct (decide (i_name (node f c) = nm)); [by rewrite bool_decide_eq_true_2|by rewrite bool_decide_eq_false_2].
Qed.

Lemma lookup_child_view f d nm follow :
  in_pool (inode_pool f) d = true -> i_fs_kind (node f d) = FS_KIND_MEM ->
  fs_lookup_child_mode d nm follow f = (assoc nm (kids (in_pool (inode_pool f)) (node f) d), f).
Proof.
  intros Hd Hk. unfold fs_lookup_child_mode, dir_find_child, kids, mem_dir, is_dir. rewrite Hd, Hk.
  destruct (bool_decide (i_type (node f d) = INODE_DIR)); [|done]. cbn [negb andb]. rewrite decide_False by done.
  rewrite bool_decide_eq_true_2 by done. by rewrite find_assoc.
Qed.

Lemma lookup_loop_view r f follow fuel cs pre cur :
  fs_tree r f -> Forall good_comp cs -> in_mem r f (pre ++ cs) -> fs_view r f pre = Some cur -> (length (join cs) <= fuel)%nat ->
  lookup_loop fuel follow cur (join cs) f = (fs_view r f (pre ++ cs), f).
Proof.
  intros F Hg. revert fuel pre cur. induction Hg as [|c cs Hc Hcs IH]; intros fuel pre cur Hm Hv Hl.
  { rewrite app_nil_r, Hv. by destruct fuel. }
  pose proof (read_part_join c cs Hc) as Hr. destruct (good_cons c Hc) as (x & l & Ec & _). destruct fuel as [|fuel]; [subst c; simpl in Hl; lia|].
  destruct (join (c :: cs)) as [|y p] eqn:Ej; [by apply join_nil in Ej; [|by constructor]|]. cbn [lookup_loop]. rewrite Hr.
  rewrite skip_tail by done. rewrite decide_False by (subst c; done).
  assert (Hk : i_fs_kind (node f cur) = FS_KIND_MEM).
  { apply (Hm pre cur); [by exists (c :: cs)| |done]. intros E'. apply (f_equal length) in E'. rewrite length_app in E'. simpl in E'. lia. }
  destruct (view_used _ _ _ pre cur (ft_tree _ _ F) Hv) as [HP _]. rewrite lookup_child_view by done.
  assert (Hs : fs_view r f (pre ++ [c]) = assoc c (kids (in_pool (inode_pool f)) (node f) cur)).
  { unfold fs_view, view. rewrite walk_snoc. unfold fs_view, view in Hv. by rewrite Hv. }
  rewrite (cons_middle c pre cs), app_assoc in Hm |- *. rewrite <- Hs. destruct (fs_view r f (pre ++ [c])) as [c'|] eqn:Ev.
  - apply IH; try done. apply (f_equal length) in Ej. cbn [join] in Ej. fold (tail_of cs) in Ej. rewrite length_app in Ej. subst c.
    simpl in Hl, Ej. pose proof (join_tail_length cs). lia.
  - unfold fs_view, view in *. by rewrite walk_app, Ev.
Qed.

Lemma lookup_view r f follow cs :
  fs_tree r f -> canonical cs -> head cs <> Some DEVNAME -> in_mem r f cs ->
  fs_lookup_internal (path_of cs) follow f = (fs_view r f cs, f).
Proof.
  intros F [Hg _] Hd Hm. unfold fs_lookup_internal. rewrite (ft_root _ _ F).
  replace (under_dev (path_of cs)) with false by (symmetry; destruct (under_dev (path_of cs)) eqn:Eu; [|done]; by apply under_dev_path in Eu).
  destruct cs as [|c cs]; [by rewrite decide_True|]. rewrite path_of_join. rewrite decide_False.
  - rewrite Z.eqb_refl. by apply (lookup_loop_view r f follow _ (c :: cs) [] r).
  - intros [= H]. by apply (join_nil (c :: cs) Hg) in H.
Qed.

Lemma in_mem_prefix r f cs cs' : cs' `prefix_of` cs -> in_mem r f cs -> in_mem r f cs'.
Proof.
  intros Hp H pre d Hpre Hne Hv. apply (H pre d); [by etrans|intros ->|done].
  apply Hne. destruct Hp as [k ->], Hpre as [m Hm]. rewrite <- app_assoc in Hm. apply (f_equal length) in Hm as Hl. rewrite !length_app in Hl.
  destruct k; [by rewrite app_nil_r|simpl in Hl; lia].
Qed.

Lemma lookup_parent_view r f cs nm :
  fs_tree r f -> canonical (cs ++ [nm]) -> (length (path_of (cs ++ [nm])) < MAX_PATH)%nat -> head (cs ++ [nm]) <> Some DEVNAME ->
  in_mem r f (cs ++ [nm]) -> lookup_parent (path_of (cs ++ [nm])) f = (fs_view r f cs, nm, f).
Proof.
  intros F C Hl Hd Hm. pose proof C as [Hg _]. rewrite Forall_app, Forall_singleton in Hg. destruct Hg as [Hgs Hgn].
  unfold lookup_parent. rewrite head_path_of, bool_decide_eq_true_2 by done. cbn [negb].
  assert (Ep : path_of (cs ++ [nm]) = tail_of cs ++ SLASH :: nm).
  { rewrite path_of_tail by by destruct cs. rewrite tail_of_app. unfold tail_of at 2. simpl. by rewrite app_nil_r. }
  rewrite Ep in Hl |- *. rewrite last_slash_spec by by apply good_comp_no_slash. rewrite Nat.add_0_l.
  destruct cs as [|c cs]; [cbn; by rewrite (ft_root _ _ F), drop_0|].
  replace (length (tail_of (c :: cs)) =? 0)%nat with false by (symmetry; apply Nat.eqb_neq; unfold tail_of; simpl; lia).
  rewrite length_app in Hl. replace (MAX_PATH <=? length (tail_of (c :: cs)))%nat with false by (symmetry; apply Nat.leb_gt; lia).
  rewrite take_app_length, <- path_of_tail by done. unfold fs_lookup. rewrite (lookup_view r f true (c :: cs)); try done.
  - f_equal. f_equal. rewrite path_of_tail by done.
    replace (S (length (tail_of (c :: cs)))) with (length (tail_of (c :: cs) ++ [SLASH])) by (rewrite length_app; simpl; lia).
    rewrite (cons_middle SLASH _ nm), app_assoc. apply drop_app_length.
  - by eapply canonical_prefix; [|exact C]; exists [nm].
  - by eapply in_mem_prefix; [|exact Hm]; exists [nm].
Qed.

(** ** Creation *)

Definition pool_full f : Prop := forall i, (i < INODE_POOL_MAX)%nat -> i_type (node f (pool_slot f i)) <> INODE_UNUSED.

Lemma inode_alloc_spec name ty f :
  match inode_alloc name ty f with
  | (Some p, f') => in_pool (inode_pool f) p = true /\ i_type (node f p) = INODE_UNUSED /\ f' = set_node f p (inode_new name ty)
  | (None, f') => f' = f /\ pool_full f
  end.
Proof.
  unfold inode_alloc. destruct (List.find _ _) as [i|] eqn:Ef.
  - apply find_some in Ef as [Hi Hf]. apply in_seq in Hi. apply bool_decide_eq_true in Hf. split_and!; [apply pool_slot_in; lia|done|done].
  - split; [done|]. intros i Hi Hu. assert (Hin : In i (seq 0 INODE_POOL_MAX)) by (apply in_seq; lia).
    pose proof (find_none _ _ Ef i Hin) as Hn. by apply bool_decide_eq_false in Hn.
Qed.

Lemma same_tree r f f' n :
  inode_pool f' = inode_pool f -> root_inode f' = root_inode f -> root_inode f = Some r -> tree (in_pool (inode_pool f)) r n ->
  same_shape (in_pool (inode_pool f)) n (node f') ->
  fs_tree r f' /\ forall q, fs_view r f' q = view (in_pool (inode_pool f)) r n q.
Proof.
  intros Ep Er Hr Tn S. destruct (tree_shape _ r n (node f') S Tn) as [T' V]. unfold fs_view. rewrite Ep.
  split; [|done]. split; [congruence|]. by rewrite Ep.
Qed.

(** The node [p] has been set up from a free slot: [f0] is the state before. *)
Record fresh_node f0 f1 (p : Z) nm : Prop := {
  fn_keep : fs_keep f0 f1;
  fn_free : in_pool (inode_pool f0) p = true /\ i_type (node f0 p) = INODE_UNUSED;
  fn_other y : y <> p -> node f1 y = node f0 y;
  fn_node : i_type (node f1 p) <> INODE_UNUSED /\ i_children (node f1 p) = [] /\ i_name (node f1 p) = nm;
}.

Lemma attach_new_spec r f0 f1 d p nm cs :
  fs_tree r f0 -> fresh_node f0 f1 p nm -> good_comp nm -> fs_view r f0 cs = Some d -> mem_dir (node f0 d) = true ->
  fs_view r f0 (cs ++ [nm]) = None ->
  match attach_new (Some d) p f1 with
  | (Some p', f') => p' = p /\ fs_tree r f' /\ fs_keep f0 f' /\ i_type (node f' p) = i_type (node f1 p) /\
      (length (i_children (node f0 d)) < DIR_MAX_CHILDREN)%nat /\
      forall q, fs_view r f' q = if decide (q = cs ++ [nm]) then Some p else fs_view r f0 q
  | (None, f') => fs_tree r f' /\ fs_keep f0 f' /\ (forall q, fs_view r f' q = fs_view r f0 q) /\
      length (i_children (node f0 d)) = DIR_MAX_CHILDREN
  end.
Proof.
  intros F [Kp [HP Hf] Ho (Hu & Hch & Hnm)] Hg Hd Hm Hnew. pose proof (ft_tree _ _ F) as Tr.
  destruct (view_used _ _ _ cs d Tr Hd) as [HPd _]. pose proof Kp as (Ep & Er & _).
  assert (Hdp : d <> p) by (intros ->; unfold mem_dir in Hm; rewrite Hf in Hm; done).
  destruct (tr_nodup _ _ _ Tr d HPd) as [_ Hlen].
  unfold attach_new, dir_add_child, is_dir. rewrite (Ho d Hdp). unfold mem_dir in Hm. apply andb_true_iff in Hm as [Hm1 Hm2]. rewrite Hm1. cbn [negb orb].
  destruct (DIR_MAX_CHILDREN <=? length (i_children (node f0 d)))%nat eqn:El.
  - assert (Kf : fs_keep f0 (inode_free (Some p) f1)) by (etrans; [exact Kp|apply keep_free]). pose proof Kf as (Ep' & Er' & _).
    destruct (same_tree r f0 (inode_free (Some p) f1) (node f0) Ep' Er' (ft_root _ _ F) Tr) as [F' V'].
    + intros y Hy. rewrite node_free. destruct (decide (y = p)) as [->|Hyp]; [by right|]. left. by rewrite Ho.
    + split_and!; try done. lia.
  - set (x := inode_set_parent (node f1 p) (Some d)).
    assert (A : can_add (in_pool (inode_pool f0)) (node f0) d p x).
    { split; try done; [by unfold mem_dir; rewrite Hm1, Hm2|lia|by simpl; rewrite Hnm|].
      unfold x. simpl. rewrite Hnm. unfold fs_view, view in Hnew, Hd. rewrite walk_snoc, Hd in Hnew. exact Hnew. }
    set (f' := upd_node (upd_node f1 d _) p _).
    assert (Kf : fs_keep f0 f') by (etrans; [exact Kp|done]). pose proof Kf as (Ep' & Er' & _).
    assert (Hn : forall y, node f' y = add_node (node f0) d p x y).
    { intros y. unfold f'. rewrite !node_upd. unfold add_node, fupd. rewrite (decide_False (P := p = d)) by done.
      destruct (decide (y = p)) as [->|Hy]; [done|]. destruct (decide (y = d)) as [->|]; [by rewrite Ho|by apply Ho]. }
    destruct (same_tree r f0 f' _ Ep' Er' (ft_root _ _ F) (tree_add _ r _ d p x Tr A)) as [F' V']; [intros y _; left; by rewrite Hn|].
    split_and!; try done.
    + rewrite Hn, add_new. done.
    + lia.
    + intros q. rewrite V', (view_add _ r _ d p x cs q Tr A Hd). simpl. by rewrite Hnm.
Qed.

(** When an entry of type [ty] can be created: its directory exists and has room,
    the name is free, and so are a slot and, for a file, the memory. *)
Definition creatable (r : Z) f cs nm (ty : inode_type) : Prop :=
  fs_view r f (cs ++ [nm]) = None /\
  (exists d, fs_view r f cs = Some d /\ i_type (node f d) = INODE_DIR /\ (length (i_children (node f d)) < DIR_MAX_CHILDREN)%nat) /\
  ~ pool_full f /\ (ty = INODE_FILE -> (pmm_alloc (s_pmm (f_sys f)) FILE_CAPACITY 16).1 <> 0).

(** The result of a creation: the new node at its path, or no change. *)
Definition created (r : Z) f cs nm (ty : inode_type) (res : option Z * st) : Prop :=
  match res with
  | (Some p, f') => creatable r f cs nm ty /\ fs_tree r f' /\ fs_keep f f' /\ i_type (node f' p) = ty /\
      forall q, fs_view r f' q = if decide (q = cs ++ [nm]) then Some p else fs_view r f q
  | (None, f') => ~ creatable r f cs nm ty /\ fs_tree r f' /\ fs_keep f f' /\ forall q, fs_view r f' q = fs_view r f q
  end.

Lemma inode_name_good nm : good_comp nm -> inode_name nm = nm.
Proof. intros (_ & _ & _ & Hl & _). by apply take_ge. Qed.

Lemma mem_dir_type x : mem_dir x = true -> i_type x = INODE_DIR.
Proof. by intros [?%bool_decide_eq_true _]%andb_true_iff. Qed.

Lemma not_full f p : in_pool (inode_pool f) p = true -> i_type (node f p) = INODE_UNUSED -> ~ pool_full f.
Proof. intros (i & Hi%in_seq & ->%Z.eqb_eq)%existsb_exists Hu Hf. apply (Hf i); [lia|done]. Qed.

Lemma full_refused r f cs nm ty f' : fs_tree r f -> f' = f /\ pool_full f -> created r f cs nm ty (None, f').
Proof. intros F [-> Hfull]. split_and!; try done. by intros (_ & _ & Hn & _). Qed.

Lemma room_refused r f cs nm ty d :
  fs_view r f cs = Some d -> length (i_children (node f d)) = DIR_MAX_CHILDREN -> ~ creatable r f cs nm ty.
Proof. intros Hd Hl (_ & (d' & Hd' & _ & Hl') & _). rewrite Hd in Hd'. injection Hd' as <-. lia. Qed.

Lemma mk_dir_spec r f d nm cs :
  fs_tree r f -> good_comp nm -> fs_view r f cs = Some d -> mem_dir (node f d) = true -> fs_view r f (cs ++ [nm]) = None ->
  created r f cs nm INODE_DIR (mk_dir (Some d) nm f).
Proof.
  intros F Hg Hd Hm Hnew. unfold mk_dir. pose proof (inode_alloc_spec nm INODE_DIR f) as Ha.
  destruct (inode_alloc nm INODE_DIR f) as [[p|] f1]; [|by apply full_refused]. destruct Ha as (HP & Hf & ->).
  assert (Fr : fresh_node f (set_node f p (inode_new nm INODE_DIR)) p nm).
  { split; [done|done| |]; intros; rewrite node_set; [by rewrite decide_False|]. rewrite decide_True by done. simpl. by rewrite inode_name_good. }
  pose proof (attach_new_spec r f _ d p nm cs F Fr Hg Hd Hm Hnew) as H.
  destruct (attach_new _ _ _) as [[p'|] f']; unfold created.
  - destruct H as (-> & ? & ? & Ht & ? & ?). split_and!; try done; [|by rewrite Ht, node_set, decide_True].
    split_and!; [done| |by apply (not_full f p)|done]. exists d. by rewrite (mem_dir_type _ Hm).
  - destruct H as (? & ? & ? & ?). split_and!; try done. by apply (room_refused r f cs nm _ d).
Qed.

Lemma mk_file_spec r f d nm cs x w :
  fs_tree r f -> good_comp nm -> fs_view r f cs = Some d -> mem_dir (node f d) = true -> fs_view r f (cs ++ [nm]) = None ->
  created r f cs nm INODE_FILE (mk_file (Some d) nm 0 0 x w f).
Proof.
  intros F Hg Hd Hm Hnew. unfold mk_file. pose proof (inode_alloc_spec nm INODE_FILE f) as Ha.
  destruct (inode_alloc nm INODE_FILE f) as [[p|] f1]; [|by apply full_refused].
  destruct Ha as (HP & Hf & ->). cbn [Z.eqb negb andb].
  change (s_pmm (f_sys (set_node f p (inode_new nm INODE_FILE)))) with (s_pmm (f_sys f)).
  destruct (pmm_alloc (s_pmm (f_sys f)) FILE_CAPACITY 16) as [a m] eqn:Ea.
  set (f2 := upd_node (on_sys (set_node f p (inode_new nm INODE_FILE)) (fun s => sys_set_pmm s m)) p _).
  assert (K2 : fs_keep f f2) by done.
  assert (Hn : forall y, node f2 y = if decide (y = p) then inode_set_buffer (inode_new nm INODE_FILE) a 0 FILE_CAPACITY else node f y).
  { intros y. unfold f2. rewrite node_upd. change (node (on_sys (set_node f p (inode_new nm INODE_FILE)) (fun s => sys_set_pmm s m))) with (node (set_node f p (inode_new nm INODE_FILE))).
    rewrite !node_set, (decide_True (P := p = p)) by done. by destruct (decide (y = p)). }
  clearbody f2. destruct (a =? 0) eqn:Ez; cbn [negb].
  - assert (Kf : fs_keep f (inode_free (Some p) f2)) by (etrans; [exact K2|apply keep_free]). pose proof Kf as (Ep' & Er' & _).
    destruct (same_tree r f (inode_free (Some p) f2) (node f) Ep' Er' (ft_root _ _ F) (ft_tree _ _ F)) as [F' V'].
    + intros y Hy. rewrite node_free. destruct (decide (y = p)) as [->|Hyp]; [by right|]. left. by rewrite Hn, decide_False.
    + unfold created. split_and!; try done. intros (_ & _ & _ & Hmem). apply Hmem; [done|]. rewrite Ea. simpl. lia.
  - set (f3 := upd_node f2 p _).
    assert (Hn3 : forall y, node f3 y = if decide (y = p) then inode_set_modes (inode_set_buffer (inode_new nm INODE_FILE) a 0 FILE_CAPACITY) x w else node f y).
    { intros y. unfold f3. rewrite node_upd, !Hn, (decide_True (P := p = p)) by done. by destruct (decide (y = p)). }
    assert (Fr : fresh_node f f3 p nm).
    { split; [done|done|intros y Hy; by rewrite Hn3, decide_False|]. rewrite Hn3, decide_True by done. simpl. by rewrite inode_name_good. }
    pose proof (attach_new_spec r f _ d p nm cs F Fr Hg Hd Hm Hnew) as H.
    destruct (attach_new _ _ _) as [[p'|] f']; unfold created.
    + destruct H as (-> & ? & ? & Ht & ? & ?). split_and!; try done; [|by rewrite Ht, Hn3, decide_True].
      split_and!; [done| |by apply (not_full f p)|intros _; rewrite Ea; simpl; lia]. exists d. by rewrite (mem_dir_type _ Hm).
    + destruct H as (? & ? & ? & ?). split_and!; try done. by apply (room_refused r f cs nm _ d).
Qed.

(** A path for an entry of the memory filesystem, outside [/dev]. *)
Record plain_path (r : Z) f cs : Prop := {
  pp_canonical : canonical cs;
  pp_length : (length (path_of cs) < MAX_PATH)%nat;
  pp_dev : head cs <> Some DEVNAME;
  pp_mem : in_mem r f cs;
  pp_last p : fs_view r f cs = Some p -> i_fs_kind (node f p) = FS_KIND_MEM;
}.

Lemma new_entry_view r f cs nm :
  fs_tree r f -> plain_path r f (cs ++ [nm]) ->
  new_entry (path_of (cs ++ [nm])) f =
    (match fs_view r f cs with Some d => if is_dir f d then Some (d, nm) else None | None => None end, f).
Proof.
  intros F [C Hl Hd Hm _]. unfold new_entry. rewrite (lookup_parent_view r f cs nm F C Hl Hd Hm).
  destruct (fs_view r f cs) as [d|]; [|done]. rewrite bool_decide_eq_false_2.
  - rewrite orb_false_r. by destruct (is_dir f d).
  - intros ->. destruct C as [Hg _]. rewrite Forall_app, Forall_singleton in Hg. by destruct Hg as [_ [? _]].
Qed.

Lemma parent_mem r f cs nm d : plain_path r f (cs ++ [nm]) -> fs_view r f cs = Some d -> i_fs_kind (node f d) = FS_KIND_MEM.
Proof.
  intros PP Hd. apply (pp_mem _ _ _ PP cs d); [by exists [nm]| |done]. intros Ec. apply (f_equal length) in Ec. rewrite length_app in Ec. simpl in Ec. lia.
Qed.

Lemma create_spec r f cs nm ty eop mop :
  fs_tree r f -> plain_path r f (cs ++ [nm]) ->
  (forall d, fs_view r f cs = Some d -> mem_dir (node f d) = true -> fs_view r f (cs ++ [nm]) = None -> created r f cs nm ty (mop d nm f)) ->
  created r f cs nm ty (fs_create eop mop (path_of (cs ++ [nm])) f).
Proof.
  intros F PP Hop. unfold fs_create. rewrite (new_entry_view r f cs nm F PP).
  destruct (fs_view r f cs) as [d|] eqn:Hd; [|by split_and!; [intros (_ & (d & Hd' & _) & _); rewrite Hd in Hd'|..]].
  pose proof (parent_mem r f cs nm d PP Hd) as Hk. unfold is_dir.
  destruct (bool_decide (i_type (node f d) = INODE_DIR)) eqn:Ht.
  2:{ apply bool_decide_eq_false in Ht. split_and!; try done. intros (_ & (d' & Hd' & ? & _) & _). rewrite Hd in Hd'. by injection Hd' as <-. }
  destruct (view_used _ _ _ cs d (ft_tree _ _ F) Hd) as [HP _]. rewrite (lookup_child_view f d nm false HP Hk).
  assert (Hs : fs_view r f (cs ++ [nm]) = assoc nm (kids (in_pool (inode_pool f)) (node f) d)).
  { unfold fs_view, view in *. by rewrite walk_snoc, Hd. }
  rewrite <- Hs. destruct (fs_view r f (cs ++ [nm])) as [c|] eqn:Ev.
  { split_and!; try done. intros (Hx & _). by rewrite Ev in Hx. }
  rewrite decide_False by by rewrite Hk. apply Hop; try done. unfold mem_dir. rewrite Ht. simpl. by apply bool_decide_eq_true.
Qed.

Lemma create_dir_spec r f cs nm :
  fs_tree r f -> plain_path r f (cs ++ [nm]) -> created r f cs nm INODE_DIR (fs_create_dir (path_of (cs ++ [nm])) f).
Proof.
  intros F PP. apply create_spec; [done..|]. intros d Hd Hm Hn. apply mk_dir_spec; try done.
  destruct PP as [[Hg _] _ _ _ _]. rewrite Forall_app, Forall_singleton in Hg. apply Hg.
Qed.

Lemma create_file_spec r f cs nm :
  fs_tree r f -> plain_path r f (cs ++ [nm]) -> created r f cs nm INODE_FILE (fs_create_file (path_of (cs ++ [nm])) f).
Proof.
  intros F PP. apply create_spec; [done..|]. intros d Hd Hm Hn. apply mk_file_spec; try done.
  destruct PP as [[Hg _] _ _ _ _]. rewrite Forall_app, Forall_singleton in Hg. apply Hg.
Qed.

(** ** Removal *)

Definition removed (r : Z) f cs (f' : st) : Prop :=
  fs_tree r f' /\ fs_keep f f' /\ forall q, fs_view r f' q = if decide (cs `prefix_of` q) then None else fs_view r f q.

(** A node of the tree but the root is a child of its parent. *)
Lemma view_entry r f cs p :
  fs_tree r f -> fs_view r f cs = Some p -> i_parent (node f p) <> None ->
  exists cs0 d, cs = cs0 ++ [i_name (node f p)] /\ fs_view r f cs0 = Some d /\ i_parent (node f p) = Some d /\ p ∈ i_children (node f d) /\ p <> r.
Proof.
  intros F Hv Hpar. destruct cs as [|nm cs _] using rev_ind.
  { injection Hv as <-. by destruct (tr_root _ _ _ (ft_tree _ _ F)) as (_ & _ & ?). }
  destruct (view_parent _ _ _ cs nm p (ft_tree _ _ F) Hv) as (d & Hd & Hp & Hin & ->). exists cs, d. split_and!; try done.
  intros ->. by destruct (tr_root _ _ _ (ft_tree _ _ F)) as (_ & _ & ?).
Qed.

Lemma child_mem_dir r f cs d c : fs_tree r f -> fs_view r f cs = Some d -> c ∈ i_children (node f d) -> mem_dir (node f d) = true.
Proof.
  intros F Hd Hc. destruct (view_used _ _ _ cs d (ft_tree _ _ F) Hd) as [HP _]. apply (tr_dir _ _ _ (ft_tree _ _ F) d HP).
  by destruct (i_children (node f d)); [apply not_elem_of_nil in Hc|].
Qed.

Lemma remove_child_nodes r f cs d c :
  fs_tree r f -> fs_view r f cs = Some d -> c ∈ i_children (node f d) ->
  exists f', dir_remove_child (Some d) c f = (true, f') /\ fs_keep f f' /\ forall y, node f' y =
    if decide (y = c) then inode_set_parent (node f c) None
    else if decide (y = d) then inode_set_children (node f d) (filter (fun x => x <> c) (i_children (node f d))) else node f y.
Proof.
  intros F Hd Hc. pose proof (child_mem_dir r f cs d c F Hd Hc) as Hm. apply andb_true_iff in Hm as [Hm _].
  destruct (view_used _ _ _ cs d (ft_tree _ _ F) Hd) as [HP Hu]. destruct (tr_nodup _ _ _ (ft_tree _ _ F) d HP) as [Hnd _].
  pose proof (no_self_child _ _ _ d c (ft_tree _ _ F) HP Hu Hc) as Hcd.
  unfold dir_remove_child, is_dir. rewrite Hm. cbn [negb]. rewrite (remove_first_spec c _ Hnd), decide_True by done.
  eexists. split; [done|]. split; [done|]. intros y. rewrite !node_upd, (decide_False (P := c = d)) by done. by destruct (decide (y = c)).
Qed.

Lemma remove_node_spec r f cs p :
  fs_tree r f -> fs_view r f cs = Some p -> i_parent (node f p) <> None -> i_children (node f p) = [] ->
  exists f', remove_node p f = (0, f') /\ removed r f cs f'.
Proof.
  intros F Hv Hpar Hleaf. destruct (view_entry r f cs p F Hv Hpar) as (cs0 & d & Ecs & Hd & Hp & Hin & _).
  destruct (view_used _ _ _ cs0 d (ft_tree _ _ F) Hd) as [HPd _].
  destruct (remove_child_nodes r f cs0 d p F Hd Hin) as (f1 & H1 & K1 & N1). unfold remove_node. rewrite Hp, H1. eexists. split; [done|].
  assert (K2 : fs_keep f (inode_free (Some p) f1)) by (etrans; [exact K1|apply keep_free]). pose proof K2 as (Ep & Er & _).
  destruct (same_tree r f (inode_free (Some p) f1) _ Ep Er (ft_root _ _ F) (tree_drop _ r _ d p (ft_tree _ _ F) HPd Hin Hleaf)) as [F' V'].
  - intros y _. left. rewrite node_free, N1. unfold drop_node, fupd. by destruct (decide (y = p)).
  - split; [done|]. split; [done|]. intros q. rewrite V', (view_drop _ r _ d p cs0 q (ft_tree _ _ F) Hd Hin Hleaf). by rewrite Ecs.
Qed.

Lemma file_leaf r f cs p : fs_tree r f -> fs_view r f cs = Some p -> i_type (node f p) <> INODE_DIR -> i_children (node f p) = [].
Proof.
  intros F Hv Ht. destruct (i_children (node f p)) as [|c l] eqn:Ec; [done|]. exfalso. apply Ht.
  assert (Hc : c ∈ i_children (node f p)) by (rewrite Ec; by left). pose proof (child_mem_dir r f cs p c F Hv Hc) as Hm.
  by apply andb_true_iff in Hm as [?%bool_decide_eq_true _].
Qed.

(** The entries [fs_unlink] and [fs_rmdir] accept. *)
Definition unlinkable (r : Z) f cs : bool :=
  match fs_view r f cs with Some p => bool_decide (i_type (node f p) = INODE_FILE) | None => false end.

Definition rmdirable (r : Z) f cs : bool :=
  match fs_view r f cs with
  | Some p => bool_decide (p <> r) && bool_decide (i_type (node f p) = INODE_DIR) && bool_decide (i_children (node f p) = []) && negb (mount_is_active p f)
  | None => false
  end.

Lemma not_root_parent r f cs p : fs_tree r f -> fs_view r f cs = Some p -> p <> r -> i_parent (node f p) <> None.
Proof.
  intros F Hv Hr. destruct cs as [|nm cs _] using rev_ind; [by injection Hv as <-|].
  destruct (view_parent _ _ _ cs nm p (ft_tree _ _ F) Hv) as (d & _ & -> & _). done.
Qed.

Lemma root_is_dir r f : fs_tree r f -> i_type (node f r) = INODE_DIR.
Proof. intros F. destruct (tr_root _ _ _ (ft_tree _ _ F)) as (_ & Hm & _). by apply andb_true_iff in Hm as [?%bool_decide_eq_true _]. Qed.

Lemma unlink_spec r f cs :
  fs_tree r f -> plain_path r f cs ->
  if unlinkable r f cs then exists f', fs_unlink (path_of cs) f = (0, f') /\ removed r f cs f' else fs_unlink (path_of cs) f = (-1, f).
Proof.
  intros F [C Hl Hdev Hm Hlast]. unfold unlinkable, fs_unlink, fs_lookup_nofollow. rewrite (lookup_view r f false cs F C Hdev Hm).
  destruct (fs_view r f cs) as [p|] eqn:Hv; [|done]. destruct (decide (i_type (node f p) = INODE_FILE)) as [Ht|Ht].
  2:{ rewrite (bool_decide_eq_false_2 _ Ht). rewrite bool_decide_eq_true_2 by done. done. }
  rewrite (bool_decide_eq_true_2 _ Ht). rewrite bool_decide_eq_false_2 by (intros Hx; by apply Hx). cbn [orb].
  assert (Hr : p <> r) by (intros ->; by rewrite (root_is_dir r f F) in Ht). pose proof (not_root_parent r f cs p F Hv Hr) as Hpar.
  rewrite bool_decide_eq_false_2 by done. rewrite decide_False by by rewrite (Hlast p eq_refl).
  apply remove_node_spec; try done. apply (file_leaf r f cs); [done|done|]. by rewrite Ht.
Qed.

Lemma rmdir_spec r f cs :
  fs_tree r f -> plain_path r f cs ->
  if rmdirable r f cs then exists f', fs_rmdir (path_of cs) f = (0, f') /\ removed r f cs f' else fs_rmdir (path_of cs) f = (-1, f).
Proof.
  intros F [C Hl Hdev Hm Hlast]. unfold rmdirable, fs_rmdir, fs_lookup_nofollow. rewrite (lookup_view r f false cs F C Hdev Hm).
  destruct (fs_view r f cs) as [p|] eqn:Hv; [|done]. rewrite (ft_root _ _ F). destruct (decide (p = r)) as [->|Hr].
  { rewrite (bool_decide_eq_true_2 (Some r = Some r)) by done. rewrite bool_decide_eq_false_2 by (intros Hx; by apply Hx). done. }
  rewrite (bool_decide_eq_true_2 (p <> r)) by done. rewrite (bool_decide_eq_false_2 (Some p = Some r)) by congruence.
  unfold is_dir. destruct (bool_decide (i_type (node f p) = INODE_DIR)) eqn:Ht; [|done]. cbn [andb negb orb].
  pose proof (not_root_parent r f cs p F Hv Hr) as Hpar. rewrite (bool_decide_eq_false_2 (i_parent (node f p) = None)) by done.
  destruct (mount_is_active p f); [by rewrite andb_false_r|]. rewrite decide_False by by rewrite (Hlast p eq_refl).
  destruct (bool_decide (i_children (node f p) = [])) eqn:Ec; [|done]. cbn [negb andb]. apply bool_decide_eq_true in Ec. by apply remove_node_spec.
Qed.

(** ** Renaming *)

(** The walk to the root finds the ancestors. *)
Lemma is_below_spec r f cs p cs' p' fuel :
  fs_tree r f -> fs_view r f cs = Some p -> fs_view r f cs' = Some p' -> (length cs' <= fuel)%nat ->
  is_below fuel p p' f = bool_decide (cs `prefix_of` cs').
Proof.
  intros F Hv. revert p' fuel. induction cs' as [|nm cs' IH] using rev_ind; intros p' fuel Hv' Hf.
  - injection Hv' as <-. destruct (tr_root _ _ _ (ft_tree _ _ F)) as (_ & _ & Hr). destruct (decide (r = p)) as [<-|Hne].
    + pose proof (view_unique _ _ _ _ _ _ (ft_tree _ _ F) Hv (eq_refl : fs_view r f [] = Some r)) as ->.
      rewrite bool_decide_eq_true_2 by done. destruct fuel; cbn [is_below]; by rewrite Z.eqb_refl.
    + rewrite bool_decide_eq_false_2 by (intros ->%prefix_nil_inv; by injection Hv).
      destruct fuel; cbn [is_below]; replace (r =? p) with false by lia; [done|]. by rewrite Hr.
  - rewrite length_app in Hf. simpl in Hf. destruct fuel as [|fuel]; [lia|]. cbn [is_below].
    destruct (view_parent _ _ _ cs' nm p' (ft_tree _ _ F) Hv') as (d & Hd & -> & _). destruct (p' =? p) eqn:Ep.
    + assert (p' = p) as -> by lia. rewrite (view_unique _ _ _ _ _ _ (ft_tree _ _ F) Hv Hv'). by rewrite bool_decide_eq_true_2.
    + rewrite (IH d fuel Hd) by lia. apply bool_decide_ext. split.
      * intros H. etrans; [exact H|]. by exists [nm].
      * intros [?| ->]%prefix_snoc_inv; [done|]. rewrite Hv in Hv'. injection Hv' as ->. lia.
Qed.

Definition moved (r : Z) f old new (f' : st) : Prop :=
  fs_tree r f' /\ fs_keep f f' /\ forall q, fs_view r f' q =
    if decide (new `prefix_of` q) then fs_view r f (old ++ drop (length new) q)
    else if decide (old `prefix_of` q) then None else fs_view r f q.

(** The renamings [fs_rename] accepts: [old] to the name [nm] in the directory [cs]. *)
Definition renameable (r : Z) f old cs nm : bool :=
  match fs_view r f old, fs_view r f cs, fs_view r f (cs ++ [nm]) with
  | Some p, Some d, None =>
      bool_decide (p <> r) && negb (mount_is_active p f) && is_dir f d &&
      (length (i_children (node f d)) <? DIR_MAX_CHILDREN)%nat && negb (bool_decide (old `prefix_of` cs))
  | _, _, _ => false
  end.

Lemma path_of_inj cs cs' : canonical cs -> canonical cs' -> path_of cs = path_of cs' -> cs = cs'.
Proof. intros C C' H. apply (f_equal path_comps) in H. rewrite !path_comps_of in H by done. by injection H. Qed.

(** Only a directory has something below it. *)
Lemma below_dir r f old p cs d :
  fs_tree r f -> fs_view r f old = Some p -> fs_view r f cs = Some d -> is_dir f d = true -> (length cs <= INODE_POOL_MAX)%nat ->
  is_dir f p && is_below INODE_POOL_MAX p d f = bool_decide (old `prefix_of` cs).
Proof.
  intros F Hv Hd Ht Hl. rewrite (is_below_spec r f old p cs d INODE_POOL_MAX F Hv Hd Hl). destruct (is_dir f p) eqn:Ep; [done|].
  symmetry. apply bool_decide_eq_false. intros [k ->]. destruct k as [|x k].
  - rewrite app_nil_r, Hv in Hd. injection Hd as ->. congruence.
  - unfold fs_view, view in Hd, Hv. rewrite walk_app, Hv in Hd. simpl in Hd.
    unfold kids in Hd at 1. unfold mem_dir in Hd. unfold is_dir in Ep. rewrite Ep in Hd. cbn [andb] in Hd. by rewrite andb_false_r in Hd.
Qed.

Lemma rename_nodes r f cs0 d p cs d' nm :
  fs_tree r f -> can_move (in_pool (inode_pool f)) r (node f) d p d' nm cs0 cs ->
  exists f1 f2, dir_remove_child (Some d) p f = (true, f1) /\
    dir_add_child (Some d') p (upd_node f1 p (fun n => inode_set_name n (inode_name nm))) = (true, f2) /\
    moved r f (cs0 ++ [i_name (node f p)]) (cs ++ [nm]) f2.
Proof.
  intros F M. pose proof (mv_slots _ _ _ _ _ _ _ _ _ (ft_tree _ _ F) M) as (_ & _ & _ & Hpd & Hpd' & _).
  pose proof M as [[Hd Hin] [Hd' Hm'] Hroom Hg _ _]. destruct (remove_child_nodes r f cs0 d p F Hd Hin) as (f1 & H1 & K1 & N1).
  exists f1. set (f1' := upd_node f1 p _).
  assert (N1' : forall y, node f1' y = if decide (y = p) then inode_set_name (inode_set_parent (node f p) None) nm
    else if decide (y = d) then inode_set_children (node f d) (filter (fun x => x <> p) (i_children (node f d))) else node f y).
  { intros y. unfold f1'. rewrite node_upd, !N1, (decide_True (P := p = p)) by done. rewrite inode_name_good by done. by destruct (decide (y = p)). }
  assert (K1' : fs_keep f f1') by (etrans; [exact K1|done]). clearbody f1'. apply andb_true_iff in Hm' as [Hm' _].
  assert (Hc' : (length (i_children (node f1' d')) < DIR_MAX_CHILDREN)%nat /\ i_type (node f1' d') = i_type (node f d')).
  { rewrite N1', decide_False by done. destruct (decide (d' = d)) as [->|]; [|done]. simpl. split; [|done].
    pose proof (length_filter (fun x => x <> p) (i_children (node f d))). lia. }
  destruct Hc' as [Hc' Ht']. unfold dir_add_child, is_dir. rewrite Ht', Hm'. cbn [negb orb].
  replace (DIR_MAX_CHILDREN <=? length (i_children (node f1' d')))%nat with false by lia. eexists. split; [done|]. split; [done|].
  set (f2 := upd_node (upd_node f1' d' _) p _). assert (K2 : fs_keep f f2) by (etrans; [exact K1'|done]). pose proof K2 as (Ep & Er & _).
  destruct (same_tree r f f2 _ Ep Er (ft_root _ _ F) (tree_move _ _ _ _ _ _ _ _ _ (ft_tree _ _ F) M)) as [F2 V2].
  - intros y _. left. unfold f2. rewrite !node_upd, (decide_False (P := p = d')), !N1' by done. rewrite (decide_True (P := p = p)) by done.
    unfold move_node. destruct (decide (y = p)) as [->|]; [done|]. destruct (decide (y = d')) as [->|Hy'].
    + rewrite decide_False by done. by destruct (decide (d' = d)) as [->|].
    + by destruct (decide (y = d)) as [->|].
  - split; [done|]. split; [done|]. intros q. rewrite V2. apply (view_move _ _ _ _ _ _ _ _ _ (ft_tree _ _ F) M).
Qed.

Lemma rename_spec r f old cs nm :
  fs_tree r f -> plain_path r f old -> plain_path r f (cs ++ [nm]) -> old <> cs ++ [nm] ->
  if renameable r f old cs nm then exists f', fs_rename (path_of old) (path_of (cs ++ [nm])) f = (0, f') /\ moved r f old (cs ++ [nm]) f'
  else fs_rename (path_of old) (path_of (cs ++ [nm])) f = (-1, f).
Proof.
  intros F PO PN Hne. pose proof PO as [C Hl Hdev Hm Hlast]. pose proof PN as [C' Hl' Hdev' Hm' _].
  unfold renameable, fs_rename, fs_lookup_nofollow. rewrite (lookup_view r f false old F C Hdev Hm).
  destruct (fs_view r f old) as [p|] eqn:Hv; [|done]. rewrite (ft_root _ _ F). destruct (decide (p = r)) as [->|Hr].
  { rewrite (bool_decide_eq_true_2 (Some r = Some r)) by done. rewrite (bool_decide_eq_false_2 (r <> r)) by (intros Hx; by apply Hx).
    cbn [orb andb]. by destruct (fs_view r f cs), (fs_view r f (cs ++ [nm])). }
  rewrite (bool_decide_eq_false_2 (Some p = Some r)) by congruence. rewrite (bool_decide_eq_true_2 (p <> r)) by done.
  pose proof (not_root_parent r f old p F Hv Hr) as Hpar. rewrite (bool_decide_eq_false_2 (i_parent (node f p) = None)) by done. cbn [orb andb].
  destruct (mount_is_active p f); [cbn [negb andb]; by destruct (fs_view r f cs), (fs_view r f (cs ++ [nm]))|]. cbn [negb andb].
  rewrite decide_False by (intros He; by apply Hne, path_of_inj). rewrite (lookup_view r f false (cs ++ [nm]) F C' Hdev' Hm').
  destruct (fs_view r f (cs ++ [nm])) as [x|] eqn:Hn; [by destruct (fs_view r f cs)|]. rewrite (new_entry_view r f cs nm F PN).
  destruct (fs_view r f cs) as [d'|] eqn:Hd'; [|done]. destruct (is_dir f d') eqn:Ht'; [|done]. cbn [andb].
  rewrite decide_False by by rewrite (Hlast p eq_refl). pose proof (parent_mem r f cs nm d' PN Hd') as Hk.
  rewrite (bool_decide_eq_false_2 (i_fs_kind (node f d') <> FS_KIND_MEM)) by (intros Hx; by apply Hx).
  destruct (DIR_MAX_CHILDREN <=? length (i_children (node f d')))%nat eqn:El.
  { by replace (length (i_children (node f d')) <? DIR_MAX_CHILDREN)%nat with false by lia. }
  replace (length (i_children (node f d')) <? DIR_MAX_CHILDREN)%nat with true by lia. cbn [andb].
  rewrite (below_dir r f old p cs d' F Hv Hd' Ht'). 2:{ destruct C' as [_ Hc]. rewrite length_app in Hc. lia. }
  destruct (bool_decide (old `prefix_of` cs)) eqn:Hb; [done|]. cbn [negb]. apply bool_decide_eq_false in Hb.
  destruct (view_entry r f old p F Hv Hpar) as (cs0 & d & Eo & Hd & -> & Hin & _).
  assert (M : can_move (in_pool (inode_pool f)) r (node f) d p d' nm cs0 cs).
  { split; [done| |lia| |done|by rewrite <- Eo].
    - split; [done|]. unfold mem_dir. unfold is_dir in Ht'. rewrite Ht'. simpl. by apply bool_decide_eq_true.
    - destruct C' as [Hg _]. rewrite Forall_app, Forall_singleton in Hg. apply Hg. }
  destruct (rename_nodes r f cs0 d p cs d' nm F M) as (f1 & f2 & -> & H2 & Mv). cbv zeta. cbn [negb]. rewrite H2. exists f2. by rewrite Eo.
Qed.

End Ops.
