(* ===== verification/FsProps.v ===== *)
(** * Properties of the filesystem layer (kernel/fs.c)

    The operations on names, run on canonical paths of the memory filesystem, are the
    insertion, deletion and move of subtrees of a map from paths to nodes. *)

From S2P Require Import Prelude KString Path Pmm Inode BlockCache PageCache FsIo Fs FsInit FsData FsTree FsOps.

(** ** Operations and their specification *)

(** The operations on names: a path is the components of the directory and the name,
    or all components. *)
Inductive ns_op :=
  | NsFile (cs : list (list Z)) (nm : list Z)
  | NsDir (cs : list (list Z)) (nm : list Z)
  | NsUnlink (cs : list (list Z))
  | NsRmdir (cs : list (list Z))
  | NsRename (old cs : list (list Z)) (nm : list Z).

(** The namespace after an operation; [p] is the new node. *)
Definition ns_result (op : ns_op) (p : Z) (V : list (list Z) -> option Z) : list (list Z) -> option Z := fun q =>
  match op with
  | NsFile cs nm | NsDir cs nm => if decide (q = cs ++ [nm]) then Some p else V q
  | NsUnlink cs | NsRmdir cs => if decide (cs `prefix_of` q) then None else V q
  | NsRename old cs nm =>
      let new := cs ++ [nm] in
      if decide (new `prefix_of` q) then V (old ++ drop (length new) q)
      else if decide (old `prefix_of` q) then None else V q
  end.

Section Ns.
Context {D E T : Type} `{!BlockDrivers D, !DiskInventory D, !Ext4Ops D E, !SharedMappings T, !Ext4Names D E T, !MountUsers T}.
Abbreviation st := (fsys D E T).
Implicit Types (f : st) (r : Z).

(** The call; the result code as a boolean. *)
Definition ns_exec (op : ns_op) f : bool * st :=
  match op with
  | NsFile cs nm => let '(p, f) := fs_create_file (path_of (cs ++ [nm])) f in (bool_decide (is_Some p), f)
  | NsDir cs nm => let '(p, f) := fs_create_dir (path_of (cs ++ [nm])) f in (bool_decide (is_Some p), f)
  | NsUnlink cs => let '(rc, f) := fs_unlink (path_of cs) f in (rc =? 0, f)
  | NsRmdir cs => let '(rc, f) := fs_rmdir (path_of cs) f in (rc =? 0, f)
  | NsRename old cs nm => let '(rc, f) := fs_rename (path_of old) (path_of (cs ++ [nm])) f in (rc =? 0, f)
  end.

(** What each operation requires. *)
Definition ns_allowed r f (op : ns_op) : Prop :=
  match op with
  | NsFile cs nm => creatable r f cs nm INODE_FILE
  | NsDir cs nm => creatable r f cs nm INODE_DIR
  | NsUnlink cs => unlinkable r f cs = true
  | NsRmdir cs => rmdirable r f cs = true
  | NsRename old cs nm => renameable r f old cs nm = true
  end.

(** The paths are canonical and stay in the memory filesystem, outside [/dev]. *)
Definition ns_plain r f (op : ns_op) : Prop :=
  match op with
  | NsFile cs nm | NsDir cs nm => plain_path r f (cs ++ [nm])
  | NsUnlink cs | NsRmdir cs => plain_path r f cs
  | NsRename old cs nm => plain_path r f old /\ plain_path r f (cs ++ [nm]) /\ old <> cs ++ [nm]
  end.

(** What a call has done. *)
Definition ns_done r f (op : ns_op) (res : bool * st) : Prop :=
  (res.1 = true <-> ns_allowed r f op) /\ fs_tree r res.2 /\ fs_keep f res.2 /\
  exists p, forall q, fs_view r res.2 q = if res.1 then ns_result op p (fs_view r f) q else fs_view r f q.

Lemma created_done r f cs nm ty op (res : option Z * st) :
  created r f cs nm ty res -> (ns_allowed r f op <-> creatable r f cs nm ty) ->
  (forall p V q, ns_result op p V q = if decide (q = cs ++ [nm]) then Some p else V q) ->
  ns_done r f op (let '(p, f) := res in (bool_decide (is_Some p), f)).
Proof.
  intros C A R. unfold ns_done. rewrite A. destruct res as [[p|] f']; cbn [fst snd].
  - destruct C as (C1 & C2 & C3 & _ & C4). rewrite bool_decide_eq_true_2 by done. split; [done|]. split; [done|]. split; [done|].
    exists p. intros q. by rewrite R.
  - destruct C as (C1 & C2 & C3 & C4). rewrite bool_decide_eq_false_2 by by intros []. split; [done|]. split; [done|]. split; [done|]. by exists 0.
Qed.

Lemma rc_done r f op (b : bool) (run : Z * st) (Q : st -> Prop) :
  fs_tree r f -> (if b then exists f', run = (0, f') /\ Q f' else run = (-1, f)) -> (ns_allowed r f op <-> b = true) ->
  (forall f', Q f' -> fs_tree r f' /\ fs_keep f f' /\ forall q, fs_view r f' q = ns_result op 0 (fs_view r f) q) ->
  ns_done r f op (let '(rc, f) := run in (rc =? 0, f)).
Proof.
  intros F H A HQ. unfold ns_done. rewrite A. destruct b.
  - destruct H as (f' & -> & (F' & K & V)%HQ). cbn [fst snd]. split; [done|]. split; [done|]. split; [done|]. by exists 0.
  - subst run. cbn [fst snd]. split; [done|]. split; [done|]. split; [done|]. by exists 0.
Qed.

Lemma exec_done r f op : fs_tree r f -> ns_plain r f op -> ns_done r f op (ns_exec op f).
Proof.
  intros F PP. destruct op as [cs nm|cs nm|cs|cs|old cs nm]; cbn [ns_exec ns_plain] in *.
  - by apply (created_done r f cs nm INODE_FILE); [apply create_file_spec|..].
  - by apply (created_done r f cs nm INODE_DIR); [apply create_dir_spec|..].
  - apply (rc_done r f _ (unlinkable r f cs) _ (removed r f cs)); [done|by apply unlink_spec|done|]. by intros f' (? & ? & ?).
  - apply (rc_done r f _ (rmdirable r f cs) _ (removed r f cs)); [done|by apply rmdir_spec|done|]. by intros f' (? & ? & ?).
  - destruct PP as (PO & PN & Hne). apply (rc_done r f _ (renameable r f old cs nm) _ (moved r f old (cs ++ [nm]))); [done|by apply rename_spec|done|].
    by intros f' (? & ? & ?).
Qed.

(** *** The tree at start-up *)

Lemma clear_slots (l : list nat) f y :
  node (foldl (fun f i => clear_node f (pool_slot f i)) f l) y = if decide (y ∈ map (pool_slot f) l) then inhabitant else node f y.
Proof.
  revert f. induction l as [|i l IH]; intros f; [rewrite decide_False by apply not_elem_of_nil; done|]. cbn [foldl map]. rewrite IH.
  change (pool_slot (clear_node f (pool_slot f i))) with (pool_slot f). rewrite node_clear.
  destruct (decide (y ∈ map (pool_slot f) l)) as [Hin|Hin]; [by rewrite decide_True by by right|].
  destruct (decide (y = pool_slot f i)) as [->|Hne]; [by rewrite decide_True by by left|].
  rewrite decide_False; [done|]. intros [?|?]%elem_of_cons; done.
Qed.

Lemma clear_keep l f : let f' := foldl (fun f i => clear_node f (pool_slot f i)) f l in inode_pool f' = inode_pool f.
Proof. revert f. induction l as [|i l IH]; intros f; [done|]. cbn [foldl]. cbv zeta in *. by rewrite IH. Qed.

Lemma root_tree f2 :
  (forall y, in_pool (inode_pool f2) y = true -> node f2 y = inhabitant) ->
  exists r, fs_tree r (make_root f2) /\ mount_table (make_root f2) = mount_table f2 /\
    forall q, fs_view r (make_root f2) q = if decide (q = []) then Some r else None.
Proof.
  intros Hn. unfold make_root, mk_dir. pose proof (inode_alloc_spec [] INODE_DIR f2) as Ha.
  destruct (inode_alloc [] INODE_DIR f2) as [[p|] f3].
  2:{ exfalso. destruct Ha as [_ Hfull]. apply (Hfull 0%nat); [lia|]. rewrite Hn; [done|]. apply pool_slot_in. lia. }
  destruct Ha as (HP & _ & ->). cbn [attach_new]. exists p.
  set (f4 := set_dev_root _ None).
  assert (N : forall y, in_pool (inode_pool f4) y = true -> node f4 y = if decide (y = p) then inode_new [] INODE_DIR else inhabitant).
  { intros y Hy. change (node f4) with (node (set_node f2 p (inode_new [] INODE_DIR))). rewrite node_set. destruct (decide (y = p)); [done|].
    by apply Hn. }
  change (in_pool (inode_pool f4) p = true) in HP. assert (Hr : root_inode f4 = Some p) by done.
  assert (Hm : mount_table f4 = mount_table f2) by done. clearbody f4.
  assert (Hk : forall d, kids (in_pool (inode_pool f4)) (node f4) d = []).
  { intros d. unfold kids. destruct (in_pool (inode_pool f4) d) eqn:Hd; [|done]. rewrite N by done. by destruct (decide (d = p)). }
  assert (Hv : forall q, fs_view p f4 q = if decide (q = []) then Some p else None).
  { intros [|x q]; [done|]. unfold fs_view, view. cbn [walk]. by rewrite Hk. }
  split; [|done]. split; [done|].
  assert (Hc : forall d, in_pool (inode_pool f4) d = true -> i_children (node f4 d) = []) by (intros d Hd; rewrite N by done; by destruct (decide _)).
  assert (Hu : forall y, in_pool (inode_pool f4) y = true -> in_use (node f4) y -> y = p).
  { intros y Hy Hu. destruct (decide (y = p)) as [|Hne]; [done|]. unfold in_use in Hu. by rewrite N, decide_False in Hu. }
  split.
  - by rewrite N, decide_True.
  - intros d c Hd. rewrite (Hc d Hd). by intros ?%not_elem_of_nil.
  - intros d Hd. by rewrite (Hc d Hd).
  - intros d Hd. rewrite (Hc d Hd). split; [constructor|simpl; lia].
  - intros d c c' Hd. rewrite (Hc d Hd). by intros ?%not_elem_of_nil.
  - intros y Hy Hy' Hne. by apply Hu in Hy'.
  - intros y Hy ->%Hu; [|done]. by exists [].
Qed.

Lemma clear_pool_spec f y : in_pool (inode_pool (clear_pool f)) y = true -> node (clear_pool f) y = inhabitant.
Proof.
  unfold clear_pool. rewrite clear_keep. intros (i & Hi & ->%Z.eqb_eq)%existsb_exists. rewrite clear_slots, decide_True; [reflexivity|].
  apply list_elem_of_fmap. exists i. split; [reflexivity|]. by apply list_elem_of_In.
Qed.

(** After the first lines of [fs_init] there is the root and nothing else. *)
Lemma reset_tree f : exists r, fs_tree r (fs_reset f) /\ mount_table (fs_reset f) = replicate MOUNT_TABLE_MAX mount_zero /\
  forall q, fs_view r (fs_reset f) q = if decide (q = []) then Some r else None.
Proof.
  unfold fs_reset. pose proof (clear_pool_spec f) as Hc. generalize dependent (clear_pool f). clear f. intros f Hc.
  set (ms := replicate _ _). clearbody ms. by apply (root_tree (set_mounts f ms)).
Qed.

(** The states the namespace goes through from [fs_init] on. *)
Inductive ns_step r : st -> st -> Prop :=
  | ns_step_op op f : ns_plain r f op -> ns_step r f (ns_exec op f).2
  | ns_step_look cs f : canonical cs -> head cs <> Some DEVNAME -> in_mem r f cs -> ns_step r f (fs_lookup (path_of cs) f).2.

Definition ns_reachable r f : Prop := exists f0, root_inode (fs_reset f0) = Some r /\ rtc (ns_step r) (fs_reset f0) f.

Lemma ns_step_tree r f f' : fs_tree r f -> ns_step r f f' -> fs_tree r f'.
Proof.
  intros F. destruct 1 as [op f PP|cs f C Hd Hm]; [by destruct (exec_done r f op F PP) as (_ & ? & _)|].
  unfold fs_lookup. by rewrite (lookup_view r f true cs F C Hd Hm).
Qed.

Lemma ns_reachable_tree r f : ns_reachable r f -> fs_tree r f.
Proof.
  intros (f0 & Hr & H). destruct (reset_tree f0) as (r' & F & _). rewrite (ft_root _ _ F) in Hr. injection Hr as ->.
  revert F. induction H; [done|]. intros F. by apply IHrtc, (ns_step_tree r x).
Qed.

End Ns.

(** ** Properties *)

(** Lookup is a walk over the namespace. In every state the namespace reaches, a
    canonical path that stays in memory is looked up without changing anything, with
    and without following symbolic links, and the result is the node the namespace
    gives: the one that the children lists lead to from the root. *)
Theorem fs_lookup_refines {D E T} `{!BlockDrivers D, !DiskInventory D, !Ext4Ops D E, !SharedMappings T, !Ext4Names D E T, !MountUsers T}
    r (f : fsys D E T) cs follow :
  ns_reachable r f -> canonical cs -> head cs <> Some DEVNAME -> in_mem r f cs ->
  fs_lookup_internal (path_of cs) follow f = (fs_view r f cs, f).
Proof. intros R. apply lookup_view. by apply ns_reachable_tree. Qed.



(** ** A small filesystem to run the definitions on *)

#[global] Instance no_disks : DiskInventory ramdisks := {|
  ahci_poll d := d;
  nvme_poll d := d;
  ahci_disk_count _ := 0;
  nvme_controller_count _ := 0;
  virtio_blk_capacity_sectors _ := 0;
  ahci_disk_capacity_sectors _ _ := 0;
  nvme_ns_capacity_sectors512 _ _ _ := 0;
|}.

#[global] Instance no_names T : Ext4Names ramdisks unit T := {|
  ext4_mount _ _ f := (false, f);
  ext4_unmount _ f := (false, f);
  ext4_lookup_child _ _ f := (None, f);
  ext4_lookup_child_nofollow _ _ f := (None, f);
  ext4_create_file _ _ f := (None, f);
  ext4_create_dir _ _ f := (None, f);
  ext4_link _ _ _ f := (-1, f);
  ext4_symlink _ _ _ f := (None, f);
  ext4_readlink _ _ f := (-1, [], f);
  ext4_lstat _ s f := (-1, s, f);
  ext4_chmod _ _ f := (-1, f);
  ext4_unlink _ f := (-1, f);
  ext4_rmdir _ f := (-1, f);
  ext4_rename _ _ _ f := (-1, f);
  ext4_truncate _ _ f := (-1, f);
  ext4_read_dir _ _ _ f := (-1, [], 0, f);
  ext4_last_error _ := 0;
|}.

#[global] Instance no_users : MountUsers unit := fun _ _ _ _ => false.

Abbreviation demo_root := 0x48000000 (only parsing).

Definition demo_off : fsys ramdisks unit unit := mk_fsys demo_sys demo_root None None [].
Definition demo_boot_fs := fs_reset demo_off.
(** [/a], [/a/x] and [/b]. *)
Definition demo_a := (ns_exec (NsDir [] [97]) demo_boot_fs).2.
Definition demo_ax := (ns_exec (NsFile [[97]] [120]) demo_a).2.
Definition demo_fs := (ns_exec (NsDir [] [98]) demo_ax).2.

#[global] Strategy expand [demo_boot_fs demo_a demo_ax demo_fs].

#[global] Instance canonical_dec cs : Decision (canonical cs).
Proof. unfold canonical, good_comp. apply _. Defined.

Definition mem_at (r : Z) (f : fsys ramdisks unit unit) (cs : list (list Z)) : bool :=
  match fs_view r f cs with Some p => bool_decide (i_fs_kind (node f p) = FS_KIND_MEM) | None => true end.

Definition plain_check (r : Z) (f : fsys ramdisks unit unit) (cs : list (list Z)) : bool :=
  bool_decide (canonical cs) && (length (path_of cs) <? MAX_PATH)%nat && bool_decide (head cs <> Some DEVNAME) &&
  forallb (fun k => mem_at r f (take k cs)) (seq 0 (S (length cs))).

Lemma plain_check_sound r f cs : plain_check r f cs = true -> plain_path r f cs.
Proof.
  intros [[[C%bool_decide_eq_true L]%andb_true_iff Hd%bool_decide_eq_true]%andb_true_iff H]%andb_true_iff.
  assert (M : forall pre p, pre `prefix_of` cs -> fs_view r f pre = Some p -> i_fs_kind (node f p) = FS_KIND_MEM).
  { intros pre p [k ->] Hv. rewrite forallb_forall in H. specialize (H (length pre)).
    rewrite take_app_length in H. unfold mem_at in H. rewrite Hv in H. eapply bool_decide_eq_true, H. apply in_seq. rewrite length_app. lia. }
  split; [done|lia|done| |]; [intros pre d Hp _ Hv; by apply (M pre)|intros p Hv; by apply (M cs)].
Qed.

Lemma demo_fs_reachable : ns_reachable demo_root demo_fs.
Proof.
  assert (Hr : root_inode (fs_reset demo_off) = Some demo_root) by (vm_compute; reflexivity).
  assert (H : rtc (ns_step demo_root) demo_boot_fs demo_fs); [|unfold demo_boot_fs in H; exact (ex_intro _ demo_off (conj Hr H))].
  assert (P1 : plain_path demo_root demo_boot_fs [[97]]) by (apply plain_check_sound; vm_compute; reflexivity).
  assert (P2 : plain_path demo_root demo_a [[97]; [120]]) by (apply plain_check_sound; vm_compute; reflexivity).
  assert (P3 : plain_path demo_root demo_ax [[98]]) by (apply plain_check_sound; vm_compute; reflexivity).
  apply (rtc_l _ _ demo_a); [exact (ns_step_op demo_root (NsDir [] [97]) demo_boot_fs P1)|].
  apply (rtc_l _ _ demo_ax); [exact (ns_step_op demo_root (NsFile [[97]] [120]) demo_a P2)|].
  apply rtc_once. exact (ns_step_op demo_root (NsDir [] [98]) demo_ax P3).
Qed.

Lemma fs_lookup_refines_witness : exists p, (fs_lookup_internal (path_of [[97]; [120]]) true demo_fs).1 = Some p /\ i_type (node demo_fs p) = INODE_FILE.
Proof.
  assert (PP : plain_path demo_root demo_fs [[97]; [120]]) by (apply plain_check_sound; vm_compute; reflexivity).
  pose proof (fs_lookup_refines demo_root demo_fs [[97]; [120]] true demo_fs_reachable (pp_canonical _ _ _ PP) (pp_dev _ _ _ PP) (pp_mem _ _ _ PP)) as H.
  exists (demo_root + 2 * SIZEOF_INODE). rewrite H. split; vm_compute; reflexivity.
Defined.



(** ** A page that outlives its file *)

#[global] Instance no_chars : CharDevices unit := {|
  uart_getc t := (10, t);
  uart_putc _ t := t;
  net_dev_read _ t := (-1, [], t);
  net_dev_write _ t := (-1, t);
|}.

Abbreviation demo_x := 0x480002E0 (only parsing).

(** Three bytes are written to [/a/x], its first page is mapped, and the file is
    unlinked. Then [/y] is created and a byte written behind its start. *)
Definition leak_written := (fs_write demo_x 0 [1; 2; 3] demo_fs).2.
Definition leak_mapped :=
  let '(pa, s) := pagecache_get_or_create (Some demo_x) 0 (f_sys leak_written) in set_sys leak_written s.
Definition leak_unlinked := (fs_unlink (path_of [[97]; [120]]) leak_mapped).2.
Definition leak_created := fs_create_file (path_of [[121]]) leak_unlinked.
Definition leak_rewritten := (fs_write demo_x 1 [9] leak_created.2).2.

