(* ===== verification/Mmu.v ===== *)
(** * Translation tables (kernel/mmu.c, include/mmu.h, and the user half of
      kernel/task.c)

    Descriptors are 64-bit words built with the bit operations of the code. A
    translation table is a finite map from indices to descriptors, absent
    entries being 0. The TLB is the set of cached descriptors, keyed by the
    operand of the [tlbi] instruction that removes one.

    [walk] is the translation-table walk of the architecture (4 KiB granule, 39-bit
    addresses, so tables of levels 1 to 3), which is what the code programs: the
    theorems state what an access gets from the tables the kernel writes. *)

From S2P Require Import Prelude TaskDefs.

Abbreviation PTE_VALID := 1 (only parsing).
Abbreviation PTE_TABLE := 2 (only parsing).
Abbreviation PTE_BLOCK := 0 (only parsing).
Abbreviation PTE_PAGE := 2 (only parsing).
Abbreviation PTE_AF := (2 ^ 10) (only parsing).
Abbreviation PTE_SH_INNER := (3 * 2 ^ 8) (only parsing).
Abbreviation PTE_AP_EL1_RW := 0 (only parsing).
Abbreviation PTE_AP_EL0_RW := (2 ^ 6) (only parsing).
Abbreviation PTE_AP_EL0_RO := (3 * 2 ^ 6) (only parsing).
Abbreviation PTE_ATTR_DEVICE := 0 (only parsing).
Abbreviation PTE_ATTR_NORMAL := (2 ^ 2) (only parsing).
Abbreviation PTE_UXN := (2 ^ 54) (only parsing).
Abbreviation PTE_PXN := (2 ^ 53) (only parsing).
Abbreviation PTE_SW_COW := (2 ^ 55) (only parsing).
Abbreviation PTE_ADDR_MASK := 0x0000FFFFFFFFF000 (only parsing).
Abbreviation L1_ADDR_MASK := 0x0000FFFFC0000000 (only parsing).
Abbreviation L2_ADDR_MASK := 0x0000FFFFFFE00000 (only parsing).

Abbreviation PCIE_MMIO_BASE := 0x10000000 (only parsing).
Abbreviation PCIE_MMIO_SIZE := 0x2F000000 (only parsing).
Abbreviation PCIE_ECAM_BASE := 0x4010000000 (only parsing).
Abbreviation USER_VA_BASE := 0x00400000 (only parsing).
Abbreviation USER_VA_LIMIT := 0x00800000 (only parsing).

Abbreviation PROT_READ := 1 (only parsing).
Abbreviation PROT_WRITE := 2 (only parsing).
Abbreviation PROT_EXEC := 4 (only parsing).

Definition has_bits (x m : Z) : bool := negb (Z.land x m =? 0).

(** ** Descriptors *)

Definition PAGE_MASK : Z := not64 (PAGE_SIZE - 1).

Definition mmu_make_table (next_pa : Z) : Z :=
  Z.lor (Z.lor (Z.land next_pa PAGE_MASK) PTE_TABLE) PTE_VALID.

Definition mmu_make_block_l1 (pa attrs : Z) : Z :=
  Z.lor (Z.lor (Z.lor (Z.land pa L1_ADDR_MASK) attrs) PTE_VALID) PTE_BLOCK.

Definition mmu_make_block_l2 (pa attrs : Z) : Z :=
  Z.lor (Z.lor (Z.lor (Z.land pa L2_ADDR_MASK) attrs) PTE_VALID) PTE_BLOCK.

Definition mmu_make_page (pa attrs : Z) : Z :=
  Z.lor (Z.lor (Z.lor (Z.land pa PAGE_MASK) attrs) PTE_VALID) PTE_PAGE.

Definition attrs_normal : Z :=
  Z.lor (Z.lor (Z.lor PTE_AF PTE_SH_INNER) PTE_AP_EL1_RW) PTE_ATTR_NORMAL.

Definition attrs_device : Z :=
  Z.lor (Z.lor (Z.lor (Z.lor PTE_AF PTE_AP_EL1_RW) PTE_ATTR_DEVICE) PTE_UXN) PTE_PXN.

(** ** The MMU state: the TLB, the registers, and the cached TTBR0 value *)

Record mmu_state := mk_mmu {
  mm_tlb : gmap Z Z;
  mm_ttbr0 : Z;
  mm_ttbr1 : Z;
  mm_mair : Z;
  mm_tcr : Z;
  mm_sctlr : Z;
  active_ttbr0 : Z;
  active_ttbr0_valid : bool;
}.

Definition mmu_set_tlb (u : mmu_state) (x : gmap Z Z) : mmu_state :=
  mk_mmu x (mm_ttbr0 u) (mm_ttbr1 u) (mm_mair u) (mm_tcr u) (mm_sctlr u) (active_ttbr0 u)
    (active_ttbr0_valid u).

Abbreviation TTBR_ASID_MASK := 0xFFFF (only parsing).
Abbreviation TLBI_VA_MASK := 0x00000FFFFFFFFFFF (only parsing).

Definition asid_field (asid : Z) : Z := u64 (Z.shiftl (Z.land asid TTBR_ASID_MASK) 48).

Definition tlbi_va_operand (va asid : Z) : Z :=
  Z.lor (asid_field asid) (Z.land (Z.shiftr va 12) TLBI_VA_MASK).

Definition mmu_tlb_flush_all (u : mmu_state) : mmu_state := mmu_set_tlb u ∅.

(** [tlbi aside1is]: every entry whose ASID field is the operand's. *)
Definition mmu_tlb_flush_asid (asid : Z) (u : mmu_state) : mmu_state :=
  mmu_set_tlb u
    (filter (fun kv : Z * Z => Z.shiftr kv.1 48 <> Z.shiftr (asid_field asid) 48) (mm_tlb u)).

Definition mmu_tlb_flush_va (va asid : Z) (u : mmu_state) : mmu_state :=
  mmu_set_tlb u (delete (tlbi_va_operand va asid) (mm_tlb u)).

Definition mmu_ttbr0_value (ttbr0_phys asid : Z) : Z :=
  Z.lor (Z.land ttbr0_phys 0x0000FFFFFFFFF000) (asid_field asid).

Definition mmu_switch_ttbr0 (ttbr0_phys asid : Z) (u : mmu_state) : mmu_state :=
  let ttbr := mmu_ttbr0_value ttbr0_phys asid in
  if active_ttbr0_valid u && (active_ttbr0 u =? ttbr) then u
  else mk_mmu (mm_tlb u) ttbr (mm_ttbr1 u) (mm_mair u) (mm_tcr u) (mm_sctlr u) ttbr true.

(** ** The tables of the kernel and of a task

    The kernel half of a task's tables is written by the same assignments as the
    boot tables: the two level-1 entries, the device blocks of the low gigabyte,
    the PCIe window. *)

Definition pcie_blocks : list Z :=
  let start := Z.land PCIE_MMIO_BASE (not64 (0x200000 - 1)) in
  let fin := Z.land (PCIE_MMIO_BASE + PCIE_MMIO_SIZE + 0x1FFFFF) (not64 (0x200000 - 1)) in
  map (fun k => start + k * 0x200000) (seqZ 0 ((fin - start) / 0x200000)).

Definition device_block (pa : Z) (t : gmap Z Z) : gmap Z Z :=
  <[Z.shiftr pa 21 := mmu_make_block_l2 pa attrs_device]> t.

Definition low_devices : gmap Z Z :=
  foldl (fun t pa => device_block pa t) ∅ ([0x08000000; 0x09000000; 0x0A000000] ++ pcie_blocks).

Definition low_l1 (l2 : Z) : gmap Z Z :=
  <[Z.shiftr PCIE_ECAM_BASE 30 :=
      mmu_make_block_l1 (Z.land PCIE_ECAM_BASE L1_ADDR_MASK) attrs_device]>
  (<[1 := mmu_make_block_l1 0x40000000 attrs_normal]> (<[0 := mmu_make_table l2]> ∅)).

(** The boot tables at the three addresses the linker gives them. *)
Definition kernel_l1 (l2 : Z) : gmap Z Z := low_l1 l2.
Definition kernel_l2_low : gmap Z Z := low_devices.
Definition kernel_ttbr1_l1 : gmap Z Z := <[0 := mmu_make_block_l1 0x40000000 attrs_normal]> ∅.

Definition mmu_init (l1_addr ttbr1_addr : Z) (u : mmu_state) : mmu_state :=
  let mair := 0x000000000000FF00 in
  let tcr := foldl Z.lor 0
    [25; 2 ^ 8; 2 ^ 10; 3 * 2 ^ 12; 0; 25 * 2 ^ 16; 2 ^ 24; 2 ^ 26; 3 * 2 ^ 28; 2 * 2 ^ 30; 2 * 2 ^ 32] in
  let sctlr := Z.lor (mm_sctlr u) (Z.lor (Z.lor 1 (2 ^ 2)) (2 ^ 12)) in
  mk_mmu (mm_tlb u) l1_addr ttbr1_addr mair tcr sctlr l1_addr true.

Definition task_l2 (a b : Z) : gmap Z Z :=
  <[Z.shiftr (USER_VA_LIMIT - 1) 21 := mmu_make_table b]>
  (<[Z.shiftr USER_VA_BASE 21 := mmu_make_table a]> low_devices).

(** ** User pages (kernel/task.c) *)

Definition task_user_attrs_prot (prot : Z) (cow_tag : bool) : Z :=
  let attrs := Z.lor (Z.lor PTE_AF PTE_SH_INNER) PTE_ATTR_NORMAL in
  let attrs :=
    if has_bits prot PROT_WRITE then Z.lor attrs PTE_AP_EL0_RW
    else if has_bits prot (Z.lor PROT_READ PROT_EXEC) then Z.lor attrs PTE_AP_EL0_RO
    else Z.lor attrs PTE_AP_EL1_RW in
  let attrs := Z.lor attrs PTE_PXN in
  let attrs := if negb (has_bits prot PROT_EXEC) then Z.lor attrs PTE_UXN else attrs in
  if cow_tag then Z.lor attrs PTE_SW_COW else attrs.

Definition task_user_attrs (pte_writable executable cow_tag : bool) : Z :=
  let prot := PROT_READ in
  let prot := if pte_writable then Z.lor prot PROT_WRITE else prot in
  let prot := if executable then Z.lor prot PROT_EXEC else prot in
  task_user_attrs_prot prot cow_tag.

Definition task_pte_is_user_page (pte : Z) : bool :=
  if Z.land pte PTE_VALID =? 0 then false else if Z.land pte PTE_PAGE =? 0 then false else true.

Definition task_pte_is_user_writable (pte : Z) : bool :=
  Z.land pte (3 * 2 ^ 6) =? PTE_AP_EL0_RW.

Definition task_pte_is_user_executable (pte : Z) : bool := Z.land pte PTE_UXN =? 0.

Definition task_pte_is_cow (pte : Z) : bool := negb (Z.land pte PTE_SW_COW =? 0).

(** Which of the two level-3 tables covers an address. *)
Inductive l3_sel := L3A | L3B.

#[global] Instance l3_sel_eq_dec : EqDecision l3_sel.
Proof. solve_decision. Defined.

Definition task_l3_for_va (m : vm_state) (va : Z) : option (l3_sel * ptable) :=
  let l2_idx := Z.shiftr va 21 in
  if l2_idx =? Z.shiftr USER_VA_BASE 21 then pair L3A <$> l3_user_a m
  else if l2_idx =? Z.shiftr (USER_VA_LIMIT - 1) 21 then pair L3B <$> l3_user_b m
  else None.

Definition l3_idx (va : Z) : Z := Z.land (Z.shiftr va 12) 0x1FF.

(** [l3[l3_idx] = pte]. *)
Definition l3_store (m : vm_state) (w : l3_sel) (t : ptable) (va pte : Z) : vm_state :=
  let t := set_pt_ent t (<[l3_idx va := pte]> (pt_ent t)) in
  match w with L3A => set_l3_user_a m (Some t) | L3B => set_l3_user_b m (Some t) end.

Definition user_va_bad (va : Z) : bool :=
  (va <? USER_VA_BASE) || (USER_VA_LIMIT <=? va) || negb (Z.land va (PAGE_SIZE - 1) =? 0).

Definition task_set_user_pte (m : vm_state) (va pa attrs : Z) : option vm_state :=
  if user_va_bad va then None
  else match task_l3_for_va m va with
       | None => None
       | Some (w, t) => Some (l3_store m w t va (mmu_make_page pa attrs))
       end.

Definition task_get_user_pte (m : vm_state) (va : Z) : option Z :=
  if user_va_bad va then None
  else match task_l3_for_va m va with
       | None => None
       | Some (_, t) => Some (arr_get (pt_ent t) (l3_idx va))
       end.

(** The hardware view of a page: writable, executable, tagged copy-on-write. *)
Record hw_bits := mk_hw { hw_writable : bool; hw_executable : bool; hw_cow : bool }.

Definition task_page_validate_hw (m : vm_state) (up : user_page) : option hw_bits :=
  if negb (up_used up) then None
  else match task_get_user_pte m (up_va up) with
       | None => None
       | Some pte =>
           if negb (task_pte_is_user_page pte) then None
           else
             let pa := Z.land pte PTE_ADDR_MASK in
             let pte_wr := task_pte_is_user_writable pte in
             let pte_x := task_pte_is_user_executable pte in
             let pte_cow := task_pte_is_cow pte in
             if negb (pa =? up_pa up) then None
             else if negb (up_writable_intent up) && (pte_wr || pte_cow) then None
             else if pte_cow && pte_wr then None
             else if pte_cow && negb (up_writable_intent up) then None
             else Some (mk_hw pte_wr pte_x pte_cow)
       end.

#[global] Arguments task_user_attrs : simpl never.
#[global] Arguments mmu_make_page : simpl never.

(** ** Descriptor arithmetic *)

(** An address a descriptor can hold. *)
Definition frame_ok (pa : Z) : Prop := page_aligned pa /\ 0 <= pa < 2 ^ 48.

Lemma land_frame pa : frame_ok pa -> Z.land pa PTE_ADDR_MASK = pa.
Proof.
  intros [Ha Hr]. change PTE_ADDR_MASK with (Z.land (Z.ones 48) (not64 (2 ^ 12 - 1))).
  rewrite Z.land_assoc, Z.land_ones, Z.mod_small by lia.
  rewrite land_not64_mask; [|unfold is_u64; lia|lia]. unfold page_aligned in Ha.
  change (2 ^ 12) with 4096. lia.
Qed.

Lemma land_frame_0 pa mask : frame_ok pa -> Z.land PTE_ADDR_MASK mask = 0 -> Z.land pa mask = 0.
Proof.
  intros Hf Hm. rewrite <- (land_frame pa Hf), <- Z.land_assoc, Hm. apply Z.land_0_r.
Qed.

Lemma land_page_mask pa : frame_ok pa -> Z.land pa PAGE_MASK = pa.
Proof.
  intros Hf. rewrite <- (land_frame pa Hf) at 1. rewrite <- Z.land_assoc.
  change (Z.land PTE_ADDR_MASK PAGE_MASK) with PTE_ADDR_MASK. by apply land_frame.
Qed.

(** The part of a descriptor below a mask: that of the address or of the
    constant bits. *)
Lemma desc_addr pa c : frame_ok pa -> Z.land c PTE_ADDR_MASK = 0 -> Z.land (Z.lor pa c) PTE_ADDR_MASK = pa.
Proof. intros Hf Hc. rewrite Z.land_lor_distr_l, land_frame, Hc by done. apply Z.lor_0_r. Qed.

Lemma desc_bits pa c mask :
  frame_ok pa -> Z.land PTE_ADDR_MASK mask = 0 -> Z.land (Z.lor pa c) mask = Z.land c mask.
Proof. intros Hf Hm. by rewrite Z.land_lor_distr_l, land_frame_0. Qed.

Lemma make_table_eq pa : frame_ok pa -> mmu_make_table pa = Z.lor pa 3.
Proof. intros Hf. unfold mmu_make_table. rewrite land_page_mask, <- Z.lor_assoc by done. done. Qed.

Lemma make_page_eq pa attrs : frame_ok pa -> mmu_make_page pa attrs = Z.lor pa (Z.lor attrs 3).
Proof. intros Hf. unfold mmu_make_page. rewrite land_page_mask, <- !Z.lor_assoc by done. done. Qed.

Lemma make_table_fields pa :
  frame_ok pa -> Z.land (mmu_make_table pa) 3 = 3 /\ Z.land (mmu_make_table pa) PTE_ADDR_MASK = pa.
Proof. intros Hf. rewrite make_table_eq by done. by rewrite desc_bits, desc_addr. Qed.

Lemma make_page_fields pa w x c :
  frame_ok pa ->
  let pte := mmu_make_page pa (task_user_attrs w x c) in
  Z.land pte 3 = 3 /\ Z.land pte PTE_ADDR_MASK = pa /\ task_pte_is_user_page pte = true /\
  has_bits pte PTE_AP_EL0_RW = true /\ task_pte_is_user_writable pte = w /\
  task_pte_is_user_executable pte = x /\ task_pte_is_cow pte = c.
Proof.
  intros Hf. cbv zeta.
  unfold task_pte_is_user_page, task_pte_is_user_writable, task_pte_is_user_executable,
    task_pte_is_cow, has_bits.
  rewrite make_page_eq, desc_addr by (done || by destruct w, x, c).
  rewrite !(desc_bits pa) by done.
  destruct w, x, c; split_and!; vm_compute; reflexivity.
Qed.

(** ** The architecture's walk *)

(** [tab] gives the contents of the table at an address. The result is the output
    address and the descriptor of the page or block. *)
Definition walk (tab : Z -> gmap Z Z) (root va : Z) : option (Z * Z) :=
  if (va <? 0) || (2 ^ 39 <=? va) then None
  else
    let e1 := arr_get (tab root) (va / 2 ^ 30) in
    if Z.land e1 3 =? 1 then Some (Z.land e1 L1_ADDR_MASK + va mod 2 ^ 30, e1)
    else if negb (Z.land e1 3 =? 3) then None
    else
      let e2 := arr_get (tab (Z.land e1 PTE_ADDR_MASK)) (va / 2 ^ 21 mod 512) in
      if Z.land e2 3 =? 1 then Some (Z.land e2 L2_ADDR_MASK + va mod 2 ^ 21, e2)
      else if negb (Z.land e2 3 =? 3) then None
      else
        let e3 := arr_get (tab (Z.land e2 PTE_ADDR_MASK)) (va / 2 ^ 12 mod 512) in
        if Z.land e3 3 =? 3 then Some (Z.land e3 PTE_ADDR_MASK + va mod 2 ^ 12, e3) else None.

(** The access a user program gets: the physical address, and whether it may
    write and execute there. *)
Definition el0_view (r : option (Z * Z)) : option (Z * bool * bool) :=
  match r with
  | Some (pa, e) =>
      if has_bits e PTE_AP_EL0_RW
      then Some (pa, task_pte_is_user_writable e, task_pte_is_user_executable e) else None
  | None => None
  end.

(** The tables in memory: each at its address. *)
Fixpoint tables (ts : list ptable) (p : Z) : gmap Z Z :=
  match ts with
  | [] => ∅
  | t :: ts => if p =? pt_page t then pt_ent t else tables ts p
  end.

Definition kernel_tables (k1 k2 : Z) : Z -> gmap Z Z :=
  tables [mk_ptable k1 (kernel_l1 k2); mk_ptable k2 kernel_l2_low].

Definition opt_list {A} (o : option A) : list A := match o with Some x => [x] | None => [] end.

Definition task_tables (m : vm_state) : Z -> gmap Z Z :=
  tables (opt_list (l1 m) ++ opt_list (l2_low m) ++ opt_list (l3_user_a m) ++ opt_list (l3_user_b m)).

Definition el0_translate (m : vm_state) (va : Z) : option (Z * bool * bool) :=
  el0_view (walk (task_tables m) (Z.land (mmu_ttbr0_value (ttbr0_phys m) (asid m)) PTE_ADDR_MASK) va).

(** The tables as [task_pt_setup] leaves them, with any user entries. *)
Record tables_ready (m : vm_state) : Prop := {
  ready_pages : exists p1 p2 pa pb ea eb,
    l1 m = Some (mk_ptable p1 (low_l1 p2)) /\ l2_low m = Some (mk_ptable p2 (task_l2 pa pb)) /\
    l3_user_a m = Some (mk_ptable pa ea) /\ l3_user_b m = Some (mk_ptable pb eb) /\
    Forall frame_ok [p1; p2; pa; pb] /\ NoDup [p1; p2; pa; pb] /\ ttbr0_phys m = p1;
}.

Lemma ttbr0_addr p a : frame_ok p -> Z.land (mmu_ttbr0_value p a) PTE_ADDR_MASK = p.
Proof.
  intros Hf. unfold mmu_ttbr0_value. change 0x0000FFFFFFFFF000 with PTE_ADDR_MASK.
  rewrite (land_frame p Hf). apply desc_addr; [done|].
  unfold asid_field, u64. rewrite Z.shiftl_mul_pow2 by lia.
  apply Z.bits_inj'. intros n Hn. rewrite Z.land_spec, Z.bits_0.
  destruct (Z.ltb_spec n 48).
  - rewrite Z.mod_pow2_bits_low, Z.mul_pow2_bits_low by lia. done.
  - rewrite (Z.bits_above_log2 PTE_ADDR_MASK n); [apply andb_false_r|done|].
    change (Z.log2 PTE_ADDR_MASK) with 47. lia.
Qed.

(** The device blocks map their own addresses, for the kernel only. *)
Definition device_entry_ok (kv : Z * Z) : bool :=
  (Z.land kv.2 3 =? 1) && negb (has_bits kv.2 PTE_AP_EL0_RW) &&
  (Z.land kv.2 L2_ADDR_MASK =? kv.1 * 2 ^ 21) &&
  negb (kv.1 =? Z.shiftr USER_VA_BASE 21) && negb (kv.1 =? Z.shiftr (USER_VA_LIMIT - 1) 21).

Lemma map_forallb (f : Z * Z -> bool) (m : gmap Z Z) k e :
  forallb f (map_to_list m) = true -> m !! k = Some e -> f (k, e) = true.
Proof.
  intros Hall H. rewrite forallb_forall in Hall.
  apply Hall, list_elem_of_In, elem_of_map_to_list, H.
Qed.

Lemma low_devices_ok k e : low_devices !! k = Some e -> device_entry_ok (k, e) = true.
Proof. apply map_forallb. vm_compute. reflexivity. Qed.

#[global] Opaque low_devices.

(** What one device block gives. *)
Lemma low_device_cases k :
  let e := arr_get low_devices k in
  e = 0 \/
  (Z.land e 3 = 1 /\ has_bits e PTE_AP_EL0_RW = false /\ Z.land e L2_ADDR_MASK = k * 2 ^ 21 /\
   k <> 2 /\ k <> 3).
Proof.
  unfold arr_get. destruct (low_devices !! k) as [e|] eqn:E; simpl; [right|by left].
  apply low_devices_ok in E. unfold device_entry_ok in E. simpl in E. bool_hyps.
  change (Z.shiftr 4194304 21) with 2 in *. change (Z.shiftr (8388608 - 1) 21) with 3 in *.
  split_and!; done || lia.
Qed.

Lemma arr_get_ins (m : gmap Z Z) i j v :
  arr_get (<[i := v]> m) j = if decide (i = j) then v else arr_get m j.
Proof. unfold arr_get. rewrite lookup_insert. by case_decide. Qed.

(** The level-1 table: the low gigabyte through [l2], RAM and the ECAM window for the
    kernel at their own addresses, nothing else. *)
Lemma low_l1_cases l2 k :
  let e := arr_get (low_l1 l2) k in
  (k = 0 /\ e = mmu_make_table l2) \/
  (k <> 0 /\ (e = 0 \/ (Z.land e 3 = 1 /\ has_bits e PTE_AP_EL0_RW = false /\
                        Z.land e L1_ADDR_MASK = k * 2 ^ 30))).
Proof.
  cbv zeta. unfold low_l1. rewrite !arr_get_ins. change (Z.shiftr PCIE_ECAM_BASE 30) with 256.
  repeat case_decide; subst; try done.
  - right. split; [done|right]. split_and!; vm_compute; reflexivity.
  - right. split; [done|right]. split_and!; vm_compute; reflexivity.
  - by left.
  - right. split; [congruence|by left].
Qed.

(** The level-2 table of a task: the two user tables and the device blocks. *)
Lemma task_l2_cases a b k :
  arr_get (task_l2 a b) k =
  if decide (k = 3) then mmu_make_table b else if decide (k = 2) then mmu_make_table a
  else arr_get low_devices k.
Proof.
  unfold task_l2. rewrite !arr_get_ins. change (Z.shiftr USER_VA_BASE 21) with 2.
  change (Z.shiftr (USER_VA_LIMIT - 1) 21) with 3. repeat case_decide; congruence.
Qed.

Lemma tables_head t ts p : pt_page t = p -> tables (t :: ts) p = pt_ent t.
Proof. intros <-. simpl. by rewrite Z.eqb_refl. Qed.

Lemma tables_skip t ts p : pt_page t <> p -> tables (t :: ts) p = tables ts p.
Proof. intros H. simpl. destruct (Z.eqb_spec p (pt_page t)); congruence. Qed.

(** The contents of each table of a ready task. *)
Lemma ready_tables m :
  tables_ready m ->
  exists p1 p2 pa pb ea eb,
    l3_user_a m = Some (mk_ptable pa ea) /\ l3_user_b m = Some (mk_ptable pb eb) /\
    Forall frame_ok [p1; p2; pa; pb] /\
    Z.land (mmu_ttbr0_value (ttbr0_phys m) (asid m)) PTE_ADDR_MASK = p1 /\
    task_tables m p1 = low_l1 p2 /\ task_tables m p2 = task_l2 pa pb /\
    task_tables m pa = ea /\ task_tables m pb = eb.
Proof.
  intros [(p1 & p2 & pa & pb & ea & eb & H1 & H2 & H3 & H4 & Hf & Hnd & Hr)].
  exists p1, p2, pa, pb, ea, eb. rewrite Hr. unfold task_tables. rewrite H1, H2, H3, H4.
  cbn [opt_list app]. repeat rewrite NoDup_cons in Hnd.
  destruct Hnd as (N1 & N2 & N3 & _).
  assert (p1 <> p2 /\ p1 <> pa /\ p1 <> pb) as (? & ? & ?) by set_solver.
  assert (p2 <> pa /\ p2 <> pb /\ pa <> pb) as (? & ? & ?) by set_solver.
  clear N1 N2 N3. split; [reflexivity|]. split; [reflexivity|]. split; [exact Hf|].
  split; [apply ttbr0_addr; by inversion Hf|].
  split_and!; repeat (rewrite tables_skip by assumption); by apply tables_head.
Qed.

Lemma l3_idx_div va : l3_idx va = va / 2 ^ 12 mod 512.
Proof.
  unfold l3_idx. rewrite Z.shiftr_div_pow2 by lia. change 0x1FF with (2 ^ 9 - 1).
  by rewrite land_mask_mod.
Qed.

Lemma l3_idx_page va : l3_idx (va - va mod 4096) = l3_idx va.
Proof.
  rewrite !l3_idx_div. f_equal. change (2 ^ 12) with 4096. dlia.
Qed.

Definition user_va (va : Z) : Prop := USER_VA_BASE <= va < USER_VA_LIMIT.

#[global] Instance user_va_dec va : Decision (user_va va).
Proof. unfold user_va. apply _. Defined.

Lemma user_va_ok va : user_va va -> page_aligned va -> user_va_bad va = false.
Proof.
  unfold user_va, user_va_bad, page_aligned. intros Hr Ha. rewrite page_offset_mod. lia.
Qed.

Lemma user_va_good va : user_va_bad va = false -> user_va va /\ page_aligned va.
Proof.
  unfold user_va, user_va_bad, page_aligned. rewrite page_offset_mod. intros H. bool_hyps. lia.
Qed.

(** Which table covers a user address. *)
Lemma l3_for_user_va m va :
  user_va va ->
  task_l3_for_va m va =
  if decide (va < 0x600000) then pair L3A <$> l3_user_a m else pair L3B <$> l3_user_b m.
Proof.
  unfold user_va, task_l3_for_va. intros Hv. rewrite Z.shiftr_div_pow2 by lia.
  change (Z.shiftr USER_VA_BASE 21) with 2. change (Z.shiftr (USER_VA_LIMIT - 1) 21) with 3.
  change (2 ^ 21) with 0x200000.
  destruct (decide (va < 0x600000)).
  - replace (va / 0x200000 =? 2) with true by (symmetry; apply Z.eqb_eq; dlia). done.
  - replace (va / 0x200000 =? 2) with false by (symmetry; apply Z.eqb_neq; dlia).
    replace (va / 0x200000 =? 3) with true by (symmetry; apply Z.eqb_eq; dlia). done.
Qed.

Lemma land_not_3 e : Z.land e 3 = 1 -> (Z.land e 3 =? 3) = false.
Proof. intros ->. done. Qed.

(** A user address is translated by its level-3 entry. *)
Lemma walk_user m va :
  tables_ready m -> user_va va ->
  walk (task_tables m) (Z.land (mmu_ttbr0_value (ttbr0_phys m) (asid m)) PTE_ADDR_MASK) va =
  match task_get_user_pte m (va - va mod 4096) with
  | Some e => if Z.land e 3 =? 3 then Some (Z.land e PTE_ADDR_MASK + va mod 4096, e) else None
  | None => None
  end.
Proof.
  intros (p1 & p2 & pa & pb & ea & eb & Ha & Hb & Hf & Hroot & T1 & T2 & T3 & T4)%ready_tables Hv.
  rewrite Hroot. clear Hroot. unfold user_va in Hv. rewrite !Forall_cons in Hf.
  destruct Hf as (_ & F2 & F3 & F4 & _).
  assert (Hp : user_va (va - va mod 4096)) by (unfold user_va; dlia).
  unfold task_get_user_pte. rewrite user_va_ok by (done || unfold page_aligned; dlia).
  rewrite l3_for_user_va, l3_idx_page, l3_idx_div by done.
  unfold walk. replace ((va <? 0) || (2 ^ 39 <=? va)) with false by lia. cbv zeta. rewrite T1.
  replace (va / 2 ^ 30) with 0 by (change (2 ^ 30) with 0x40000000; dlia).
  destruct (low_l1_cases p2 0) as [[_ ->]|[? _]]; [|done].
  destruct (make_table_fields p2 F2) as [E1 E2]. rewrite E1, E2, T2, task_l2_cases. simpl.
  destruct (make_table_fields pa F3) as [Ea Ea']. destruct (make_table_fields pb F4) as [Eb Eb'].
  change (2 ^ 21) with 0x200000.
  destruct (decide (va - va mod 4096 < 0x600000)).
  - rewrite (decide_False (P := va / 0x200000 mod 512 = 3)) by dlia.
    rewrite (decide_True (P := va / 0x200000 mod 512 = 2)) by dlia.
    rewrite Ea, Ea', T3, Ha. done.
  - rewrite (decide_True (P := va / 0x200000 mod 512 = 3)) by dlia.
    rewrite Eb, Eb', T4, Hb. done.
Qed.

(** Elsewhere a walk gives the kernel's identity mapping, or nothing, from any
    tables whose level 1 is [low_l1] and whose level 2 is the device blocks outside
    the user range. *)
Lemma walk_low tab p1 p2 va :
  frame_ok p2 -> tab p1 = low_l1 p2 ->
  (forall k, k <> 2 -> k <> 3 -> arr_get (tab p2) k = arr_get low_devices k) ->
  ~ user_va va ->
  walk tab p1 va = None \/
  (exists e, walk tab p1 va = Some (va, e) /\ has_bits e PTE_AP_EL0_RW = false).
Proof.
  intros F2 T1 T2 Hv. unfold walk. destruct ((va <? 0) || (2 ^ 39 <=? va)) eqn:Er; [by left|].
  bool_hyps. cbv zeta. rewrite T1. unfold user_va in Hv.
  destruct (low_l1_cases p2 (va / 2 ^ 30)) as [[Hk ->]|[Hk [->|(E1 & E2 & E3)]]]; [|by left|].
  - destruct (make_table_fields p2 F2) as [E1 E2]. rewrite E1, E2. simpl.
    change (2 ^ 30) with 0x40000000 in Hk. change (2 ^ 21) with 0x200000.
    rewrite T2 by dlia.
    destruct (low_device_cases (va / 0x200000 mod 512)) as [->|(D1 & D2 & D3 & _)]; [by left|].
    rewrite D1. simpl. right. exists (arr_get low_devices (va / 0x200000 mod 512)).
    rewrite D3. split; [|done]. do 2 f_equal. change (2 ^ 21) with 0x200000. dlia.
  - rewrite E1. simpl. right. exists (arr_get (low_l1 p2) (va / 2 ^ 30)). rewrite E3.
    split; [|done]. do 2 f_equal. change (2 ^ 30) with 0x40000000. dlia.
Qed.

Lemma low_l1_other a b k : k <> 0 -> arr_get (low_l1 a) k = arr_get (low_l1 b) k.
Proof.
  intros Hk. unfold low_l1. rewrite !arr_get_ins. repeat case_decide; congruence.
Qed.

(** Two sets of tables with the kernel's entries translate every other address alike. *)
Lemma walk_low_same tab tab' p1 p2 q1 q2 va :
  frame_ok p2 -> frame_ok q2 -> tab p1 = low_l1 p2 -> tab' q1 = low_l1 q2 ->
  (forall k, k <> 2 -> k <> 3 -> arr_get (tab p2) k = arr_get low_devices k) ->
  (forall k, k <> 2 -> k <> 3 -> arr_get (tab' q2) k = arr_get low_devices k) ->
  ~ user_va va -> walk tab p1 va = walk tab' q1 va.
Proof.
  intros F2 G2 T1 S1 T2 S2 Hv. unfold walk. destruct ((va <? 0) || (2 ^ 39 <=? va)) eqn:Er; [done|].
  bool_hyps. cbv zeta. rewrite T1, S1. unfold user_va in Hv.
  destruct (decide (va / 2 ^ 30 = 0)) as [Hk|Hk].
  - rewrite Hk. destruct (low_l1_cases p2 0) as [[_ ->]|[? _]]; [|done].
    destruct (low_l1_cases q2 0) as [[_ ->]|[? _]]; [|done].
    destruct (make_table_fields p2 F2) as [E1 E2], (make_table_fields q2 G2) as [G1 G3].
    rewrite E1, E2, G1, G3. simpl. change (2 ^ 30) with 0x40000000 in Hk. change (2 ^ 21) with 0x200000.
    rewrite T2, S2 by dlia.
    by destruct (low_device_cases (va / 0x200000 mod 512)) as [->|(-> & _)].
  - rewrite (low_l1_other p2 q2) by done.
    by destruct (low_l1_cases q2 (va / 2 ^ 30)) as [[? _]|[_ [->|(-> & _)]]].
Qed.

Lemma ready_low m :
  tables_ready m ->
  exists p2, frame_ok p2 /\
    task_tables m (Z.land (mmu_ttbr0_value (ttbr0_phys m) (asid m)) PTE_ADDR_MASK) = low_l1 p2 /\
    forall k, k <> 2 -> k <> 3 -> arr_get (task_tables m p2) k = arr_get low_devices k.
Proof.
  intros (p1 & p2 & pa & pb & ea & eb & _ & _ & Hf & Hroot & T1 & T2 & _)%ready_tables.
  exists p2. rewrite Hroot, T2. split; [rewrite !Forall_cons in Hf; by destruct Hf as (_ & ? & _)|].
  split; [done|]. intros k ? ?. rewrite task_l2_cases, !decide_False by done. reflexivity.
Qed.

(** What a user program gets from its tables. *)
Lemma el0_translate_eq m va :
  tables_ready m ->
  el0_translate m va =
  if decide (user_va va) then
    match task_get_user_pte m (va - va mod 4096) with
    | Some e => el0_view (if Z.land e 3 =? 3 then Some (Z.land e PTE_ADDR_MASK + va mod 4096, e) else None)
    | None => None
    end
  else None.
Proof.
  intros Hr. unfold el0_translate. destruct (decide (user_va va)) as [Hv|Hv].
  - rewrite walk_user by done. by destruct (task_get_user_pte _ _).
  - destruct (ready_low m Hr) as (p2 & F2 & T1 & T2).
    destruct (walk_low _ _ p2 va F2 T1 T2 Hv) as [->|(e & -> & He)]; [done|].
    simpl. by rewrite He.
Qed.

(** ** Writing a user entry *)

Lemma page_of_same va w : user_va va -> page_aligned w -> (va - va mod 4096 = w <-> w <= va < w + 4096).
Proof. unfold user_va, page_aligned. intros. dlia. Qed.

Lemma l3_idx_inj va w :
  user_va va -> user_va w -> page_aligned va -> page_aligned w ->
  (va < 0x600000 <-> w < 0x600000) -> l3_idx va = l3_idx w -> va = w.
Proof.
  unfold user_va, page_aligned. rewrite !l3_idx_div. change (2 ^ 12) with 4096. intros. dlia.
Qed.

(** Storing an entry: it is read back, and no other user entry changes. *)
Lemma l3_store_get m w t va pte va' :
  user_va_bad va = false -> task_l3_for_va m va = Some (w, t) ->
  task_get_user_pte (l3_store m w t va pte) va' =
  if decide (va' = va) then Some pte else task_get_user_pte m va'.
Proof.
  intros Hb Hl. pose proof (user_va_good va Hb) as [Hv Ha].
  unfold task_get_user_pte. destruct (user_va_bad va') eqn:Hb'.
  { rewrite decide_False; [done|]. intros ->. congruence. }
  destruct (user_va_good va' Hb') as [Hv' Ha'].
  rewrite !l3_for_user_va in * by done.
  destruct (decide (va < 0x600000)) as [Hlt|Hlt];
    [destruct (l3_user_a m) as [ta|] eqn:Et|destruct (l3_user_b m) as [ta|] eqn:Et]; simplify_eq/=;
    (destruct (decide (va' < 0x600000)) as [Hlt'|Hlt']; simpl).
  1, 4: rewrite arr_get_ins; destruct (decide (va' = va)) as [->|Hne]; [by rewrite decide_True|];
    rewrite decide_False, ?Et; [done|]; intros Heq; apply Hne, l3_idx_inj; congruence || lia.
  all: rewrite decide_False by (intros ->; lia); by rewrite ?Et.
Qed.

Lemma l3_store_ready m w t va pte :
  task_l3_for_va m va = Some (w, t) -> tables_ready m -> tables_ready (l3_store m w t va pte).
Proof.
  intros Hl [(p1 & p2 & pa & pb & ea & eb & H1 & H2 & H3 & H4 & Hf & Hnd & Hr)].
  unfold task_l3_for_va in Hl. rewrite H3, H4 in Hl.
  constructor. exists p1, p2, pa, pb.
  destruct (_ =? _); [|destruct (_ =? _)]; simplify_eq/=.
  - eexists _, eb. by split_and!.
  - eexists ea, _. by split_and!.
Qed.

Lemma set_pte_Some m va pa attrs m' :
  task_set_user_pte m va pa attrs = Some m' ->
  user_va_bad va = false /\
  exists w t, task_l3_for_va m va = Some (w, t) /\ m' = l3_store m w t va (mmu_make_page pa attrs).
Proof.
  unfold task_set_user_pte. destruct (user_va_bad va); [done|].
  destruct (task_l3_for_va m va) as [[w t]|] eqn:E; [|done]. intros [= <-]. eauto.
Qed.

Lemma set_pte_get m va pa attrs m' va' :
  task_set_user_pte m va pa attrs = Some m' ->
  task_get_user_pte m' va' =
  if decide (va' = va) then Some (mmu_make_page pa attrs) else task_get_user_pte m va'.
Proof. intros (Hb & w & t & Hl & ->)%set_pte_Some. by apply l3_store_get. Qed.

Lemma set_pte_translate m va pa w x c m' :
  tables_ready m -> frame_ok pa ->
  task_set_user_pte m va pa (task_user_attrs w x c) = Some m' ->
  tables_ready m' /\
  forall va', el0_translate m' va' =
    if decide (va <= va' < va + PAGE_SIZE) then Some (pa + (va' - va), w, x) else el0_translate m va'.
Proof.
  intros Hr Hf Hs. pose proof (set_pte_Some _ _ _ _ _ Hs) as (Hb & sel & t & Hl & Hm').
  assert (Hr' : tables_ready m') by (subst; by apply l3_store_ready).
  split; [done|]. intros va'. apply user_va_good in Hb as [Hv Ha].
  rewrite !el0_translate_eq by done. destruct (decide (user_va va')) as [Hv'|Hv'].
  - rewrite (set_pte_get _ _ _ _ _ _ Hs). pose proof (page_of_same va' va Hv' Ha) as Hp.
    destruct (decide (va <= va' < va + 4096)) as [Hin|Hout].
    + rewrite decide_True by tauto. apply Hp in Hin as Hpg.
      destruct (make_page_fields pa w x c Hf) as (E1 & E2 & _ & E4 & E5 & E6 & _).
      rewrite E1, E2. simpl. rewrite E4, E5, E6. do 3 f_equal. lia.
    + rewrite decide_False by tauto. done.
  - rewrite decide_False; [done|]. unfold user_va, page_aligned in *. dlia.
Qed.

(** Installing a user page (task_set_user_pte with the attributes of task_user_attrs)
    makes exactly the 4096 bytes of that page translate, in the hardware walk at
    EL0, to the given frame with the given write and execute rights; every other
    address translates as before, and the tables stay well formed. *)
Theorem user_pte_install_correct m va pa w x c m' :
  tables_ready m -> frame_ok pa ->
  task_set_user_pte m va pa (task_user_attrs w x c) = Some m' ->
  tables_ready m' /\
  forall va', el0_translate m' va' =
    if decide (va <= va' < va + PAGE_SIZE) then Some (pa + (va' - va), w, x) else el0_translate m va'.
Proof. apply set_pte_translate. Qed.

(** The tables of a fresh task, with the frames of its four tables. *)
Definition fresh_tables (m : vm_state) (p1 p2 pa pb : Z) : vm_state :=
  set_ttbr0_phys
    (set_l3_user_b (set_l3_user_a (set_l2_low (set_l1 m (Some (mk_ptable p1 (low_l1 p2))))
       (Some (mk_ptable p2 (task_l2 pa pb)))) (Some (mk_ptable pa ∅))) (Some (mk_ptable pb ∅))) p1.

Lemma fresh_tables_ready m p1 p2 pa pb :
  Forall frame_ok [p1; p2; pa; pb] -> NoDup [p1; p2; pa; pb] ->
  tables_ready (fresh_tables m p1 p2 pa pb).
Proof. intros Hf Hn. constructor. exists p1, p2, pa, pb, ∅, ∅. split_and!; done. Qed.

Definition demo_tables : vm_state :=
  fresh_tables vm_state_zero 0x40400000 0x40401000 0x40402000 0x40403000.

Lemma demo_tables_ready : tables_ready demo_tables.
Proof.
  apply fresh_tables_ready.
  - repeat constructor; done.
  - repeat constructor; set_solver.
Qed.

Lemma user_pte_install_correct_witness :
  exists m', task_set_user_pte demo_tables 0x500000 0x40500000 (task_user_attrs true false false) = Some m' /\
    el0_translate m' 0x500010 = Some (0x40500010, true, false).
Proof.
  destruct (task_set_user_pte demo_tables 0x500000 0x40500000 (task_user_attrs true false false))
    as [m'|] eqn:E; [|vm_compute in E; discriminate].
  exists m'. split; [reflexivity|].
  destruct (user_pte_install_correct demo_tables 0x500000 0x40500000 true false false m'
    demo_tables_ready ltac:(repeat constructor; done) E) as [_ H].
  rewrite H. reflexivity.
Defined.


