(* ===== verification/Vma.v ===== *)
(** * Mapped ranges of a task (kernel/task.c)

    The table of [vm_area_t] of a task: lookup, overlap and coverage tests, the
    heap limit, splitting a range and cutting a piece out of one. These functions
    work on the address-space fields of a task alone; Vm.v composes them into
    mmap, munmap, mprotect and brk, with the pages.

    The table stands for a map from addresses to what is mapped there: the file
    and the offset in it, the protection and the flags ([vma_view]). *)

From S2P Require Import Prelude TaskDefs Mmu.

Abbreviation USER_STACK_TOP := 0x007FF000 (only parsing).
Abbreviation USER_STACK_PAGES := 8 (only parsing).
Abbreviation MAP_SHARED := 1 (only parsing).
Abbreviation MAP_PRIVATE := 2 (only parsing).
Abbreviation MAP_FIXED := 0x10 (only parsing).
Abbreviation MAP_ANONYMOUS := 0x20 (only parsing).
Abbreviation O_RDONLY := 0 (only parsing).
Abbreviation O_WRONLY := 1 (only parsing).
Abbreviation O_RDWR := 2 (only parsing).
Abbreviation O_ACCMODE := 3 (only parsing).

(** ** Operations *)

Definition task_stack_floor (m : vm_state) : Z :=
  if negb (stack_base m =? 0) then stack_base m else USER_STACK_TOP - USER_STACK_PAGES * PAGE_SIZE.

Definition task_fd_mode (flags : Z) : Z := Z.land flags O_ACCMODE.

Definition task_vma_prot_valid (prot : Z) : bool :=
  Z.land prot (Z.lnot (Z.lor (Z.lor PROT_READ PROT_WRITE) PROT_EXEC)) =? 0.

Definition task_vma_flags_valid (flags : Z) : bool :=
  let map_kind := Z.land flags (Z.lor MAP_PRIVATE MAP_SHARED) in
  if negb ((map_kind =? MAP_PRIVATE) || (map_kind =? MAP_SHARED)) then false
  else if has_bits flags
            (Z.lnot (Z.lor (Z.lor (Z.lor MAP_PRIVATE MAP_SHARED) MAP_ANONYMOUS) MAP_FIXED))
  then false else true.

Definition task_vma_slot (m : vm_state) : option nat :=
  find_idx (fun v => negb (vma_used v)) (vmas m).

Definition vma_covers (va : Z) (v : vm_area) : bool :=
  vma_used v && (vma_start v <=? va) && (va <? vma_end v).

Definition task_vma_find (m : vm_state) (va : Z) : option nat := find_idx (vma_covers va) (vmas m).

Definition vma_at (m : vm_state) (i : nat) : vm_area := vmas m !!! i.

Definition set_vma (m : vm_state) (i : nat) (v : vm_area) : vm_state := set_vmas m (<[i := v]> (vmas m)).

Definition task_vma_overlaps (m : vm_state) (start fin : Z) : bool :=
  if fin <=? start then true
  else existsb (fun v => vma_used v && ((start <? vma_end v) && (vma_start v <? fin))) (vmas m).

Fixpoint range_mapped_loop (fuel : nat) (m : vm_state) (cur fin : Z) : bool :=
  match fuel with
  | O => false
  | S fuel =>
      if negb (cur <? fin) then true
      else match task_vma_find m cur with
           | None => false
           | Some i =>
               let v := vma_at m i in
               if vma_end v <=? cur then false
               else range_mapped_loop fuel m (if vma_end v <? fin then vma_end v else fin) fin
           end
  end.

(** Each round moves past the end of another entry of the table. *)
Definition task_vma_range_mapped (m : vm_state) (start fin : Z) : bool :=
  if fin <=? start then false else range_mapped_loop (S (length (vmas m))) m start fin.

Definition task_recompute_heap_limit (m : vm_state) : vm_state :=
  set_heap_limit m
    (foldl (fun limit v =>
              if negb (vma_used v) then limit
              else if (heap_end m <=? vma_start v) && (vma_start v <? limit) then vma_start v
              else limit)
       (task_stack_floor m) (vmas m)).

Definition task_clear_vmas (m : vm_state) : vm_state :=
  task_recompute_heap_limit (set_vmas m (replicate MAX_VMAS vm_area_zero)).

Definition task_vma_free_slots (m : vm_state) : Z := countb (fun v => negb (vma_used v)) (vmas m).

Definition task_vma_split_at (m : vm_state) (addr : Z) : bool * vm_state :=
  if negb (Z.land addr (PAGE_SIZE - 1) =? 0) then (false, m)
  else
    match find_idx (fun v => vma_used v && negb ((addr <=? vma_start v) || (vma_end v <=? addr)))
            (vmas m) with
    | None => (true, m)
    | Some i =>
        let v := vma_at m i in
        match task_vma_slot m with
        | None => (false, m)
        | Some slot =>
            let old_start := vma_start v in
            let m := set_vma m slot
              (set_vma_file_offset (set_vma_start v addr) (u64 (vma_file_offset v + (addr - old_start)))) in
            (true, set_vma m i (set_vma_end (vma_at m i) addr))
        end
    end.

Definition vma_meets (start fin : Z) (v : vm_area) : bool :=
  vma_used v && negb ((fin <=? vma_start v) || (vma_end v <=? start)).

Definition cut_start (start : Z) (v : vm_area) : Z :=
  if vma_start v <? start then start else vma_start v.
Definition cut_end (fin : Z) (v : vm_area) : Z :=
  if fin <? vma_end v then fin else vma_end v.

Definition task_vma_split_need (m : vm_state) (start fin : Z) : Z :=
  if fin <=? start then -1
  else countb (fun v => vma_meets start fin v &&
                        ((vma_start v <? cut_start start v) && (cut_end fin v <? vma_end v))) (vmas m).

(** The part of the loop body of [task_vma_unmap_range] that edits the table: take
    [[cs, ce)] out of entry [i]. [None] when the slot for the tail is missing. *)
Definition vma_cut (m : vm_state) (i : nat) (cs ce : Z) : option vm_state :=
  let v := vma_at m i in
  if (cs <=? vma_start v) && (vma_end v <=? ce) then Some (set_vma m i vm_area_zero)
  else if cs <=? vma_start v then
    Some (set_vma m i
      (set_vma_file_offset (set_vma_start v ce) (u64 (vma_file_offset v + (ce - cs)))))
  else if vma_end v <=? ce then Some (set_vma m i (set_vma_end v cs))
  else
    match task_vma_slot m with
    | None => None
    | Some slot =>
        let old_start := vma_start v in
        let m := set_vma m slot
          (set_vma_file_offset (set_vma_start v ce) (u64 (vma_file_offset v + (ce - old_start)))) in
        Some (set_vma m i (set_vma_end (vma_at m i) cs))
    end.

(** The protection pass of [task_mprotect]. *)
Definition vmas_set_prot (m : vm_state) (start fin prot : Z) : vm_state :=
  set_vmas m
    (map (fun v => if vma_used v && ((start <=? vma_start v) && (vma_end v <=? fin))
                   then set_vma_prot v (u32 prot) else v) (vmas m)).

(** ** The abstract map *)

Record region := mk_region { r_inode : option Z; r_off : Z; r_prot : Z; r_flags : Z }.

Definition region_of (v : vm_area) (va : Z) : region :=
  mk_region (vma_inode v) (u64 (vma_file_offset v + (va - vma_start v))) (vma_prot v) (vma_flags v).

Definition vma_view (m : vm_state) (va : Z) : option region :=
  (fun i => region_of (vma_at m i) va) <$> task_vma_find m va.

(** ** The invariant of the table *)

Definition vma_ok (v : vm_area) : Prop :=
  0 <= vma_start v < vma_end v /\ vma_end v < 2 ^ 64 /\
  page_aligned (vma_start v) /\ page_aligned (vma_end v).

Record vmas_wf (l : list vm_area) : Prop := {
  vw_len : length l = MAX_VMAS;
  vw_ok i v : l !! i = Some v -> vma_used v = true -> vma_ok v;
  vw_disj i j v w : l !! i = Some v -> l !! j = Some w -> vma_used v = true -> vma_used w = true ->
    i <> j -> vma_end v <= vma_start w \/ vma_end w <= vma_start v;
}.

(** ** The table as a relation *)

Definition maps (l : list vm_area) (va : Z) (r : region) : Prop :=
  exists i v, l !! i = Some v /\ vma_covers va v = true /\ r = region_of v va.

Lemma covers_iff va v : vma_covers va v = true <-> vma_used v = true /\ vma_start v <= va < vma_end v.
Proof. unfold vma_covers. destruct (vma_used v); simpl; lia. Qed.

Lemma covers_unique l i j v w va :
  vmas_wf l -> l !! i = Some v -> l !! j = Some w ->
  vma_covers va v = true -> vma_covers va w = true -> i = j.
Proof.
  intros W Hi Hj [Uv Rv]%covers_iff [Uw Rw]%covers_iff. destruct (decide (i = j)); [done|].
  destruct (vw_disj _ W i j v w); try done; lia.
Qed.

Lemma maps_covered l i v va r :
  vmas_wf l -> l !! i = Some v -> vma_covers va v = true -> maps l va r <-> r = region_of v va.
Proof.
  intros W Hi Hc. split; [|intros ->; by exists i, v]. intros (j & x & Hj & Hx & ->).
  assert (j = i) as -> by exact (covers_unique _ _ _ _ _ _ W Hj Hi Hx Hc). by simplify_eq.
Qed.

Lemma find_covers m i v va :
  vmas_wf (vmas m) -> vmas m !! i = Some v -> vma_covers va v = true -> task_vma_find m va = Some i.
Proof.
  intros W Hi Hc. apply (find_idx_unique _ _ i v); [done..|]. intros j w Hj Hw. by eapply covers_unique.
Qed.

Lemma find_Some_covers m va i :
  task_vma_find m va = Some i -> exists v, vmas m !! i = Some v /\ vma_at m i = v /\ vma_covers va v = true.
Proof.
  intros (v & Hi & Hc & _)%find_idx_Some. exists v. split_and!; [done| |done].
  unfold vma_at. by apply list_lookup_total_correct.
Qed.

Lemma view_iff m va r : vmas_wf (vmas m) -> vma_view m va = Some r <-> maps (vmas m) va r.
Proof.
  intros W. unfold vma_view. split.
  - destruct (task_vma_find m va) as [i|] eqn:E; simpl; [|done]. intros [= <-].
    apply find_Some_covers in E as (v & Hi & -> & Hc). by exists i, v.
  - intros (i & v & Hi & Hc & ->). rewrite (find_covers m i v) by done. simpl. do 2 f_equal.
    unfold vma_at. by apply list_lookup_total_correct.
Qed.

(** Two tables with the same mappings, seen through the lookup. *)
Lemma view_ext m m' (f : Z -> region -> option region) :
  vmas_wf (vmas m) -> vmas_wf (vmas m') ->
  (forall va r, maps (vmas m') va r <-> exists r0, maps (vmas m) va r0 /\ f va r0 = Some r) ->
  forall va, vma_view m' va = vma_view m va ≫= f va.
Proof.
  intros W W' H va. apply option_eq. intros r. rewrite view_iff, H by done. rewrite bind_Some.
  split; intros (r0 & Hr & Hf); exists r0; (split; [|done]); by apply view_iff.
Qed.

(** A lookup in an updated table: the updated entry or an old one. *)
Ltac slot_cases H i j :=
  destruct (decide (i = j)) as [<-|?];
  [rewrite list_lookup_insert_eq in H by done|rewrite list_lookup_insert_ne in H by done].

(** Replacing an entry by a part of it, or by nothing. *)
Lemma edit_shrink l i v v' :
  vmas_wf l -> l !! i = Some v -> vma_used v = true ->
  (vma_used v' = true -> vma_ok v' /\ vma_start v <= vma_start v' /\ vma_end v' <= vma_end v) ->
  vmas_wf (<[i := v']> l) /\
  (forall va r, maps (<[i := v']> l) va r <->
     (maps l va r /\ vma_covers va v = false) \/ (vma_covers va v' = true /\ r = region_of v' va)).
Proof.
  intros W Hi Hu Hv'. assert (Hlt : (i < length l)%nat) by by eapply lookup_lt_Some. split.
  - constructor; [by rewrite length_insert, (vw_len _ W)| |].
    + intros j w Hj. slot_cases Hj i j; [|by apply (vw_ok _ W j)]. simplify_eq. intros Hu'. by apply Hv'.
    + intros j k w x Hj Hk Uw Ux Hne. slot_cases Hj i j; slot_cases Hk i k; simplify_eq.
      * destruct (Hv' Uw) as (_ & ? & ?). destruct (vw_disj _ W i k v x); try done; lia.
      * destruct (Hv' Ux) as (_ & ? & ?). destruct (vw_disj _ W j i w v); try done; lia.
      * by apply (vw_disj _ W j k).
  - intros va r. split.
    + intros (j & w & Hj & Hc & ->). slot_cases Hj i j; simplify_eq; [by right|].
      left. split; [by exists j, w|]. destruct (vma_covers va v) eqn:E; [|done].
      assert (i = j) by by eapply covers_unique. naive_solver.
    + intros [[(j & w & Hj & Hc & ->) Hn]|[Hc ->]].
      * exists j, w. split; [|done]. rewrite list_lookup_insert_ne; [done|]. intros ->. simplify_eq. congruence.
      * exists i, v'. split; [|done]. by apply list_lookup_insert_eq.
Qed.

(** Filling a free slot with a range nothing else covers. *)
Lemma edit_new l k u w :
  vmas_wf l -> l !! k = Some u -> vma_used u = false -> vma_used w = true -> vma_ok w ->
  (forall j x, l !! j = Some x -> vma_used x = true ->
     vma_end x <= vma_start w \/ vma_end w <= vma_start x) ->
  vmas_wf (<[k := w]> l) /\
  (forall va r, maps (<[k := w]> l) va r <->
     maps l va r \/ (vma_covers va w = true /\ r = region_of w va)).
Proof.
  intros W Hk Hu Uw Ow Hd. assert (Hlt : (k < length l)%nat) by by eapply lookup_lt_Some. split.
  - constructor; [by rewrite length_insert, (vw_len _ W)| |].
    + intros j x Hj. slot_cases Hj k j; [by simplify_eq|by apply (vw_ok _ W j)].
    + intros i j x y Hi Hj Ux Uy Hne. slot_cases Hi k i; slot_cases Hj k j; simplify_eq.
      * destruct (Hd j y); try done; lia.
      * destruct (Hd i x); try done; lia.
      * by apply (vw_disj _ W i j).
  - intros va r. split.
    + intros (j & x & Hj & Hc & ->). slot_cases Hj k j; simplify_eq; [by right|].
      left. by exists j, x.
    + intros [(j & x & Hj & Hc & ->)|[Hc ->]].
      * exists j, x. split; [|done]. rewrite list_lookup_insert_ne; [done|]. intros ->. simplify_eq.
        apply covers_iff in Hc as [? _]. congruence.
      * exists k, w. split; [|done]. by apply list_lookup_insert_eq.
Qed.

(** ** The operations on the abstract map *)

Lemma slot_Some m k :
  task_vma_slot m = Some k -> exists u, vmas m !! k = Some u /\ vma_used u = false.
Proof.
  intros (u & Hk & Hu & _)%find_idx_Some. exists u. split; [done|]. by destruct (vma_used u).
Qed.

Lemma vma_at_eq m i v : vmas m !! i = Some v -> vma_at m i = v.
Proof. unfold vma_at. apply list_lookup_total_correct. Qed.

Lemma u64_add_u64 a b : u64 (u64 a + b) = u64 (a + b).
Proof. unfold u64. apply Z.add_mod_idemp_l. lia. Qed.

(** A part of a range that starts later, with the file offset moved along, maps
    the same things. *)
Lemma region_of_shift v addr va :
  region_of (set_vma_file_offset (set_vma_start v addr) (u64 (vma_file_offset v + (addr - vma_start v)))) va =
  region_of v va.
Proof. unfold region_of. simpl. f_equal. rewrite u64_add_u64. f_equal. lia. Qed.

(** Splitting entry [i] into its part before [cs] and its part from [ce] on. *)
Lemma split_entry m i k v cs ce :
  vmas_wf (vmas m) -> vmas m !! i = Some v -> vma_used v = true -> task_vma_slot m = Some k ->
  vma_start v < cs <= ce -> ce < vma_end v -> page_aligned cs -> page_aligned ce ->
  let w := set_vma_file_offset (set_vma_start v ce) (u64 (vma_file_offset v + (ce - vma_start v))) in
  let m1 := set_vma m k w in
  let l' := vmas (set_vma m1 i (set_vma_end (vma_at m1 i) cs)) in
  l' = <[k := w]> (<[i := set_vma_end v cs]> (vmas m)) /\
  vmas_wf l' /\
  (forall va r, maps l' va r <-> maps (vmas m) va r /\ ~ cs <= va < ce).
Proof.
  intros W Hi Hu Hk Hcs Hce Acs Ace. cbv zeta. apply slot_Some in Hk as (u & Hk & Uu).
  assert (Hne : i <> k) by (intros ->; simplify_eq; congruence).
  set (w := set_vma_file_offset _ _). set (m1 := set_vma m k w).
  assert (E1 : vma_at m1 i = v).
  { apply vma_at_eq. unfold m1. simpl. by rewrite list_lookup_insert_ne. }
  rewrite E1. cbn [vmas set_vma set_vmas m1]. rewrite list_insert_insert_ne by done.
  pose proof (vw_ok _ W i v Hi Hu) as (R1 & R2 & A1 & A2).
  destruct (edit_shrink (vmas m) i v (set_vma_end v cs)) as [W1 M1]; [done..| |].
  { intros _. unfold vma_ok. simpl. split_and!; try done; lia. }
  destruct (edit_new (<[i := set_vma_end v cs]> (vmas m)) k u w) as [W2 M2]; try done.
  { by rewrite list_lookup_insert_ne. }
  { unfold vma_ok, w. simpl. split_and!; try done; lia. }
  { intros j x Hj Ux. assert (i < length (vmas m))%nat by by eapply lookup_lt_Some.
    slot_cases Hj i j; simplify_eq; unfold w; simpl; [lia|].
    destruct (vw_disj _ W i j v x); try done; lia. }
  split; [done|]. split; [done|]. intros va r. rewrite M2, M1.
  assert (Hw : region_of w va = region_of v va) by apply region_of_shift. rewrite Hw.
  assert (Hc1 : vma_covers va (set_vma_end v cs) = true <-> vma_start v <= va < cs)
    by (rewrite covers_iff; simpl; tauto).
  assert (Hc2 : vma_covers va w = true <-> ce <= va < vma_end v)
    by (rewrite covers_iff; unfold w; simpl; tauto).
  rewrite Hc1, Hc2. change (region_of (set_vma_end v cs) va) with (region_of v va).
  destruct (vma_covers va v) eqn:Ec.
  - rewrite (maps_covered _ i v) by done. apply covers_iff in Ec as [_ Ec]. split.
    + intros [[[_ ?]|[? ->]]|[? ->]]; [done|split; [done|lia]..].
    + intros [-> Hn]. destruct (decide (va < cs)); [left; right|right]; split; (done || lia).
  - assert (~ (vma_start v <= va < vma_end v)) by (intros ?; rewrite (proj2 (covers_iff va v)) in Ec; done).
    split; intuition lia.
Qed.

(** Only the table changed. *)
Definition vmas_only (m m' : vm_state) : Prop := exists l, m' = set_vmas m l.

Lemma vmas_only_set m i v : vmas_only m (set_vma m i v).
Proof. by eexists. Qed.

#[global] Instance vmas_only_preorder : PreOrder vmas_only.
Proof.
  split; [intros []; by eexists|]. intros a b c [l ->] [l' ->]. exists l'. by destruct a.
Qed.

(** [a] is not inside any entry. *)
Definition no_straddle (l : list vm_area) (a : Z) : Prop :=
  forall i v, l !! i = Some v -> vma_used v = true -> ~ vma_start v < a < vma_end v.

Lemma cut_spec m i v cs ce m' :
  vmas_wf (vmas m) -> vmas m !! i = Some v -> vma_used v = true ->
  vma_start v <= cs < ce -> ce <= vma_end v -> page_aligned cs -> page_aligned ce ->
  vma_cut m i cs ce = Some m' ->
  vmas_wf (vmas m') /\ vmas_only m m' /\
  (forall va r, maps (vmas m') va r <-> maps (vmas m) va r /\ ~ cs <= va < ce).
Proof.
  intros W Hi Hu Hcs Hce Acs Ace. unfold vma_cut. cbv zeta. rewrite (vma_at_eq m i v Hi).
  pose proof (vw_ok _ W i v Hi Hu) as (R1 & R2 & A1 & A2).
  assert (Hin : forall va r, maps (vmas m) va r /\ ~ cs <= va < ce <->
      (maps (vmas m) va r /\ vma_covers va v = false) \/
      ((vma_start v <= va < cs \/ ce <= va < vma_end v) /\ r = region_of v va)).
  { intros va r. destruct (vma_covers va v) eqn:Ec.
    - rewrite (maps_covered _ i v) by done. apply covers_iff in Ec as [_ Ec]. intuition (congruence || lia).
    - assert (~ (vma_start v <= va < vma_end v)) by (intros ?; rewrite (proj2 (covers_iff va v)) in Ec; done).
      intuition lia. }
  destruct ((cs <=? vma_start v) && _) eqn:E1; [bool_hyps|destruct (cs <=? vma_start v) eqn:E2; bool_hyps].
  - intros [= <-]. cbn [set_vma set_vmas vmas].
    destruct (edit_shrink (vmas m) i v vm_area_zero W Hi Hu) as [W1 M1]; [done|].
    split_and!; [done|apply vmas_only_set|]. intros va r. rewrite M1, Hin. intuition (done || lia).
  - intros [= <-]. cbn [set_vma set_vmas vmas]. assert (cs = vma_start v) as -> by lia.
    set (w := set_vma_file_offset _ _).
    destruct (edit_shrink (vmas m) i v w W Hi Hu) as [W1 M1].
    { intros _. unfold vma_ok, w. simpl. split_and!; try done; lia. }
    split_and!; [done|apply vmas_only_set|]. intros va r. rewrite M1, Hin. unfold w at 2.
    rewrite region_of_shift, covers_iff. unfold w. simpl. intuition lia.
  - destruct (vma_end v <=? ce) eqn:E3; bool_hyps.
    + intros [= <-]. cbn [set_vma set_vmas vmas].
      destruct (edit_shrink (vmas m) i v (set_vma_end v cs) W Hi Hu) as [W1 M1].
      { intros _. unfold vma_ok. simpl. split_and!; try done; lia. }
      split_and!; [done|apply vmas_only_set|]. intros va r. rewrite M1, Hin, covers_iff. simpl.
      change (region_of (set_vma_end v cs) va) with (region_of v va). intuition lia.
    + destruct (task_vma_slot m) as [k|] eqn:Ek; [|done]. intros [= <-].
      destruct (split_entry m i k v cs ce) as (_ & W' & M'); try done; try lia.
      split_and!; [exact W'| |exact M']. etransitivity; apply vmas_only_set.
Qed.

Lemma split_at_spec m addr m' :
  vmas_wf (vmas m) -> task_vma_split_at m addr = (true, m') ->
  vmas_wf (vmas m') /\ vmas_only m m' /\ no_straddle (vmas m') addr /\
  (forall b, no_straddle (vmas m) b -> no_straddle (vmas m') b) /\
  (forall va r, maps (vmas m') va r <-> maps (vmas m) va r).
Proof.
  intros W. unfold task_vma_split_at. rewrite page_offset_mod.
  destruct (negb _) eqn:Ea; [done|]. bool_hyps.
  destruct (find_idx _ _) as [i|] eqn:Ef.
  - apply find_idx_Some in Ef as (v & Hi & Hv & _). bool_hyps. rewrite (vma_at_eq m i v Hi).
    destruct (task_vma_slot m) as [k|] eqn:Ek; [|done]. cbv zeta. intros [= <-].
    destruct (split_entry m i k v addr addr) as (El & W' & M'); try done; try lia.
    split; [exact W'|]. split; [etransitivity; apply vmas_only_set|].
    rewrite El. clear El W'. apply slot_Some in Ek as (u & Hk & Uu).
    assert (Hne : i <> k) by (intros ->; simplify_eq; congruence).
    assert (Hlen : (i < length (vmas m))%nat /\ (k < length (vmas m))%nat)
      by (split; by eapply lookup_lt_Some).
    assert (Hstr : forall b, b = addr \/ ~ (vma_start v < b < vma_end v) ->
        (forall j w, j <> i -> vmas m !! j = Some w -> vma_used w = true -> ~ vma_start w < b < vma_end w) ->
        no_straddle (<[k := set_vma_file_offset (set_vma_start v addr)
            (u64 (vma_file_offset v + (addr - vma_start v)))]> (<[i := set_vma_end v addr]> (vmas m))) b).
    { intros b Hb Hd j w Hj Uw. destruct (decide (k = j)) as [<-|].
      - rewrite list_lookup_insert_eq in Hj by (rewrite length_insert; lia). simplify_eq. simpl. lia.
      - rewrite list_lookup_insert_ne in Hj by done. destruct (decide (i = j)) as [<-|].
        + rewrite list_lookup_insert_eq in Hj by lia. simplify_eq. simpl. lia.
        + rewrite list_lookup_insert_ne in Hj by done. by eapply Hd. }
    split_and!.
    + apply Hstr; [by left|]. intros j w Hj Hw Uw. destruct (vw_disj _ W i j v w); try done; lia.
    + intros b Hb. apply Hstr; [right; by eapply Hb|]. intros j w _ Hw Uw. by eapply Hb.
    + intros va r. cbn [set_vma set_vmas vmas] in M'. rewrite vma_at_eq with (v := v) in M'
        by (simpl; by rewrite list_lookup_insert_ne).
      rewrite list_insert_insert_ne in M' by done. rewrite M'. intuition lia.
  - intros [= <-]. split_and!; try done. intros j w Hj Uw.
    pose proof (find_idx_None _ _ _ _ Ef Hj) as Hn. simpl in Hn. rewrite Uw in Hn. simpl in Hn. lia.
Qed.

(** Changing the protection of a range whose ends are entry boundaries. *)
Definition reprotect (start fin prot va : Z) (r : region) : region :=
  if decide (start <= va < fin) then mk_region (r_inode r) (r_off r) (u32 prot) (r_flags r) else r.

Lemma set_prot_spec m start fin prot :
  vmas_wf (vmas m) -> no_straddle (vmas m) start -> no_straddle (vmas m) fin ->
  let m' := vmas_set_prot m start fin prot in
  vmas_wf (vmas m') /\ vmas_only m m' /\
  (forall va r, maps (vmas m') va r <-> exists r0, maps (vmas m) va r0 /\ r = reprotect start fin prot va r0).
Proof.
  intros W Hs Hf. cbv zeta. unfold vmas_set_prot. cbn [vmas set_vmas].
  set (f := fun v => if vma_used v && _ then _ else v).
  assert (Ff : forall v, vma_start (f v) = vma_start v /\ vma_end (f v) = vma_end v /\ vma_used (f v) = vma_used v).
  { intros v. unfold f. by destruct (_ && _). }
  assert (Hcov : forall va v, vma_covers va (f v) = vma_covers va v).
  { intros va v. unfold vma_covers. destruct (Ff v) as (-> & -> & ->). done. }
  assert (Hreg : forall i v va, vmas m !! i = Some v -> vma_covers va v = true ->
      region_of (f v) va = reprotect start fin prot va (region_of v va)).
  { intros i v va Hi Hc. apply covers_iff in Hc as [Hu Hr]. specialize (Hs i v Hi Hu).
    specialize (Hf i v Hi Hu). unfold f, reprotect. rewrite Hu. simpl.
    destruct ((start <=? vma_start v) && _) eqn:E; bool_hyps.
    - rewrite decide_True by lia. done.
    - rewrite decide_False by lia. done. }
  split_and!.
  - constructor; [by rewrite length_map, (vw_len _ W)| |].
    + intros i v. rewrite list_lookup_fmap. destruct (vmas m !! i) as [w|] eqn:Ew; [|done].
      intros [= <-]. unfold vma_ok. destruct (Ff w) as (-> & -> & ->). apply (vw_ok _ W i w Ew).
    + intros i j v w. rewrite !list_lookup_fmap. destruct (vmas m !! i) as [x|] eqn:Ex; [|done].
      destruct (vmas m !! j) as [y|] eqn:Ey; [|done]. intros [= <-] [= <-].
      destruct (Ff x) as (-> & -> & ->), (Ff y) as (-> & -> & ->). by apply (vw_disj _ W i j).
  - by eexists.
  - intros va r. split.
    + intros (i & v & Hi & Hc & ->). rewrite list_lookup_fmap in Hi.
      destruct (vmas m !! i) as [w|] eqn:Ew; simplify_eq/=. rewrite Hcov in Hc.
      exists (region_of w va). split; [by exists i, w|by eapply Hreg].
    + intros (r0 & (i & w & Hi & Hc & ->) & ->). exists i, (f w).
      rewrite list_lookup_fmap, Hi, Hcov. split_and!; try done. symmetry. by eapply Hreg.
Qed.

(** ** Coverage *)

Definition past (cur : Z) (l : list vm_area) : Z := countb (fun v => vma_used v && (cur <? vma_end v)) l.

Definition all_mapped (m : vm_state) (start fin : Z) : Prop :=
  forall va, start <= va < fin -> exists r, maps (vmas m) va r.

(** The walk along the entries answers whether every address is mapped. *)
Lemma range_mapped_loop_spec fuel m cur fin :
  vmas_wf (vmas m) -> past cur (vmas m) < Z.of_nat fuel ->
  range_mapped_loop fuel m cur fin = true <-> all_mapped m cur fin.
Proof.
  intros W. revert cur. induction fuel as [|fuel IH]; intros cur Hf.
  { unfold past in Hf. pose proof (countb_nonneg (fun v => vma_used v && (cur <? vma_end v)) (vmas m)). lia. }
  cbn [range_mapped_loop]. destruct (negb (cur <? fin)) eqn:E; bool_hyps.
  { split; [|done]. intros _ va Hva. lia. }
  destruct (task_vma_find m cur) as [i|] eqn:Ei.
  - apply find_Some_covers in Ei as (v & Hi & -> & Hc). pose proof Hc as [Hu Hr]%covers_iff.
    replace (vma_end v <=? cur) with false by lia. cbv zeta.
    set (nxt := if vma_end v <? fin then vma_end v else fin). assert (Hn : cur < nxt <= fin /\ nxt <= vma_end v /\
      (nxt = fin \/ nxt = vma_end v)) by (unfold nxt; destruct (vma_end v <? fin) eqn:?; bool_hyps; lia).
    destruct (decide (nxt = fin)) as [Hx|Hx].
    + split; [|intros _; destruct fuel as [|k]; [|simpl; by rewrite Hx, Z.ltb_irrefl]].
      * intros _ va Hva. exists (region_of v va). exists i, v. split_and!; [done| |done].
        apply covers_iff. split; [done|lia].
      * exfalso. unfold past in Hf. assert (1 <= countb (fun w => vma_used w && (cur <? vma_end w)) (vmas m));
          [|lia]. apply (countb_pos _ _ i v Hi). rewrite Hu. simpl. lia.
    + rewrite IH.
      * split; intros Ha va Hva; [|apply Ha; lia]. destruct (decide (va < nxt)); [|apply Ha; lia].
        exists (region_of v va). exists i, v. split_and!; [done| |done]. apply covers_iff. split; [done|lia].
      * assert (past nxt (vmas m) < past cur (vmas m)); [|lia].
        apply (countb_lt _ _ _ i v); [|done|rewrite Hu; simpl; lia|rewrite Hu; simpl; lia].
        intros j w _ Hw. bool_hyps. rewrite H. simpl. lia.
  - split; [done|]. intros Ha. destruct (Ha cur ltac:(lia)) as (r & j & w & Hj & Hc & _).
    unfold task_vma_find in Ei. by rewrite (find_idx_None _ _ _ _ Ei Hj) in Hc.
Qed.

Lemma overlaps_false m start fin :
  task_vma_overlaps m start fin = false ->
  start < fin /\ forall i v, vmas m !! i = Some v -> vma_used v = true ->
    vma_end v <= start \/ fin <= vma_start v.
Proof.
  unfold task_vma_overlaps. destruct (fin <=? start) eqn:E; [done|]. bool_hyps. intros H. split; [done|].
  intros i v Hi Hu. apply not_true_iff_false in H. rewrite existsb_exists in H.
  destruct (decide (start < vma_end v /\ vma_start v < fin)) as [Hd|Hd]; [|lia].
  exfalso. apply H. exists v. split; [by apply list_elem_of_In, (list_elem_of_lookup_2 _ i)|]. rewrite Hu. simpl. lia.
Qed.

(** The heap limit: the stack floor, or the first range above the heap. *)
Lemma heap_limit_spec m :
  let lim := heap_limit (task_recompute_heap_limit m) in
  lim <= task_stack_floor m /\
  (forall i v, vmas m !! i = Some v -> vma_used v = true -> heap_end m <= vma_start v -> lim <= vma_start v) /\
  (lim = task_stack_floor m \/
   exists i v, vmas m !! i = Some v /\ vma_used v = true /\ heap_end m <= vma_start v /\ lim = vma_start v).
Proof.
  cbv zeta. unfold task_recompute_heap_limit. cbn [heap_limit set_heap_limit].
  generalize (task_stack_floor m) as l0. induction (vmas m) as [|v l IH]; intros l0; simpl.
  { split_and!; [lia|done|by left]. }
  set (l1 := if negb (vma_used v) then l0 else _).
  assert (H1 : l1 <= l0 /\ (vma_used v = true -> heap_end m <= vma_start v -> l1 <= vma_start v) /\
    (l1 = l0 \/ (vma_used v = true /\ heap_end m <= vma_start v /\ l1 = vma_start v))).
  { unfold l1. destruct (vma_used v); simpl; [|intuition (done || lia)].
    destruct ((heap_end m <=? vma_start v) && (vma_start v <? l0)) eqn:?; bool_hyps; intuition lia. }
  destruct (IH l1) as (A & B & C). split_and!; [lia| |].
  - intros [|i] w Hw Hu Hge; simplify_eq/=; [|by eapply B].
    destruct H1 as (_ & H1 & _). specialize (H1 Hu Hge). lia.
  - destruct C as [C|(i & w & Hw & C)]; [|right; by exists (S i), w].
    destruct H1 as (_ & _ & [H1|(Hu & Hge & H1)]); [left; lia|right; exists 0%nat, v].
    split_and!; try done. lia.
Qed.

(** Free entries. *)
Lemma slot_exists m : 0 < task_vma_free_slots m -> is_Some (task_vma_slot m).
Proof.
  unfold task_vma_free_slots, task_vma_slot. intros H. destruct (find_idx _ _) eqn:E; [by eexists|].
  exfalso. assert (countb (fun v => negb (vma_used v)) (vmas m) <= countb (fun _ => false) (vmas m)).
  { apply countb_le. intros i v Hi Hv. by rewrite (find_idx_None _ _ _ _ E Hi) in Hv. }
  assert (Hz : forall l : list vm_area, countb (fun _ => false) l = 0).
  { induction l as [|? l IHl]; [done|]. rewrite countb_cons, IHl. done. }
  rewrite Hz in *. lia.
Qed.

(** ** Properties *)

Lemma range_mapped_iff m start fin :
  vmas_wf (vmas m) -> start < fin ->
  task_vma_range_mapped m start fin = true <-> (forall va, start <= va < fin -> vma_view m va <> None).
Proof.
  intros W Hlt. unfold task_vma_range_mapped. replace (fin <=? start) with false by lia.
  rewrite range_mapped_loop_spec; [|done|].
  - unfold all_mapped. split; intros H va Hva.
    + destruct (H va Hva) as (r & Hr). apply view_iff in Hr; [|done]. congruence.
    + specialize (H va Hva). destruct (vma_view m va) as [r|] eqn:E; [|done]. exists r. by apply view_iff.
  - unfold past. pose proof (countb_nonneg (fun v => vma_used v && (start <? vma_end v)) (vmas m)). lia.
Qed.

(** Task_vma_range_mapped terminates within one round per table entry and answers
    true exactly when every address of the range belongs to some mapped range. *)
Theorem range_mapped_correct m start fin :
  vmas_wf (vmas m) -> start < fin ->
  task_vma_range_mapped m start fin = true <-> (forall va, start <= va < fin -> vma_view m va <> None).
Proof. apply range_mapped_iff. Qed.

Definition demo_vma (start fin off : Z) : vm_area := mk_vm_area start fin off None 3 34 true.

Definition demo_vmas : vm_state :=
  set_vmas vm_state_zero
    (<[0%nat := demo_vma 0x500000 0x503000 0]> (<[3%nat := demo_vma 0x503000 0x504000 0]>
       (replicate MAX_VMAS vm_area_zero))).

(** A table with few entries, checked entry by entry. *)
Definition vmas_check (l : list vm_area) : bool :=
  (length l =? MAX_VMAS)%nat &&
  forallb (fun '(i, v) => negb (vma_used v) ||
     ((0 <=? vma_start v) && (vma_start v <? vma_end v) && (vma_end v <? 2 ^ 64) &&
      (vma_start v mod 4096 =? 0) && (vma_end v mod 4096 =? 0) &&
      forallb (fun '(j, w) => negb (vma_used w) || (i =? j)%nat ||
         (vma_end v <=? vma_start w) || (vma_end w <=? vma_start v)) (imap pair l))) (imap pair l).

Lemma vmas_check_wf l : vmas_check l = true -> vmas_wf l.
Proof.
  unfold vmas_check. intros [Hlen Hall]%andb_true_iff. apply Nat.eqb_eq in Hlen.
  rewrite forallb_forall in Hall.
  assert (Hin : forall i v, l !! i = Some v -> In (i, v) (imap pair l)).
  { intros i v Hi. apply list_elem_of_In, (list_elem_of_lookup_2 _ i). by rewrite list_lookup_imap, Hi. }
  constructor; [done| |].
  - intros i v Hi Hu. specialize (Hall _ (Hin i v Hi)). simpl in Hall. rewrite Hu in Hall. simpl in Hall.
    bool_hyps. unfold vma_ok, page_aligned. lia.
  - intros i j v w Hi Hj Uv Uw Hne. specialize (Hall _ (Hin i v Hi)). simpl in Hall. rewrite Uv in Hall.
    simpl in Hall. bool_hyps. rewrite forallb_forall in H0. specialize (H0 _ (Hin j w Hj)). simpl in H0.
    rewrite Uw in H0. replace (i =? j)%nat with false in H0 by (symmetry; by apply Nat.eqb_neq).
    simpl in H0. lia.
Qed.

Lemma demo_vmas_wf : vmas_wf (vmas demo_vmas).
Proof. apply vmas_check_wf. vm_compute. reflexivity. Qed.

Lemma range_mapped_correct_witness :
  task_vma_range_mapped demo_vmas 0x501000 0x504000 = true /\ vma_view demo_vmas 0x503008 <> None /\
  task_vma_range_mapped demo_vmas 0x501000 0x505000 = false.
Proof.
  pose proof (proj1 (range_mapped_correct demo_vmas 0x501000 0x504000 demo_vmas_wf ltac:(lia)) ltac:(vm_compute; reflexivity)) as H.
  split; [vm_compute; reflexivity|]. split; [apply H; lia|vm_compute; reflexivity].
Defined.
