(* ===== verification/Vm.v ===== *)
(** * User memory of a task (kernel/task.c)

    Page tables, tracked pages and mapped ranges of the tasks: mapping and
    unmapping pages, the page-fault handler with copy-on-write, brk, mmap,
    munmap, mprotect, msync, the page copies of fork and the write-protection of
    shared pages on which the page cache relies (the [SharedMappings] instance).

    A task is its index in the table, a [user_page_t *] and a [vm_area_t *]
    their indices in the task's arrays. The state is [sys] with the task table on
    top; [kt_io] holds what the other parts of task.c reach (pipes, sockets). *)

From S2P Require Import Prelude KString Pmm Inode BlockCache PageCache FsIo TaskDefs Mmu Vma.

Abbreviation TASK_KSTACK_SIZE := 65536 (only parsing).
Abbreviation PMM_OOM_RESERVE_PAGES := 64 (only parsing).
Abbreviation FORK_MIN_HEADROOM_PAGES := 16 (only parsing).
Abbreviation FORK_MAX_COW_RESERVE_PAGES := 128 (only parsing).
Abbreviation STACK_GROW_SLOP := 128 (only parsing).
Abbreviation MS_ASYNC := 1 (only parsing).
Abbreviation MS_INVALIDATE := 2 (only parsing).
Abbreviation MS_SYNC := 4 (only parsing).

(** ** State *)

Record ktasks (X : Type) := mk_ktasks {
  kt_tasks : list task;
  kt_current : option nat;
  kt_next_pid : Z;
  kt_init_pid : Z;
  kt_next_asid : Z;
  kt_asid_epoch : Z;
  kt_mmu : mmu_state;
  kt_io : X;
}.
#[global] Arguments mk_ktasks {X}.
#[global] Arguments kt_tasks {X}.
#[global] Arguments kt_current {X}.
#[global] Arguments kt_next_pid {X}.
#[global] Arguments kt_init_pid {X}.
#[global] Arguments kt_next_asid {X}.
#[global] Arguments kt_asid_epoch {X}.
#[global] Arguments kt_mmu {X}.
#[global] Arguments kt_io {X}.

Section Kt.
Context {X : Type}.
Implicit Types k : ktasks X.

Definition kt_set_tasks k (l : list task) : ktasks X :=
  mk_ktasks l (kt_current k) (kt_next_pid k) (kt_init_pid k) (kt_next_asid k) (kt_asid_epoch k)
    (kt_mmu k) (kt_io k).
Definition kt_set_mmu k (u : mmu_state) : ktasks X :=
  mk_ktasks (kt_tasks k) (kt_current k) (kt_next_pid k) (kt_init_pid k) (kt_next_asid k)
    (kt_asid_epoch k) u (kt_io k).
Definition kt_task k (ti : nat) : task := kt_tasks k !!! ti.
Definition kt_set_task k (ti : nat) (t : task) : ktasks X := kt_set_tasks k (<[ti := t]> (kt_tasks k)).
Definition kt_vm k (ti : nat) : vm_state := t_vm (kt_task k ti).
Definition kt_set_vm k (ti : nat) (m : vm_state) : ktasks X := kt_set_task k ti (set_t_vm (kt_task k ti) m).
Definition kt_flush_va k (ti : nat) (va : Z) : ktasks X :=
  kt_set_mmu k (mmu_tlb_flush_va va (asid (kt_vm k ti)) (kt_mmu k)).

(** ** Write-protecting the shared mappings of a file page *)

Definition wp_candidate (ns : gmap Z inode) (ino : option Z) (page_off : Z) (m : vm_state) (up : user_page) : bool :=
  up_used up && up_writable_intent up &&
  match task_vma_find m (up_va up) with
  | None => false
  | Some vi =>
      let v := vma_at m vi in
      has_bits (vma_flags v) MAP_SHARED && has_bits (vma_prot v) PROT_WRITE &&
      bool_decide (vma_inode v <> None) && pagecache_inode_same ns (vma_inode v) ino &&
      (u64 (vma_file_offset v + (up_va up - vma_start v)) =? page_off)
  end.

Fixpoint wp_pages (pis : list nat) (ns : gmap Z inode) (ino : option Z) (page_off : Z) (ti : nat) k
    : bool * ktasks X :=
  match pis with
  | [] => (true, k)
  | pi :: pis =>
      let m := kt_vm k ti in
      let up := pages m !!! pi in
      if negb (wp_candidate ns ino page_off m up) then wp_pages pis ns ino page_off ti k
      else
        match task_page_validate_hw m up with
        | None => (false, k)
        | Some hw =>
            if hw_cow hw then (false, k)
            else if negb (hw_writable hw) then wp_pages pis ns ino page_off ti k
            else
              match task_set_user_pte m (up_va up) (up_pa up) (task_user_attrs false (hw_executable hw) false) with
              | None => (false, k)
              | Some m => wp_pages pis ns ino page_off ti (kt_flush_va (kt_set_vm k ti m) ti (up_va up))
              end
        end
  end.

Fixpoint wp_tasks (tis : list nat) (ns : gmap Z inode) (ino : option Z) (page_off : Z) k : bool * ktasks X :=
  match tis with
  | [] => (true, k)
  | ti :: tis =>
      let t := kt_task k ti in
      if bool_decide (state t = TASK_UNUSED) || bool_decide (state t = TASK_ZOMBIE)
      then wp_tasks tis ns ino page_off k
      else
        let '(ok, k) := wp_pages (seq 0 MAX_USER_PAGES) ns ino page_off ti k in
        if ok then wp_tasks tis ns ino page_off k else (false, k)
  end.

#[global] Instance writeprotect_shared : SharedMappings (ktasks X) := fun ns ino file_off k =>
  match ino with
  | None => (true, k)
  | Some _ => wp_tasks (seq 0 MAX_TASKS) ns ino (align_down file_off PAGE_SIZE) k
  end.

End Kt.

(** ** Tracked pages *)

Definition task_count_writable_intent_pages (m : vm_state) : Z :=
  countb (fun up => up_used up && up_writable_intent up) (pages m).

Definition task_fork_budget_ok (p : pmm) (m : vm_state) : bool :=
  let avail := pmm_available_pages p in
  let reserve := PMM_OOM_RESERVE_PAGES + FORK_MIN_HEADROOM_PAGES in
  if avail <=? reserve then false
  else
    let need_now := TASK_KSTACK_SIZE / PAGE_SIZE + 4 in
    let cow_reserve := task_count_writable_intent_pages m / 2 in
    let cow_reserve :=
      if FORK_MAX_COW_RESERVE_PAGES <? cow_reserve then FORK_MAX_COW_RESERVE_PAGES else cow_reserve in
    need_now + cow_reserve + reserve <? avail.

Definition task_find_page (m : vm_state) (va_page : Z) : option nat :=
  find_idx (fun up => up_used up && (up_va up =? va_page)) (pages m).

Definition page_at (m : vm_state) (i : nat) : user_page := pages m !!! i.

Definition set_page (m : vm_state) (i : nat) (up : user_page) : vm_state :=
  set_pages m (<[i := up]> (pages m)).

Definition task_track_page (m : vm_state) (va pa : Z) (writable_intent : bool) : option vm_state :=
  match find_idx (fun up => negb (up_used up)) (pages m) with
  | None => None
  | Some i => Some (set_page m i (mk_user_page va pa writable_intent true))
  end.

(** The counters: pages the tables confirm, those tagged copy-on-write, those not
    shared, and the total charge with the kernel stack and the tables. *)
Definition task_refresh_mem_accounting (p : pmm) (kstack : Z) (m : vm_state) : vm_state :=
  let valid up := match task_page_validate_hw m up with Some _ => true | None => false end in
  let cow up := match task_page_validate_hw m up with Some hw => hw_cow hw | None => false end in
  let user_pages := countb valid (pages m) in
  let cow_pages := countb cow (pages m) in
  let private_pages := countb (fun up => valid up && (pmm_page_refcount p (up_pa up) <=? 1)) (pages m) in
  let present (o : option ptable) := match o with Some _ => 1 | None => 0 end in
  let fixed_pages :=
    (if negb (kstack =? 0) then TASK_KSTACK_SIZE / PAGE_SIZE else 0) + present (l1 m) + present (l2_low m) +
    present (l3_user_a m) + present (l3_user_b m) in
  set_mem_charge_pages
    (set_private_page_count (set_cow_page_count (set_user_page_count m user_pages) cow_pages) private_pages)
    (u32 (fixed_pages + private_pages)).

(** The pages of a range, as the loops of the code visit them. *)
Definition page_range (a b : Z) : list Z :=
  map (fun n => a + n * PAGE_SIZE) (seqZ 0 ((b - a + PAGE_SIZE - 1) / PAGE_SIZE)).

Section Ops.
Context {D E X : Type} `{!BlockDrivers D, !Ext4Ops D E}.
Abbreviation st := (sys D E (ktasks X)).
Implicit Types s : st.

Definition task_at s (ti : nat) : task := kt_task (s_top s) ti.
Definition set_task s (ti : nat) (t : task) : st := sys_set_top s (kt_set_task (s_top s) ti t).
Definition vm_at s (ti : nat) : vm_state := kt_vm (s_top s) ti.
Definition set_vm s (ti : nat) (m : vm_state) : st := sys_set_top s (kt_set_vm (s_top s) ti m).
Definition flush_va s (ti : nat) (va : Z) : st := sys_set_top s (kt_flush_va (s_top s) ti va).

Definition refresh (ti : nat) s : st :=
  set_vm s ti (task_refresh_mem_accounting (s_pmm s) (kstack_base (task_at s ti)) (vm_at s ti)).

Definition free_page (pa : Z) s : st := sys_set_pmm s (pmm_free_page (s_pmm s) pa).

(** [l3[l3_idx] = 0], when the table exists. *)
Definition clear_pte (m : vm_state) (va : Z) : vm_state :=
  match task_l3_for_va m va with
  | Some (w, t) => l3_store m w t va 0
  | None => m
  end.

Definition task_map_user_page (ti : nat) (va pa : Z) (pte_writable executable pte_cow writable_intent : bool) s
    : bool * st :=
  let m := vm_at s ti in
  match task_find_page m va with
  | Some _ => (false, s)
  | None =>
      match task_set_user_pte m va pa (task_user_attrs pte_writable executable pte_cow) with
      | None => (false, s)
      | Some m =>
          match task_track_page m va pa writable_intent with
          | None => (false, set_vm s ti (clear_pte m va))
          | Some m => (true, refresh ti (set_vm s ti m))
          end
      end
  end.

Definition task_map_user_anon_fault_page (ti : nat) (va : Z) (writable executable : bool) s : bool * st :=
  if pmm_available_pages (s_pmm s) <=? PMM_OOM_RESERVE_PAGES then (false, s)
  else
    let '(page, p) := pmm_alloc_page (s_pmm s) in
    let s := sys_set_pmm s p in
    if page =? 0 then (false, s)
    else
      let '(ok, s) := task_map_user_page ti va page writable executable false writable s in
      if negb ok then (false, free_page page s) else (true, flush_va s ti va).

Definition vma_file_ok s (p : Z) : bool :=
  bool_decide (i_type (inode_at s p) = INODE_FILE) || fs_is_block_dev (inode_at s p).

Definition task_vma_writeback_page (ti : nat) (vi : option nat) (ui : nat) s : bool * st :=
  match vi with
  | None => (true, s)
  | Some vi =>
      let m := vm_at s ti in
      let v := vma_at m vi in
      let up := page_at m ui in
      match vma_inode v with
      | None => (true, s)
      | Some p =>
          if negb (vma_used v) then (true, s)
          else if negb (has_bits (vma_flags v) MAP_SHARED) then (true, s)
          else if negb (vma_file_ok s p) || negb (i_writable (inode_at s p)) then (true, s)
          else if (up_va up <? vma_start v) || (vma_end v <=? up_va up) then (false, s)
          else
            match task_page_validate_hw m up with
            | None => (false, s)
            | Some hw =>
                if hw_cow hw then (false, s)
                else if negb (hw_writable hw) then (true, s)
                else
                  let map_off := up_va up - vma_start v in
                  let file_off := u64 (vma_file_offset v + map_off) in
                  let max_bytes := vma_end v - up_va up in
                  let max_bytes := if PAGE_SIZE <? max_bytes then PAGE_SIZE else max_bytes in
                  pagecache_writeback (Some p) file_off (up_pa up) max_bytes s
            end
      end
  end.

Definition task_map_user_file_fault_page (ti vi : nat) (va : Z) (writable executable : bool) s : bool * st :=
  let v := vma_at (vm_at s ti) vi in
  if negb (vma_used v) || bool_decide (vma_inode v = None) then (false, s)
  else
    let map_off := va - vma_start v in
    let file_off := u64 (vma_file_offset v + map_off) in
    if has_bits (vma_flags v) MAP_SHARED then
      let '(r, s) := pagecache_get_or_create (vma_inode v) file_off s in
      match r with
      | None => (false, s)
      | Some pa =>
          let '(ok, s) := task_map_user_page ti va pa false executable false writable s in
          if negb ok then (false, free_page pa s) else (true, flush_va s ti va)
      end
    else if pmm_available_pages (s_pmm s) <=? PMM_OOM_RESERVE_PAGES then (false, s)
    else
      let '(page, p) := pmm_alloc_page (s_pmm s) in
      let s := sys_set_pmm s p in
      if page =? 0 then (false, s)
      else
        let '(r, s) := pagecache_get_or_create (vma_inode v) file_off s in
        match r with
        | None => (false, free_page page s)
        | Some cached_pa =>
            let s := sys_set_ram s (memcpy (s_ram s) page cached_pa PAGE_SIZE) in
            let s := free_page cached_pa s in
            let '(ok, s) := task_map_user_page ti va page writable executable false writable s in
            if negb ok then (false, free_page page s) else (true, flush_va s ti va)
        end.

Definition task_unmap_user_page (ti : nat) (va_page : Z) s : bool * st :=
  match task_find_page (vm_at s ti) va_page with
  | None => (false, s)
  | Some ui =>
      match task_page_validate_hw (vm_at s ti) (page_at (vm_at s ti) ui) with
      | None => (false, s)
      | Some _ =>
          if bool_decide (task_l3_for_va (vm_at s ti) va_page = None) then (false, s)
          else
            let '(ok, s) :=
              match task_vma_find (vm_at s ti) va_page with
              | None => (true, s)
              | Some vi => task_vma_writeback_page ti (Some vi) ui s
              end in
            if negb ok then (false, s)
            else
              let s := set_vm s ti (clear_pte (vm_at s ti) va_page) in
              let s := flush_va s ti va_page in
              let s := free_page (up_pa (page_at (vm_at s ti) ui)) s in
              let s := set_vm s ti (set_page (vm_at s ti) ui user_page_zero) in
              (true, refresh ti s)
      end
  end.

Fixpoint unmap_user_loop (uis : list nat) (ti : nat) s : st :=
  match uis with
  | [] => s
  | ui :: uis =>
      if up_used (page_at (vm_at s ti) ui) then
        let v := task_vma_find (vm_at s ti) (up_va (page_at (vm_at s ti) ui)) in
        let '(_, s) := task_vma_writeback_page ti v ui s in
        unmap_user_loop uis ti (free_page (up_pa (page_at (vm_at s ti) ui)) s)
      else unmap_user_loop uis ti s
  end.

Definition clear_table (o : option ptable) : option ptable := (fun t => set_pt_ent t ∅) <$> o.

(** The rest of [task_unmap_user]: both tables are cleared, the TLB is flushed. *)
Definition unmap_user_tables (ti : nat) s : st :=
  let m := set_pages (vm_at s ti) (replicate MAX_USER_PAGES user_page_zero) in
  let m := set_l3_user_a m (clear_table (l3_user_a m)) in
  let m := set_l3_user_b m (clear_table (l3_user_b m)) in
  let s := set_vm s ti m in
  let s := if negb (asid m =? 0)
           then sys_set_top s (kt_set_mmu (s_top s) (mmu_tlb_flush_asid (asid m) (kt_mmu (s_top s)))) else s in
  refresh ti s.

Definition task_unmap_user (ti : nat) s : st :=
  unmap_user_tables ti (unmap_user_loop (seq 0 MAX_USER_PAGES) ti s).

Definition unmap_pages (ti : nat) (vas : list Z) s : st :=
  foldl (fun s va => (task_unmap_user_page ti va s).2) s vas.

Definition new_table (pa : Z) : option ptable := if pa =? 0 then None else Some (mk_ptable pa ∅).

(** Four frames; the entries are written once all four are there. *)
Definition task_pt_setup (ti : nat) s : bool * st :=
  if pmm_available_pages (s_pmm s) <=? 4 + PMM_OOM_RESERVE_PAGES then (false, s)
  else
    let '(p1, p) := pmm_alloc_page (s_pmm s) in
    let '(p2, p) := pmm_alloc_page p in
    let '(pa, p) := pmm_alloc_page p in
    let '(pb, p) := pmm_alloc_page p in
    let s := sys_set_pmm s p in
    let m := vm_at s ti in
    let m := set_l3_user_b (set_l3_user_a (set_l2_low (set_l1 m (new_table p1)) (new_table p2))
               (new_table pa)) (new_table pb) in
    let s := set_vm s ti m in
    if (p1 =? 0) || (p2 =? 0) || (pa =? 0) || (pb =? 0) then (false, s)
    else
      let m := set_l1 m (Some (mk_ptable p1 (low_l1 p2))) in
      let m := set_l2_low m (Some (mk_ptable p2 (task_l2 pa pb))) in
      let m := set_ttbr0_phys m p1 in
      (true, refresh ti (set_vm s ti m)).

Definition task_vma_writable_file_bad s (v : vm_area) : bool :=
  has_bits (vma_flags v) MAP_SHARED &&
  match vma_inode v with Some p => negb (i_writable (inode_at s p)) | None => false end.

(** The loop of [task_vma_unmap_range] over the table. *)
Fixpoint unmap_range_loop (is_ : list nat) (ti : nat) (start fin : Z) s : bool * st :=
  match is_ with
  | [] => (true, s)
  | i :: is_ =>
      let v := vma_at (vm_at s ti) i in
      if negb (vma_meets start fin v) then unmap_range_loop is_ ti start fin s
      else
        let cs := cut_start start v in
        let ce := cut_end fin v in
        let s := unmap_pages ti (page_range cs ce) s in
        match vma_cut (vm_at s ti) i cs ce with
        | None => (false, s)
        | Some m => unmap_range_loop is_ ti start fin (set_vm s ti m)
        end
  end.

Definition task_vma_unmap_range (ti : nat) (start fin : Z) (require_mapped : bool) s : bool * st :=
  let m := vm_at s ti in
  if fin <=? start then (false, s)
  else if require_mapped && negb (task_vma_range_mapped m start fin) then (false, s)
  else
    let need := task_vma_split_need m start fin in
    if (need <? 0) || (task_vma_free_slots m <? need) then (false, s)
    else
      let '(ok, s) := unmap_range_loop (seq 0 MAX_VMAS) ti start fin s in
      if negb ok then (false, s)
      else
        let s := set_vm s ti (task_recompute_heap_limit (vm_at s ti)) in
        (true, refresh ti s).

Definition task_brk (new_break : Z) s : Z * st :=
  match kt_current (s_top s) with
  | None => (-1, s)
  | Some ti =>
      let m := vm_at s ti in
      if new_break =? 0 then (heap_end m, s)
      else if (new_break <? heap_base m) || (heap_limit m <? new_break) then (-1, s)
      else
        let old_end := heap_end m in
        let s := set_vm s ti (set_heap_end m new_break) in
        let old_top := align_up old_end PAGE_SIZE in
        let new_top := align_up new_break PAGE_SIZE in
        let s := if new_top <? old_top then unmap_pages ti (page_range new_top old_top) s else s in
        (heap_end (vm_at s ti), s)
  end.

(** Whether the frame of a page must be copied before it is written. *)
Definition task_page_set_prot (ti ui : nat) (prot : Z) s : bool * st :=
  let m := vm_at s ti in
  let up := page_at m ui in
  match task_page_validate_hw m up with
  | None => (false, s)
  | Some _ =>
      let map_shared :=
        match task_vma_find m (up_va up) with
        | Some vi => has_bits (vma_flags (vma_at m vi)) MAP_SHARED
        | None => false
        end in
      let finish (pte_writable : bool) s : bool * st :=
        let m := vm_at s ti in
        let up := page_at m ui in
        match task_set_user_pte m (up_va up) (up_pa up)
                (task_user_attrs pte_writable (has_bits prot PROT_EXEC) false) with
        | None => (false, s)
        | Some m => (true, flush_va (set_vm s ti m) ti (up_va up))
        end in
      if has_bits prot PROT_WRITE then
        let refs := pmm_page_refcount (s_pmm s) (up_pa up) in
        if refs =? 0 then (false, s)
        else
          let grant (pa : Z) s :=
            finish (negb map_shared)
              (set_vm s ti (set_page (vm_at s ti) ui (set_up_writable_intent (set_up_pa up pa) true))) in
          if negb map_shared && (1 <? refs) then
            if pmm_available_pages (s_pmm s) <=? PMM_OOM_RESERVE_PAGES then (false, s)
            else
              let '(new_page, p) := pmm_alloc_page (s_pmm s) in
              let s := sys_set_pmm s p in
              if new_page =? 0 then (false, s)
              else
                let s := sys_set_ram s (memcpy (s_ram s) new_page (up_pa up) PAGE_SIZE) in
                grant new_page (free_page (up_pa up) s)
          else grant (up_pa up) s
      else finish false (set_vm s ti (set_page m ui (set_up_writable_intent up false)))
  end.

(** The downward search of [task_mmap] for a free range. *)
Fixpoint mmap_search (fuel : nat) (m : vm_state) (cand floor map_len : Z) : option Z :=
  match fuel with
  | O => None
  | S fuel =>
      if cand <? floor then None
      else if negb (task_vma_overlaps m cand (u64 (cand + map_len))) then Some cand
      else if cand <? floor + PAGE_SIZE then None
      else mmap_search fuel m (cand - PAGE_SIZE) floor map_len
  end.

(** The file a descriptor gives for a mapping: [None] when it is refused. *)
Definition mmap_file (t : task) (map_shared : bool) (prot fd offset map_len : Z) s : option (option Z) :=
  if (fd <? 0) || (Z.of_nat MAX_FDS <=? fd) || negb (fd_used (fds t !!! Z.to_nat fd)) then None
  else
    let f := fds t !!! Z.to_nat fd in
    match fd_inode f with
    | None => None
    | Some p =>
        if negb (bool_decide (fd_kind f = FD_INODE)) || negb (vma_file_ok s p) then None
        else
          let mode := task_fd_mode (fd_flags f) in
          if mode =? O_WRONLY then None
          else if map_shared && has_bits prot PROT_WRITE && (mode =? O_RDONLY) then None
          else if map_shared && has_bits prot PROT_WRITE && negb (i_writable (inode_at s p)) then None
          else if u64 (offset + map_len) <? offset then None
          else Some (Some p)
    end.

Definition task_mmap (addr len prot flags fd offset : Z) s : Z * st :=
  match kt_current (s_top s) with
  | None => (-1, s)
  | Some ti =>
      if (len =? 0) || negb (task_vma_prot_valid prot) || negb (task_vma_flags_valid flags) then (-1, s)
      else
        let map_len := align_up len PAGE_SIZE in
        if map_len =? 0 then (-1, s)
        else if negb (Z.land offset (PAGE_SIZE - 1) =? 0) then (-1, s)
        else
          let map_anon := has_bits flags MAP_ANONYMOUS in
          let map_shared := has_bits flags MAP_SHARED in
          let file :=
            if map_anon then if negb (fd =? -1) then None else Some None
            else mmap_file (task_at s ti) map_shared prot fd offset map_len s in
          match file with
          | None => (-1, s)
          | Some file =>
              let m := vm_at s ti in
              let floor := align_up (heap_end m) PAGE_SIZE in
              let top := task_stack_floor m in
              if (top <=? floor) || (top - floor <? map_len) then (-1, s)
              else
                let '(place, s) :=
                  if has_bits flags MAP_FIXED then
                    if negb (Z.land addr (PAGE_SIZE - 1) =? 0) then (None, s)
                    else
                      let fin := u64 (addr + map_len) in
                      if (fin <=? addr) || (addr <? USER_VA_BASE) || (top <? fin) then (None, s)
                      else
                        let '(ok, s) := task_vma_unmap_range ti addr fin false s in
                        (if ok then Some addr else None, s)
                  else
                    (mmap_search (Z.to_nat ((top - floor) / PAGE_SIZE + 1)) m
                       (align_down (top - map_len) PAGE_SIZE) floor map_len, s) in
                match place with
                | None => (-1, s)
                | Some start =>
                    match task_vma_slot (vm_at s ti) with
                    | None => (-1, s)
                    | Some slot =>
                        let v := mk_vm_area start (start + map_len) offset file (u32 prot) (u32 flags) true in
                        let m := set_vma (vm_at s ti) slot v in
                        (start, set_vm s ti (task_recompute_heap_limit m))
                    end
                end
          end
  end.

Definition task_munmap (addr len : Z) s : Z * st :=
  match kt_current (s_top s) with
  | None => (-1, s)
  | Some ti =>
      if (len =? 0) || negb (Z.land addr (PAGE_SIZE - 1) =? 0) then (-1, s)
      else
        let start := addr in
        let raw_end := u64 (addr + len) in
        if raw_end <? addr then (-1, s)
        else
          let fin := align_up raw_end PAGE_SIZE in
          if fin <=? start then (-1, s)
          else
            let '(ok, s) := task_vma_unmap_range ti start fin false s in
            (if ok then 0 else -1, s)
  end.

Fixpoint mprotect_pages (ti : nat) (vas : list Z) (prot : Z) s : bool * st :=
  match vas with
  | [] => (true, s)
  | va :: vas =>
      match task_find_page (vm_at s ti) va with
      | None => mprotect_pages ti vas prot s
      | Some ui =>
          let '(ok, s) := task_page_set_prot ti ui prot s in
          if negb ok then (false, s) else mprotect_pages ti vas prot s
      end
  end.

Definition task_mprotect (addr len prot : Z) s : Z * st :=
  match kt_current (s_top s) with
  | None => (-1, s)
  | Some ti =>
      if (len =? 0) || negb (Z.land addr (PAGE_SIZE - 1) =? 0) || negb (task_vma_prot_valid prot) then (-1, s)
      else
        let start := addr in
        let raw_end := u64 (addr + len) in
        if raw_end <? addr then (-1, s)
        else
          let fin := align_up raw_end PAGE_SIZE in
          if fin <=? start then (-1, s)
          else
            let m := vm_at s ti in
            if negb (task_vma_range_mapped m start fin) then (-1, s)
            else if has_bits prot PROT_WRITE &&
                    existsb (fun v => vma_meets start fin v && task_vma_writable_file_bad s v) (vmas m)
            then (-1, s)
            else
              let need_slots :=
                countb (fun v => vma_used v && ((vma_start v <? start) && (start <? vma_end v))) (vmas m) +
                countb (fun v => vma_used v && ((vma_start v <? fin) && (fin <? vma_end v))) (vmas m) in
              if task_vma_free_slots m <? need_slots then (-1, s)
              else
                let '(ok1, m) := task_vma_split_at m start in
                if negb ok1 then (-1, set_vm s ti m)
                else
                  let '(ok2, m) := task_vma_split_at m fin in
                  if negb ok2 then (-1, set_vm s ti m)
                  else
                    let s := set_vm s ti (vmas_set_prot m start fin prot) in
                    let '(ok, s) := mprotect_pages ti (page_range start fin) prot s in
                    if negb ok then (-1, s) else (0, refresh ti s)
  end.

(** The loop of [task_msync] over the table; [synced] is the array of inodes whose
    filesystem was already synced. *)
Fixpoint msync_loop (is_ : list nat) (ti : nat) (start fin flags : Z) (synced : list (option Z)) s : Z * st :=
  match is_ with
  | [] => (0, s)
  | i :: is_ =>
      let v := vma_at (vm_at s ti) i in
      if negb (vma_used v) || (fin <=? vma_start v) || (vma_end v <=? start) then
        msync_loop is_ ti start fin flags synced s
      else
        match vma_inode v with
        | None => msync_loop is_ ti start fin flags synced s
        | Some p =>
            if negb (has_bits (vma_flags v) MAP_SHARED) || negb (vma_file_ok s p) then
              msync_loop is_ ti start fin flags synced s
            else
              let ov_start := cut_start start v in
              let ov_end := cut_end fin v in
              if ov_end <=? ov_start then msync_loop is_ ti start fin flags synced s
              else
                let file_off := u64 (vma_file_offset v + (ov_start - vma_start v)) in
                let span := ov_end - ov_start in
                let '(rc, s) := pagecache_flush_inode_range (Some p) file_off span s in
                if negb (rc =? 0) then (-1, s)
                else
                  let '(rc, s) :=
                    if has_bits flags MS_INVALIDATE
                    then pagecache_invalidate_inode_range (Some p) file_off span s else (0, s) in
                  if negb (rc =? 0) then (-1, s)
                  else if has_bits flags MS_SYNC && negb (bool_decide (Some p ∈ synced)) then
                    let '(rc, s) := fs_sync_inode (Some p) s in
                    if negb (rc =? 0) then (-1, s)
                    else
                      let synced := if (length synced <? MAX_VMAS)%nat then synced ++ [Some p] else synced in
                      msync_loop is_ ti start fin flags synced s
                  else msync_loop is_ ti start fin flags synced s
        end
  end.

Definition task_msync (addr len flags : Z) s : Z * st :=
  match kt_current (s_top s) with
  | None => (-1, s)
  | Some ti =>
      if (len =? 0) || negb (Z.land addr (PAGE_SIZE - 1) =? 0) then (-1, s)
      else if has_bits flags (not64 (Z.lor (Z.lor MS_ASYNC MS_INVALIDATE) MS_SYNC)) then (-1, s)
      else
        let mode := Z.land flags (Z.lor MS_ASYNC MS_SYNC) in
        if mode =? Z.lor MS_ASYNC MS_SYNC then (-1, s)
        else
          let flags := if mode =? 0 then Z.lor flags MS_ASYNC else flags in
          let start := addr in
          let raw_end := u64 (addr + len) in
          if raw_end <? addr then (-1, s)
          else
            let fin := align_up raw_end PAGE_SIZE in
            if fin <=? start then (-1, s)
            else if negb (task_vma_range_mapped (vm_at s ti) start fin) then (-1, s)
            else msync_loop (seq 0 MAX_VMAS) ti start fin flags [] s
  end.

(** ** Page faults *)

(** Growing the stack down to [need_bottom], page by page. *)
Fixpoint grow_stack (fuel : nat) (ti : nat) (need_bottom : Z) s : bool * st :=
  match fuel with
  | O => (false, s)
  | S fuel =>
      if negb (need_bottom <? stack_mapped_bottom (vm_at s ti)) then (true, s)
      else
        let next_page := stack_mapped_bottom (vm_at s ti) - PAGE_SIZE in
        let '(ok, s) := task_map_user_anon_fault_page ti next_page true false s in
        if negb ok then (false, s)
        else grow_stack fuel ti need_bottom (set_vm s ti (set_stack_mapped_bottom (vm_at s ti) next_page))
  end.

Definition stack_fault (ti : nat) (fault_va va_page user_sp : Z) s : bool * st :=
  let m := vm_at s ti in
  if stack_mapped_bottom m <=? stack_base m then (false, s)
  else if (user_sp <? stack_base m) || (USER_STACK_TOP <=? user_sp) then (false, s)
  else if u64 (fault_va + 2 * PAGE_SIZE + STACK_GROW_SLOP) <? user_sp then (false, s)
  else
    let sp_page := align_down user_sp PAGE_SIZE in
    if (sp_page <? stack_base m) || (USER_STACK_TOP <=? sp_page) then (false, s)
    else if stack_mapped_bottom m <=? va_page then (false, s)
    else
      let need_bottom := if sp_page <? va_page then sp_page else va_page in
      let rounds := (stack_mapped_bottom m - need_bottom + PAGE_SIZE - 1) / PAGE_SIZE in
      grow_stack (S (Z.to_nat rounds)) ti need_bottom s.

(** The fault on an address with no page. *)
Definition translation_fault (ti : nat) (fault_va va_page : Z) (is_write is_instruction : bool) (user_sp : Z) s
    : bool * st :=
  let m := vm_at s ti in
  match task_find_page m va_page with
  | Some _ => (false, s)
  | None =>
      if match task_get_user_pte m va_page with
         | Some pte => task_pte_is_user_page pte
         | None => false
         end then (false, s)
      else
        match task_vma_find m va_page with
        | Some vi =>
            let v := vma_at m vi in
            let prot := vma_prot v in
            if is_instruction && negb (has_bits prot PROT_EXEC) then (false, s)
            else if is_write && negb (has_bits prot PROT_WRITE) then (false, s)
            else if negb is_write && negb is_instruction && negb (has_bits prot (Z.lor PROT_READ PROT_WRITE))
            then (false, s)
            else if bool_decide (vma_inode v <> None) && negb (has_bits (vma_flags v) MAP_ANONYMOUS) then
              task_map_user_file_fault_page ti vi va_page (has_bits prot PROT_WRITE) (has_bits prot PROT_EXEC) s
            else
              task_map_user_anon_fault_page ti va_page (has_bits prot PROT_WRITE) (has_bits prot PROT_EXEC) s
        | None =>
            if is_instruction then (false, s)
            else
              let heap_top := align_up (heap_end m) PAGE_SIZE in
              if (heap_base m <=? va_page) && (va_page <? heap_top) then
                task_map_user_anon_fault_page ti va_page true false s
              else if (stack_base m <=? va_page) && (va_page <? USER_STACK_TOP) then
                stack_fault ti fault_va va_page user_sp s
              else (false, s)
        end
  end.

(** The write fault on a page mapped read-only: a shared file page becomes dirty
    and writable, a copy-on-write page gets a frame of its own. *)
Definition write_fault (ti : nat) (va_page : Z) s : bool * st :=
  let m := vm_at s ti in
  match task_find_page m va_page with
  | None => (false, s)
  | Some ui =>
      let up := page_at m ui in
      match task_page_validate_hw m up with
      | None => (false, s)
      | Some hw =>
          let open_page (pa : Z) s : bool * st :=
            match task_set_user_pte (vm_at s ti) va_page pa (task_user_attrs true (hw_executable hw) false) with
            | None => (false, s)
            | Some m => (true, refresh ti (flush_va (set_vm s ti m) ti va_page))
            end in
          if negb (up_writable_intent up) then (false, s)
          else if hw_writable hw then (false, s)
          else if negb (hw_cow hw) then
            match task_vma_find m va_page with
            | None => (false, s)
            | Some vi =>
                let v := vma_at m vi in
                if negb (has_bits (vma_flags v) MAP_SHARED) || negb (has_bits (vma_prot v) PROT_WRITE) ||
                   bool_decide (vma_inode v = None) then (false, s)
                else
                  let file_off := u64 (vma_file_offset v + (va_page - vma_start v)) in
                  let s := pagecache_mark_dirty (vma_inode v) file_off PAGE_SIZE s in
                  open_page (up_pa (page_at (vm_at s ti) ui)) s
            end
          else
            let refs := pmm_page_refcount (s_pmm s) (up_pa up) in
            if refs =? 0 then (false, s)
            else if 1 <? refs then
              if pmm_available_pages (s_pmm s) <=? PMM_OOM_RESERVE_PAGES then (false, s)
              else
                let '(new_page, p) := pmm_alloc_page (s_pmm s) in
                let s := sys_set_pmm s p in
                if new_page =? 0 then (false, s)
                else
                  let s := sys_set_ram s (memcpy (s_ram s) new_page (up_pa up) PAGE_SIZE) in
                  let s := free_page (up_pa up) s in
                  let s := set_vm s ti (set_page (vm_at s ti) ui (set_up_pa up new_page)) in
                  open_page new_page s
            else open_page (up_pa up) s
      end
  end.

Definition task_handle_page_fault (fault_va : Z) (is_write is_translation is_instruction : bool) (user_sp : Z) s
    : bool * st :=
  match kt_current (s_top s) with
  | None => (false, s)
  | Some ti =>
      if (fault_va <? USER_VA_BASE) || (USER_VA_LIMIT <=? fault_va) then (false, s)
      else
        let va_page := align_down fault_va PAGE_SIZE in
        if is_translation then translation_fault ti fault_va va_page is_write is_instruction user_sp s
        else if negb is_write then (false, s)
        else write_fault ti va_page s
  end.

(** ** The pages of a forked task

    The loop of [task_fork] over the parent's pages: shared pages are mapped in
    the child as they are, the others are shared copy-on-write. [false] when the
    fork is refused; the caller then releases the child. *)

Definition fork_page (parent child ui : nat) s : bool * st :=
  let m := vm_at s parent in
  let pp := page_at m ui in
  let va := up_va pp in
  match task_page_validate_hw m pp with
  | None => (false, s)
  | Some hw =>
      let pa := up_pa pp in
      let writable_intent := up_writable_intent pp in
      let map_shared :=
        match task_vma_find m va with
        | Some vi => has_bits (vma_flags (vma_at m vi)) MAP_SHARED
        | None => false
        end in
      if negb writable_intent && hw_cow hw then (false, s)
      else if hw_cow hw && hw_writable hw then (false, s)
      else if writable_intent && negb (hw_cow hw) && negb (hw_writable hw) then (false, s)
      else if writable_intent && hw_cow hw && hw_writable hw then (false, s)
      else if map_shared then
        if hw_cow hw then (false, s)
        else
          let s := sys_set_pmm s (pmm_ref_page (s_pmm s) pa) in
          let '(ok, s) :=
            task_map_user_page child va pa (hw_writable hw) (hw_executable hw) false writable_intent s in
          if negb ok then (false, free_page pa s) else (true, s)
      else
        let s := sys_set_pmm s (pmm_ref_page (s_pmm s) pa) in
        let '(ok, s) :=
          task_map_user_page child va pa false (hw_executable hw) writable_intent writable_intent s in
        if negb ok then (false, free_page pa s)
        else if writable_intent && negb (hw_cow hw) then
          match task_set_user_pte (vm_at s parent) va pa (task_user_attrs false (hw_executable hw) true) with
          | None => (false, s)
          | Some m => (true, flush_va (set_vm s parent m) parent va)
          end
        else (true, s)
  end.

Fixpoint fork_pages (uis : list nat) (parent child : nat) s : bool * st :=
  match uis with
  | [] => (true, s)
  | ui :: uis =>
      if negb (up_used (page_at (vm_at s parent) ui)) then fork_pages uis parent child s
      else
        let '(ok, s) := fork_page parent child ui s in
        if negb ok then (false, s) else fork_pages uis parent child s
  end.

(** ** Kernel access to user memory by address *)

Definition task_translate (m : vm_state) (va : Z) : option Z :=
  let va_page := align_down va PAGE_SIZE in
  match task_find_page m va_page with
  | None => None
  | Some ui => Some (up_pa (page_at m ui) + (va - va_page))
  end.

Fixpoint task_copy_to_user_va (ti : nat) (dst_va : Z) (src : list Z) s : bool * st :=
  match src with
  | [] => (true, s)
  | b :: src =>
      match task_translate (vm_at s ti) dst_va with
      | None => (false, s)
      | Some pa => task_copy_to_user_va ti (u64 (dst_va + 1)) src (sys_set_ram s (<[pa := b]> (s_ram s)))
      end
  end.

End Ops.
