(* ===== verification/VmInv.v ===== *)
(** * Invariants of user memory (kernel/task.c)

    For every task: the page tables map exactly the tracked pages, each with the
    frame and no more rights than tracked; the mapped ranges are disjoint. For the
    system: every frame's reference count is the number of cache entries, tracked
    pages and other owners that hold it. Each operation of Vm.v preserves both,
    whatever the storage below does. *)

From S2P Require Import Prelude KString Pmm Inode BlockCache PageCache FsIo TaskDefs Mmu Vma Vm.

(** ** The pages of one task *)

Definition pte_of (pa : Z) (hw : hw_bits) : Z :=
  mmu_make_page pa (task_user_attrs (hw_writable hw) (hw_executable hw) (hw_cow hw)).

(** Rights within the intent: writable only if wanted, and not while shared
    copy-on-write. *)
Definition hw_allowed (intent : bool) (hw : hw_bits) : Prop :=
  (intent = false -> hw_writable hw = false /\ hw_cow hw = false) /\
  ~ (hw_writable hw = true /\ hw_cow hw = true).

Record page_mapped (m : vm_state) (up : user_page) : Prop := {
  pm_va : user_va (up_va up);
  pm_aligned : page_aligned (up_va up);
  pm_frame : frame_ok (up_pa up);
  pm_pte : exists hw, task_get_user_pte m (up_va up) = Some (pte_of (up_pa up) hw) /\
                      hw_allowed (up_writable_intent up) hw;
}.

Record vm_ok (m : vm_state) : Prop := {
  vo_len : length (pages m) = MAX_USER_PAGES;
  vo_pages i up : pages m !! i = Some up -> up_used up = true -> page_mapped m up;
  vo_inj i j up up' : pages m !! i = Some up -> pages m !! j = Some up' ->
    up_used up = true -> up_used up' = true -> up_va up = up_va up' -> i = j;
  vo_clear va pte :
    (forall i up, pages m !! i = Some up -> up_used up = true -> up_va up <> va) ->
    task_get_user_pte m va = Some pte -> pte = 0;
}.

Definition tables_ok (m : vm_state) : Prop :=
  tables_ready m \/ (l3_user_a m = None /\ l3_user_b m = None).

Record vm_inv (m : vm_state) : Prop := {
  vi_ok : vm_ok m;
  vi_vmas : vmas_wf (vmas m);
  vi_tables : tables_ok m;
}.

Lemma hw_eta hw : mk_hw (hw_writable hw) (hw_executable hw) (hw_cow hw) = hw.
Proof. by destruct hw. Qed.

(** Decoding the entry of a mapped page. *)
Lemma validate_pte m up hw :
  up_used up = true -> frame_ok (up_pa up) -> hw_allowed (up_writable_intent up) hw ->
  task_get_user_pte m (up_va up) = Some (pte_of (up_pa up) hw) -> task_page_validate_hw m up = Some hw.
Proof.
  intros Hu Hf [A1 A2] Hg. unfold task_page_validate_hw. rewrite Hu, Hg. cbn [negb].
  destruct (make_page_fields (up_pa up) (hw_writable hw) (hw_executable hw) (hw_cow hw) Hf)
    as (_ & E1 & E2 & _ & E3 & E4 & E5).
  unfold pte_of. rewrite E2. cbv zeta. rewrite E1, E3, E4, E5, Z.eqb_refl, hw_eta. cbn [negb].
  destruct (up_writable_intent up), (hw_writable hw), (hw_cow hw); simpl; try done;
    (destruct A1; congruence) || (exfalso; by apply A2).
Qed.

Lemma mapped_validate m up :
  up_used up = true -> page_mapped m up ->
  exists hw, task_page_validate_hw m up = Some hw /\ hw_allowed (up_writable_intent up) hw /\
    task_get_user_pte m (up_va up) = Some (pte_of (up_pa up) hw).
Proof. intros Hu [_ _ Hf (hw & Hg & Ha)]. exists hw. split_and!; try done. by apply validate_pte. Qed.

Lemma find_page_Some m va i :
  task_find_page m va = Some i ->
  exists up, pages m !! i = Some up /\ page_at m i = up /\ up_used up = true /\ up_va up = va.
Proof.
  intros (up & Hi & Hf & _)%find_idx_Some. bool_hyps. exists up. split_and!; try done.
  unfold page_at. by apply list_lookup_total_correct.
Qed.

Lemma find_page_None m va i up :
  task_find_page m va = None -> pages m !! i = Some up -> up_used up = true -> up_va up <> va.
Proof.
  intros Hn Hi Hu. pose proof (find_idx_None _ _ _ _ Hn Hi) as H. simpl in H. rewrite Hu in H. simpl in H. lia.
Qed.

(** The invariant looks only at the pages and the level-3 tables. *)
Lemma get_pte_ext m m' va :
  l3_user_a m' = l3_user_a m -> l3_user_b m' = l3_user_b m -> task_get_user_pte m' va = task_get_user_pte m va.
Proof. intros Ha Hb. unfold task_get_user_pte, task_l3_for_va. by rewrite Ha, Hb. Qed.

(** One page entry and one table entry change together. *)
Lemma vm_edit m m' i up up' va pte :
  vm_ok m -> pages m !! i = Some up -> pages m' = <[i := up']> (pages m) ->
  (forall va', task_get_user_pte m' va' = if decide (va' = va) then Some pte else task_get_user_pte m va') ->
  (forall j u, j <> i -> pages m !! j = Some u -> up_used u = true -> up_va u <> va) ->
  (up_used up = true -> up_va up = va) ->
  (up_used up' = true -> up_va up' = va /\ user_va va /\ page_aligned va /\ frame_ok (up_pa up') /\
     exists hw, pte = pte_of (up_pa up') hw /\ hw_allowed (up_writable_intent up') hw) ->
  (up_used up' = false -> pte = 0) ->
  vm_ok m'.
Proof.
  intros O Hi Hp Hg Hoth Hva Hnew Hzero.
  assert (Hlt : (i < length (pages m))%nat) by by eapply lookup_lt_Some.
  constructor; rewrite ?Hp.
  - by rewrite length_insert, (vo_len _ O).
  - intros j u Hj Hu. slot_cases Hj i j; simplify_eq.
    + destruct (Hnew Hu) as (E & Hv & Ha & Hf & hw & -> & Hal). constructor; rewrite ?E; try done.
      exists hw. by rewrite Hg, decide_True.
    + destruct (vo_pages _ O j u Hj Hu) as [Hv Ha Hf (hw & Hpte & Hal)]. constructor; try done.
      exists hw. rewrite Hg, decide_False; [done|]. by eapply Hoth.
  - intros j k u w Hj Hk Uu Uw Heq. slot_cases Hj i j; slot_cases Hk i k; simplify_eq; try done.
    + exfalso. destruct (Hnew Uu) as [E _]. eapply (Hoth k w); [done..|congruence].
    + exfalso. destruct (Hnew Uw) as [E _]. eapply (Hoth j u); [done..|congruence].
    + by eapply (vo_inj _ O j k).
  - intros va' pte' Hn. rewrite Hg. case_decide as Hd.
    + intros [= <-]. destruct (up_used up') eqn:E; [|by apply Hzero]. destruct (Hnew eq_refl) as [E' _].
      exfalso. eapply (Hn i up'); [by apply list_lookup_insert_eq|done|congruence].
    + apply (vo_clear _ O). intros j u Hj Hu. destruct (decide (i = j)) as [<-|Hne].
      * simplify_eq. rewrite (Hva Hu). congruence.
      * apply (Hn j u); [by rewrite list_lookup_insert_ne|done].
Qed.

(** Only entries of the level-3 tables changed. *)
Definition l3_only (m m' : vm_state) : Prop :=
  exists a b, m' = set_l3_user_b (set_l3_user_a m a) b.

#[global] Instance l3_only_preorder : PreOrder l3_only.
Proof.
  split; [intros []; by eexists _, _|]. intros x y z (a & b & ->) (c & d & ->). exists c, d. by destruct x.
Qed.

Lemma l3_store_only m w t va pte : l3_only m (l3_store m w t va pte).
Proof.
  destruct m as [? ? ? ? ? a b ? ? ? ? ? ? ? ? ? ? ?]. unfold l3_only, l3_store, set_l3_user_a, set_l3_user_b.
  destruct w; simpl; eexists _, _; reflexivity.
Qed.

Lemma l3_only_fields m m' :
  l3_only m m' ->
  pages m' = pages m /\ vmas m' = vmas m /\ asid m' = asid m /\ heap_base m' = heap_base m /\
  heap_end m' = heap_end m /\ heap_limit m' = heap_limit m /\ stack_base m' = stack_base m /\
  stack_mapped_bottom m' = stack_mapped_bottom m.
Proof. intros (a & b & ->). by split_and!. Qed.

Lemma l3_store_tables m w t va pte :
  task_l3_for_va m va = Some (w, t) -> tables_ok m -> tables_ok (l3_store m w t va pte).
Proof.
  intros Hl [Hr|[Ha Hb]]; [left; by apply l3_store_ready|]. exfalso.
  unfold task_l3_for_va in Hl. rewrite Ha, Hb in Hl. repeat (destruct (_ =? _)); done.
Qed.

(** [tables_ok] and the ranges do not depend on the pages and the counters. *)
Lemma tables_ok_ext m m' :
  l1 m' = l1 m -> l2_low m' = l2_low m -> l3_user_a m' = l3_user_a m -> l3_user_b m' = l3_user_b m ->
  ttbr0_phys m' = ttbr0_phys m -> tables_ok m -> tables_ok m'.
Proof.
  intros H1 H2 H3 H4 H5 [[H]|[Ha Hb]]; [left; constructor|right; by rewrite H3, H4].
  rewrite H1, H2, H3, H4, H5. exact H.
Qed.

Lemma vm_ok_ext m m' :
  pages m' = pages m -> l3_user_a m' = l3_user_a m -> l3_user_b m' = l3_user_b m -> vm_ok m -> vm_ok m'.
Proof.
  intros Hp Ha Hb O. constructor; rewrite ?Hp; try apply O.
  - intros i up Hi Hu. destruct (vo_pages _ O i up Hi Hu) as [A B C (hw & Hg & Hal)]. constructor; try done.
    exists hw. by rewrite (get_pte_ext m).
  - intros va pte Hn. rewrite (get_pte_ext m) by done. by apply (vo_clear _ O).
Qed.

Lemma l3_get m m' va w t pte :
  user_va_bad va = false -> task_l3_for_va m va = Some (w, t) -> m' = l3_store m w t va pte ->
  forall va', task_get_user_pte m' va' = if decide (va' = va) then Some pte else task_get_user_pte m va'.
Proof. intros Hb Hl -> va'. by apply l3_store_get. Qed.

Lemma get_pte_Some m va pte :
  task_get_user_pte m va = Some pte ->
  user_va_bad va = false /\ exists w t, task_l3_for_va m va = Some (w, t).
Proof.
  unfold task_get_user_pte. destruct (user_va_bad va); [done|].
  destruct (task_l3_for_va m va) as [[w t]|]; [eauto|done].
Qed.

(** Where a page is mapped, its entry can be rewritten. *)
Lemma set_pte_total m va pte pa attrs :
  task_get_user_pte m va = Some pte -> is_Some (task_set_user_pte m va pa attrs).
Proof.
  intros (Hb & w & t & Hl)%get_pte_Some. unfold task_set_user_pte. rewrite Hb, Hl. by eexists.
Qed.

(** Rewriting a page: its frame, intent and entry. *)
Lemma rewrite_page_inv m i up up' hw m' :
  vm_inv m -> pages m !! i = Some up -> up_used up = true -> up_used up' = true -> up_va up' = up_va up ->
  frame_ok (up_pa up') -> hw_allowed (up_writable_intent up') hw ->
  task_set_user_pte (set_page m i up') (up_va up) (up_pa up')
    (task_user_attrs (hw_writable hw) (hw_executable hw) (hw_cow hw)) = Some m' ->
  vm_inv m' /\ pages m' = <[i := up']> (pages m) /\ vmas m' = vmas m /\ l3_only (set_page m i up') m'.
Proof.
  intros [O W T] Hi Hu Hu' Hva Hf Hal Hs.
  pose proof (vo_pages _ O i up Hi Hu) as [Pv Pa _ _].
  pose proof (set_pte_Some _ _ _ _ _ Hs) as (Hb & w & t & Hl & ->).
  assert (L : l3_only (set_page m i up') (l3_store (set_page m i up') w t (up_va up)
    (mmu_make_page (up_pa up') (task_user_attrs (hw_writable hw) (hw_executable hw) (hw_cow hw)))))
    by apply l3_store_only.
  destruct (l3_only_fields _ _ L) as (Ep & Ev & _). split_and!; [|exact Ep|exact Ev|exact L]. constructor.
  - apply (vm_edit m _ i up up' (up_va up) (pte_of (up_pa up') hw)); try done.
    + intros va'. rewrite (l3_get _ _ _ _ _ _ Hb Hl eq_refl). case_decide; [done|]. by apply get_pte_ext.
    + intros j u Hne Hj Uu Heq. apply Hne. by eapply (vo_inj _ O j i).
    + intros _. rewrite Hva. split_and!; try done. by exists hw.
    + intros ?. congruence.
  - by rewrite Ev.
  - apply l3_store_tables; [done|]. by eapply tables_ok_ext; [..|exact T].
Qed.

(** The entry of a page, its frame and intent unchanged. *)
Lemma rewrite_pte_inv m i up hw m' :
  vm_inv m -> pages m !! i = Some up -> up_used up = true -> hw_allowed (up_writable_intent up) hw ->
  task_set_user_pte m (up_va up) (up_pa up)
    (task_user_attrs (hw_writable hw) (hw_executable hw) (hw_cow hw)) = Some m' ->
  vm_inv m' /\ l3_only m m'.
Proof.
  intros I Hi Hu Hal Hs.
  assert (Hid : set_page m i up = m) by (unfold set_page; rewrite (list_insert_id _ _ _ Hi); by destruct m).
  destruct (rewrite_page_inv m i up up hw m' I Hi Hu Hu eq_refl) as (I' & _ & _ & L); try done.
  - by destruct (vo_pages _ (vi_ok _ I) i up Hi Hu).
  - by rewrite Hid.
  - by rewrite Hid in L.
Qed.

(** Tracking a new page at an address without one. *)
Lemma map_page_inv m va pa hw intent m1 m2 :
  vm_inv m -> task_find_page m va = None -> frame_ok pa -> hw_allowed intent hw ->
  task_set_user_pte m va pa (task_user_attrs (hw_writable hw) (hw_executable hw) (hw_cow hw)) = Some m1 ->
  task_track_page m1 va pa intent = Some m2 ->
  vm_inv m2 /\ vmas m2 = vmas m /\
  exists i up, pages m !! i = Some up /\ up_used up = false /\
    pages m2 = <[i := mk_user_page va pa intent true]> (pages m).
Proof.
  intros [O W T] Hn Hf Hal Hs Ht.
  pose proof (set_pte_Some _ _ _ _ _ Hs) as (Hb & w & t & Hl & Hm1).
  assert (L : l3_only m m1) by (subst; apply l3_store_only).
  destruct (l3_only_fields _ _ L) as (Ep & Ev & _).
  unfold task_track_page in Ht. rewrite Ep in Ht. destruct (find_idx _ _) as [i|] eqn:Ei; [|done].
  injection Ht as <-. apply find_idx_Some in Ei as (up & Hi & Hu & _). bool_hyps.
  split_and!; [|exact Ev|exists i, up; split_and!; try done; simpl; by rewrite Ep].
  destruct (user_va_good va Hb) as [Hv Ha]. constructor.
  - apply (vm_edit m _ i up (mk_user_page va pa intent true) va (pte_of pa hw)); try done.
    + simpl. by rewrite Ep.
    + intros va'. rewrite <- (l3_get m m1 va w t _ Hb Hl Hm1). by apply get_pte_ext.
    + intros j u _ Hj Uu. by eapply find_page_None.
    + congruence.
    + intros _. split_and!; try done. by exists hw.
  - simpl. by rewrite Ev.
  - apply (tables_ok_ext m1); try done. subst. by apply l3_store_tables.
Qed.

(** The entry of an address without a page is cleared. *)
Lemma clear_unmapped_inv m va m' w t pte :
  vm_inv m -> task_find_page m va = None -> user_va_bad va = false -> task_l3_for_va m va = Some (w, t) ->
  m' = clear_pte (l3_store m w t va pte) va -> vm_inv m' /\ l3_only m m'.
Proof.
  intros [O W T] Hn Hb Hl ->. set (m1 := l3_store m w t va pte).
  assert (L1 : l3_only m m1) by apply l3_store_only.
  assert (T1 : tables_ok m1) by by apply l3_store_tables.
  assert (G1 : forall va', task_get_user_pte m1 va' =
    if decide (va' = va) then Some pte else task_get_user_pte m va') by by apply (l3_get m m1 va w t).
  assert (exists w' t', task_l3_for_va m1 va = Some (w', t')) as (w' & t' & Hl').
  { apply (get_pte_Some m1 va pte). by rewrite G1, decide_True. }
  unfold clear_pte. rewrite Hl'. set (m2 := l3_store m1 w' t' va 0).
  assert (L : l3_only m m2) by (etransitivity; [exact L1|apply l3_store_only]).
  destruct (l3_only_fields _ _ L) as (Ep & Ev & _). split; [|exact L].
  assert (G2 : forall va', task_get_user_pte m2 va' =
    if decide (va' = va) then Some 0 else task_get_user_pte m va').
  { intros va'. rewrite (l3_get m1 m2 va w' t' 0 Hb Hl' eq_refl). case_decide; [done|].
    by rewrite G1, decide_False. }
  constructor; [|by rewrite Ev|by apply l3_store_tables].
  constructor; rewrite ?Ep; try apply O.
  - intros i up Hi Hu. destruct (vo_pages _ O i up Hi Hu) as [A B C (hw & Hg & Hal)].
    constructor; try done. exists hw. rewrite G2, decide_False; [done|]. by eapply find_page_None.
  - intros va' q Hu. rewrite G2. case_decide; [by intros [= <-]|]. by apply (vo_clear _ O).
Qed.

(** Clearing the entry of a page and the page. *)
Lemma unmap_page_inv m i up m' :
  vm_inv m -> pages m !! i = Some up -> up_used up = true ->
  m' = set_page (clear_pte m (up_va up)) i user_page_zero ->
  vm_inv m' /\ vmas m' = vmas m /\ pages m' = <[i := user_page_zero]> (pages m).
Proof.
  intros [O W T] Hi Hu ->. pose proof (vo_pages _ O i up Hi Hu) as [Pv Pa _ (hw & Hg & _)].
  destruct (get_pte_Some _ _ _ Hg) as (Hb & w & t & Hl). unfold clear_pte. rewrite Hl.
  set (m1 := l3_store m w t (up_va up) 0). assert (L : l3_only m m1) by apply l3_store_only.
  destruct (l3_only_fields _ _ L) as (Ep & Ev & _).
  split_and!; [|exact Ev|simpl; by rewrite Ep]. constructor.
  - apply (vm_edit m _ i up user_page_zero (up_va up) 0); try done.
    + simpl. by rewrite Ep.
    + intros va'. rewrite <- (l3_get m m1 _ w t _ Hb Hl eq_refl). by apply get_pte_ext.
    + intros j u Hne Hj Uu Heq. apply Hne. by eapply (vo_inj _ O j i).
  - simpl. by rewrite Ev.
  - apply (tables_ok_ext m1); try done. by apply l3_store_tables.
Qed.

(** Clearing everything. *)
Lemma get_pte_cleared m va pte :
  l3_user_a m = clear_table (l3_user_a m) -> l3_user_b m = clear_table (l3_user_b m) ->
  task_get_user_pte m va = Some pte -> pte = 0.
Proof.
  unfold task_get_user_pte, task_l3_for_va. intros Ha Hb. destruct (user_va_bad va); [done|].
  destruct (_ =? _); [|destruct (_ =? _); [|done]].
  - rewrite Ha. destruct (l3_user_a m); simpl; [|done]. by intros [= <-].
  - rewrite Hb. destruct (l3_user_b m); simpl; [|done]. by intros [= <-].
Qed.

Lemma clear_all_inv m m' :
  vmas_wf (vmas m) -> tables_ok m ->
  m' = (let m := set_pages m (replicate MAX_USER_PAGES user_page_zero) in
        let m := set_l3_user_a m (clear_table (l3_user_a m)) in
        set_l3_user_b m (clear_table (l3_user_b m))) ->
  vm_inv m'.
Proof.
  intros W T ->. cbv zeta.
  assert (Hz : forall i up, replicate MAX_USER_PAGES user_page_zero !! i = Some up -> up_used up = false).
  { intros i up [-> _]%lookup_replicate. done. }
  constructor; [constructor|exact W|].
  - apply length_replicate.
  - intros i up Hi Hu. cbn [pages set_l3_user_a set_l3_user_b set_pages] in Hi. apply Hz in Hi. congruence.
  - intros i j up up' Hi _ Hu. cbn [pages set_l3_user_a set_l3_user_b set_pages] in Hi. apply Hz in Hi. congruence.
  - intros va pte _ Hg. eapply get_pte_cleared; [| |exact Hg]; simpl.
    + by destruct (l3_user_a m).
    + by destruct (l3_user_b m).
  - destruct T as [[(p1 & p2 & pa & pb & ea & eb & H1 & H2 & H3 & H4 & R)]|[Ha Hb]].
    + left. constructor. exists p1, p2, pa, pb, ∅, ∅. simpl. rewrite H1, H2, H3, H4. by split_and!; [..|apply R|apply R|apply R].
    + right. simpl. by rewrite Ha, Hb.
Qed.

(** The counters do not matter. *)
Lemma refresh_inv p k m : vm_inv m -> vm_inv (task_refresh_mem_accounting p k m).
Proof.
  intros [O W T]. constructor; [by apply (vm_ok_ext m)|exact W|by apply (tables_ok_ext m)].
Qed.

(** A new table of ranges. *)
Lemma vmas_inv m m' : vm_inv m -> vmas_only m m' -> vmas_wf (vmas m') -> vm_inv m'.
Proof.
  intros [O _ T] [l ->] W. constructor; [by apply (vm_ok_ext m)|exact W|by apply (tables_ok_ext m)].
Qed.

(** ** What the page cache does to the tasks *)

(** The tasks are unchanged but for level-3 entries, and stay sound. *)
Record kt_rel {X} (k k' : ktasks X) : Prop := {
  kr_len : length (kt_tasks k') = length (kt_tasks k);
  kr_current : kt_current k' = kt_current k;
  kr_io : kt_io k' = kt_io k;
  kr_task ti t : kt_tasks k !! ti = Some t -> exists m', kt_tasks k' !! ti = Some (set_t_vm t m') /\
    l3_only (t_vm t) m' /\ (vm_inv (t_vm t) -> vm_inv m');
}.

Lemma set_t_vm_id t : set_t_vm t (t_vm t) = t.
Proof. by destruct t. Qed.

#[global] Instance kt_rel_preorder {X} : PreOrder (@kt_rel X).
Proof.
  split.
  - intros k. constructor; try done. intros ti t Ht. exists (t_vm t). rewrite set_t_vm_id. by split_and!.
  - intros a b c [A1 A2 A3 A4] [B1 B2 B3 B4]. constructor; [by rewrite B1|by rewrite B2|by rewrite B3|].
    intros ti t Ht. destruct (A4 ti t Ht) as (m1 & H1 & L1 & I1). destruct (B4 ti _ H1) as (m2 & H2 & L2 & I2).
    exists m2. split_and!; [by destruct t|by etransitivity|auto].
Qed.

Lemma kt_rel_flush {X} (k : ktasks X) ti va : kt_rel k (kt_flush_va k ti va).
Proof. constructor; try done. intros tj t Ht. exists (t_vm t). rewrite set_t_vm_id. by split_and!. Qed.

Lemma kt_rel_set_vm {X} (k : ktasks X) ti m' :
  (ti < length (kt_tasks k))%nat -> l3_only (kt_vm k ti) m' -> (vm_inv (kt_vm k ti) -> vm_inv m') ->
  kt_rel k (kt_set_vm k ti m').
Proof.
  intros Hlt L I. constructor; try done; [simpl; by rewrite length_insert|].
  intros tj t Ht. unfold kt_set_vm, kt_set_task. simpl. destruct (decide (ti = tj)) as [<-|Hne].
  - exists m'. assert (Et : kt_task k ti = t) by by apply list_lookup_total_correct.
    rewrite list_lookup_insert_eq by done. unfold kt_vm in L, I. rewrite Et in *. by split_and!.
  - exists (t_vm t). rewrite list_lookup_insert_ne, set_t_vm_id by done. by split_and!.
Qed.

Lemma kt_rel_lookup {X} (k k' : ktasks X) ti :
  kt_rel k k' -> (ti < length (kt_tasks k))%nat ->
  l3_only (kt_vm k ti) (kt_vm k' ti) /\ kstack_base (kt_task k' ti) = kstack_base (kt_task k ti).
Proof.
  intros R [t Ht]%lookup_lt_is_Some_2. destruct (kr_task _ _ R ti t Ht) as (m' & Ht' & L & _).
  unfold kt_vm, kt_task. rewrite (list_lookup_total_correct _ _ _ Ht), (list_lookup_total_correct _ _ _ Ht').
  by destruct t.
Qed.

Lemma validate_Some m up hw :
  task_page_validate_hw m up = Some hw ->
  up_used up = true /\ (up_writable_intent up = false -> hw_writable hw = false /\ hw_cow hw = false).
Proof.
  unfold task_page_validate_hw. destruct (up_used up); cbn [negb]; [|done].
  destruct (task_get_user_pte m (up_va up)) as [pte|]; [|done]. cbv zeta. intros H.
  repeat match type of H with (if ?b then _ else _) = _ => destruct b eqn:?; [done|] end.
  injection H as <-. split; [done|]. simpl. intros Hi. rewrite Hi in *. simpl in *.
  by apply orb_false_iff.
Qed.

Lemma wp_pages_rel {X} pis ns ino off ti (k : ktasks X) :
  (ti < length (kt_tasks k))%nat -> Forall (fun pi => (pi < MAX_USER_PAGES)%nat) pis ->
  kt_rel k (wp_pages pis ns ino off ti k).2.
Proof.
  revert k. induction pis as [|pi pis IH]; intros k Hti Hpi; cbn [wp_pages]; [done|].
  apply Forall_cons in Hpi as [Hlt Hpi]. destruct (negb _); [by apply IH|].
  set (m := kt_vm k ti). set (up := pages m !!! pi).
  destruct (task_page_validate_hw m up) as [hw|] eqn:Ev; [|done].
  destruct (hw_cow hw) eqn:Ec; [done|]. destruct (negb (hw_writable hw)) eqn:Ew; [by apply IH|].
  destruct (task_set_user_pte m _ _ _) as [m'|] eqn:Es; [|done].
  destruct (validate_Some _ _ _ Ev) as [Hu _].
  assert (R : kt_rel k (kt_flush_va (kt_set_vm k ti m') ti (up_va up))).
  { etransitivity; [|apply kt_rel_flush].
    apply kt_rel_set_vm; [done|apply set_pte_Some in Es as (_ & w & t & _ & ->); apply l3_store_only|].
    intros I. assert (Hi : pages m !! pi = Some up).
    { apply list_lookup_lookup_total_lt. by rewrite (vo_len m (vi_ok m I)). }
    destruct (rewrite_pte_inv m pi up (mk_hw false (hw_executable hw) false) m' I Hi Hu) as [? _];
      [split; [done|]; simpl; intros [? _]; done|exact Es|done]. }
  etransitivity; [exact R|]. apply IH; [by rewrite (kr_len _ _ R)|done].
Qed.

Lemma wp_tasks_rel {X} tis ns ino off (k : ktasks X) :
  Forall (fun ti => (ti < length (kt_tasks k))%nat) tis -> kt_rel k (wp_tasks tis ns ino off k).2.
Proof.
  revert k. induction tis as [|ti tis IH]; intros k Hti; cbn [wp_tasks]; [done|].
  apply Forall_cons in Hti as [Hlt Hti]. destruct (_ || _); [by apply IH|].
  pose proof (wp_pages_rel (seq 0 MAX_USER_PAGES) ns ino off ti k Hlt) as R.
  destruct (wp_pages _ _ _ _ _ _) as [ok k1]. cbn [snd] in R.
  assert (R1 : kt_rel k k1). { apply R. apply Forall_seq. intros j Hj. lia. }
  destruct ok; [|exact R1]. etransitivity; [exact R1|]. apply IH. by rewrite (kr_len _ _ R1).
Qed.

Definition kt_keeps {X} (k k' : ktasks X) : Prop := length (kt_tasks k) = MAX_TASKS -> kt_rel k k'.

#[global] Instance kt_keeps_preorder {X} : PreOrder (@kt_keeps X).
Proof.
  split; [intros k _; reflexivity|]. intros a b c A B L. specialize (A L).
  etransitivity; [exact A|]. apply B. by rewrite (kr_len _ _ A).
Qed.

Lemma writeprotect_keeps {X} ns ino off (k : ktasks X) :
  kt_keeps k (task_pagecache_writeprotect_shared ns ino off k).2.
Proof.
  intros L. unfold task_pagecache_writeprotect_shared, writeprotect_shared. destruct ino; [|done].
  apply wp_tasks_rel. rewrite L. apply Forall_seq. intros j Hj. lia.
Qed.

(** ** The system *)

Definition page_refs (m : vm_state) (p : Z) : Z := countb (fun up => up_used up && (up_pa up =? p)) (pages m).

Definition tasks_refs {X} (k : ktasks X) (p : Z) : Z := zsum (fun t => page_refs (t_vm t) p) (kt_tasks k).

Section System.
Context {D E X : Type} `{!BlockDrivers D, !Ext4Ops D E}.
Implicit Types s : sys D E (ktasks X).

(** [o p] references of frame [p] belong to somebody else than the cache and the
    pages of the tasks: kernel stacks, tables, an operation in progress. *)
Record vm_sys (o : Z -> Z) s : Prop := {
  vs_pmm : pmm_wf (s_pmm s);
  vs_ents : length (s_ents s) = MAX_FILE_CACHE_PAGES;
  vs_len : length (kt_tasks (s_top s)) = MAX_TASKS;
  vs_vm ti t : kt_tasks (s_top s) !! ti = Some t -> vm_inv (t_vm t);
  vs_refs p : ext_refs s p = tasks_refs (s_top s) p + o p;
  vs_ext p : 0 <= ext_refs s p;
}.

Definition owners (n : Z) (o : Z -> Z) : Prop := forall p, 0 <= o p <= 2 ^ 30 + n.

Lemma page_refs_bound m p : vm_inv m -> 0 <= page_refs m p <= 512.
Proof.
  intros I. unfold page_refs. pose proof (countb_nonneg (fun up => up_used up && (up_pa up =? p)) (pages m)).
  rewrite (vo_len _ (vi_ok _ I)) in H. lia.
Qed.

Lemma tasks_refs_bound o s p : vm_sys o s -> 0 <= tasks_refs (s_top s) p <= 32768.
Proof.
  intros V. unfold tasks_refs.
  pose proof (zsum_nonneg (fun t => page_refs (t_vm t) p) (kt_tasks (s_top s)) 512
    (fun i t Ht => page_refs_bound (t_vm t) p (vs_vm _ _ V i t Ht))) as H.
  rewrite (vs_len _ _ V) in H. lia.
Qed.

Lemma sys_own o s : vm_sys o s -> (forall p, o p <= 2 ^ 30 + 16) -> pc_own s.
Proof.
  intros V B. constructor; [apply V..|]. intros p. rewrite (vs_refs _ _ V).
  pose proof (tasks_refs_bound _ _ p V). specialize (B p). pose proof (vs_ext _ _ V p) as Hx.
  rewrite (vs_refs _ _ V) in Hx. lia.
Qed.

Lemma vm_at_inv o s ti : vm_sys o s -> (ti < MAX_TASKS)%nat -> vm_inv (vm_at s ti).
Proof.
  intros V Hti. rewrite <- (vs_len _ _ V) in Hti. destruct (lookup_lt_is_Some_2 _ _ Hti) as [t Ht].
  unfold vm_at, kt_vm, kt_task. rewrite (list_lookup_total_correct _ _ _ Ht). by eapply vs_vm.
Qed.

Lemma tasks_refs_set_vm (k : ktasks X) ti m' p :
  (ti < length (kt_tasks k))%nat ->
  tasks_refs (kt_set_vm k ti m') p = tasks_refs k p - page_refs (kt_vm k ti) p + page_refs m' p.
Proof.
  intros Hti. unfold tasks_refs, kt_set_vm, kt_set_task. simpl.
  rewrite (zsum_insert _ _ _ (kt_task k ti)); [done|]. by apply list_lookup_lookup_total_lt.
Qed.

(** A task's memory changes, and with it what the others own. *)
Lemma set_vm_sys o o' s ti m' :
  vm_sys o s -> (ti < MAX_TASKS)%nat -> vm_inv m' ->
  (forall p, page_refs m' p + o' p = page_refs (vm_at s ti) p + o p) ->
  vm_sys o' (set_vm s ti m').
Proof.
  intros V Hti I Hr. pose proof (vs_len _ _ V) as L. constructor; try apply V; try done.
  - simpl. by rewrite length_insert.
  - intros tj t. unfold set_vm, kt_set_vm, kt_set_task. simpl. intros Hj. destruct (decide (ti = tj)) as [<-|Hne].
    + rewrite list_lookup_insert_eq in Hj by lia. by injection Hj as <-.
    + rewrite list_lookup_insert_ne in Hj by done. by eapply vs_vm.
  - intros p. change (ext_refs (set_vm s ti m') p) with (ext_refs s p). simpl.
    rewrite tasks_refs_set_vm by lia. rewrite (vs_refs _ _ V). specialize (Hr p). unfold vm_at in Hr. lia.
Qed.

Lemma set_vm_same_sys o s ti m' :
  vm_sys o s -> (ti < MAX_TASKS)%nat -> vm_inv m' -> pages m' = pages (vm_at s ti) -> vm_sys o (set_vm s ti m').
Proof.
  intros V Hti I Hp. apply (set_vm_sys o); try done. intros p. unfold page_refs. by rewrite Hp.
Qed.

(** The cache moves references, the tasks keep theirs. *)
Lemma rel_refs (k k' : ktasks X) p : kt_rel k k' -> tasks_refs k' p = tasks_refs k p.
Proof.
  intros [L _ _ R]. unfold tasks_refs.
  assert (H : Forall2 (fun t t' => page_refs (t_vm t') p = page_refs (t_vm t) p) (kt_tasks k) (kt_tasks k')).
  { apply Forall2_same_length_lookup_2; [done|]. intros i t t' Ht Ht'.
    destruct (R i t Ht) as (m' & Ht2 & Lm & _). simplify_eq. simpl.
    destruct (l3_only_fields _ _ Lm) as (Ep & _). unfold page_refs. by rewrite Ep. }
  clear -H. induction H as [|t t' l l' Ht _ IH]; unfold zsum in *; simpl; [done|]. lia.
Qed.

Lemma delta_sys o d s s' :
  vm_sys o s -> pc_delta d s s' -> kt_keeps (s_top s) (s_top s') -> (forall p, 0 <= ext_refs s p + d p) ->
  vm_sys (fun p => o p + d p) s'.
Proof.
  intros V (W & L & Hd) K Ho. specialize (K (vs_len _ _ V)). constructor; try done.
  - by rewrite (kr_len _ _ K), (vs_len _ _ V).
  - intros ti t' Ht'. assert (Hlt : (ti < length (kt_tasks (s_top s)))%nat)
      by (rewrite <- (kr_len _ _ K); by eapply lookup_lt_Some).
    destruct (lookup_lt_is_Some_2 _ _ Hlt) as [t Ht]. destruct (kr_task _ _ K ti t Ht) as (m' & Ht2 & _ & I).
    simplify_eq. simpl. apply I. by eapply vs_vm.
  - intros p. rewrite Hd, (vs_refs _ _ V), (rel_refs _ _ p K). lia.
  - intros p. rewrite Hd. apply Ho.
Qed.

Lemma sys_ext o o' s : (forall p, o p = o' p) -> vm_sys o s -> vm_sys o' s.
Proof.
  intros H [A B C I R O]. constructor; try done. intros p. rewrite <- H. apply R.
Qed.

Lemma delta0_sys o s s' : vm_sys o s -> pc_delta d0 s s' -> kt_keeps (s_top s) (s_top s') -> vm_sys o s'.
Proof.
  intros V Hd K. eapply sys_ext; [|apply (delta_sys o d0 s s' V Hd K)].
  - intros p. unfold d0. lia.
  - intros p. unfold d0. pose proof (vs_ext _ _ V p). lia.
Qed.

(** Only the allocator, the cache entries and the tasks count. *)
Lemma sys_eq o s s' :
  s_pmm s' = s_pmm s -> s_ents s' = s_ents s -> kt_tasks (s_top s') = kt_tasks (s_top s) ->
  vm_sys o s -> vm_sys o s'.
Proof.
  intros Hp He Ht [A B C I R O].
  assert (Hx : forall p, ext_refs s' p = ext_refs s p) by (intros p; unfold ext_refs, cache_refs; by rewrite Hp, He).
  constructor; rewrite ?Hp, ?He, ?Ht; try done; intros p; rewrite Hx; [|apply O].
  unfold tasks_refs. rewrite Ht. apply R.
Qed.

Lemma set_ram_sys o s m : vm_sys o s -> vm_sys o (sys_set_ram s m).
Proof.
  intros V. constructor; try apply V. apply wf_with_ram, V.
Qed.

Lemma flush_va_sys o s ti va : vm_sys o s -> vm_sys o (flush_va s ti va).
Proof. intros V. by constructor; apply V. Qed.

Lemma refresh_sys o s ti : vm_sys o s -> (ti < MAX_TASKS)%nat -> vm_sys o (refresh ti s).
Proof. intros V Hti. apply set_vm_same_sys; try done. by eapply refresh_inv, vm_at_inv. Qed.

(** A frame somebody owns. *)
Lemma owned_ref o s p : vm_sys o s -> 1 <= o p -> 1 <= pmm_page_refcount (s_pmm s) p.
Proof.
  intros V Ho. pose proof (vs_refs _ _ V p) as H. pose proof (tasks_refs_bound _ _ p V). unfold ext_refs in H.
  pose proof (cache_refs_bound s p (vs_ents _ _ V)). lia.
Qed.

Lemma free_ext_sys o s p :
  vm_sys o s -> 1 <= ext_refs s p -> vm_sys (fun q => o q - d1 p q) (free_page p s).
Proof.
  intros V Ho. pose proof (cache_refs_bound s p (vs_ents _ _ V)).
  apply (sys_ext (fun q => o q + - d1 p q)); [intros q; lia|]. apply (delta_sys o _ s).
  - done.
  - apply free_page_delta; [apply V..|unfold ext_refs in Ho; lia].
  - reflexivity.
  - intros q. unfold d1. pose proof (vs_ext _ _ V q) as Hx. case_decide; subst; lia.
Qed.

Lemma free_sys o s p :
  vm_sys o s -> 1 <= o p -> vm_sys (fun q => o q - d1 p q) (free_page p s).
Proof.
  intros V Ho. apply free_ext_sys; [done|]. rewrite (vs_refs _ _ V). pose proof (tasks_refs_bound _ _ p V). lia.
Qed.

Lemma free_back n o s p : owners n o -> vm_sys (fun q => o q + d1 p q) s -> vm_sys o (free_page p s).
Proof.
  intros B V. apply (sys_ext (fun q => o q + d1 p q - d1 p q)); [intros q; lia|].
  apply (free_sys _ _ _ V). specialize (B p). unfold d1. rewrite decide_True by done. lia.
Qed.

Lemma alloc_sys o s n page p :
  vm_sys o s -> owners n o -> n <= 16 -> pmm_alloc_page (s_pmm s) = (page, p) ->
  (page = 0 /\ sys_set_pmm s p = s) \/
  (page <> 0 /\ frame_ok page /\ vm_sys (fun q => o q + d1 page q) (sys_set_pmm s p)).
Proof.
  intros V B Hn Ha. assert (O : pc_own s) by (apply (sys_own _ _ V); intros q; specialize (B q); lia).
  destruct (alloc_page_delta s page p O Ha) as [[-> ->]|(Hne & Da & _ & He)].
  { left. split; [done|]. by destruct s. }
  right. destruct (alloc_page_ok _ _ _ (vs_pmm _ _ V) Ha Hne) as (_ & Hg).
  destruct Hg as (Hv & H0 & _). split; [done|]. split_and!.
  - unfold valid_frame in Hv. unfold frame_ok, page_aligned in *. dlia.
  - apply (delta_sys o _ s); try done. intros q. pose proof (vs_ext _ _ V q). unfold d1. case_decide; lia.
Qed.

Lemma vm_at_set o s ti m : vm_sys o s -> (ti < MAX_TASKS)%nat -> vm_at (set_vm s ti m) ti = m.
Proof.
  intros V Hti. rewrite <- (vs_len _ _ V) in Hti. unfold vm_at, set_vm, kt_vm, kt_set_vm, kt_set_task, kt_task.
  simpl. by rewrite list_lookup_total_insert_eq.
Qed.

(** The second write of a task's memory is the one that stays. *)
Lemma set_vm_twice (k : ktasks X) ti m1 m2 va :
  (ti < length (kt_tasks k))%nat ->
  kt_tasks (kt_set_vm (kt_flush_va (kt_set_vm k ti m1) ti va) ti m2) = kt_tasks (kt_set_vm k ti m2).
Proof.
  intros Hti. unfold kt_set_vm, kt_flush_va, kt_set_task, kt_task. simpl.
  rewrite list_lookup_total_insert_eq by done. rewrite list_insert_insert_eq. by destruct (kt_tasks k !!! ti).
Qed.

(** ** Ranges untouched *)

Definition ranges (m : vm_state) : list vm_area * Z * Z * Z * Z :=
  (vmas m, heap_base m, heap_end m, heap_limit m, stack_base m).

Record same_ranges s s' : Prop := {
  sr_current : kt_current (s_top s') = kt_current (s_top s);
  sr_ranges ti : ranges (vm_at s' ti) = ranges (vm_at s ti);
}.

#[global] Instance same_ranges_preorder : PreOrder same_ranges.
Proof.
  split; [by constructor|]. intros a b c [A1 A2] [B1 B2]. constructor; [congruence|].
  intros ti. by rewrite B2, A2.
Qed.

Lemma sr_top s s' : s_top s' = s_top s -> same_ranges s s'.
Proof. intros H. constructor; [by rewrite H|]. intros ti. unfold vm_at. by rewrite H. Qed.

Lemma sr_set_vm s ti m' : ranges m' = ranges (vm_at s ti) -> same_ranges s (set_vm s ti m').
Proof.
  intros H. constructor; [done|]. intros tj. unfold set_vm, vm_at, kt_vm, kt_set_vm, kt_set_task, kt_task. simpl.
  destruct (decide (ti = tj)) as [<-|Hne].
  - destruct (decide (ti < length (kt_tasks (s_top s)))%nat) as [Hlt|Hge].
    + rewrite list_lookup_total_insert_eq by done. exact H.
    + by rewrite list_insert_ge by lia.
  - by rewrite list_lookup_total_insert_ne by done.
Qed.

Lemma sr_rel s s' : kt_rel (s_top s) (s_top s') -> same_ranges s s'.
Proof.
  intros K. constructor; [apply K|]. intros ti.
  destruct (decide (ti < length (kt_tasks (s_top s)))%nat) as [Hlt|Hge].
  - destruct (kt_rel_lookup _ _ ti K Hlt) as [L _]. unfold vm_at, ranges.
    destruct (l3_only_fields _ _ L) as (_ & -> & _ & -> & -> & -> & -> & _). done.
  - unfold vm_at, kt_vm, kt_task. rewrite !list_lookup_total_alt.
    rewrite !lookup_ge_None_2; [done|lia|rewrite (kr_len _ _ K); lia].
Qed.

Lemma sr_refresh s ti : same_ranges s (refresh ti s).
Proof. by apply sr_set_vm. Qed.

Lemma sr_flush s ti va : same_ranges s (flush_va s ti va).
Proof. by constructor. Qed.

Lemma sr_free s p : same_ranges s (free_page p s).
Proof. by constructor. Qed.

Lemma sr_vmas s s' ti : same_ranges s s' -> vmas (vm_at s' ti) = vmas (vm_at s ti).
Proof. intros [_ R]. specialize (R ti). unfold ranges in R. congruence. Qed.

(** ** The operations on single pages *)

Lemma page_refs_insert m m' i up up' p :
  pages m !! i = Some up -> pages m' = <[i := up']> (pages m) ->
  page_refs m' p =
  page_refs m p - Z.b2z (up_used up && (up_pa up =? p)) + Z.b2z (up_used up' && (up_pa up' =? p)).
Proof. intros Hi Hp. unfold page_refs. rewrite Hp. by rewrite (countb_insert _ _ _ up). Qed.

(** A mapped page moves one reference from the caller to the task. *)
Lemma map_user_page_sys o s ti va pa w x c intent ok s' :
  vm_sys (fun q => o q + d1 pa q) s -> (ti < MAX_TASKS)%nat -> frame_ok pa -> hw_allowed intent (mk_hw w x c) ->
  task_map_user_page ti va pa w x c intent s = (ok, s') ->
  vm_sys (fun q => if ok then o q else o q + d1 pa q) s' /\ same_ranges s s'.
Proof.
  intros V Hti Hf Hal. unfold task_map_user_page. cbv zeta.
  pose proof (vm_at_inv _ _ _ V Hti) as I.
  destruct (task_find_page (vm_at s ti) va) as [i|] eqn:Ef; [by intros [= <- <-]|].
  destruct (task_set_user_pte _ _ _ _) as [m1|] eqn:Es; [|by intros [= <- <-]].
  destruct (task_track_page m1 va pa intent) as [m2|] eqn:Et.
  - intros [= <- <-]. destruct (map_page_inv _ _ _ (mk_hw w x c) _ _ _ I Ef Hf Hal Es Et) as (I2 & Ev & i & up & Hi & Hu & Hp).
    assert (R2 : ranges m2 = ranges (vm_at s ti)).
    { unfold ranges. rewrite Ev. unfold task_track_page in Et. destruct (find_idx _ _); [|done].
      injection Et as <-. apply set_pte_Some in Es as (_ & w' & t & _ & ->).
      destruct (l3_only_fields _ _ (l3_store_only (vm_at s ti) w' t va (mmu_make_page pa (task_user_attrs w x c))))
        as (_ & _ & _ & E1 & E2 & E3 & E4 & _). simpl. by rewrite E1, E2, E3, E4. }
    split; [|etransitivity; [by apply sr_set_vm|apply sr_refresh]].
    apply refresh_sys; [|done]. apply (set_vm_sys _ _ _ _ _ V Hti I2). intros p.
    rewrite (page_refs_insert _ _ _ _ _ p Hi Hp), Hu. simpl. unfold d1.
    destruct (Z.eqb_spec pa p); case_decide; simpl; subst; lia || done.
  - intros [= <- <-]. apply set_pte_Some in Es as (Hb & w' & t & Hl & ->).
    destruct (clear_unmapped_inv _ _ _ _ _ (mmu_make_page pa (task_user_attrs w x c)) I Ef Hb Hl eq_refl) as [I2 L].
    destruct (l3_only_fields _ _ L) as (Ep & Ev & _ & E1 & E2 & E3 & E4 & _). split.
    + apply set_vm_same_sys; try done.
    + apply sr_set_vm. unfold ranges. by rewrite Ev, E1, E2, E3, E4.
Qed.

Lemma anon_fault_sys o s ti va w x ok s' :
  vm_sys o s -> owners 8 o -> (ti < MAX_TASKS)%nat -> task_map_user_anon_fault_page ti va w x s = (ok, s') ->
  vm_sys o s' /\ same_ranges s s'.
Proof.
  intros V B Hti. unfold task_map_user_anon_fault_page. destruct (_ <=? _); [by intros [= <- <-]|].
  destruct (pmm_alloc_page (s_pmm s)) as [page p] eqn:Ea.
  destruct (alloc_sys _ _ 8 _ _ V B ltac:(lia) Ea) as [[-> Hid]|(Hne & Hf & V1)].
  { rewrite Hid. by intros [= <- <-]. }
  replace (page =? 0) with false by lia. cbv zeta.
  destruct (task_map_user_page _ _ _ _ _ _ _ _) as [ok1 s1] eqn:Em.
  apply (map_user_page_sys o) in Em as [V2 R2]; try done.
  2: { split; [by intros ->|]. simpl. intros [_ ?]. done. }
  assert (R : same_ranges s s1) by (transitivity (sys_set_pmm s p); [by apply sr_top|exact R2]).
  destruct ok1; cbn [negb]; intros [= <- <-]; cbn iota beta in V2.
  - split; [by apply flush_va_sys|]. etransitivity; [exact R|apply sr_flush].
  - split; [by eapply free_back|etransitivity; [exact R|apply sr_free]].
Qed.
Lemma task_refs_le o s ti p : vm_sys o s -> (ti < MAX_TASKS)%nat -> page_refs (vm_at s ti) p <= tasks_refs (s_top s) p.
Proof.
  intros V Hti. rewrite <- (vs_len _ _ V) in Hti. unfold tasks_refs, vm_at, kt_vm, kt_task.
  apply (zsum_elem (fun t => page_refs (t_vm t) p) _ ti); [|by apply list_lookup_lookup_total_lt].
  intros j t Ht. by apply page_refs_bound, (vs_vm _ _ V j t).
Qed.

Lemma tracked_refs m i up : pages m !! i = Some up -> up_used up = true -> 1 <= page_refs m (up_pa up).
Proof. intros Hi Hu. apply (countb_pos _ _ i up Hi). by rewrite Hu, Z.eqb_refl. Qed.

Lemma tracked_ext o s n ti i up :
  vm_sys o s -> owners n o -> (ti < MAX_TASKS)%nat -> pages (vm_at s ti) !! i = Some up -> up_used up = true ->
  1 <= ext_refs s (up_pa up).
Proof.
  intros V B Hti Hi Hu. rewrite (vs_refs _ _ V). pose proof (tracked_refs _ _ _ Hi Hu).
  pose proof (task_refs_le _ _ _ (up_pa up) V Hti). specialize (B (up_pa up)). lia.
Qed.

Lemma pagecache_writeback_sys o s ino off pa mb ok s' :
  vm_sys o s -> (forall p, o p <= 2 ^ 30 + 16) -> 1 <= ext_refs s pa ->
  pagecache_writeback ino off pa mb s = (ok, s') -> vm_sys o s' /\ s_top s' = s_top s.
Proof.
  intros V B He Hw. pose proof (top_writeback _ _ _ _ _ _ _ Hw) as Ht. split; [|exact Ht].
  eapply delta0_sys; [exact V| |rewrite Ht; reflexivity]. eapply writeback_delta; [|exact He|exact Hw].
  by apply (sys_own o).
Qed.

(** Writing a page back touches no task. *)
Lemma vma_writeback_sys o s ti vi ui ok s' :
  vm_sys o s -> (forall p, o p <= 2 ^ 30 + 16) -> 1 <= ext_refs s (up_pa (page_at (vm_at s ti) ui)) ->
  task_vma_writeback_page ti vi ui s = (ok, s') -> vm_sys o s' /\ s_top s' = s_top s.
Proof.
  intros V B He. unfold task_vma_writeback_page. destruct vi as [vi|]; [|by intros [= _ <-]]. cbv zeta.
  destruct (vma_inode _) as [p|]; [|by intros [= _ <-]]. intros H. peel H ltac:(by simplify_eq).
  destruct (task_page_validate_hw _ _) as [hw|]; [|by simplify_eq].
  peel H ltac:(by simplify_eq). by apply (pagecache_writeback_sys o) in H.
Qed.

Lemma clear_pte_only m va : l3_only m (clear_pte m va).
Proof. unfold clear_pte. destruct (task_l3_for_va m va) as [[w t]|]; [apply l3_store_only|reflexivity]. Qed.

Lemma ranges_l3 m m' : l3_only m m' -> ranges m' = ranges m.
Proof. intros L. unfold ranges. destruct (l3_only_fields _ _ L) as (_ & -> & _ & -> & -> & -> & -> & _). done. Qed.

(** The end of [task_unmap_user_page]: clear the entry, flush, free, forget. *)
Lemma drop_page_sys o s ti ui up s2 :
  vm_sys o s -> owners 8 o -> (ti < MAX_TASKS)%nat -> pages (vm_at s ti) !! ui = Some up -> up_used up = true ->
  s2 = flush_va (set_vm s ti (clear_pte (vm_at s ti) (up_va up))) ti (up_va up) ->
  let s3 := free_page (up_pa (page_at (vm_at s2 ti) ui)) s2 in
  let s4 := set_vm s3 ti (set_page (vm_at s3 ti) ui user_page_zero) in
  vm_sys o s4 /\ same_ranges s s4.
Proof.
  intros V B Hti Hi Hu Hs2. set (m := vm_at s ti) in *. set (m' := set_page (clear_pte m (up_va up)) ui user_page_zero).
  destruct (unmap_page_inv m ui up m') as (I' & Ev & Ep); try done; [by eapply vm_at_inv|].
  assert (V2 : vm_sys (fun q => o q + d1 (up_pa up) q) (set_vm s ti m')).
  { apply (set_vm_sys o); try done. intros p. fold m. rewrite (page_refs_insert _ _ _ _ _ p Hi Ep), Hu. simpl.
    unfold d1. destruct (Z.eqb_spec (up_pa up) p); case_decide; simpl; subst; lia || done. }
  apply (free_sys _ _ (up_pa up)) in V2; [|specialize (B (up_pa up)); unfold d1; rewrite decide_True by done; lia].
  assert (Hv2 : vm_at s2 ti = clear_pte m (up_va up)) by (subst s2; by eapply vm_at_set).
  destruct (l3_only_fields _ _ (clear_pte_only m (up_va up))) as (Hcp & _).
  assert (Hat : page_at (vm_at s2 ti) ui = up).
  { rewrite Hv2. unfold page_at. rewrite Hcp. by apply list_lookup_total_correct. }
  cbv zeta. rewrite Hat. change (vm_at (free_page (up_pa up) s2) ti) with (vm_at s2 ti). rewrite Hv2. fold m'.
  subst s2. split.
  - eapply (sys_eq _ (free_page (up_pa up) (set_vm s ti m'))); try done.
    + simpl. apply set_vm_twice. rewrite (vs_len _ _ V). done.
    + eapply sys_ext; [|exact V2]. intros q. cbv beta. lia.
  - etransitivity; [apply sr_set_vm, ranges_l3, clear_pte_only|]. etransitivity; [apply sr_flush|].
    etransitivity; [apply (sr_free _ (up_pa up))|]. apply sr_set_vm.
    match goal with |- _ = ranges (vm_at (free_page _ ?x) _) => change (ranges m' = ranges (vm_at x ti)) end.
    by rewrite Hv2.
Qed.

Lemma unmap_user_page_sys o s ti va ok s' :
  vm_sys o s -> owners 8 o -> (ti < MAX_TASKS)%nat -> task_unmap_user_page ti va s = (ok, s') ->
  vm_sys o s' /\ same_ranges s s'.
Proof.
  intros V B Hti. unfold task_unmap_user_page.
  destruct (task_find_page (vm_at s ti) va) as [ui|] eqn:Ef; [|by intros [= _ <-]].
  apply find_page_Some in Ef as (up & Hi & Hat & Hu & Hva).
  destruct (task_page_validate_hw _ _) as [hw|]; [|by intros [= _ <-]].
  destruct (bool_decide _); [by intros [= _ <-]|].
  match goal with |- context [match task_vma_find ?a ?b with Some _ => _ | None => _ end] =>
    destruct (match task_vma_find a b with
              | Some vi => task_vma_writeback_page ti (Some vi) ui s | None => (true, s) end) as [ok1 s1] eqn:Ew end.
  assert (vm_sys o s1 /\ s_top s1 = s_top s) as [V1 Ht].
  { destruct (task_vma_find (vm_at s ti) va); [|by injection Ew as _ <-].
    eapply vma_writeback_sys; [exact V| | |exact Ew].
    - intros p. specialize (B p). lia.
    - rewrite Hat. by eapply tracked_ext. }
  destruct ok1; cbn [negb]; [|intros [= _ <-]; split; [done|by apply sr_top]].
  assert (Hv : vm_at s1 ti = vm_at s ti) by (unfold vm_at; by rewrite Ht).
  rewrite <- Hv in Hi. rewrite <- Hva.
  destruct (drop_page_sys o s1 ti ui up _ V1 B Hti Hi Hu eq_refl) as [V4 R4]. cbv zeta in *.
  intros H. apply pair_equal_spec in H as [_ <-]. split; [by apply refresh_sys|].
  transitivity s1; [by apply sr_top|]. etransitivity; [exact R4|apply sr_refresh].
Qed.

Lemma unmap_pages_sys o vas s ti :
  vm_sys o s -> owners 8 o -> (ti < MAX_TASKS)%nat ->
  vm_sys o (unmap_pages ti vas s) /\ same_ranges s (unmap_pages ti vas s).
Proof.
  intros V B Hti. revert s V. induction vas as [|va vas IH]; intros s V; [by split|].
  unfold unmap_pages. cbn [foldl]. destruct (task_unmap_user_page ti va s) as [ok s1] eqn:Eu.
  apply (unmap_user_page_sys o) in Eu as [V1 R1]; try done. destruct (IH s1 V1) as [V2 R2].
  split; [exact V2|]. etransitivity; [exact R1|exact R2].
Qed.

Lemma valid_frame_ok p : valid_frame p -> frame_ok p.
Proof. unfold valid_frame, frame_ok, page_aligned. dlia. Qed.

Lemma live_frame_ok o s p : vm_sys o s -> 1 <= ext_refs s p -> frame_ok p.
Proof.
  intros V He. apply valid_frame_ok, (refcount_nonzero_valid (s_pmm s)). unfold ext_refs in He.
  pose proof (cache_refs_bound s p (vs_ents _ _ V)). lia.
Qed.

Lemma get_or_create_sys o s ino off r s' :
  vm_sys o s -> owners 9 o -> pagecache_get_or_create ino off s = (r, s') ->
  s_top s' = s_top s /\
  match r with
  | Some pa => vm_sys (fun q => o q + d1 pa q) s' /\ frame_ok pa
  | None => vm_sys o s'
  end.
Proof.
  intros V B Hg. pose proof (top_get_or_create _ _ _ _ _ Hg) as Ht. split; [done|].
  assert (O : pc_own s) by (apply (sys_own _ _ V); intros q; specialize (B q); lia).
  pose proof (get_or_create_delta _ _ _ _ _ O Hg) as Hd.
  destruct r as [pa|]; [|by eapply delta0_sys; [exact V|exact Hd|rewrite Ht; reflexivity]].
  assert (V' : vm_sys (fun q => o q + d1 pa q) s').
  { apply (delta_sys o _ s); try done; [by rewrite Ht|]. intros q. pose proof (vs_ext _ _ V q).
    unfold d1. case_decide; lia. }
  split; [done|]. apply (live_frame_ok _ _ _ V'). rewrite (vs_refs _ _ V').
  pose proof (tasks_refs_bound _ _ pa V'). specialize (B pa). unfold d1. rewrite decide_True by done. lia.
Qed.

Lemma allowed_plain w x : hw_allowed w (mk_hw w x false).
Proof. split; [by intros ->|]. simpl. intros [_ ?]. done. Qed.

Lemma allowed_ro b x : hw_allowed b (mk_hw false x false).
Proof. split; [done|]. simpl. intros [? _]. done. Qed.

#[local] Hint Resolve allowed_plain allowed_ro : core.

(** Giving a fresh reference to the task, or back. *)
Lemma map_or_free_sys o s ti va pa w x c intent ok s' :
  vm_sys (fun q => o q + d1 pa q) s -> owners 8 o -> (ti < MAX_TASKS)%nat -> frame_ok pa ->
  hw_allowed intent (mk_hw w x c) ->
  (let '(ok, s) := task_map_user_page ti va pa w x c intent s in
   if negb ok then (false, free_page pa s) else (true, flush_va s ti va)) = (ok, s') ->
  vm_sys o s' /\ same_ranges s s'.
Proof.
  intros V B Hti Hf Hal. destruct (task_map_user_page _ _ _ _ _ _ _ _) as [ok1 s1] eqn:Em.
  apply (map_user_page_sys o) in Em as [V2 R2]; try done.
  destruct ok1; cbn [negb]; intros [= <- <-]; cbn iota beta in V2.
  - split; [by apply flush_va_sys|]. etransitivity; [exact R2|apply sr_flush].
  - split; [by eapply free_back|etransitivity; [exact R2|apply sr_free]].
Qed.

Lemma owners_add n o p : owners n o -> owners (n + 1) (fun q => o q + d1 p q).
Proof. intros B q. specialize (B q). unfold d1. case_decide; lia. Qed.

Lemma file_fault_sys o s ti vi va w x ok s' :
  vm_sys o s -> owners 8 o -> (ti < MAX_TASKS)%nat -> task_map_user_file_fault_page ti vi va w x s = (ok, s') ->
  vm_sys o s' /\ same_ranges s s'.
Proof.
  intros V B Hti. unfold task_map_user_file_fault_page. cbv zeta.
  destruct (negb _ || _); [by intros [= _ <-]|]. destruct (has_bits _ _).
  - destruct (pagecache_get_or_create _ _ s) as [[pa|] s1] eqn:Eg;
      apply (get_or_create_sys o) in Eg as [Ht Hg]; try done;
      try (intros q; specialize (B q); lia).
    + destruct Hg as [V1 Hf]. intros H. apply (map_or_free_sys o) in H as [V2 R2]; try done.
      split; [done|]. transitivity s1; [by apply sr_top|exact R2].
    + intros [= _ <-]. split; [done|by apply sr_top].
  - destruct (_ <=? _); [by intros [= _ <-]|]. destruct (pmm_alloc_page (s_pmm s)) as [page p] eqn:Ea.
    destruct (alloc_sys _ _ 8 _ _ V B ltac:(lia) Ea) as [[-> Hid]|(Hne & Hf & V1)].
    { rewrite Hid. by intros [= _ <-]. }
    replace (page =? 0) with false by lia. pose proof (owners_add _ _ page B) as B1.
    destruct (pagecache_get_or_create _ _ _) as [[pa|] s1] eqn:Eg;
      apply (get_or_create_sys (fun q => o q + d1 page q)) in Eg as [Ht Hg]; try done.
    + destruct Hg as [V2 _]. apply (set_ram_sys _ _ (memcpy (s_ram s1) page pa 4096)) in V2.
      apply (free_back _ _ _ _ B1) in V2. intros H. apply (map_or_free_sys o) in H as [V3 R3]; try done.
      split; [done|]. transitivity s1; [by apply sr_top|]. etransitivity; [|exact R3]. by apply sr_top.
    + intros [= _ <-]. split; [by eapply free_back|by apply sr_top].
Qed.

(** ** Rewriting a page *)

Lemma set_vm_again (k : ktasks X) ti m1 m2 :
  (ti < length (kt_tasks k))%nat -> kt_tasks (kt_set_vm (kt_set_vm k ti m1) ti m2) = kt_tasks (kt_set_vm k ti m2).
Proof. apply (set_vm_twice k ti m1 m2 0). Qed.

Lemma rewrite_ranges m i up m' : l3_only (set_page m i up) m' -> ranges m' = ranges m.
Proof. intros L. by rewrite (ranges_l3 _ _ L). Qed.

Lemma page_at_set m i up up' : pages m !! i = Some up -> page_at (set_page m i up') i = up'.
Proof.
  intros Hi. unfold page_at. simpl. apply list_lookup_total_insert_eq. by eapply lookup_lt_Some.
Qed.

(** The page keeps its frame. *)
Lemma rewrite_same_sys o s ti ui up up' hw :
  vm_sys o s -> (ti < MAX_TASKS)%nat -> pages (vm_at s ti) !! ui = Some up -> up_used up = true ->
  up_used up' = true -> up_va up' = up_va up -> up_pa up' = up_pa up -> hw_allowed (up_writable_intent up') hw ->
  let s2 := set_vm s ti (set_page (vm_at s ti) ui up') in
  page_at (vm_at s2 ti) ui = up' /\ exists m', task_set_user_pte (vm_at s2 ti) (up_va up) (up_pa up)
      (task_user_attrs (hw_writable hw) (hw_executable hw) (hw_cow hw)) = Some m' /\
    vm_sys o (set_vm s2 ti m') /\ same_ranges s (set_vm s2 ti m').
Proof.
  intros V Hti Hi Hu Hu' Hva Hpa Hal s2. pose proof (vm_at_inv _ _ _ V Hti) as I.
  assert (Hv2 : vm_at s2 ti = set_page (vm_at s ti) ui up') by by eapply vm_at_set.
  split; [rewrite Hv2; by apply (page_at_set _ _ up)|].
  pose proof (vo_pages _ (vi_ok _ I) ui up Hi Hu) as [_ _ Hf (hw0 & Hg & _)].
  destruct (set_pte_total (vm_at s2 ti) (up_va up) (pte_of (up_pa up) hw0) (up_pa up)
    (task_user_attrs (hw_writable hw) (hw_executable hw) (hw_cow hw))) as [m' Hm'].
  { rewrite Hv2, (get_pte_ext (vm_at s ti)) by done. exact Hg. }
  exists m'. split; [done|]. rewrite Hv2, <- Hpa in Hm'. rewrite <- Hpa in Hf.
  destruct (rewrite_page_inv _ ui up up' hw m' I Hi Hu Hu' Hva Hf Hal Hm') as (I' & Ep & _ & L).
  unfold s2. split.
  - eapply (sys_eq _ (set_vm s ti m')); try done.
    + simpl. apply set_vm_again. by rewrite (vs_len _ _ V).
    + apply (set_vm_sys o); try done. intros p. rewrite (page_refs_insert _ _ _ _ _ p Hi Ep), Hu, Hu', Hpa. lia.
  - transitivity (set_vm s ti (set_page (vm_at s ti) ui up')); [by apply sr_set_vm|].
    apply sr_set_vm. fold s2. rewrite Hv2. by rewrite (ranges_l3 _ _ L).
Qed.

(** The page moves to the frame [np] the caller holds, and the old one is given
    back. *)
Lemma rewrite_frame_sys o s ti ui up up' hw :
  vm_sys (fun q => o q + d1 (up_pa up') q) s -> owners 8 o -> (ti < MAX_TASKS)%nat ->
  pages (vm_at s ti) !! ui = Some up -> up_used up = true ->
  up_used up' = true -> up_va up' = up_va up -> frame_ok (up_pa up') -> hw_allowed (up_writable_intent up') hw ->
  let s2 := set_vm (free_page (up_pa up) s) ti (set_page (vm_at s ti) ui up') in
  page_at (vm_at s2 ti) ui = up' /\ exists m', task_set_user_pte (vm_at s2 ti) (up_va up) (up_pa up')
      (task_user_attrs (hw_writable hw) (hw_executable hw) (hw_cow hw)) = Some m' /\
    vm_sys o (set_vm s2 ti m') /\ same_ranges s (set_vm s2 ti m').
Proof.
  intros V B Hti Hi Hu Hu' Hva Hf Hal s2. pose proof (vm_at_inv _ _ _ V Hti) as I.
  assert (Hv2 : vm_at s2 ti = set_page (vm_at s ti) ui up') by by eapply (vm_at_set _ s).
  split; [rewrite Hv2; by apply (page_at_set _ _ up)|].
  pose proof (vo_pages _ (vi_ok _ I) ui up Hi Hu) as [_ _ _ (hw0 & Hg & _)].
  destruct (set_pte_total (vm_at s2 ti) (up_va up) (pte_of (up_pa up) hw0) (up_pa up')
    (task_user_attrs (hw_writable hw) (hw_executable hw) (hw_cow hw))) as [m' Hm'].
  { rewrite Hv2, (get_pte_ext (vm_at s ti)) by done. exact Hg. }
  exists m'. split; [done|]. rewrite Hv2 in Hm'.
  destruct (rewrite_page_inv _ ui up up' hw m' I Hi Hu Hu' Hva Hf Hal Hm') as (I' & Ep & _ & L).
  assert (V1 : vm_sys (fun q => o q + d1 (up_pa up) q) (set_vm s ti m')).
  { apply (set_vm_sys (fun q => o q + d1 (up_pa up') q)); try done. intros p.
    rewrite (page_refs_insert _ _ _ _ _ p Hi Ep), Hu, Hu'. simpl. unfold d1.
    destruct (Z.eqb_spec (up_pa up) p), (Z.eqb_spec (up_pa up') p);
      repeat case_decide; simpl; try done; lia. }
  apply (free_back 8) in V1; [|done]. unfold s2. split.
  - eapply (sys_eq _ (free_page (up_pa up) (set_vm s ti m'))); try done.
    simpl. apply set_vm_again. by rewrite (vs_len _ _ V).
  - etransitivity; [apply (sr_free s (up_pa up))|].
    transitivity (set_vm (free_page (up_pa up) s) ti (set_page (vm_at s ti) ui up')); [by apply sr_set_vm|].
    apply sr_set_vm. fold s2. rewrite Hv2. by rewrite (ranges_l3 _ _ L).
Qed.

Lemma page_set_prot_sys o s ti ui prot ok s' :
  vm_sys o s -> owners 8 o -> (ti < MAX_TASKS)%nat -> (ui < MAX_USER_PAGES)%nat ->
  task_page_set_prot ti ui prot s = (ok, s') -> vm_sys o s' /\ same_ranges s s'.
Proof.
  intros V B Hti Hui. unfold task_page_set_prot. cbv zeta. set (m := vm_at s ti). set (up := page_at m ui).
  destruct (task_page_validate_hw m up) as [hw|] eqn:Ev; [|by intros [= _ <-]].
  destruct (validate_Some _ _ _ Ev) as [Hu _].
  assert (Hi : pages m !! ui = Some up).
  { apply list_lookup_lookup_total_lt. by rewrite (vo_len m (vi_ok m (vm_at_inv _ _ _ V Hti))). }
  set (sh := match task_vma_find m (up_va up) with Some _ => _ | None => _ end). clearbody sh.
  destruct (has_bits prot 2).
  - destruct (_ =? 0); [by intros [= _ <-]|].
    destruct (negb sh && _) eqn:Esh.
    + destruct (_ <=? _); [by intros [= _ <-]|]. destruct (pmm_alloc_page (s_pmm s)) as [np p] eqn:Ea.
      destruct (alloc_sys _ _ 8 _ _ V B ltac:(lia) Ea) as [[-> Hid]|(Hne & Hf & V1)].
      { rewrite Hid. by intros [= _ <-]. }
      replace (np =? 0) with false by lia. set (s1 := sys_set_ram _ _).
      destruct (rewrite_frame_sys o s1 ti ui up (set_up_writable_intent (set_up_pa up np) true)
        (mk_hw (negb sh) (has_bits prot 4) false)) as (Hp2 & m' & Hm' & V2 & R2); try done.
      { by apply set_ram_sys. }
      { split; [done|]. simpl. intros [_ ?]. done. }
      change (vm_at (free_page (up_pa up) s1) ti) with (vm_at s1 ti). rewrite Hp2. simpl in Hm'. simpl. rewrite Hm'.
      intros H. apply pair_equal_spec in H as [_ <-]. split; [by apply flush_va_sys|].
      transitivity s1; [by apply sr_top|]. etransitivity; [exact R2|apply sr_flush].
    + destruct (rewrite_same_sys o s ti ui up (set_up_writable_intent (set_up_pa up (up_pa up)) true)
        (mk_hw (negb sh) (has_bits prot 4) false)) as (Hp2 & m' & Hm' & V2 & R2); try done.
      { split; [done|]. simpl. intros [_ ?]. done. }
      fold m in Hp2, Hm', V2, R2 |- *. rewrite Hp2. simpl in Hm'. simpl. rewrite Hm'.
      intros H. apply pair_equal_spec in H as [_ <-]. split; [by apply flush_va_sys|].
      etransitivity; [exact R2|apply sr_flush].
  - destruct (rewrite_same_sys o s ti ui up (set_up_writable_intent up false)
      (mk_hw false (has_bits prot 4) false)) as (Hp2 & m' & Hm' & V2 & R2); try done.
    fold m in Hp2, Hm', V2, R2 |- *. rewrite Hp2. simpl in Hm'. simpl. rewrite Hm'.
    intros H. apply pair_equal_spec in H as [_ <-]. split; [by apply flush_va_sys|].
    etransitivity; [exact R2|apply sr_flush].
Qed.

(** The page keeps its frame and intent. *)
Lemma rewrite_pte_sys o s ti ui up hw :
  vm_sys o s -> (ti < MAX_TASKS)%nat -> pages (vm_at s ti) !! ui = Some up -> up_used up = true ->
  hw_allowed (up_writable_intent up) hw ->
  exists m', task_set_user_pte (vm_at s ti) (up_va up) (up_pa up)
      (task_user_attrs (hw_writable hw) (hw_executable hw) (hw_cow hw)) = Some m' /\
    vm_sys o (set_vm s ti m') /\ same_ranges s (set_vm s ti m') /\ l3_only (vm_at s ti) m'.
Proof.
  intros V Hti Hi Hu Hal. pose proof (vm_at_inv _ _ _ V Hti) as I.
  pose proof (vo_pages _ (vi_ok _ I) ui up Hi Hu) as [_ _ Hf (hw0 & Hg & _)].
  destruct (set_pte_total _ _ _ (up_pa up) (task_user_attrs (hw_writable hw) (hw_executable hw) (hw_cow hw)) Hg)
    as [m' Hm'].
  exists m'. split; [done|]. destruct (rewrite_pte_inv _ ui up hw m' I Hi Hu Hal Hm') as [I' L].
  split_and!; [|by apply sr_set_vm, ranges_l3|done].
  apply set_vm_same_sys; try done. by destruct (l3_only_fields _ _ L) as (-> & _).
Qed.

Lemma mark_dirty_sys o s ino off len :
  vm_sys o s -> (forall p, o p <= 2 ^ 30 + 16) ->
  vm_sys o (pagecache_mark_dirty ino off len s) /\ kt_rel (s_top s) (s_top (pagecache_mark_dirty ino off len s)).
Proof.
  intros V B. assert (K : kt_keeps (s_top s) (s_top (pagecache_mark_dirty ino off len s))).
  { apply (topr_mark_dirty kt_keeps). intros. apply writeprotect_keeps. }
  split; [|by apply K, V]. eapply delta0_sys; [exact V| |exact K].
  apply delta_same; [by apply (sys_own o)|apply same_mark_dirty].
Qed.

Lemma rel_page s s' ti o :
  vm_sys o s -> (ti < MAX_TASKS)%nat -> kt_rel (s_top s) (s_top s') ->
  pages (vm_at s' ti) = pages (vm_at s ti) /\ l3_only (vm_at s ti) (vm_at s' ti).
Proof.
  intros V Hti K. rewrite <- (vs_len _ _ V) in Hti. destruct (kt_rel_lookup _ _ ti K Hti) as [L _].
  split; [by destruct (l3_only_fields _ _ L)|exact L].
Qed.

Lemma write_fault_sys o s ti va ok s' :
  vm_sys o s -> owners 8 o -> (ti < MAX_TASKS)%nat -> write_fault ti va s = (ok, s') ->
  vm_sys o s' /\ same_ranges s s'.
Proof.
  intros V B Hti. unfold write_fault. cbv zeta. set (m := vm_at s ti).
  destruct (task_find_page m va) as [ui|] eqn:Ef; [|by intros [= _ <-]].
  apply find_page_Some in Ef as (up & Hi & -> & Hu & <-).
  destruct (task_page_validate_hw m up) as [hw|] eqn:Ev; [|by intros [= _ <-]].
  destruct (up_writable_intent up) eqn:Ein; cbn [negb]; [|by intros [= _ <-]].
  destruct (hw_writable hw); [by intros [= _ <-]|].
  set (hw' := mk_hw true (hw_executable hw) false).
  assert (Hal : hw_allowed (up_writable_intent up) hw') by (rewrite Ein; apply allowed_plain).
  destruct (hw_cow hw) eqn:Ec; cbn [negb].
  - destruct (_ =? 0); [by intros [= _ <-]|]. destruct (1 <? _).
    + destruct (_ <=? _); [by intros [= _ <-]|]. destruct (pmm_alloc_page (s_pmm s)) as [np p] eqn:Ea.
      destruct (alloc_sys _ _ 8 _ _ V B ltac:(lia) Ea) as [[-> Hid]|(Hne & Hf & V1)].
      { rewrite Hid. by intros [= _ <-]. }
      replace (np =? 0) with false by lia. set (s1 := sys_set_ram _ _).
      destruct (rewrite_frame_sys o s1 ti ui up (set_up_pa up np) hw') as (_ & m' & Hm' & V2 & R2); try done.
      { by apply set_ram_sys. }
      change (vm_at (free_page (up_pa up) s1) ti) with (vm_at s1 ti). simpl in Hm'. simpl. rewrite Hm'.
      intros H. apply pair_equal_spec in H as [_ <-]. split; [by apply refresh_sys, Hti; apply flush_va_sys|].
      transitivity s1; [by apply sr_top|]. etransitivity; [exact R2|]. etransitivity; [apply sr_flush|apply sr_refresh].
    + destruct (rewrite_pte_sys o s ti ui up hw') as (m' & Hm' & V2 & R2 & _); try done.
      fold m in Hm' |- *. simpl in Hm'. rewrite Hm'. intros H. apply pair_equal_spec in H as [_ <-].
      split; [by apply refresh_sys, Hti; apply flush_va_sys|].
      etransitivity; [exact R2|]. etransitivity; [apply sr_flush|apply sr_refresh].
  - destruct (task_vma_find m (up_va up)) as [vi|]; [|by intros [= _ <-]]. destruct (_ || _); [by intros [= _ <-]|].
    destruct (mark_dirty_sys o s (vma_inode (vma_at m vi))
      (u64 (vma_file_offset (vma_at m vi) + (up_va up - vma_start (vma_at m vi)))) 4096 V) as [V1 K].
    { intros q. specialize (B q). lia. }
    set (s1 := pagecache_mark_dirty _ _ _ _) in *. destruct (rel_page s s1 ti o V Hti K) as [Ep _].
    fold m in Ep. rewrite <- Ep in Hi.
    assert (Hat : page_at (vm_at s1 ti) ui = up) by by apply list_lookup_total_correct. rewrite Hat.
    destruct (rewrite_pte_sys o s1 ti ui up hw') as (m' & Hm' & V2 & R2 & _); try done.
    simpl in Hm'. rewrite Hm'. intros H. apply pair_equal_spec in H as [_ <-].
    split; [by apply refresh_sys, Hti; apply flush_va_sys|].
    etransitivity; [by apply sr_rel|]. etransitivity; [exact R2|]. etransitivity; [apply sr_flush|apply sr_refresh].
Qed.

(** ** Page faults *)

(** Fields the invariant does not look at. *)
Lemma fields_inv m m' :
  vm_inv m -> pages m' = pages m -> l3_user_a m' = l3_user_a m -> l3_user_b m' = l3_user_b m ->
  vmas m' = vmas m -> l1 m' = l1 m -> l2_low m' = l2_low m -> ttbr0_phys m' = ttbr0_phys m -> vm_inv m'.
Proof.
  intros [O W T] Hp Ha Hb Hv H1 H2 Ht.
  constructor; [by apply (vm_ok_ext m)|by rewrite Hv|by apply (tables_ok_ext m)].
Qed.

Lemma grow_stack_sys o fuel s ti need ok s' :
  vm_sys o s -> owners 8 o -> (ti < MAX_TASKS)%nat -> grow_stack fuel ti need s = (ok, s') ->
  vm_sys o s' /\ same_ranges s s'.
Proof.
  intros V B Hti. revert s V. induction fuel as [|fuel IH]; intros s V; cbn [grow_stack]; [by intros [= _ <-]|].
  destruct (negb _); [by intros [= _ <-]|]. cbv zeta.
  destruct (task_map_user_anon_fault_page _ _ _ _ s) as [ok1 s1] eqn:Em.
  apply (anon_fault_sys o) in Em as [V1 R1]; try done.
  destruct (negb ok1); [by intros [= _ <-]|]. intros H.
  set (m' := set_stack_mapped_bottom _ _) in H.
  apply IH in H as [V2 R2].
  - split; [done|]. etransitivity; [exact R1|]. etransitivity; [|exact R2]. by apply sr_set_vm.
  - apply set_vm_same_sys; try done. eapply fields_inv; [by apply (vm_at_inv o s1)|reflexivity..].
Qed.

Lemma translation_fault_sys o s ti fault_va va w x sp ok s' :
  vm_sys o s -> owners 8 o -> (ti < MAX_TASKS)%nat -> translation_fault ti fault_va va w x sp s = (ok, s') ->
  vm_sys o s' /\ same_ranges s s'.
Proof.
  intros V B Hti. unfold translation_fault. cbv zeta.
  destruct (task_find_page _ va); [by intros [= _ <-]|].
  destruct (match task_get_user_pte _ va with Some _ => _ | None => _ end); [by intros [= _ <-]|].
  destruct (task_vma_find _ va) as [vi|].
  - intros H. repeat match type of H with (if ?b then (false, _) else _) = _ => destruct b; [by simplify_eq|] end.
    destruct (_ && _); [by apply (file_fault_sys o) in H|by apply (anon_fault_sys o) in H].
  - destruct x; [by intros [= _ <-]|]. destruct (_ && _); [by intros H; apply (anon_fault_sys o) in H|].
    destruct (_ && _); [|by intros [= _ <-]]. unfold stack_fault. cbv zeta. intros H.
    repeat match type of H with (if ?b then (false, _) else _) = _ => destruct b; [by simplify_eq|] end.
    by apply (grow_stack_sys o) in H.
Qed.

Definition current_ok s : Prop := forall ti, kt_current (s_top s) = Some ti -> (ti < MAX_TASKS)%nat.

Lemma page_fault_sys o s va w t x sp ok s' :
  vm_sys o s -> owners 8 o -> current_ok s -> task_handle_page_fault va w t x sp s = (ok, s') ->
  vm_sys o s' /\ same_ranges s s'.
Proof.
  intros V B C. unfold task_handle_page_fault. destruct (kt_current _) as [ti|] eqn:Ec; [|by intros [= _ <-]].
  destruct (_ || _); [by intros [= _ <-]|]. cbv zeta.
  destruct t; [intros H; apply (translation_fault_sys o) in H; auto|].
  destruct (negb w); [by intros [= _ <-]|]. intros H. apply (write_fault_sys o) in H; auto.
Qed.

(** ** Ranges *)

(** A new table of ranges for the task. *)
Lemma set_vmas_sys o s ti m' :
  vm_sys o s -> (ti < MAX_TASKS)%nat -> vmas_only (vm_at s ti) m' -> vmas_wf (vmas m') -> vm_sys o (set_vm s ti m').
Proof.
  intros V Hti L W. apply set_vm_same_sys; try done; [|by destruct L as [l ->]].
  eapply vmas_inv; [by eapply vm_at_inv|done|done].
Qed.

Lemma meets_iff start fin v :
  vma_meets start fin v = true <-> vma_used v = true /\ vma_start v < fin /\ start < vma_end v.
Proof. unfold vma_meets. destruct (vma_used v); simpl; lia. Qed.

(** No range of the table meets [[start, fin)]. *)
Definition range_free (l : list vm_area) (start fin : Z) : Prop :=
  forall i v, l !! i = Some v -> vma_meets start fin v = false.

Lemma range_free_maps l start fin va r : range_free l start fin -> start <= va < fin -> ~ maps l va r.
Proof.
  intros Hf Hva (i & v & Hi & Hc & _). apply covers_iff in Hc as [Hu Hr].
  assert (vma_meets start fin v = true) by (apply meets_iff; split_and!; try done; lia).
  specialize (Hf i v Hi). congruence.
Qed.

(** Cutting an entry leaves the other entries, and only pieces outside the cut. *)
Lemma cut_entries m i v start fin m' :
  vmas_wf (vmas m) -> vmas m !! i = Some v -> vma_meets start fin v = true ->
  vma_cut m i (cut_start start v) (cut_end fin v) = Some m' ->
  forall j w, vmas m' !! j = Some w -> vma_meets start fin w = true -> j <> i /\ vmas m !! j = Some w.
Proof.
  intros W Hi Hm. apply meets_iff in Hm as (Hu & H1 & H2). pose proof (vw_ok _ W i v Hi Hu) as (R1 & _).
  unfold vma_cut. cbv zeta. rewrite (vma_at_eq m i v Hi).
  assert (Hc : cut_start start v = Z.max start (vma_start v) /\ cut_end fin v = Z.min fin (vma_end v)).
  { unfold cut_start, cut_end. split; [destruct (vma_start v <? start) eqn:?|destruct (fin <? vma_end v) eqn:?]; bool_hyps; lia. }
  destruct Hc as [-> ->]. assert (Hlt : (i < length (vmas m))%nat) by by eapply lookup_lt_Some.
  intros Hcut j w Hj Hw. apply meets_iff in Hw as (Uw & W1 & W2).
  repeat match type of Hcut with (if ?b then _ else _) = _ => destruct b eqn:?; bool_hyps end.
  - injection Hcut as <-. simpl in Hj. slot_cases Hj i j; simplify_eq/=; done.
  - injection Hcut as <-. simpl in Hj. slot_cases Hj i j; simplify_eq/=; [lia|done].
  - injection Hcut as <-. simpl in Hj. slot_cases Hj i j; simplify_eq/=; [lia|done].
  - destruct (task_vma_slot m) as [k|] eqn:Ek; [|done]. injection Hcut as <-.
    apply slot_Some in Ek as (u & Hk & Uu). assert (Hne : i <> k) by (intros ->; simplify_eq; congruence).
    assert (Hlk : (k < length (vmas m))%nat) by by eapply lookup_lt_Some.
    rewrite vma_at_eq with (v := v) in Hj by (simpl; by rewrite list_lookup_insert_ne).
    simpl in Hj. destruct (decide (i = j)) as [<-|Hij].
    + rewrite list_lookup_insert_eq in Hj by (rewrite length_insert; lia). simplify_eq/=. lia.
    + rewrite list_lookup_insert_ne in Hj by done. slot_cases Hj k j; simplify_eq/=; [lia|done].
Qed.

(** Only the table of ranges of one task changed. *)
Record other_ranges (ti : nat) s s' : Prop := {
  or_current : kt_current (s_top s') = kt_current (s_top s);
  or_other tj : tj <> ti -> ranges (vm_at s' tj) = ranges (vm_at s tj);
  or_heap : heap_base (vm_at s' ti) = heap_base (vm_at s ti) /\ heap_end (vm_at s' ti) = heap_end (vm_at s ti) /\
            stack_base (vm_at s' ti) = stack_base (vm_at s ti);
}.

#[global] Instance other_ranges_preorder ti : PreOrder (other_ranges ti).
Proof.
  split; [by constructor|]. intros a b c [A1 A2 A3] [B1 B2 B3]. constructor; [congruence| |].
  - intros tj Hj. by rewrite B2, A2.
  - destruct A3 as (-> & -> & ->) in B3 |- *. exact B3.
Qed.

Lemma or_same ti s s' : same_ranges s s' -> other_ranges ti s s'.
Proof.
  intros [R1 R2]. constructor; [done|auto|]. specialize (R2 ti). unfold ranges in R2. split_and!; congruence.
Qed.

Lemma or_set_vm o s ti m' :
  vm_sys o s -> (ti < MAX_TASKS)%nat -> heap_base m' = heap_base (vm_at s ti) ->
  heap_end m' = heap_end (vm_at s ti) -> stack_base m' = stack_base (vm_at s ti) ->
  other_ranges ti s (set_vm s ti m').
Proof.
  intros V Hti H1 H2 H3. constructor; [done| |by rewrite (vm_at_set o)].
  intros tj Hj. unfold set_vm, vm_at, kt_vm, kt_set_vm, kt_set_task, kt_task. simpl.
  by rewrite list_lookup_total_insert_ne.
Qed.

Definition strict_in (l : list vm_area) (start fin : Z) : Prop :=
  exists j w, l !! j = Some w /\ vma_used w = true /\ vma_start w < start /\ fin < vma_end w.

Lemma cut_bounds start fin v :
  vma_start v < vma_end v -> start < fin -> vma_meets start fin v = true ->
  vma_start v <= cut_start start v < cut_end fin v /\ cut_end fin v <= vma_end v /\
  cut_start start v = Z.max start (vma_start v) /\ cut_end fin v = Z.min fin (vma_end v).
Proof.
  intros Hv Hlt (_ & H1 & H2)%meets_iff. unfold cut_start, cut_end.
  destruct (vma_start v <? start) eqn:?, (fin <? vma_end v) eqn:?; bool_hyps; lia.
Qed.

Lemma cut_aligned start fin v :
  vma_ok v -> page_aligned start -> page_aligned fin ->
  page_aligned (cut_start start v) /\ page_aligned (cut_end fin v).
Proof.
  intros (_ & _ & A1 & A2) As Af. unfold cut_start, cut_end. split; by destruct (_ <? _).
Qed.

(** One entry strictly around the range is the only one that meets it. *)
Lemma strict_alone l start fin i v :
  vmas_wf l -> start < fin -> l !! i = Some v -> vma_meets start fin v = true -> strict_in l start fin ->
  vma_start v < start /\ fin < vma_end v.
Proof.
  intros W Hlt Hi (Hu & H1 & H2)%meets_iff (j & w & Hj & Uw & W1 & W2).
  destruct (decide (i = j)) as [<-|Hne]; [by simplify_eq|].
  destruct (vw_disj _ W i j v w); try done; lia.
Qed.

Lemma cut_total m i v start fin :
  vmas m !! i = Some v -> vma_used v = true -> (strict_in (vmas m) start fin -> 0 < task_vma_free_slots m) ->
  start < fin -> vma_meets start fin v = true -> vma_start v < vma_end v ->
  is_Some (vma_cut m i (cut_start start v) (cut_end fin v)).
Proof.
  intros Hi Hu Hs Hlt Hm Hv. destruct (cut_bounds start fin v Hv Hlt Hm) as (C1 & C2 & C3 & C4).
  unfold vma_cut. cbv zeta. rewrite (vma_at_eq m i v Hi). rewrite C3, C4 in *.
  destruct (_ && _) eqn:E1; [by eexists|]. destruct (_ <=? vma_start v) eqn:E2; [by eexists|].
  destruct (vma_end v <=? _) eqn:E3; [by eexists|]. bool_hyps.
  destruct (slot_exists m) as [k ->]; [|by eexists]. apply Hs. exists i, v. split_and!; try done; lia.
Qed.

Lemma vma_at_lookup m i v : vma_at m i = v -> vma_used v = true -> vmas m !! i = Some v.
Proof.
  unfold vma_at. rewrite list_lookup_total_alt. intros <- Hu. destruct (vmas m !! i); [done|]. by simpl in Hu.
Qed.

Lemma unmap_range_loop_sys o idxs s ti start fin ok s' :
  vm_sys o s -> owners 8 o -> (ti < MAX_TASKS)%nat -> page_aligned start -> page_aligned fin -> start < fin ->
  (forall j w, vmas (vm_at s ti) !! j = Some w -> vma_meets start fin w = true -> j ∈ idxs) ->
  (strict_in (vmas (vm_at s ti)) start fin -> 0 < task_vma_free_slots (vm_at s ti)) ->
  unmap_range_loop idxs ti start fin s = (ok, s') ->
  ok = true /\ vm_sys o s' /\ other_ranges ti s s' /\
  (forall va r, maps (vmas (vm_at s' ti)) va r <-> maps (vmas (vm_at s ti)) va r /\ ~ start <= va < fin).
Proof.
  intros V B Hti As Af Hlt. revert s V. induction idxs as [|i idxs IH]; intros s V Hin Hst; cbn [unmap_range_loop].
  { intros [= <- <-]. split_and!; try done. intros va r. split; [|tauto]. intros Hm. split; [done|].
    intros Hva. eapply (range_free_maps _ start fin va r); [|done|done]. intros j w Hj.
    destruct (vma_meets start fin w) eqn:Ew; [|done]. apply (Hin j w Hj) in Ew. by apply elem_of_nil in Ew. }
  set (m := vm_at s ti) in *. set (v := vma_at m i).
  destruct (vma_meets start fin v) eqn:Em; cbn [negb].
  - pose proof (vm_at_inv _ _ _ V Hti) as I. fold m in I. pose proof (vi_vmas _ I) as W.
    assert (Hu : vma_used v = true) by by apply meets_iff in Em as (? & _).
    pose proof (vma_at_lookup m i v eq_refl Hu) as Hi. pose proof (vw_ok _ W i v Hi Hu) as Ov.
    destruct (cut_bounds start fin v ltac:(apply Ov) Hlt Em) as (C1 & C2 & _).
    destruct (cut_aligned start fin v Ov As Af) as [A1 A2].
    destruct (unmap_pages_sys o (page_range (cut_start start v) (cut_end fin v)) s ti V B Hti) as [V1 R1].
    set (s1 := unmap_pages _ _ _) in *. set (m1 := vm_at s1 ti).
    assert (Ev : vmas m1 = vmas m) by by apply sr_vmas. rewrite <- Ev in Hi, W.
    assert (Hst1 : strict_in (vmas m1) start fin -> 0 < task_vma_free_slots m1).
    { unfold task_vma_free_slots. rewrite Ev. exact Hst. }
    destruct (cut_total m1 i v start fin Hi Hu Hst1 Hlt Em ltac:(apply Ov)) as [m2 Hm2]. rewrite Hm2.
    pose proof (cut_entries m1 i v start fin m2 W Hi Em Hm2) as Hent.
    destruct (cut_spec m1 i v _ _ m2 W Hi Hu C1 C2 A1 A2 Hm2) as (W2 & L2 & M2).
    assert (V2 : vm_sys o (set_vm s1 ti m2)) by by apply set_vmas_sys.
    assert (O2 : other_ranges ti s1 (set_vm s1 ti m2)) by (destruct L2 as [l ->]; by apply (or_set_vm o)).
    intros H. apply IH in H as (-> & V3 & O3 & M3); [|exact V2|rewrite (vm_at_set o) by done..].
    + split; [done|]. split; [done|]. split.
      { etransitivity; [by apply or_same|]. etransitivity; [exact O2|exact O3]. }
      rewrite (vm_at_set o) in M3 by done. intros va r. rewrite M3, M2, Ev.
      split; [tauto|]. intros [Hmp Hn]. split_and!; [done| |done]. pose proof Em as (_ & E1 & E2)%meets_iff.
      destruct (cut_bounds start fin v ltac:(apply Ov) Hlt Em) as (_ & _ & -> & ->). lia.
    + intros j w Hj Hw. destruct (Hent j w Hj Hw) as [Hne Hj1]. rewrite Ev in Hj1.
      specialize (Hin j w Hj1 Hw). set_solver.
    + intros (j & w & Hj & Uw & S1 & S2). exfalso.
      assert (Hmw : vma_meets start fin w = true) by (apply meets_iff; split_and!; try done; lia).
      destruct (Hent j w Hj Hmw) as [Hne Hj1].
      pose proof (vw_ok _ W i v Hi Hu) as (? & _). apply meets_iff in Em as (_ & E1 & E2).
      destruct (vw_disj _ W i j v w); try done; lia.
  - intros H. apply IH in H; try done. intros j w Hj Hw. specialize (Hin j w Hj Hw).
    apply elem_of_cons in Hin as [->|]; [|done]. exfalso.
    assert (v = w) by by apply vma_at_eq. congruence.
Qed.
End System.
