(* ===== verification/VmOps.v ===== *)
(** * System calls on user memory (kernel/task.c)

    The range operations (mmap, munmap, mprotect, msync, brk) and fork's copy of
    the address space keep the invariant of VmInv.v; mmap, munmap and mprotect
    refine operations on the abstract map from addresses to regions of Vma.v. *)

From S2P Require Import Prelude KString Pmm Inode BlockCache PageCache FsIo TaskDefs Mmu Vma Vm VmInv.

Abbreviation STACK_FLOOR := (USER_STACK_TOP - USER_STACK_PAGES * PAGE_SIZE) (only parsing).

Section Ops.
Context {D E X : Type} `{!BlockDrivers D, !Ext4Ops D E}.
Implicit Types s : sys D E (ktasks X).

(** ** Unmapping a range *)

Lemma need_strict m start fin :
  start < fin -> task_vma_split_need m start fin <= task_vma_free_slots m ->
  strict_in (vmas m) start fin -> 0 < task_vma_free_slots m.
Proof.
  intros Hlt Hn (j & w & Hj & Uw & W1 & W2). unfold task_vma_split_need in Hn.
  replace (fin <=? start) with false in Hn by lia.
  match type of Hn with countb ?f _ <= _ => assert (1 <= countb f (vmas m)); [|lia]; apply (countb_pos f _ j w Hj) end.
  unfold vma_meets, cut_start, cut_end. rewrite Uw. replace (vma_start w <? start) with true by lia.
  replace (fin <? vma_end w) with true by lia. lia.
Qed.

(** The fields that are not tracked by [vm_inv]. *)
Lemma heap_limit_sys o s ti :
  vm_sys o s -> (ti < MAX_TASKS)%nat ->
  let s' := set_vm s ti (task_recompute_heap_limit (vm_at s ti)) in
  vm_sys o s' /\ other_ranges ti s s' /\ vmas (vm_at s' ti) = vmas (vm_at s ti).
Proof.
  intros V Hti. cbv zeta. split_and!.
  - apply set_vm_same_sys; try done. eapply fields_inv; [by apply (vm_at_inv o s)|reflexivity..].
  - by apply (or_set_vm o).
  - by rewrite (vm_at_set o).
Qed.

Lemma unmap_range_sys o s ti start fin req ok s' :
  vm_sys o s -> owners 8 o -> (ti < MAX_TASKS)%nat -> page_aligned start -> page_aligned fin ->
  task_vma_unmap_range ti start fin req s = (ok, s') ->
  vm_sys o s' /\ other_ranges ti s s' /\ (ok = false -> s' = s) /\
  (ok = true -> start < fin /\ forall va r,
     maps (vmas (vm_at s' ti)) va r <-> maps (vmas (vm_at s ti)) va r /\ ~ start <= va < fin).
Proof.
  intros V B Hti As Af. unfold task_vma_unmap_range. cbv zeta. intros H.
  peel H ltac:(by simplify_eq). destruct (unmap_range_loop _ ti start fin s) as [ok1 s1] eqn:El. bool_hyps.
  apply (unmap_range_loop_sys o) in El as (-> & V1 & O1 & M1); try done.
  - cbn [negb] in H. injection H as <- <-. destruct (heap_limit_sys o s1 ti V1 Hti) as (V2 & O2 & E2).
    split; [by apply refresh_sys|]. split; [|split; [done|]].
    + etransitivity; [exact O1|]. etransitivity; [exact O2|]. apply or_same, sr_refresh.
    + intros _. split; [lia|]. by rewrite (sr_vmas _ _ _ (sr_refresh _ ti)), E2.
  - intros j w Hj _. apply elem_of_seq. split; [lia|]. apply lookup_lt_Some in Hj.
    by rewrite (vw_len _ (vi_vmas _ (vm_at_inv _ _ _ V Hti))) in Hj.
  - by apply need_strict.
Qed.

(** ** mmap *)

(** The stack of a task is at its place, or not set up yet. *)
Definition stack_placed (m : vm_state) : Prop := stack_base m = 0 \/ stack_base m = STACK_FLOOR.

Lemma stack_floor_placed m : stack_placed m -> task_stack_floor m = STACK_FLOOR.
Proof. unfold task_stack_floor. by intros [->| ->]. Qed.

Lemma mmap_search_Some fuel m cand floor map_len start :
  page_aligned cand -> mmap_search fuel m cand floor map_len = Some start ->
  floor <= start <= cand /\ page_aligned start /\ task_vma_overlaps m start (u64 (start + map_len)) = false.
Proof.
  revert cand. induction fuel as [|fuel IH]; intros cand Ac; cbn [mmap_search]; [done|].
  destruct (cand <? floor) eqn:E1; [done|]. bool_hyps. destruct (task_vma_overlaps m cand _) eqn:Eo; cbn [negb].
  - destruct (_ <? _); [done|]. intros H. apply IH in H as (H1 & H2 & H3); [|unfold page_aligned in *; dlia].
    split_and!; try done; lia.
  - intros [= <-]. split_and!; try done; lia.
Qed.

(** The downward search misses no free place. *)
Lemma mmap_search_None fuel m cand floor map_len :
  page_aligned cand -> page_aligned floor -> cand < floor + PAGE_SIZE * Z.of_nat fuel ->
  mmap_search fuel m cand floor map_len = None ->
  forall c, page_aligned c -> floor <= c <= cand -> task_vma_overlaps m c (u64 (c + map_len)) = true.
Proof.
  revert cand. induction fuel as [|fuel IH]; intros cand Ac Af Hfu; cbn [mmap_search]; [lia|].
  destruct (cand <? floor) eqn:E1; [lia|]. bool_hyps. destruct (task_vma_overlaps m cand _) eqn:Eo; cbn [negb]; [|done].
  intros H c Hc Hr. destruct (decide (c = cand)) as [->|Hne]; [done|].
  destruct (cand <? floor + PAGE_SIZE) eqn:E2; bool_hyps; [unfold page_aligned in *; dlia|].
  apply (IH (cand - PAGE_SIZE)); try done; unfold page_aligned in *; try dlia.
Qed.

(** A new range in a free slot. *)
Lemma new_range_sys o s ti k w :
  vm_sys o s -> (ti < MAX_TASKS)%nat -> task_vma_slot (vm_at s ti) = Some k -> vma_used w = true -> vma_ok w ->
  (forall va r, vma_start w <= va < vma_end w -> ~ maps (vmas (vm_at s ti)) va r) ->
  let s' := set_vm s ti (task_recompute_heap_limit (set_vma (vm_at s ti) k w)) in
  vm_sys o s' /\ other_ranges ti s s' /\
  (forall va r, maps (vmas (vm_at s' ti)) va r <->
     maps (vmas (vm_at s ti)) va r \/ (vma_start w <= va < vma_end w /\ r = region_of w va)).
Proof.
  intros V Hti Hk Uw Ow Hfree. cbv zeta. set (m := vm_at s ti) in *. pose proof (vm_at_inv _ _ _ V Hti) as I. fold m in I.
  destruct (slot_Some _ _ Hk) as (u & Hu & Uu). pose proof (vi_vmas _ I) as W.
  destruct (edit_new (vmas m) k u w W Hu Uu Uw Ow) as [W' M'].
  { intros j x Hj Ux. destruct (vw_ok _ W j x Hj Ux) as ([Hx _] & _). destruct Ow as ([Ho ?] & _).
    destruct (decide (vma_end x <= vma_start w)) as [|H1]; [by left|]. destruct (decide (vma_end w <= vma_start x)) as [|H2]; [by right|].
    exfalso. pose proof (vw_ok _ W j x Hj Ux) as ([_ Hlt] & _).
    apply (Hfree (Z.max (vma_start x) (vma_start w)) (region_of x (Z.max (vma_start x) (vma_start w)))); [lia|].
    exists j, x. split_and!; try done. apply covers_iff. split; [done|lia]. }
  split_and!.
  - apply set_vm_same_sys; try done. apply (fields_inv (set_vma m k w)); try reflexivity.
    eapply vmas_inv; [exact I|by eexists|exact W'].
  - by apply (or_set_vm o).
  - intros va r. rewrite (vm_at_set o) by done. change (vmas (task_recompute_heap_limit (set_vma m k w))) with (<[k := w]> (vmas m)).
    rewrite M', covers_iff. tauto.
Qed.

(** The abstract map with a range taken out, and with a range put in. *)
Definition unmap_view (f : Z -> option region) (start fin va : Z) : option region :=
  if decide (start <= va < fin) then None else f va.

Definition map_view (f : Z -> option region) (start fin : Z) (g : Z -> region) (va : Z) : option region :=
  if decide (start <= va < fin) then Some (g va) else f va.

Lemma view_cut m m' start fin :
  vmas_wf (vmas m) -> vmas_wf (vmas m') ->
  (forall va r, maps (vmas m') va r <-> maps (vmas m) va r /\ ~ start <= va < fin) ->
  forall va, vma_view m' va = unmap_view (vma_view m) start fin va.
Proof.
  intros W W' H va. unfold unmap_view.
  rewrite (view_ext m m' (fun va r => if decide (start <= va < fin) then None else Some r)); try done.
  - case_decide; by destruct (vma_view m va).
  - intros va' r. rewrite H. case_decide; [|naive_solver]. split; [tauto|]. by intros (? & _ & ?).
Qed.

Lemma view_new m m' start fin g :
  vmas_wf (vmas m) -> vmas_wf (vmas m') -> (forall va r, start <= va < fin -> ~ maps (vmas m) va r) ->
  (forall va r, maps (vmas m') va r <-> maps (vmas m) va r \/ (start <= va < fin /\ r = g va)) ->
  forall va, vma_view m' va = map_view (vma_view m) start fin g va.
Proof.
  intros W W' Hfree H va. unfold map_view. case_decide as Hr.
  - apply view_iff; [done|]. apply H. by right.
  - destruct (vma_view m va) as [r|] eqn:Ev.
    + apply view_iff; [done|]. apply H. left. by apply view_iff.
    + destruct (vma_view m' va) as [r|] eqn:Ev'; [|done]. apply view_iff, H in Ev' as [Hm|[? _]]; [|done|done].
      apply view_iff in Hm; [|done]. congruence.
Qed.

Definition view s (ti : nat) : Z -> option region := vma_view (vm_at s ti).

Lemma sys_vmas o s ti : vm_sys o s -> (ti < MAX_TASKS)%nat -> vmas_wf (vmas (vm_at s ti)).
Proof. intros V Hti. by apply vi_vmas, (vm_at_inv o). Qed.

Lemma no_overlap_free m start fin :
  task_vma_overlaps m start fin = false -> forall va r, start <= va < fin -> ~ maps (vmas m) va r.
Proof.
  intros [_ H]%overlaps_false va r Hva (i & v & Hi & Hc & _). apply covers_iff in Hc as [Hu Hr].
  destruct (H i v Hi Hu); lia.
Qed.

(** The last step of mmap, once the place is chosen. *)
Lemma mmap_place o s s1 ti start map_len file offset prot flags :
  let w := mk_vm_area start (start + map_len) offset file (u32 prot) (u32 flags) true in
  vm_sys o s1 -> (ti < MAX_TASKS)%nat -> other_ranges ti s s1 ->
  0 <= start -> page_aligned start -> page_aligned map_len -> 0 < map_len -> start + map_len <= STACK_FLOOR ->
  (forall va r, start <= va < start + map_len -> ~ maps (vmas (vm_at s1 ti)) va r) ->
  forall k, task_vma_slot (vm_at s1 ti) = Some k ->
  let s' := set_vm s1 ti (task_recompute_heap_limit (set_vma (vm_at s1 ti) k w)) in
  vm_sys o s' /\ other_ranges ti s s' /\
  forall va, view s' ti va = map_view (view s1 ti) start (start + map_len) (region_of w) va.
Proof.
  intros w V1 Hti O1 Hs As Am Hm Htop Hfree k Hk. cbv zeta.
  destruct (new_range_sys o s1 ti k w V1 Hti Hk eq_refl) as (V2 & O2 & M2); try done.
  { unfold vma_ok, page_aligned in *. simpl. split_and!; try lia; dlia. }
  split; [done|]. split; [by etransitivity|].
  apply view_new; [by eapply sys_vmas..|done|]. intros va r. apply M2.
Qed.

(** What mmap does to the map of the task: nothing; or, for a fixed place and
    with no slot left, only the unmapping; or the new range. *)
Definition mmap_spec (ti : nat) (addr len prot flags fd offset : Z) s (r : Z) s' : Prop :=
  let map_len := align_up len PAGE_SIZE in
  let fixed := has_bits flags MAP_FIXED in
  (r = -1 /\ forall va, view s' ti va = view s ti va) \/
  (r = -1 /\ fixed = true /\ task_vma_slot (vm_at s' ti) = None /\
     forall va, view s' ti va = unmap_view (view s ti) addr (addr + map_len) va) \/
  (0 <= r /\ page_aligned r /\ 0 < map_len /\ r + map_len <= STACK_FLOOR /\
   (if fixed then r = addr /\ USER_VA_BASE <= addr
    else align_up (heap_end (vm_at s ti)) PAGE_SIZE <= r /\
         forall va, r <= va < r + map_len -> view s ti va = None) /\
   exists file,
     (if has_bits flags MAP_ANONYMOUS then file = None
      else file = fd_inode (fds (task_at s ti) !!! Z.to_nat fd) /\ file <> None) /\
     forall va, view s' ti va = map_view (view s ti) r (r + map_len)
       (fun va => mk_region file (u64 (offset + (va - r))) (u32 prot) (u32 flags)) va).

Lemma mmap_file_Some t sh prot fd offset map_len s file :
  mmap_file t sh prot fd offset map_len s = Some file -> file = fd_inode (fds t !!! Z.to_nat fd) /\ file <> None.
Proof.
  unfold mmap_file. destruct (_ || _); [done|]. cbv zeta. destruct (fd_inode _) as [p|]; [|done].
  intros H. repeat match type of H with (if ?b then _ else _) = _ => destruct b; [done|] end. by injection H as <-.
Qed.

Lemma mmap_file_source s ti (map_anon : bool) sh prot fd offset map_len file :
  (if map_anon then if negb (fd =? -1) then None else Some None
   else mmap_file (task_at s ti) sh prot fd offset map_len s) = Some file ->
  if map_anon then file = None else file = fd_inode (fds (task_at s ti) !!! Z.to_nat fd) /\ file <> None.
Proof.
  destruct map_anon; [|apply mmap_file_Some]. destruct (negb _); [done|]. by intros [= <-].
Qed.

Lemma u64_add_no_wrap a b : is_u64 a -> 0 <= b < 2 ^ 64 -> a <= u64 (a + b) -> u64 (a + b) = a + b.
Proof.
  unfold is_u64. intros Ha Hb H. destruct (decide (a + b < 2 ^ 64)); [apply u64_small; unfold is_u64; lia|].
  exfalso. revert H. unfold u64. replace (a + b) with (a + b - 2 ^ 64 + 1 * 2 ^ 64) by lia.
  rewrite Z.mod_add by lia. rewrite Z.mod_small; lia.
Qed.

Lemma mmap_fixed_sys o s ti addr map_len ok s1 :
  vm_sys o s -> owners 8 o -> (ti < MAX_TASKS)%nat -> page_aligned addr -> page_aligned map_len ->
  0 < map_len -> 0 <= addr -> addr + map_len < 2 ^ 64 ->
  task_vma_unmap_range ti addr (addr + map_len) false s = (ok, s1) ->
  vm_sys o s1 /\ other_ranges ti s s1 /\ (ok = false -> s1 = s) /\
  (ok = true -> (forall va r, addr <= va < addr + map_len -> ~ maps (vmas (vm_at s1 ti)) va r) /\
     forall va, view s1 ti va = unmap_view (view s ti) addr (addr + map_len) va).
Proof.
  intros V B Hti Aa Am Hm Ha Hb H.
  apply (unmap_range_sys o) in H as (V1 & O1 & Hf & Ht); try done; [|unfold page_aligned in *; dlia].
  split_and!; try done. intros ->. destruct (Ht eq_refl) as [_ M]. split.
  - intros va r Hva Hmp. by apply M in Hmp as [_ ?].
  - apply view_cut; [by eapply sys_vmas..|done].
Qed.

Lemma mmap_sys o s ti addr len prot flags fd offset r s' :
  vm_sys o s -> owners 8 o -> kt_current (s_top s) = Some ti -> (ti < MAX_TASKS)%nat ->
  stack_placed (vm_at s ti) -> is_u64 addr ->
  task_mmap addr len prot flags fd offset s = (r, s') ->
  vm_sys o s' /\ other_ranges ti s s' /\ mmap_spec ti addr len prot flags fd offset s r s'.
Proof.
  intros V B Hc Hti Hst Ha. unfold task_mmap. rewrite Hc. cbv zeta. intros H.
  peel H ltac:(simplify_eq; split_and!; try done; by left).
  destruct (align_up_page_u64 len) as [Am Hm]. unfold mmap_spec. cbv zeta. set (map_len := align_up len PAGE_SIZE) in *.
  match type of H with match ?f with _ => _ end = _ => destruct f as [file|] eqn:Ef end;
    [apply mmap_file_source in Ef|simplify_eq; split_and!; try done; by left].
  rewrite (stack_floor_placed _ Hst) in H. destruct (align_up_page_u64 (heap_end (vm_at s ti))) as [Afl Hfl].
  set (floor := align_up (heap_end (vm_at s ti)) PAGE_SIZE) in *.
  peel H ltac:(simplify_eq; split_and!; try done; by left). bool_hyps.
  destruct (has_bits flags MAP_FIXED) eqn:Efix.
  - rewrite page_offset_mod in H. destruct (negb _) eqn:Eal; [simplify_eq; split_and!; try done; by left|].
    destruct (_ || _) eqn:Eb; [simplify_eq; split_and!; try done; by left|]. bool_hyps.
    rewrite (u64_add_no_wrap addr map_len) in * by (done || lia).
    destruct (task_vma_unmap_range ti addr (addr + map_len) false s) as [ok s1] eqn:Er.
    apply (mmap_fixed_sys o) in Er as (V1 & O1 & Hf & Ht); try done; try lia.
    destruct ok; [|rewrite Hf in * by done; simplify_eq; split_and!; try done; by left].
    destruct (Ht eq_refl) as [Hfree Hview]. 
    destruct (task_vma_slot (vm_at s1 ti)) as [k|] eqn:Ek.
    + injection H as <- <-. edestruct (mmap_place o s s1 ti addr map_len file offset prot flags) as (V2 & O2 & M2); try done; try lia.
      split; [exact V2|]. split; [exact O2|]. right; right. split_and!; try done; try lia.
      exists file. split; [done|]. intros va. rewrite M2. unfold map_view. case_decide as Hd; [done|].
      rewrite Hview. unfold unmap_view. by rewrite decide_False.
    + injection H as <- <-. split_and!; try done. right; left. done.
  - assert (Hu : is_u64 (STACK_FLOOR - map_len)) by (unfold is_u64; lia).
    pose proof (align_down_page_bounds _ Hu) as Hcb. pose proof (align_down_page_aligned _ Hu) as Hca.
    destruct (mmap_search _ _ _ floor map_len) as [start|] eqn:Es; [|simplify_eq; split_and!; try done; by left].
    apply mmap_search_Some in Es as (Hs & As & Hov); [|done].
    rewrite u64_small in Hov by (unfold is_u64; lia).
    pose proof (no_overlap_free _ _ _ Hov) as Hfree.
    destruct (task_vma_slot (vm_at s ti)) as [k|] eqn:Ek; [|simplify_eq; split_and!; try done; by left].
    injection H as <- <-. edestruct (mmap_place o s s ti start map_len file offset prot flags) as (V2 & O2 & M2); try done; try lia.
    split; [exact V2|]. split; [exact O2|]. right; right. split_and!; try done; try lia.
    + intros va Hva. destruct (view s ti va) as [rg|] eqn:Ev; [|done].
      apply view_iff in Ev; [|by eapply sys_vmas]. by apply Hfree in Ev.
    + by exists file.
Qed.

(** ** munmap *)

Definition munmap_spec (ti : nat) (addr len : Z) s (r : Z) s' : Prop :=
  (r = -1 /\ s' = s) \/
  (r = 0 /\ page_aligned addr /\ addr + len < 2 ^ 64 /\ addr < align_up (addr + len) PAGE_SIZE /\
   forall va, view s' ti va = unmap_view (view s ti) addr (align_up (addr + len) PAGE_SIZE) va).

Lemma munmap_sys o s ti addr len r s' :
  vm_sys o s -> owners 8 o -> kt_current (s_top s) = Some ti -> (ti < MAX_TASKS)%nat -> is_u64 addr -> is_u64 len ->
  task_munmap addr len s = (r, s') ->
  vm_sys o s' /\ other_ranges ti s s' /\ munmap_spec ti addr len s r s'.
Proof.
  intros V B Hc Hti Ha Hl. unfold task_munmap, munmap_spec. rewrite Hc. cbv zeta. intros H. rewrite page_offset_mod in H.
  peel H ltac:(simplify_eq; split_and!; try done; by left). bool_hyps.
  pose proof (u64_range (addr + len)) as Hr.
  rewrite (u64_add_no_wrap addr len) in * by (unfold is_u64 in *; lia).
  destruct (align_up_page_u64 (addr + len)) as [Af Hf].
  destruct (task_vma_unmap_range ti addr _ false s) as [ok s1] eqn:Er.
  apply (unmap_range_sys o) in Er as (V1 & O1 & Hno & Hyes); try done.
  destruct ok; injection H as <- <-; [|rewrite Hno by done; split_and!; try done; by left].
  split_and!; try done. right. destruct (Hyes eq_refl) as [Hlt M].
  split_and!; try done; [by apply Hr|]. apply view_cut; [by eapply sys_vmas..|done].
Qed.

(** ** brk *)

Definition brk_spec (ti : nat) (new_break : Z) s (r : Z) s' : Prop :=
  (forall va, view s' ti va = view s ti va) /\
  ((new_break = 0 /\ r = heap_end (vm_at s ti) /\ s' = s) \/
   (r = -1 /\ s' = s /\ ~ heap_base (vm_at s ti) <= new_break <= heap_limit (vm_at s ti)) \/
   (r = new_break /\ heap_base (vm_at s ti) <= new_break <= heap_limit (vm_at s ti) /\
    heap_end (vm_at s' ti) = new_break)).

Lemma brk_sys o s ti new_break r s' :
  vm_sys o s -> owners 8 o -> kt_current (s_top s) = Some ti -> (ti < MAX_TASKS)%nat ->
  task_brk new_break s = (r, s') ->
  vm_sys o s' /\ kt_current (s_top s') = Some ti /\ stack_base (vm_at s' ti) = stack_base (vm_at s ti) /\
  (forall tj, tj <> ti -> ranges (vm_at s' tj) = ranges (vm_at s tj)) /\ brk_spec ti new_break s r s'.
Proof.
  intros V B Hc Hti. unfold task_brk, brk_spec. rewrite Hc. cbv zeta. set (m := vm_at s ti).
  destruct (Z.eqb_spec new_break 0) as [->|Hz].
  { intros [= <- <-]. split_and!; try done. by left. }
  destruct (_ || _) eqn:Eb; bool_hyps.
  { intros [= <- <-]. split_and!; try done. right; left. split_and!; try done. lia. }
  set (s1 := set_vm s ti (set_heap_end m new_break)).
  assert (V1 : vm_sys o s1).
  { apply set_vm_same_sys; try done. eapply fields_inv; [by apply (vm_at_inv o s)|reflexivity..]. }
  assert (E1 : vm_at s1 ti = set_heap_end m new_break) by by apply (vm_at_set o).
  set (s2 := if _ <? _ then _ else s1). intros [= <- <-].
  assert (H2 : vm_sys o s2 /\ same_ranges s1 s2) by (unfold s2; destruct (_ <? _); [by apply unmap_pages_sys|done]).
  destruct H2 as [V2 [C2 R2]]. assert (Er : ranges (vm_at s2 ti) = ranges (set_heap_end m new_break)) by by rewrite R2, E1.
  unfold ranges in Er. injection Er as Ev Eh Ee El Es. simpl in *.
  split_and!; try done.
  - by rewrite C2.
  - intros tj Hj. rewrite R2. unfold s1, set_vm, vm_at, kt_vm, kt_set_vm, kt_set_task, kt_task. simpl.
    by rewrite list_lookup_total_insert_ne.
  - intros va. unfold view, vma_view, task_vma_find, vma_at. by rewrite Ev.
  - right; right. done.
Qed.

(** ** What the hardware sees *)

Lemma translate_set_page m ui up va : el0_translate (set_page m ui up) va = el0_translate m va.
Proof. reflexivity. Qed.

Lemma ready_set_page m ui up : tables_ready m -> tables_ready (set_page m ui up).
Proof. intros [H]. by constructor. Qed.

(** An address without a tracked page does not translate. *)
Lemma untracked_translate m va :
  vm_inv m -> tables_ready m -> task_find_page m (va - va mod PAGE_SIZE) = None -> el0_translate m va = None.
Proof.
  intros I R Hn. rewrite el0_translate_eq by done. case_decide; [|done].
  destruct (task_get_user_pte m _) as [pte|] eqn:Ep; [|done].
  rewrite (vo_clear _ (vi_ok _ I) _ _) with (2 := Ep); [done|].
  intros i up Hi Hu. by apply (find_page_None m _ i).
Qed.

(** A tracked page translates to its frame with some of its rights. *)
Lemma tracked_translate m i up va :
  vm_inv m -> tables_ready m -> pages m !! i = Some up -> up_used up = true ->
  up_va up <= va < up_va up + PAGE_SIZE ->
  exists hw, el0_translate m va = Some (up_pa up + (va - up_va up), hw_writable hw, hw_executable hw) /\
    hw_allowed (up_writable_intent up) hw /\ task_page_validate_hw m up = Some hw.
Proof.
  intros I R Hi Hu Hva. destruct (vo_pages _ (vi_ok _ I) i up Hi Hu) as [Pv Pa Pf (hw & Hg & Hal)].
  exists hw. split_and!; [|done|by apply validate_pte].
  assert (Hv : user_va va) by (unfold user_va, page_aligned in *; dlia).
  rewrite el0_translate_eq, decide_True by done.
  rewrite (proj2 (page_of_same va (up_va up) Hv Pa)), Hg by lia.
  destruct (make_page_fields (up_pa up) (hw_writable hw) (hw_executable hw) (hw_cow hw) Pf) as (E1 & E2 & _ & E4 & E5 & E6 & _).
  unfold pte_of. rewrite E1, E2. simpl. rewrite E4, E5, E6. do 3 f_equal. unfold page_aligned in Pa. dlia.
Qed.

Lemma vm_at_set_len s ti m : (ti < length (kt_tasks (s_top s)))%nat -> vm_at (set_vm s ti m) ti = m.
Proof.
  intros H. unfold vm_at, set_vm, kt_vm, kt_set_vm, kt_set_task, kt_task. simpl.
  by rewrite list_lookup_total_insert_eq.
Qed.

Lemma vm_at_set_ne s ti tj m : ti <> tj -> vm_at (set_vm s ti m) tj = vm_at s tj.
Proof.
  intros Hne. unfold set_vm, vm_at, kt_vm, kt_set_vm, kt_set_task, kt_task. simpl. by rewrite list_lookup_total_insert_ne.
Qed.

(** One page of the task [ti] has new rights and perhaps a new frame. *)
Definition page_rights (m m' : vm_state) (va : Z) (w x : bool) : Prop :=
  exists pa', forall va', el0_translate m' va' =
    if decide (va <= va' < va + PAGE_SIZE) then Some (pa' + (va' - va), w, x) else el0_translate m va'.

Lemma finish_rights s ti ui up up' w x s' :
  (ti < length (kt_tasks (s_top s)))%nat -> tables_ready (vm_at s ti) -> pages (vm_at s ti) !! ui = Some up ->
  up_va up' = up_va up -> frame_ok (up_pa up') ->
  let s1 := set_vm s ti (set_page (vm_at s ti) ui up') in
  let q := page_at (vm_at s1 ti) ui in
  match task_set_user_pte (vm_at s1 ti) (up_va q) (up_pa q) (task_user_attrs w x false) with
  | None => (false, s1)
  | Some m1 => (true, flush_va (set_vm s1 ti m1) ti (up_va q))
  end = (true, s') ->
  tables_ready (vm_at s' ti) /\ page_rights (vm_at s ti) (vm_at s' ti) (up_va up) w x.
Proof.
  intros Hl R Hi Hv Hf s1 q.
  assert (E1 : vm_at s1 ti = set_page (vm_at s ti) ui up') by by apply vm_at_set_len.
  assert (Eq : q = up') by (unfold q; rewrite E1; by apply (page_at_set _ _ up)). clearbody q. subst q. rewrite Hv, E1.
  destruct (task_set_user_pte _ _ _ _) as [m1|] eqn:Hm; [|done].
  intros H. apply pair_equal_spec in H as [_ <-].
  assert (E2 : vm_at (set_vm s1 ti m1) ti = m1) by (apply vm_at_set_len; simpl; by rewrite length_insert).
  change (vm_at (flush_va ?x _ _) ti) with (vm_at x ti). rewrite E2.
  apply set_pte_translate in Hm as [R1 H1]; [|by apply ready_set_page|done]. split; [done|]. by exists (up_pa up').
Qed.

Lemma page_set_prot_effect o s ti ui prot s' :
  vm_sys o s -> owners 8 o -> (ti < MAX_TASKS)%nat -> (ui < MAX_USER_PAGES)%nat -> tables_ready (vm_at s ti) ->
  task_page_set_prot ti ui prot s = (true, s') ->
  tables_ready (vm_at s' ti) /\ exists w, (w = true -> has_bits prot PROT_WRITE = true) /\
    page_rights (vm_at s ti) (vm_at s' ti) (up_va (page_at (vm_at s ti) ui)) w (has_bits prot PROT_EXEC).
Proof.
  intros V B Hti Hui R. unfold task_page_set_prot. cbv zeta. set (m := vm_at s ti). set (up := page_at m ui).
  destruct (task_page_validate_hw m up) as [hw|] eqn:Ev; [|done].
  destruct (validate_Some _ _ _ Ev) as [Hu _].
  assert (Hi : pages m !! ui = Some up).
  { apply list_lookup_lookup_total_lt. by rewrite (vo_len m (vi_ok m (vm_at_inv _ _ _ V Hti))). }
  destruct (vo_pages m (vi_ok m (vm_at_inv _ _ _ V Hti)) ui up Hi Hu) as [_ _ Hf _].
  set (sh := match task_vma_find m (up_va up) with Some _ => _ | None => _ end). clearbody sh.
  assert (Hl : (ti < length (kt_tasks (s_top s)))%nat) by by rewrite (vs_len _ _ V).
  destruct (has_bits prot 2).
  - destruct (_ =? 0); [done|]. destruct (negb sh && _) eqn:Esh.
    + destruct (_ <=? _); [done|]. destruct (pmm_alloc_page (s_pmm s)) as [np p] eqn:Ea.
      destruct (alloc_sys _ _ 8 _ _ V B ltac:(lia) Ea) as [[-> _]|(Hne & Hfn & _)]; [done|].
      replace (np =? 0) with false by lia. intros H. eapply finish_rights in H as [R' H']; try done.
      split; [exact R'|]. exists (negb sh). by split.
    + intros H. eapply finish_rights in H as [R' H']; try done. split; [exact R'|]. exists (negb sh). by split.
  - intros H. eapply finish_rights in H as [R' H']; try done. split; [exact R'|]. exists false. by split.
Qed.

(** ** mprotect *)

Lemma page_range_spec a b pg :
  page_aligned a -> page_aligned b -> pg ∈ page_range a b <-> page_aligned pg /\ a <= pg < b.
Proof.
  unfold page_range, page_aligned. intros Ha Hb. rewrite list_elem_of_fmap. split.
  - intros (n & -> & Hn%elem_of_seqZ). dlia.
  - intros [Hp Hr]. exists ((pg - a) / PAGE_SIZE). rewrite elem_of_seqZ. dlia.
Qed.

Lemma page_range_NoDup a b : NoDup (page_range a b).
Proof. apply NoDup_fmap_2; [intros x y; lia|apply NoDup_seqZ]. Qed.

(** At [va], the rights of [m'] are those of [prot], where [m] had a page. *)
Definition rights_at (prot : Z) (m m' : vm_state) (va : Z) : Prop :=
  match el0_translate m' va with
  | Some (_, w, x) => (w = true -> has_bits prot PROT_WRITE = true) /\ x = has_bits prot PROT_EXEC /\
                      el0_translate m va <> None
  | None => el0_translate m va = None
  end.

Definition rights_on (vas : list Z) (prot : Z) (m m' : vm_state) : Prop :=
  forall va, if decide (va - va mod PAGE_SIZE ∈ vas) then rights_at prot m m' va
             else el0_translate m' va = el0_translate m va.

Lemma rights_step va0 vas w prot m m1 m' :
  page_aligned va0 -> va0 ∉ vas ->
  (forall va, va0 <= va < va0 + PAGE_SIZE -> el0_translate m va <> None) ->
  (w = true -> has_bits prot PROT_WRITE = true) -> page_rights m m1 va0 w (has_bits prot PROT_EXEC) ->
  rights_on vas prot m1 m' -> rights_on (va0 :: vas) prot m m'.
Proof.
  intros A0 Hni Hm Hw (pa' & H1) H2 va. specialize (H2 va). specialize (H1 va).
  assert (Hpg : va - va mod PAGE_SIZE = va0 <-> va0 <= va < va0 + PAGE_SIZE) by (unfold page_aligned in A0; dlia).
  destruct (decide (va - va mod PAGE_SIZE = va0)) as [Eq|Ne].
  - rewrite Eq in H2 |- *. rewrite decide_False in H2 by done. rewrite decide_True by set_solver.
    unfold rights_at. rewrite H2, H1, decide_True by by apply Hpg. split_and!; try done. by apply Hm, Hpg.
  - rewrite decide_False in H1 by (rewrite <- Hpg; done).
    destruct (decide (va - va mod PAGE_SIZE ∈ vas)) as [Hin|Hni'].
    + rewrite decide_True by set_solver. unfold rights_at in *. by rewrite <- H1.
    + rewrite decide_False by set_solver. congruence.
Qed.

Lemma rights_skip va0 vas prot m m' :
  page_aligned va0 -> va0 ∉ vas -> (forall va, va0 <= va < va0 + PAGE_SIZE -> el0_translate m va = None) ->
  rights_on vas prot m m' -> rights_on (va0 :: vas) prot m m'.
Proof.
  intros A0 Hni Hm H va. specialize (H va).
  assert (Hpg : va - va mod PAGE_SIZE = va0 <-> va0 <= va < va0 + PAGE_SIZE) by (unfold page_aligned in A0; dlia).
  destruct (decide (va - va mod PAGE_SIZE = va0)) as [Eq|Ne].
  - rewrite Eq in H |- *. rewrite decide_False in H by done. rewrite decide_True by set_solver.
    apply Hpg, Hm in Eq. unfold rights_at. by rewrite H, Eq.
  - destruct (decide (va - va mod PAGE_SIZE ∈ vas)); [rewrite decide_True by set_solver|rewrite decide_False by set_solver]; done.
Qed.

Lemma mprotect_pages_sys o vas prot s ti ok s' :
  vm_sys o s -> owners 8 o -> (ti < MAX_TASKS)%nat -> mprotect_pages ti vas prot s = (ok, s') ->
  vm_sys o s' /\ same_ranges s s' /\
  (ok = true -> tables_ready (vm_at s ti) -> NoDup vas -> Forall page_aligned vas ->
   tables_ready (vm_at s' ti) /\ rights_on vas prot (vm_at s ti) (vm_at s' ti)).
Proof.
  intros V B Hti. revert s V. induction vas as [|va vas IH]; intros s V; cbn [mprotect_pages].
  { intros [= <- <-]. by split_and!. }
  pose proof (vm_at_inv _ _ _ V Hti) as I.
  destruct (task_find_page (vm_at s ti) va) as [ui|] eqn:Ef.
  - apply find_page_Some in Ef as (up & Hi & Hat & Hu & Hva).
    assert (Hui : (ui < MAX_USER_PAGES)%nat) by (rewrite <- (vo_len _ (vi_ok _ I)); by eapply lookup_lt_Some).
    destruct (task_page_set_prot ti ui prot s) as [ok1 s1] eqn:Ep.
    pose proof Ep as Ep'. apply (page_set_prot_sys o) in Ep' as [V1 R1]; try done.
    destruct ok1; cbn [negb]; [|intros [= <- <-]; by split_and!].
    intros H. apply IH in H as (V2 & R2 & H2); [|done]. split_and!; [done|by etransitivity|].
    intros -> R [Hni Nd]%NoDup_cons [A0 Al]%Forall_cons.
    apply (page_set_prot_effect o) in Ep as (R1' & w & Hw & He); try done. rewrite Hat, Hva in He.
    destruct (H2 eq_refl R1' Nd Al) as [R2' H2']. split; [done|].
    assert (Hm : forall va', va <= va' < va + PAGE_SIZE -> el0_translate (vm_at s ti) va' <> None).
    { intros va' Hr. subst va. destruct (tracked_translate _ ui up va' I R Hi Hu Hr) as (hw & -> & _). done. }
    by eapply rights_step.
  - intros H. apply IH in H as (V2 & R2 & H2); [|done]. split_and!; try done.
    intros -> R [Hni Nd]%NoDup_cons [A0 Al]%Forall_cons. destruct (H2 eq_refl R Nd Al) as [R2' H2']. split; [done|].
    apply rights_skip; try done. intros va' Hr. apply untracked_translate; try done.
    replace (va' - va' mod PAGE_SIZE) with va; [done|]. unfold page_aligned in A0. dlia.
Qed.

Definition reprotect_view (f : Z -> option region) (start fin prot va : Z) : option region :=
  reprotect start fin prot va <$> f va.

Definition mprotect_spec (ti : nat) (addr len prot : Z) s (r : Z) s' : Prop :=
  let fin := align_up (addr + len) PAGE_SIZE in
  (r = -1 /\ ((forall va, view s' ti va = view s ti va) \/
              (forall va, view s' ti va = reprotect_view (view s ti) addr fin prot va))) \/
  (r = 0 /\ addr < fin /\
   (forall va, addr <= va < fin -> view s ti va <> None) /\
   (forall va, view s' ti va = reprotect_view (view s ti) addr fin prot va) /\
   (tables_ready (vm_at s ti) -> forall va,
      if decide (addr <= va < fin) then rights_at prot (vm_at s ti) (vm_at s' ti) va
      else el0_translate (vm_at s' ti) va = el0_translate (vm_at s ti) va)).

Lemma view_same m m' :
  vmas_wf (vmas m) -> vmas_wf (vmas m') -> (forall va r, maps (vmas m') va r <-> maps (vmas m) va r) ->
  forall va, vma_view m' va = vma_view m va.
Proof.
  intros W W' H va. rewrite (view_ext m m' (fun _ => Some)); try done; [by destruct (vma_view m va)|].
  intros va' r. rewrite H. naive_solver.
Qed.

Lemma sr_view s s' ti va : same_ranges s s' -> view s' ti va = view s ti va.
Proof. intros R. unfold view, vma_view, task_vma_find, vma_at. by rewrite (sr_vmas _ _ ti R). Qed.

(** The new table of mprotect, from the ranges split at both ends. *)
Lemma mprotect_table o s ti m1 m2 start fin prot :
  vm_sys o s -> (ti < MAX_TASKS)%nat ->
  task_vma_split_at (vm_at s ti) start = (true, m1) -> task_vma_split_at m1 fin = (true, m2) ->
  let s' := set_vm s ti (vmas_set_prot m2 start fin prot) in
  vm_sys o s' /\ other_ranges ti s s' /\
  (forall va, view s' ti va = reprotect_view (view s ti) start fin prot va) /\
  vm_at s' ti = set_vmas (vm_at s ti) (vmas (vm_at s' ti)).
Proof.
  intros V Hti H1 H2. cbv zeta. pose proof (sys_vmas _ _ _ V Hti) as W.
  destruct (split_at_spec _ _ _ W H1) as (W1 & L1 & S1 & _ & M1).
  destruct (split_at_spec _ _ _ W1 H2) as (W2 & L2 & S2 & K2 & M2).
  destruct (set_prot_spec m2 start fin prot W2 (K2 _ S1) S2) as (W3 & L3 & M3).
  assert (L : vmas_only (vm_at s ti) (vmas_set_prot m2 start fin prot)).
  { destruct L1 as [l1 ->], L2 as [l2 ->], L3 as [l3 ->]. by eexists. }
  split_and!.
  - by apply set_vmas_sys.
  - destruct L as [l ->]. by apply (or_set_vm o).
  - intros va. unfold view, reprotect_view. rewrite (vm_at_set o) by done.
    rewrite (view_ext (vm_at s ti) _ (fun va r => Some (reprotect start fin prot va r))); try done.
    intros va' r. rewrite M3. split; intros (r0 & Hr & E0); exists r0; (split; [|congruence]).
    + by apply M1, M2.
    + by apply M2, M1.
  - rewrite (vm_at_set o) by done. by destruct L as [l ->].
Qed.

Lemma split_failed m m1 addr : task_vma_split_at m addr = (false, m1) -> m1 = m.
Proof.
  unfold task_vma_split_at. destruct (negb _); [by intros [= <-]|].
  destruct (find_idx _ _); [|done]. cbv zeta. destruct (task_vma_slot _); [done|]. by intros [= <-].
Qed.


Lemma translate_refresh o s ti va :
  vm_sys o s -> (ti < MAX_TASKS)%nat -> el0_translate (vm_at (refresh ti s) ti) va = el0_translate (vm_at s ti) va.
Proof. intros V Hti. unfold refresh. by rewrite (vm_at_set o). Qed.

Lemma split_sys o s ti m1 :
  vm_sys o s -> (ti < MAX_TASKS)%nat -> vmas_only (vm_at s ti) m1 -> vmas_wf (vmas m1) ->
  (forall va r, maps (vmas m1) va r <-> maps (vmas (vm_at s ti)) va r) ->
  vm_sys o (set_vm s ti m1) /\ other_ranges ti s (set_vm s ti m1) /\
  forall va, view (set_vm s ti m1) ti va = view s ti va.
Proof.
  intros V Hti L W1 M. split; [by apply set_vmas_sys|]. split; [destruct L as [l ->]; by apply (or_set_vm o)|].
  unfold view. rewrite (vm_at_set o) by done. apply view_same; try done. by eapply sys_vmas.
Qed.

Lemma mprotect_sys o s ti addr len prot r s' :
  vm_sys o s -> owners 8 o -> kt_current (s_top s) = Some ti -> (ti < MAX_TASKS)%nat -> is_u64 addr -> is_u64 len ->
  task_mprotect addr len prot s = (r, s') ->
  vm_sys o s' /\ other_ranges ti s s' /\ mprotect_spec ti addr len prot s r s'.
Proof.
  intros V B Hc Hti Ha Hl. unfold task_mprotect, mprotect_spec. rewrite Hc. cbv zeta. intros H. rewrite page_offset_mod in H.
  pose proof (sys_vmas _ _ _ V Hti) as W.
  peel H ltac:(simplify_eq; split_and!; try done; left; split; [done|by left]). bool_hyps.
  rewrite (u64_add_no_wrap addr len) in * by (unfold is_u64 in *; lia).
  destruct (align_up_page_u64 (addr + len)) as [Af Hf]. set (fin := align_up (addr + len) PAGE_SIZE) in *.
  destruct (task_vma_split_at (vm_at s ti) addr) as [ok1 m1] eqn:E1. destruct ok1; cbn [negb] in H.
  2: { apply split_failed in E1 as ->. injection H as <- <-.
    edestruct (split_sys o s ti (vm_at s ti)) as (V1 & O1 & Hv); try done.
    split_and!; try done. left. split; [done|by left]. }
  destruct (task_vma_split_at m1 fin) as [ok2 m2] eqn:E2. destruct ok2; cbn [negb] in H.
  2: { apply split_failed in E2 as ->. injection H as <- <-. apply split_at_spec in E1 as (W1 & L1 & _ & _ & M1); [|done].
    edestruct (split_sys o s ti m1) as (V1 & O1 & Hv); try done.
    split_and!; try done. left. split; [done|by left]. }
  destruct (mprotect_table o s ti m1 m2 addr fin prot V Hti E1 E2) as (V1 & O1 & Hv & Hm).
  set (s1 := set_vm s ti (vmas_set_prot m2 addr fin prot)) in *.
  destruct (mprotect_pages ti (page_range addr fin) prot s1) as [ok s2] eqn:Ep.
  apply (mprotect_pages_sys o) in Ep as (V2 & R2 & Hpg2); try done.
  assert (O2 : other_ranges ti s s2) by (etransitivity; [exact O1|by apply or_same]).
  destruct ok; cbn [negb] in H; injection H as <- <-.
  2: { split_and!; try done. left. split; [done|]. right. intros va. rewrite (sr_view s1) by done. apply Hv. }
  split; [by apply refresh_sys|]. split; [etransitivity; [exact O2|apply or_same, sr_refresh]|].
  right. split_and!; try done.
  - apply range_mapped_iff; done.
  - intros va. rewrite (sr_view s2) by apply sr_refresh. rewrite (sr_view s1) by done. apply Hv.
  - intros Rd va. unfold rights_at. rewrite (translate_refresh o) by done.
    assert (Rd1 : tables_ready (vm_at s1 ti)) by (rewrite Hm; by destruct Rd).
    assert (T1 : forall va, el0_translate (vm_at s1 ti) va = el0_translate (vm_at s ti) va) by (intros ?; by rewrite Hm).
    destruct (Hpg2 eq_refl Rd1) as [_ Hon]; [apply page_range_NoDup| |].
    { apply Forall_forall. intros pg Hpg. by apply page_range_spec in Hpg as [? _]. }
    specialize (Hon va). unfold rights_at in Hon. rewrite T1 in Hon.
    assert (Hiff : va - va mod PAGE_SIZE ∈ page_range addr fin <-> addr <= va < fin).
    { rewrite page_range_spec by done. unfold page_aligned in *. dlia. }
    destruct (decide (addr <= va < fin)); [rewrite decide_True in Hon by tauto|rewrite decide_False in Hon by tauto]; done.
Qed.

(** ** msync *)

Lemma same_pages_sys o s s' :
  vm_sys o s -> owners 8 o -> pc_same s s' -> kt_keeps (s_top s) (s_top s') -> vm_sys o s' /\ same_ranges s s'.
Proof.
  intros V B P K. assert (O : pc_own s) by (apply (sys_own o); [done|intros p; specialize (B p); lia]).
  split; [|apply sr_rel, K, V]. eapply delta0_sys; [exact V|by apply delta_same|exact K].
Qed.

Lemma flush_match_sys o ino so len ur b s rc s' :
  vm_sys o s -> owners 8 o -> pagecache_flush_match ino so len ur b s = (rc, s') -> vm_sys o s' /\ same_ranges s s'.
Proof.
  intros V B H. apply same_pages_sys; [done|done|by eapply same_flush_match|].
  eapply (topr_flush_match kt_keeps); [|exact H]. intros. apply writeprotect_keeps.
Qed.

Lemma storage_sys o s s' :
  vm_sys o s -> s_pmm s' = s_pmm s -> s_pc s' = s_pc s -> s_top s' = s_top s -> vm_sys o s' /\ same_ranges s s'.
Proof.
  intros V Hp Hc Ht. split; [|by apply sr_top]. eapply sys_eq; [..|exact V]; [done| |by rewrite Ht].
  unfold s_ents. by rewrite Hc.
Qed.

Lemma sync_inode_sys o ino s rc s' :
  vm_sys o s -> owners 8 o -> fs_sync_inode ino s = (rc, s') -> vm_sys o s' /\ same_ranges s s'.
Proof.
  intros V B. unfold fs_sync_inode. destruct ino as [p|]; [|by intros [= _ <-]]. cbv zeta.
  set (a := if _ || _ then _ else _). destruct a as [rc1 s1] eqn:E1.
  assert (H1 : vm_sys o s1 /\ same_ranges s s1).
  { unfold a, pagecache_flush_inode in E1. destruct (_ || _); [by eapply flush_match_sys|by simplify_eq]. }
  destruct H1 as [V1 R1]. clear a E1. destruct (negb _); [by intros [= _ <-]|].
  set (a := if decide _ then _ else _). destruct a as [ok s2] eqn:E2.
  assert (H2 : vm_sys o s2 /\ same_ranges s s2).
  { unfold a, sync_ext4 in E2. destruct (decide _); [|by simplify_eq].
    destruct (ext4_sync_filesystem _) as [ok2 st]. injection E2 as _ <-.
    edestruct (storage_sys o s1 (sys_set_st s1 st)) as [V2 R2]; try done. split; [done|by etransitivity]. }
  destruct H2 as [V2 R2]. clear a E2. destruct (negb ok); [by intros [= _ <-]|].
  set (a := if fs_is_block_dev _ then _ else _). destruct a as [rc3 s3] eqn:E3.
  assert (H3 : vm_sys o s3 /\ same_ranges s s3).
  { unfold a, sync_blocks in E3. destruct (fs_is_block_dev _); [|by simplify_eq].
    destruct (block_cache_flush _) as [rc4 bc]. injection E3 as _ <-.
    edestruct (storage_sys o s2 (sys_set_bc s2 bc)) as [V3 R3]; try done. split; [done|by etransitivity]. }
  destruct (negb _); by intros [= _ <-].
Qed.

Lemma invalidate_range_sys o ino so len s rc s' :
  vm_sys o s -> owners 8 o -> pagecache_invalidate_inode_range ino so len s = (rc, s') ->
  vm_sys o s' /\ same_ranges s s'.
Proof.
  intros V B. unfold pagecache_invalidate_inode_range. destruct ino; [|by intros [= _ <-]].
  destruct (invalidate_range_loop _ _ _ _ _ s) as [b s1] eqn:Ei. intros [= _ <-].
  pose proof (top_invalidate_range _ _ _ _ _ _ _ _ Ei) as Ht.
  apply invalidate_range_delta in Ei; [|apply (sys_own o); [done|intros p; specialize (B p); lia]].
  split; [|by apply sr_top]. eapply delta0_sys; [exact V|exact Ei|]. by rewrite Ht.
Qed.

Lemma msync_loop_sys o idxs ti start fin flags synced s r s' :
  vm_sys o s -> owners 8 o -> msync_loop idxs ti start fin flags synced s = (r, s') -> vm_sys o s' /\ same_ranges s s'.
Proof.
  intros V B. revert synced s V. induction idxs as [|i idxs IH]; intros synced s V; cbn [msync_loop]; [by intros [= _ <-]|].
  cbv zeta. destruct (_ || _ || _); [by apply IH|]. destruct (vma_inode _) as [p|]; [|by apply IH].
  destruct (_ || _); [by apply IH|]. destruct (_ <=? _); [by apply IH|].
  destruct (pagecache_flush_inode_range _ _ _ s) as [rc1 s1] eqn:E1.
  apply (flush_match_sys o) in E1 as [V1 R1]; try done. destruct (negb _); [by intros [= _ <-]|].
  match goal with |- context [if ?b then pagecache_invalidate_inode_range ?x ?y ?z s1 else (0, s1)] =>
    destruct (if b then pagecache_invalidate_inode_range x y z s1 else (0, s1)) as [rc2 s2] eqn:E2 end.
  assert (H2 : vm_sys o s2 /\ same_ranges s s2).
  { destruct (has_bits flags MS_INVALIDATE); [|by simplify_eq].
    apply (invalidate_range_sys o) in E2 as [? ?]; try done. split; [done|by etransitivity]. }
  destruct H2 as [V2 R2]. destruct (negb _); [by intros [= _ <-]|].
  destruct (_ && _).
  - destruct (fs_sync_inode _ s2) as [rc3 s3] eqn:E3. apply (sync_inode_sys o) in E3 as [V3 R3]; try done.
    destruct (negb _); [intros [= _ <-]; split; [done|by etransitivity]|].
    intros H. apply IH in H as [V4 R4]; [|done]. split; [done|]. do 2 (etransitivity; [eassumption|]). done.
  - intros H. apply IH in H as [V4 R4]; [|done]. split; [done|by etransitivity].
Qed.

Lemma msync_sys o s addr len flags r s' :
  vm_sys o s -> owners 8 o -> task_msync addr len flags s = (r, s') -> vm_sys o s' /\ same_ranges s s'.
Proof.
  intros V B. unfold task_msync. destruct (kt_current _) as [ti|]; [|by intros [= _ <-]]. cbv zeta. intros H.
  peel H ltac:(by simplify_eq). by apply (msync_loop_sys o) in H.
Qed.

(** ** Tearing an address space down *)

(** While [task_unmap_user] gives the frames back, the pages are still tracked:
    the first [k] of them no longer own a reference. *)
Lemma unmap_user_loop_sys o n k s ti pgs :
  owners 8 o -> (ti < MAX_TASKS)%nat -> pages (vm_at s ti) = pgs -> length pgs = (k + n)%nat ->
  vm_sys (fun p => o p - countb (fun up => up_used up && (up_pa up =? p)) (take k pgs)) s ->
  let s' := unmap_user_loop (seq k n) ti s in
  vm_sys (fun p => o p - page_refs (vm_at s ti) p) s' /\ s_top s' = s_top s.
Proof.
  intros B Hti. revert k s. induction n as [|n IH]; intros k s Hp Hl V; cbn [seq unmap_user_loop].
  { split; [|done]. unfold page_refs. rewrite Hp. rewrite take_ge in V by lia. exact V. }
  destruct (lookup_lt_is_Some_2 pgs k) as [up Hk]; [lia|].
  assert (Hat : page_at (vm_at s ti) k = up) by (unfold page_at; rewrite Hp; by apply list_lookup_total_correct).
  rewrite Hat. destruct (up_used up) eqn:Hu.
  - assert (He : 1 <= ext_refs s (up_pa up)).
    { rewrite (vs_refs _ _ V). pose proof (task_refs_le _ _ _ (up_pa up) V Hti) as Ht. unfold page_refs in Ht. rewrite Hp in Ht.
      pose proof (countb_take (fun u => up_used u && (up_pa u =? up_pa up)) pgs k up Hk) as Hc.
      cbv beta in Hc. rewrite Hu, Z.eqb_refl in Hc. simpl in Hc. specialize (B (up_pa up)).
      pose proof (countb_app (fun u => up_used u && (up_pa u =? up_pa up)) (take (S k) pgs) (drop (S k) pgs)) as Ha.
      rewrite take_drop in Ha. pose proof (countb_nonneg (fun u => up_used u && (up_pa u =? up_pa up)) (drop (S k) pgs)). lia. }
    destruct (task_vma_writeback_page _ _ k s) as [ok s1] eqn:Ew.
    apply vma_writeback_sys with (1 := V) in Ew as [V1 T1]; [|intros p; specialize (B p); pose proof (countb_nonneg (fun u => up_used u && (up_pa u =? p)) (take k pgs)); lia|by rewrite Hat].
    assert (Hvm : vm_at s1 ti = vm_at s ti) by (unfold vm_at; by rewrite T1). rewrite Hvm, Hat.
    assert (He1 : 1 <= ext_refs s1 (up_pa up)) by (rewrite (vs_refs _ _ V1), T1, <- (vs_refs _ _ V); exact He).
    apply (free_ext_sys _ _ _ V1) in He1 as V2.
    specialize (IH (S k) (free_page (up_pa up) s1)). cbv zeta in IH.
    change (vm_at (free_page (up_pa up) s1) ti) with (vm_at s1 ti) in IH. rewrite Hvm in IH.
    destruct IH as [V3 T3]; [done|lia| |].
    + eapply sys_ext; [|exact V2]. intros p. cbv beta. rewrite (countb_take _ _ _ _ Hk), Hu. unfold d1. simpl.
      destruct (Z.eqb_spec (up_pa up) p); case_decide; simpl; lia || done.
    + split; [exact V3|]. by rewrite T3.
  - apply IH; [done|lia|]. eapply sys_ext; [|exact V]. intros p. cbv beta. rewrite (countb_take _ _ _ _ Hk), Hu. simpl. lia.
Qed.

Lemma refresh_translate p k m va : el0_translate (task_refresh_mem_accounting p k m) va = el0_translate m va.
Proof. reflexivity. Qed.

Lemma refresh_refs p k m q : page_refs (task_refresh_mem_accounting p k m) q = page_refs m q.
Proof. reflexivity. Qed.

(** The tables and the list of pages emptied. *)
Definition emptied (m : vm_state) : vm_state :=
  let m := set_pages m (replicate MAX_USER_PAGES user_page_zero) in
  let m := set_l3_user_a m (clear_table (l3_user_a m)) in
  set_l3_user_b m (clear_table (l3_user_b m)).

Lemma emptied_refs m p : page_refs (emptied m) p = 0.
Proof.
  unfold page_refs, emptied. cbn [pages set_l3_user_a set_l3_user_b set_pages].
  generalize MAX_USER_PAGES. intros n. induction n as [|n IHn]; [done|]. cbn [replicate]. by rewrite countb_cons, IHn.
Qed.

Lemma emptied_translate m va : vm_inv (emptied m) -> tables_ready m -> el0_translate (emptied m) va = None.
Proof.
  intros I R. assert (R2 : tables_ready (emptied m)).
  { destruct (vi_tables _ I) as [?|[Ha _]]; [done|]. destruct R as [(p1 & p2 & pa & pb & ea & eb & _ & _ & H3 & _)].
    simpl in Ha. by rewrite H3 in Ha. }
  apply untracked_translate; [exact I|exact R2|]. unfold task_find_page.
  destruct (find_idx _ _) as [i|] eqn:Ef; [|reflexivity]. apply find_idx_Some in Ef as (up & Hi & Hu & _).
  unfold emptied in Hi. cbn [pages set_l3_user_a set_l3_user_b set_pages] in Hi.
  apply lookup_replicate in Hi as [-> _]. simpl in Hu. discriminate.
Qed.

Lemma unmap_tables_sys o s s1 ti :
  vm_inv (vm_at s ti) -> (ti < MAX_TASKS)%nat -> s_top s1 = s_top s ->
  vm_sys (fun p => o p - page_refs (vm_at s ti) p) s1 ->
  let s' := unmap_user_tables ti s1 in
  vm_sys o s' /\ same_ranges s s' /\ (forall p, page_refs (vm_at s' ti) p = 0) /\
  (forall tj, tj <> ti -> vm_at s' tj = vm_at s tj) /\
  (tables_ready (vm_at s ti) -> forall va, el0_translate (vm_at s' ti) va = None).
Proof.
  intros I Hti T1 V1. unfold unmap_user_tables. cbv zeta.
  assert (E1 : vm_at s1 ti = vm_at s ti) by (unfold vm_at; by rewrite T1).
  set (m2 := set_l3_user_b _ _). change m2 with (emptied (vm_at s1 ti)). clear m2. rewrite E1.
  pose proof (clear_all_inv (vm_at s ti) (emptied (vm_at s ti)) (vi_vmas _ I) (vi_tables _ I) eq_refl) as I2.
  pose proof (emptied_refs (vm_at s ti)) as Hz. pose proof (emptied_translate (vm_at s ti)) as Ht.
  pose proof (eq_refl : ranges (emptied (vm_at s ti)) = ranges (vm_at s ti)) as Hr.
  set (m2 := emptied (vm_at s ti)) in *. clearbody m2.
  assert (V2 : vm_sys o (set_vm s1 ti m2)).
  { apply (set_vm_sys (fun p => o p - page_refs (vm_at s ti) p)); try done. intros p. rewrite E1, Hz. lia. }
  set (s3 := if negb _ then _ else _).
  assert (K3 : kt_tasks (s_top s3) = kt_tasks (s_top (set_vm s1 ti m2)) /\ kt_current (s_top s3) = kt_current (s_top s1))
    by (unfold s3; case (negb (asid m2 =? 0)); split; reflexivity).
  destruct K3 as [K3 C3].
  assert (V3 : vm_sys o s3) by (eapply sys_eq; [..|exact V2]; [unfold s3; case (negb (asid m2 =? 0)); reflexivity..|done]).
  assert (E3 : vm_at s3 ti = m2).
  { unfold vm_at, kt_vm, kt_task. rewrite K3. by apply (vm_at_set _ s1 ti m2 V1). }
  assert (E4 : vm_at (refresh ti s3) ti = task_refresh_mem_accounting (s_pmm s3) (kstack_base (task_at s3 ti)) m2).
  { unfold refresh. rewrite (vm_at_set o), E3 by done. done. }
  split_and!.
  - by apply refresh_sys.
  - transitivity s1; [by apply sr_top|]. transitivity (set_vm s1 ti m2); [apply sr_set_vm; by rewrite E1|].
    transitivity s3; [|apply sr_refresh]. constructor; [by rewrite C3|]. intros tj. unfold vm_at, kt_vm, kt_task. by rewrite K3.
  - intros p. by rewrite E4, refresh_refs.
  - intros tj Hj. unfold refresh. rewrite vm_at_set_ne by done.
    assert (Ej : vm_at s3 tj = vm_at (set_vm s1 ti m2) tj) by (unfold vm_at, kt_vm, kt_task; by rewrite K3).
    rewrite Ej, vm_at_set_ne by done. unfold vm_at. by rewrite T1.
  - intros R va. rewrite E4, refresh_translate. by apply Ht.
Qed.

Lemma unmap_user_sys o s ti :
  vm_sys o s -> owners 8 o -> (ti < MAX_TASKS)%nat ->
  let s' := task_unmap_user ti s in
  vm_sys o s' /\ same_ranges s s' /\ (forall p, page_refs (vm_at s' ti) p = 0) /\
  (forall tj, tj <> ti -> vm_at s' tj = vm_at s tj) /\
  (tables_ready (vm_at s ti) -> forall va, el0_translate (vm_at s' ti) va = None).
Proof.
  intros V B Hti. pose proof (vm_at_inv _ _ _ V Hti) as I.
  destruct (unmap_user_loop_sys o MAX_USER_PAGES 0 s ti (pages (vm_at s ti))) as [V1 T1]; try done.
  - by rewrite (vo_len _ (vi_ok _ I)).
  - eapply sys_ext; [|exact V]. intros p. unfold countb. simpl. lia.
  - exact (unmap_tables_sys o s _ ti I Hti T1 V1).
Qed.

(** Only one address space changed. *)
Lemma refs_other o s s' ti p :
  vm_sys o s -> vm_sys o s' -> (ti < MAX_TASKS)%nat -> (forall tj, tj <> ti -> vm_at s' tj = vm_at s tj) ->
  ext_refs s' p = ext_refs s p - page_refs (vm_at s ti) p + page_refs (vm_at s' ti) p.
Proof.
  intros V V' Hti Ho. rewrite (vs_refs _ _ V), (vs_refs _ _ V').
  assert (Hl : (ti < length (kt_tasks (s_top s)))%nat) by by rewrite (vs_len _ _ V).
  pose proof (tasks_refs_set_vm (s_top s) ti (vm_at s' ti) p Hl) as Ht. fold (vm_at s ti) in Ht.
  assert (Hx : tasks_refs (s_top s') p = tasks_refs (kt_set_vm (s_top s) ti (vm_at s' ti)) p); [|lia].
  apply zsum_ext; [simpl; by rewrite length_insert, (vs_len _ _ V), (vs_len _ _ V')|].
  intros i t t' Hi Hi'. f_equal. simpl in Hi'. destruct (decide (ti = i)) as [<-|Hne].
  - rewrite list_lookup_insert_eq in Hi' by done. simplify_eq. simpl. unfold vm_at, kt_vm, kt_task.
    by rewrite (list_lookup_total_correct _ _ _ Hi).
  - rewrite list_lookup_insert_ne in Hi' by done. specialize (Ho i ltac:(congruence)). unfold vm_at, kt_vm, kt_task in Ho.
    by rewrite (list_lookup_total_correct _ _ _ Hi), (list_lookup_total_correct _ _ _ Hi') in Ho.
Qed.

(** ** Fresh page tables *)

(** While pages are available, allocating gives a frame nobody owns. *)
Lemma alloc_avail_sys o n s page p :
  vm_sys o s -> owners n o -> n <= 15 -> 0 < pmm_available_pages (s_pmm s) -> pmm_alloc_page (s_pmm s) = (page, p) ->
  let s' := sys_set_pmm s p in let o' := fun q => o q + d1 page q in
  page <> 0 /\ frame_ok page /\ vm_sys o' s' /\ owners (n + 1) o' /\
  pmm_available_pages (s_pmm s') = pmm_available_pages (s_pmm s) - 1 /\ forall q, 1 <= o q -> page <> q.
Proof.
  intros V B Hn Hav Ha. cbv zeta. pose proof (alloc_page_zero _ (vs_pmm _ _ V)) as Hz. rewrite Ha in Hz. simpl in Hz.
  destruct (alloc_sys _ _ n _ _ V B ltac:(lia) Ha) as [[-> _]|(Hne & Hf & V1)]; [lia|].
  destruct (alloc_page_ok _ _ _ (vs_pmm _ _ V) Ha Hne) as (_ & _ & H0 & _ & _ & _ & Hav' & _).
  split_and!; try done; [by apply owners_add|]. intros q Hq ->. pose proof (owned_ref _ _ _ V Hq). lia.
Qed.

Lemma fresh_tables_inv m m' :
  vm_inv m -> l3_user_a m = None -> l3_user_b m = None -> tables_ready m' -> pages m' = pages m -> vmas m' = vmas m ->
  (forall va pte, task_get_user_pte m' va = Some pte -> pte = 0) -> vm_inv m'.
Proof.
  intros [O W T] Ha Hb R Hp Hv Hz. constructor; [|by rewrite Hv|by left].
  assert (Hn : forall i up, pages m !! i = Some up -> up_used up = true -> False).
  { intros i up Hi Hu. destruct (vo_pages _ O i up Hi Hu) as [_ _ _ (hw & Hg & _)]. revert Hg.
    unfold task_get_user_pte, task_l3_for_va. rewrite Ha, Hb. destruct (user_va_bad _); [done|].
    destruct (_ =? _); [done|]. by destruct (_ =? _). }
  constructor; rewrite ?Hp; [apply O|intros i up Hi Hu; by destruct (Hn i up)|intros i j up up' Hi _ Hu; by destruct (Hn i up)|].
  intros va pte _. apply Hz.
Qed.

Lemma fresh_pte_zero m p1 p2 pa pb va pte : task_get_user_pte (fresh_tables m p1 p2 pa pb) va = Some pte -> pte = 0.
Proof. apply get_pte_cleared; reflexivity. Qed.

(** Installing fresh tables, whatever was written to the task before. *)
Lemma fresh_tables_sys o s ti m1 p1 p2 pa pb :
  let m := vm_at s ti in
  vm_sys o s -> (ti < MAX_TASKS)%nat -> l3_user_a m = None -> l3_user_b m = None ->
  Forall frame_ok [p1; p2; pa; pb] -> NoDup [p1; p2; pa; pb] -> ranges m1 = ranges m ->
  let s' := refresh ti (set_vm (set_vm s ti m1) ti (fresh_tables m p1 p2 pa pb)) in
  vm_sys o s' /\ tables_ready (vm_at s' ti) /\ same_ranges s s' /\ (forall tj, tj <> ti -> vm_at s' tj = vm_at s tj) /\
  forall va, el0_translate (vm_at s' ti) va = None.
Proof.
  intros m V Hti Ha Hb Hf Hn Hr. cbv zeta. pose proof (fresh_tables_ready m p1 p2 pa pb Hf Hn) as R.
  pose proof (fresh_pte_zero m p1 p2 pa pb) as Hz. set (m2 := fresh_tables m p1 p2 pa pb) in *.
  assert (I2 : vm_inv m2) by by apply (fresh_tables_inv m); [by apply (vm_at_inv o s)|..].
  assert (V2 : vm_sys o (set_vm (set_vm s ti m1) ti m2)).
  { eapply (sys_eq _ (set_vm s ti m2)); try done; [|by apply set_vm_same_sys].
    simpl. apply set_vm_again. by rewrite (vs_len _ _ V). }
  assert (E2 : vm_at (refresh ti (set_vm (set_vm s ti m1) ti m2)) ti =
    task_refresh_mem_accounting (s_pmm s) (kstack_base (task_at (set_vm (set_vm s ti m1) ti m2) ti)) m2).
  { unfold refresh. rewrite (vm_at_set o) by done.
    rewrite (vm_at_set_len (set_vm s ti m1)); [done|]. simpl. rewrite length_insert, (vs_len _ _ V). done. }
  split_and!.
  - by apply refresh_sys.
  - rewrite E2. by destruct R.
  - transitivity (set_vm s ti m1); [by apply sr_set_vm|]. etransitivity; [|apply sr_refresh]. apply sr_set_vm.
    rewrite vm_at_set_len; [done|by rewrite (vs_len _ _ V)].
  - intros tj Hj. unfold refresh. by rewrite !vm_at_set_ne.
  - intros va. rewrite E2, refresh_translate, el0_translate_eq by done. case_decide; [|done].
    destruct (task_get_user_pte m2 _) as [pte|] eqn:Ep; [|done]. by rewrite (Hz _ _ Ep).
Qed.

Lemma NoDup4 (a b c d : Z) : b <> a -> c <> a -> c <> b -> d <> a -> d <> b -> d <> c -> NoDup [a; b; c; d].
Proof. intros. repeat (apply NoDup_cons_2; [set_solver|]). apply NoDup_nil_2. Qed.

Lemma pt_setup_sys o s ti ok s' :
  vm_sys o s -> owners 4 o -> (ti < MAX_TASKS)%nat -> l3_user_a (vm_at s ti) = None -> l3_user_b (vm_at s ti) = None ->
  task_pt_setup ti s = (ok, s') ->
  (ok = false /\ s' = s) \/
  (ok = true /\ tables_ready (vm_at s' ti) /\ same_ranges s s' /\ (forall tj, tj <> ti -> vm_at s' tj = vm_at s tj) /\
   (forall va, el0_translate (vm_at s' ti) va = None) /\
   exists p1 p2 pa pb, vm_sys (fun q => o q + d1 p1 q + d1 p2 q + d1 pa q + d1 pb q) s').
Proof.
  intros V B Hti Ha Hb. unfold task_pt_setup. destruct (_ <=? _) eqn:Eav; [intros [= <- <-]; by left|]. bool_hyps.
  destruct (pmm_alloc_page (s_pmm s)) as [p1 q1] eqn:E1.
  destruct (alloc_avail_sys o 4 s p1 q1) as (N1 & F1 & V1 & B1 & A1 & D1); try done; try (simpl in *; lia). simpl in A1.
  destruct (pmm_alloc_page q1) as [p2 q2] eqn:E2.
  destruct (alloc_avail_sys _ 5 (sys_set_pmm s q1) p2 q2 V1 B1) as (N2 & F2 & V2 & B2 & A2 & D2); try done; try (simpl in *; lia). simpl in A2.
  destruct (pmm_alloc_page q2) as [pa q3] eqn:E3.
  destruct (alloc_avail_sys _ 6 (sys_set_pmm s q2) pa q3 V2 B2) as (N3 & F3 & V3 & B3 & A3 & D3); try done; try (simpl in *; lia). simpl in A3.
  destruct (pmm_alloc_page q3) as [pb q4] eqn:E4.
  destruct (alloc_avail_sys _ 7 (sys_set_pmm s q3) pb q4 V3 B3) as (N4 & F4 & V4 & B4 & A4 & D4); try done; try (simpl in *; lia).
  cbv zeta. replace (p1 =? 0) with false by lia. replace (p2 =? 0) with false by lia.
  replace (pa =? 0) with false by lia. replace (pb =? 0) with false by lia. cbn [orb].
  assert (Nd : NoDup [p1; p2; pa; pb]).
  { apply NoDup4; [apply D2|apply D3|apply D3|apply D4..]; unfold d1;
      match goal with |- context [o ?q] => destruct (B q) as [? _] end; repeat case_decide; lia || done. }
  intros H. apply pair_equal_spec in H as [<- <-]. right. split; [done|].
  change (vm_at (sys_set_pmm s q4) ti) with (vm_at s ti). set (m := vm_at s ti) in *.
  unfold new_table. replace (p1 =? 0) with false by lia. replace (p2 =? 0) with false by lia.
  replace (pa =? 0) with false by lia. replace (pb =? 0) with false by lia.
  destruct (fresh_tables_sys _ (sys_set_pmm s q4) ti
    (set_l3_user_b (set_l3_user_a (set_l2_low (set_l1 m (Some (mk_ptable p1 ∅))) (Some (mk_ptable p2 ∅)))
       (Some (mk_ptable pa ∅))) (Some (mk_ptable pb ∅))) p1 p2 pa pb V4) as (V5 & R5 & S5 & O5 & T5); try done.
  { by repeat apply Forall_cons_2; [..|apply Forall_nil_2]. }
  split; [exact R5|]. split; [transitivity (sys_set_pmm s q4); [by apply sr_top|exact S5]|]. split; [exact O5|]. split; [exact T5|].
  exists p1, p2, pa, pb. exact V5.
Qed.

End Ops.
