(* ===== verification/VmFork.v ===== *)
(** * Fork's copy of an address space (kernel/task.c)

    After fork the child and the parent see the same memory, and only pages of
    shared mappings stay writable; the frame counts stay exact throughout. *)

From S2P Require Import Prelude KString Pmm Inode BlockCache PageCache FsIo TaskDefs Mmu Vma Vm VmInv VmOps.

Section Fork.
Context {D E X : Type} `{!BlockDrivers D, !Ext4Ops D E}.
Implicit Types s : sys D E (ktasks X).

Definition page_shared (m : vm_state) (va : Z) : bool :=
  match task_vma_find m va with
  | Some vi => has_bits (vma_flags (vma_at m vi)) MAP_SHARED
  | None => false
  end.

(** What is left of a translation when private pages become copy-on-write. *)
Definition cow_view (m : vm_state) (va : Z) (r : option (Z * bool * bool)) : option (Z * bool * bool) :=
  match r with
  | Some (pa, w, x) => Some (pa, w && page_shared m (va - va mod PAGE_SIZE), x)
  | None => None
  end.

(** Another reference on a live frame. *)
Lemma ref_sys o n s p :
  vm_sys o s -> owners n o -> n <= 16 -> 1 <= ext_refs s p ->
  vm_sys (fun q => o q + d1 p q) (sys_set_pmm s (pmm_ref_page (s_pmm s) p)).
Proof.
  intros V B Hn He. pose proof (cache_refs_bound s p (vs_ents _ _ V)) as Hc.
  assert (Hr : 1 <= pmm_page_refcount (s_pmm s) p < 2 ^ 32 - 1).
  { unfold ext_refs in He. split; [lia|]. pose proof (vs_refs _ _ V p) as Hx. unfold ext_refs in Hx.
    pose proof (tasks_refs_bound _ _ p V). specialize (B p). lia. }
  apply (delta_sys o _ s); try done.
  - split_and!; [apply ref_page_wf; [apply V|lia|lia]|apply V|]. intros q. unfold ext_refs. simpl.
    rewrite ref_page_refcount by (apply V || lia). unfold d1.
    change (cache_refs (sys_set_pmm s _) q) with (cache_refs s q). case_decide; subst; lia.
  - intros q. pose proof (vs_ext _ _ V q). unfold d1. case_decide; lia.
Qed.

Lemma map_user_page_other s ti tj va pa w x c intent ok s' :
  tj <> ti -> task_map_user_page ti va pa w x c intent s = (ok, s') -> vm_at s' tj = vm_at s tj.
Proof.
  intros Hj. unfold task_map_user_page. cbv zeta. destruct (task_find_page _ va); [by intros [= _ <-]|].
  destruct (task_set_user_pte _ _ _ _); [|by intros [= _ <-]].
  destruct (task_track_page _ _ _ _); intros H; apply pair_equal_spec in H as [_ <-]; unfold refresh; by rewrite !vm_at_set_ne.
Qed.

Lemma map_user_page_len s ti va pa w x c intent ok s' :
  task_map_user_page ti va pa w x c intent s = (ok, s') -> length (kt_tasks (s_top s')) = length (kt_tasks (s_top s)).
Proof.
  unfold task_map_user_page. cbv zeta. destruct (task_find_page _ va); [by intros [= _ <-]|].
  destruct (task_set_user_pte _ _ _ _); [|by intros [= _ <-]].
  destruct (task_track_page _ _ _ _); intros H; apply pair_equal_spec in H as [_ <-]; simpl; by rewrite !length_insert.
Qed.

(** Mapping a page in an address space with tables. *)
Lemma map_user_page_effect s ti va pa w x c intent s' :
  (ti < length (kt_tasks (s_top s)))%nat -> tables_ready (vm_at s ti) -> frame_ok pa ->
  task_map_user_page ti va pa w x c intent s = (true, s') ->
  s_ram s' = s_ram s /\ length (kt_tasks (s_top s')) = length (kt_tasks (s_top s)) /\
  (forall tj, tj <> ti -> vm_at s' tj = vm_at s tj) /\ tables_ready (vm_at s' ti) /\
  forall va', el0_translate (vm_at s' ti) va' =
    if decide (va <= va' < va + PAGE_SIZE) then Some (pa + (va' - va), w, x) else el0_translate (vm_at s ti) va'.
Proof.
  intros Hl R Hf. unfold task_map_user_page. cbv zeta. destruct (task_find_page _ va); [done|].
  destruct (task_set_user_pte _ _ _ _) as [m1|] eqn:Es; [|done].
  destruct (task_track_page m1 va pa intent) as [m2|] eqn:Et; [|done].
  intros H. apply pair_equal_spec in H as [_ <-].
  apply set_pte_translate in Es as [R1 T1]; [|done|done].
  assert (E2 : vm_at (refresh ti (set_vm s ti m2)) ti =
    task_refresh_mem_accounting (s_pmm s) (kstack_base (task_at (set_vm s ti m2) ti)) m2).
  { unfold refresh. rewrite vm_at_set_len by (simpl; by rewrite length_insert). by rewrite vm_at_set_len. }
  assert (L2 : exists i up, m2 = set_page m1 i up).
  { unfold task_track_page in Et. destruct (find_idx _ _); [|done]. injection Et as <-. eauto. }
  destruct L2 as (i & up & ->). split_and!.
  - reflexivity.
  - simpl. by rewrite !length_insert.
  - intros tj Hj. unfold refresh. by rewrite !vm_at_set_ne.
  - rewrite E2. by destruct R1.
  - intros va'. rewrite E2. apply T1.
Qed.

(** A page the parent tracks, as fork reads it. *)
Lemma fork_source o s ti ui pp hw :
  vm_sys o s -> owners 8 o -> (ti < MAX_TASKS)%nat -> (ui < MAX_USER_PAGES)%nat ->
  page_at (vm_at s ti) ui = pp -> task_page_validate_hw (vm_at s ti) pp = Some hw ->
  pages (vm_at s ti) !! ui = Some pp /\ up_used pp = true /\ page_aligned (up_va pp) /\ frame_ok (up_pa pp) /\
  hw_allowed (up_writable_intent pp) hw /\ 1 <= ext_refs s (up_pa pp) /\
  (tables_ready (vm_at s ti) -> forall va, up_va pp <= va < up_va pp + PAGE_SIZE ->
     el0_translate (vm_at s ti) va = Some (up_pa pp + (va - up_va pp), hw_writable hw, hw_executable hw)).
Proof.
  intros V B Hti Hui Hat Hv. pose proof (vm_at_inv _ _ _ V Hti) as I.
  assert (Hi : pages (vm_at s ti) !! ui = Some pp).
  { subst pp. apply list_lookup_lookup_total_lt. by rewrite (vo_len _ (vi_ok _ I)). }
  destruct (validate_Some _ _ _ Hv) as [Hu _]. destruct (vo_pages _ (vi_ok _ I) ui pp Hi Hu) as [Pv Pa Pf (hw' & Hg & Hal)].
  rewrite (validate_pte _ _ _ Hu Pf Hal Hg) in Hv. injection Hv as <-.
  split_and!; try done; [by eapply tracked_ext|].
  intros R va Hr. destruct (tracked_translate _ _ _ va I R Hi Hu Hr) as (hw2 & -> & _ & Hv2).
  rewrite (validate_pte _ _ _ Hu Pf Hal Hg) in Hv2. by injection Hv2 as <-.
Qed.

(** Mapping a page of the parent in the child, with the reference it needs. *)
Lemma fork_map_sys o s child va pa w x c intent ok s' :
  vm_sys o s -> owners 8 o -> (child < MAX_TASKS)%nat -> frame_ok pa -> 1 <= ext_refs s pa ->
  hw_allowed intent (mk_hw w x c) ->
  task_map_user_page child va pa w x c intent (sys_set_pmm s (pmm_ref_page (s_pmm s) pa)) = (ok, s') ->
  (ok = true -> vm_sys o s' /\ same_ranges s s') /\
  (ok = false -> vm_sys o (free_page pa s') /\ same_ranges s (free_page pa s')).
Proof.
  intros V B Hc Hf He Hal Hm. apply (ref_sys o 8) in He; [|done..|lia].
  apply (map_user_page_sys o) in Hm as [V1 R1]; try done.
  assert (R2 : same_ranges s s') by (transitivity (sys_set_pmm s (pmm_ref_page (s_pmm s) pa)); [by apply sr_top|exact R1]).
  split; intros ->; [done|]. split; [by eapply free_back|]. etransitivity; [exact R2|apply sr_free].
Qed.

Record fork_effect (parent child : nat) (va0 : Z) s s' : Prop := {
  fe_ram : s_ram s' = s_ram s;
  fe_pages : pages (vm_at s' parent) = pages (vm_at s parent);
  fe_ready_p : tables_ready (vm_at s' parent);
  fe_ready_c : tables_ready (vm_at s' child);
  fe_child va : el0_translate (vm_at s' child) va =
    if decide (va0 <= va < va0 + PAGE_SIZE) then cow_view (vm_at s parent) va (el0_translate (vm_at s parent) va)
    else el0_translate (vm_at s child) va;
  fe_parent va : el0_translate (vm_at s' parent) va =
    if decide (va0 <= va < va0 + PAGE_SIZE) then cow_view (vm_at s parent) va (el0_translate (vm_at s parent) va)
    else el0_translate (vm_at s parent) va;
}.

Lemma cow_view_page m va va0 pa w x :
  page_aligned va0 -> va0 <= va < va0 + PAGE_SIZE ->
  cow_view m va (Some (pa, w, x)) = Some (pa, w && page_shared m va0, x).
Proof.
  intros A H. unfold cow_view. replace (va - va mod PAGE_SIZE) with va0; [done|]. unfold page_aligned in A. dlia.
Qed.

(** The child maps the page with the rights that are left, and so does the parent. *)
Lemma fork_effect_intro parent child va0 pa w x c intent s s1 s' hw :
  let m := vm_at s parent in
  parent <> child -> (child < length (kt_tasks (s_top s)))%nat -> (parent < length (kt_tasks (s_top s)))%nat ->
  frame_ok pa -> page_aligned va0 ->
  (tables_ready m -> forall va, va0 <= va < va0 + PAGE_SIZE ->
     el0_translate m va = Some (pa + (va - va0), hw_writable hw, hw_executable hw)) ->
  w = hw_writable hw && page_shared m va0 -> x = hw_executable hw ->
  task_map_user_page child va0 pa w x c intent (sys_set_pmm s (pmm_ref_page (s_pmm s) pa)) = (true, s1) ->
  (s' = s1 /\ w = hw_writable hw) \/
  (exists m', task_set_user_pte (vm_at s1 parent) va0 pa (task_user_attrs w x true) = Some m' /\
     s' = flush_va (set_vm s1 parent m') parent va0) ->
  tables_ready (vm_at s child) -> tables_ready m -> fork_effect parent child va0 s s'.
Proof.
  intros m Hne Hcl Hpl Hf A0 Hsrc -> -> Hm Hs' Rc Rp. specialize (Hsrc Rp).
  apply map_user_page_effect in Hm as (Hram & Hlen & Hoth & Rc1 & Hch); try done.
  assert (Hv1 : vm_at s1 parent = m) by by apply Hoth.
  assert (Hram1 : s_ram s1 = s_ram s).
  { rewrite Hram. unfold s_ram. simpl. unfold pmm_ref_page. destruct (page_index pa); [|done]. cbv zeta. by destruct (_ =? 0). }
  assert (Hcv : forall va, va0 <= va < va0 + PAGE_SIZE -> cow_view m va (el0_translate m va) =
    Some (pa + (va - va0), hw_writable hw && page_shared m va0, hw_executable hw)).
  { intros va Hr. rewrite Hsrc by done. by apply cow_view_page. }
  destruct Hs' as [[-> Hw]|(m' & Hm' & ->)].
  - constructor; fold m; rewrite ?Hv1; try done.
    + intros va. rewrite Hch. case_decide; [by rewrite Hcv|done].
    + intros va. case_decide as Hr; [|done]. rewrite Hcv, Hsrc, Hw by done. done.
  - rewrite Hv1 in Hm'.
    assert (E1 : vm_at (flush_va (set_vm s1 parent m') parent va0) parent = m').
    { change (vm_at (set_vm s1 parent m') parent = m'). apply vm_at_set_len. by rewrite Hlen. }
    assert (E2 : vm_at (flush_va (set_vm s1 parent m') parent va0) child = vm_at s1 child).
    { change (vm_at (set_vm s1 parent m') child = vm_at s1 child). by apply vm_at_set_ne. }
    pose proof (set_pte_Some _ _ _ _ _ Hm') as (_ & w' & t & _ & Em).
    apply set_pte_translate in Hm' as [Rp' Hp']; [|done|done].
    constructor; fold m; rewrite ?E1, ?E2; try done.
    + rewrite Em. by destruct (l3_only_fields _ _ (l3_store_only m w' t va0
        (mmu_make_page pa (task_user_attrs (hw_writable hw && page_shared m va0) (hw_executable hw) true)))).
    + intros va. rewrite Hch. case_decide; [by rewrite Hcv|done].
    + intros va. rewrite Hp'. case_decide; [by rewrite Hcv|done].
Qed.

Lemma fork_page_sys o s parent child ui ok s' :
  vm_sys o s -> owners 8 o -> parent <> child -> (parent < MAX_TASKS)%nat -> (child < MAX_TASKS)%nat ->
  (ui < MAX_USER_PAGES)%nat -> fork_page parent child ui s = (ok, s') ->
  vm_sys o s' /\ same_ranges s s' /\
  (ok = true -> tables_ready (vm_at s child) -> tables_ready (vm_at s parent) ->
   fork_effect parent child (up_va (page_at (vm_at s parent) ui)) s s').
Proof.
  intros V B Hne Hp Hc Hui. unfold fork_page. cbv zeta. fold (page_shared (vm_at s parent) (up_va (page_at (vm_at s parent) ui))).
  set (m := vm_at s parent). set (pp := page_at m ui).
  destruct (task_page_validate_hw m pp) as [hw|] eqn:Ev; [|by intros [= <- <-]].
  destruct (fork_source o s parent ui pp hw) as (Hi & Hu & Pa & Pf & Hal & He & Hsrc); try done.
  assert (Hpl : (parent < length (kt_tasks (s_top s)))%nat) by by rewrite (vs_len _ _ V).
  assert (Hcl : (child < length (kt_tasks (s_top s)))%nat) by by rewrite (vs_len _ _ V).
  intros H. peel H ltac:(by simplify_eq). destruct (page_shared m (up_va pp)) eqn:Esh.
  - destruct (hw_cow hw) eqn:Ecow; [by simplify_eq|].
    destruct (task_map_user_page _ _ _ _ _ _ _ _) as [ok1 s1] eqn:Em. pose proof Em as Em'.
    apply (fork_map_sys o) in Em' as [Ht Hf]; try done; [|rewrite <- Ecow, hw_eta; done].
    destruct ok1; cbn [negb] in H; injection H as <- <-; [|by destruct (Hf eq_refl)].
    destruct (Ht eq_refl) as [V1 R1]. split_and!; try done. intros _ Rc Rp.
    apply (fork_effect_intro parent child (up_va pp) (up_pa pp) (hw_writable hw) (hw_executable hw) false
      (up_writable_intent pp) s s1 s1 hw); try done; [by fold m; rewrite Esh, andb_true_r|by left].
  - destruct (task_map_user_page _ _ _ _ _ _ _ _) as [ok1 s1] eqn:Em. pose proof Em as Em'.
    apply (fork_map_sys o) in Em' as [Ht Hf]; try done.
    2: { split; simpl; [by intros ->|]. intros [? _]. done. }
    destruct ok1; cbn [negb] in H; [|injection H as <- <-; by destruct (Hf eq_refl)].
    destruct (Ht eq_refl) as [V1 R1].
    assert (Hpost : forall s2, (s2 = s1 /\ false = hw_writable hw) \/
        (exists m', task_set_user_pte (vm_at s1 parent) (up_va pp) (up_pa pp) (task_user_attrs false (hw_executable hw) true) = Some m' /\
           s2 = flush_va (set_vm s1 parent m') parent (up_va pp)) ->
        tables_ready (vm_at s child) -> tables_ready m -> fork_effect parent child (up_va pp) s s2).
    { intros s2 Hs2 Rc Rp.
      apply (fork_effect_intro parent child (up_va pp) (up_pa pp) false (hw_executable hw) (up_writable_intent pp)
        (up_writable_intent pp) s s1 s2 hw); try done. by fold m; rewrite Esh, andb_false_r. }
    destruct (_ && negb (hw_cow hw)) eqn:Eb.
    + assert (E1 : vm_at s1 parent = m) by by apply map_user_page_other with (tj := parent) in Em.
      destruct (rewrite_pte_sys o s1 parent ui pp (mk_hw false (hw_executable hw) true)) as (m' & Hm' & V2 & R2 & _); try done.
      { by rewrite E1. }
      { split; simpl; [|by intros [? _]]. bool_hyps. congruence. }
      simpl in Hm'. rewrite Hm' in H. apply pair_equal_spec in H as [<- <-]. split; [by apply flush_va_sys|]. split.
      { etransitivity; [exact R1|]. etransitivity; [exact R2|apply sr_flush]. }
      intros _. apply Hpost. right. by exists m'.
    + injection H as <- <-. split_and!; try done. intros _. apply Hpost. left. split; [done|].
      destruct Hal as [A1 A2]. destruct (hw_writable hw) eqn:Ew; [|done]. exfalso.
      destruct (up_writable_intent pp); [|by destruct (A1 eq_refl)]. simpl in Eb. apply A2. split; [done|].
      by destruct (hw_cow hw).
Qed.

(** ** The whole address space *)

(** [va] is in a page the list has at index [k] or later. *)
Definition tracked_from (k : nat) (pgs : list user_page) (va : Z) : Prop :=
  exists i up, (k <= i)%nat /\ pgs !! i = Some up /\ up_used up = true /\ up_va up <= va < up_va up + PAGE_SIZE.

Lemma tracked_split k pgs va up :
  pgs !! k = Some up ->
  tracked_from k pgs va <-> (up_used up = true /\ up_va up <= va < up_va up + PAGE_SIZE) \/ tracked_from (S k) pgs va.
Proof.
  intros Hk. split.
  - intros (i & u & Hi & Hl & Hu & Hr). destruct (decide (i = k)) as [->|]; [left; by simplify_eq|].
    right. exists i, u. split_and!; try done; lia.
  - intros [[Hu Hr]|(i & u & Hi & R)]; [by exists k, up|]. exists i, u. split; [lia|done].
Qed.

Lemma tracked_once m k up va :
  vm_inv m -> pages m !! k = Some up -> up_used up = true -> up_va up <= va < up_va up + PAGE_SIZE ->
  ~ tracked_from (S k) (pages m) va.
Proof.
  intros I Hk Hu Hr (i & u & Hi & Hl & Hu' & Hr').
  pose proof (pm_aligned _ _ (vo_pages _ (vi_ok _ I) _ _ Hk Hu)). pose proof (pm_aligned _ _ (vo_pages _ (vi_ok _ I) _ _ Hl Hu')).
  assert (i = k); [|lia]. eapply (vo_inj _ (vi_ok _ I)); try done. unfold page_aligned in *. dlia.
Qed.

Lemma cow_view_ranges s s' ti va r : same_ranges s s' -> cow_view (vm_at s' ti) va r = cow_view (vm_at s ti) va r.
Proof.
  intros R. unfold cow_view, page_shared, task_vma_find, vma_at. by rewrite (sr_vmas _ _ ti R).
Qed.

Record fork_result (k : nat) (parent child : nat) s s' : Prop := {
  fr_ram : s_ram s' = s_ram s;
  fr_ready_p : tables_ready (vm_at s' parent);
  fr_ready_c : tables_ready (vm_at s' child);
  fr_in va : tracked_from k (pages (vm_at s parent)) va ->
    el0_translate (vm_at s' child) va = cow_view (vm_at s parent) va (el0_translate (vm_at s parent) va) /\
    el0_translate (vm_at s' parent) va = cow_view (vm_at s parent) va (el0_translate (vm_at s parent) va);
  fr_out va : ~ tracked_from k (pages (vm_at s parent)) va ->
    el0_translate (vm_at s' child) va = el0_translate (vm_at s child) va /\
    el0_translate (vm_at s' parent) va = el0_translate (vm_at s parent) va;
}.

Lemma fork_result_step k parent child up s s1 s' :
  vm_inv (vm_at s parent) -> pages (vm_at s parent) !! k = Some up -> up_used up = true -> same_ranges s s1 ->
  fork_effect parent child (up_va up) s s1 -> fork_result (S k) parent child s1 s' -> fork_result k parent child s s'.
Proof.
  intros I Hk Hu R [E1 E2 E3 E4 Ec Ep] [F1 F2 F3 Fi Fo]. rewrite E2 in Fi, Fo.
  constructor; try done; [congruence|..]; intros va; rewrite (tracked_split _ _ _ _ Hk);
    specialize (Ec va); specialize (Ep va).
  - intros [[_ Hr]|Ht].
    + rewrite decide_True in Ec, Ep by done. rewrite <- Ec. rewrite Ec at 2. rewrite <- Ep.
      apply Fo. by eapply tracked_once.
    + assert (Hn : ~ up_va up <= va < up_va up + PAGE_SIZE) by (intros Hr; by eapply tracked_once).
      rewrite decide_False in Ec, Ep by done. rewrite <- Ep. rewrite <- (cow_view_ranges s s1) by done. by apply Fi.
  - intros Hn. rewrite decide_False in Ec, Ep by tauto. rewrite <- Ec, <- Ep. apply Fo. tauto.
Qed.

Lemma fork_pages_sys o n k s parent child ok s' :
  vm_sys o s -> owners 8 o -> parent <> child -> (parent < MAX_TASKS)%nat -> (child < MAX_TASKS)%nat ->
  (k + n = MAX_USER_PAGES)%nat -> fork_pages (seq k n) parent child s = (ok, s') ->
  vm_sys o s' /\ same_ranges s s' /\
  (ok = true -> tables_ready (vm_at s parent) -> tables_ready (vm_at s child) -> fork_result k parent child s s').
Proof.
  intros V B Hne Hp Hc. revert k s V. induction n as [|n IH]; intros k s V Hk; cbn [seq fork_pages].
  { intros [= <- <-]. split_and!; try done. intros _ Rp Rc. constructor; try done. intros va (i & u & Hi & Hl & _).
    apply lookup_lt_Some in Hl. rewrite (vo_len _ (vi_ok _ (vm_at_inv _ _ _ V Hp))) in Hl. lia. }
  pose proof (vm_at_inv _ _ _ V Hp) as I.
  destruct (lookup_lt_is_Some_2 (pages (vm_at s parent)) k) as [up Hup]; [rewrite (vo_len _ (vi_ok _ I)); lia|].
  assert (Hat : page_at (vm_at s parent) k = up) by by apply list_lookup_total_correct. rewrite Hat.
  destruct (up_used up) eqn:Hu; cbn [negb].
  - destruct (fork_page parent child k s) as [ok1 s1] eqn:Ef. apply (fork_page_sys o) in Ef as (V1 & R1 & E1); try done; [|lia].
    destruct ok1; cbn [negb]; [|intros [= <- <-]; by split_and!].
    intros H. apply IH in H as (V2 & R2 & E2); [|done|lia]. split_and!; [done|by etransitivity|].
    intros -> Rp Rc. rewrite Hat in E1. specialize (E1 eq_refl Rc Rp).
    eapply fork_result_step; try done. apply E2; [done|by destruct E1..].
  - intros H. apply IH in H as (V2 & R2 & E2); [|done|lia]. split_and!; try done. intros -> Rp Rc.
    destruct (E2 eq_refl Rp Rc) as [F1 F2 F3 Fi Fo].
    constructor; try done; intros va; rewrite (tracked_split _ _ _ _ Hup), Hu; [|intros ?; apply Fo; tauto].
    intros [[? _]|?]; [done|by apply Fi].
Qed.

Lemma tracked_iff m va :
  vm_inv m -> tables_ready m -> ~ tracked_from 0 (pages m) va -> el0_translate m va = None.
Proof.
  intros I R Hn. apply untracked_translate; try done. destruct (task_find_page m _) as [i|] eqn:Ef; [|done].
  exfalso. apply Hn. apply find_page_Some in Ef as (up & Hi & _ & Hu & Hva). exists i, up. split_and!; try done; [lia|dlia|dlia].
Qed.

(** ** The write fault on a copy-on-write page *)

(** The page at [va0] of task [ti] is writable, alone on its frame [pa'], and holds
    what the shared frame [pa] held; nothing else in memory, and no other address
    space, changed. *)
Record cow_resolved (ti : nat) (va0 pa pa' : Z) (x : bool) s s' : Prop := {
  cr_translate va : el0_translate (vm_at s' ti) va =
    if decide (va0 <= va < va0 + PAGE_SIZE) then Some (pa' + (va - va0), true, x) else el0_translate (vm_at s ti) va;
  cr_other tj : tj <> ti -> vm_at s' tj = vm_at s tj;
  cr_alone : pmm_page_refcount (s_pmm s') pa' = 1;
  cr_copy i : 0 <= i < PAGE_SIZE -> mem_get (s_ram s') (pa' + i) = mem_get (s_ram s) (pa + i);
  cr_rest a : ~ pa' <= a < pa' + PAGE_SIZE -> mem_get (s_ram s') a = mem_get (s_ram s) a;
  cr_fresh : pa' <> pa -> pmm_page_refcount (s_pmm s) pa' = 0 /\
    pmm_page_refcount (s_pmm s') pa = pmm_page_refcount (s_pmm s) pa - 1;
}.

Lemma open_page_translate s ti va0 pa x m' m1 :
  (ti < length (kt_tasks (s_top s)))%nat -> tables_ready m1 -> frame_ok pa ->
  task_set_user_pte m1 va0 pa (task_user_attrs true x false) = Some m' ->
  forall va, el0_translate (vm_at (refresh ti (flush_va (set_vm s ti m') ti va0)) ti) va =
    if decide (va0 <= va < va0 + PAGE_SIZE) then Some (pa + (va - va0), true, x) else el0_translate m1 va.
Proof.
  intros Hl R Hf Hm va. unfold refresh. rewrite vm_at_set_len by (simpl; by rewrite length_insert).
  rewrite refresh_translate. change (vm_at (flush_va ?x _ _) ti) with (vm_at x ti). rewrite vm_at_set_len by done.
  apply set_pte_translate in Hm as [_ Ht]; [apply Ht|done|done].
Qed.

Lemma open_page_other s ti tj va0 m' :
  tj <> ti -> vm_at (refresh ti (flush_va (set_vm s ti m') ti va0)) tj = vm_at s tj.
Proof.
  intros Hj. unfold refresh. rewrite vm_at_set_ne by done. change (vm_at (flush_va ?x _ _) tj) with (vm_at x tj).
  by rewrite vm_at_set_ne.
Qed.

(** The copy: a fresh frame gets the contents of the shared one. *)
Lemma cow_copy o s np p pa :
  vm_sys o s -> pmm_alloc_page (s_pmm s) = (np, p) -> np <> 0 -> frame_ok pa -> 1 < pmm_page_refcount (s_pmm s) pa ->
  let s1 := sys_set_ram (sys_set_pmm s p) (memcpy (s_ram (sys_set_pmm s p)) np pa PAGE_SIZE) in
  let s2 := free_page pa s1 in
  np <> pa /\ pmm_page_refcount (s_pmm s) np = 0 /\ pmm_page_refcount (s_pmm s2) np = 1 /\
  pmm_page_refcount (s_pmm s2) pa = pmm_page_refcount (s_pmm s) pa - 1 /\
  (forall i, 0 <= i < PAGE_SIZE -> mem_get (s_ram s2) (np + i) = mem_get (s_ram s) (pa + i)) /\
  (forall a, ~ np <= a < np + PAGE_SIZE -> mem_get (s_ram s2) a = mem_get (s_ram s) a).
Proof.
  intros V Ha Hne Hf Hr. cbv zeta. destruct (alloc_page_ok _ _ _ (vs_pmm _ _ V) Ha Hne) as (W1 & Hv & H0 & _ & Hram & Hq & _).
  assert (Hnp : np <> pa) by (intros ->; lia).
  assert (Hdis : np + PAGE_SIZE <= pa \/ pa + PAGE_SIZE <= np).
  { destruct Hv as [Hv _], Hf as [Hf _]. unfold page_aligned in *. dlia. }
  assert (W2 : pmm_wf (with_ram p (memcpy (ram p) np pa PAGE_SIZE))) by by apply wf_with_ram.
  assert (Hfr : forall q : sys D E (ktasks X), s_ram (free_page pa q) = s_ram q).
  { intros q. unfold s_ram, free_page. simpl. unfold pmm_free_page. destruct (_ =? 0); [done|]. destruct (page_index pa); [|done].
    cbv zeta. destruct (_ =? 0); [done|]. destruct (negb _); [done|]. by destruct (_ <? _). }
  assert (Hget : forall a, mem_get (memcpy (ram p) np pa PAGE_SIZE) a =
    if (np <=? a) && (a <? np + PAGE_SIZE) then mem_get (ram p) (pa + (a - np)) else mem_get (ram p) a).
  { intros a. apply memcpy_get; lia. }
  assert (Hz : forall a, ~ np <= a < np + PAGE_SIZE -> mem_get (ram p) a = mem_get (s_ram s) a).
  { intros a Hn. rewrite Hram, memset_get by lia. by split_if; [lia|]. }
  assert (Hrc : forall q, pmm_page_refcount (s_pmm (free_page pa (sys_set_ram (sys_set_pmm s p) (memcpy (ram p) np pa PAGE_SIZE)))) q =
    if decide (pa = q) then Z.max 0 (pmm_page_refcount p pa - 1) else pmm_page_refcount p q).
  { intros q. simpl. rewrite free_page_refcount by done. done. }
  change (s_ram (sys_set_pmm s p)) with (ram p). split_and!; [done|done|..].
  - rewrite Hrc, decide_False, Hq, decide_True by done. done.
  - rewrite Hrc, decide_True, Hq, decide_False by done. lia.
  - intros i Hi. rewrite Hfr. change (s_ram (sys_set_ram _ ?m)) with m. rewrite Hget. split_if; [|lia].
    rewrite Hz by lia. f_equal. lia.
  - intros a Hn. rewrite Hfr. change (s_ram (sys_set_ram _ ?m)) with m. rewrite Hget. split_if; [lia|]. by apply Hz.
Qed.

Lemma write_fault_cow o s ti ui up hw s' :
  vm_sys o s -> owners 8 o -> (ti < MAX_TASKS)%nat -> tables_ready (vm_at s ti) ->
  task_find_page (vm_at s ti) (up_va up) = Some ui -> page_at (vm_at s ti) ui = up ->
  task_page_validate_hw (vm_at s ti) up = Some hw -> hw_cow hw = true ->
  write_fault ti (up_va up) s = (true, s') ->
  exists pa', cow_resolved ti (up_va up) (up_pa up) pa' (hw_executable hw) s s'.
Proof.
  intros V B Hti R Ef Hat Ev Hc. unfold write_fault. cbv zeta. rewrite Ef, Hat, Ev, Hc. cbn [negb].
  assert (Hl : (ti < length (kt_tasks (s_top s)))%nat) by by rewrite (vs_len _ _ V).
  assert (Hui : (ui < MAX_USER_PAGES)%nat).
  { apply find_page_Some in Ef as (u & Hi & _). apply lookup_lt_Some in Hi.
    by rewrite (vo_len _ (vi_ok _ (vm_at_inv _ _ _ V Hti))) in Hi. }
  destruct (fork_source o s ti ui up hw) as (Hi & Hu & _ & Hf & _ & _); try done.
  destruct (negb _); [done|]. destruct (hw_writable hw); [done|]. destruct (Z.eqb_spec (pmm_page_refcount (s_pmm s) (up_pa up)) 0) as [|Hnz]; [done|].
  destruct (1 <? _) eqn:E1; bool_hyps.
  - destruct (_ <=? _); [done|]. destruct (pmm_alloc_page (s_pmm s)) as [np p] eqn:Ea.
    destruct (Z.eqb_spec np 0) as [|Hne]; [done|].
    destruct (alloc_sys _ _ 8 _ _ V B ltac:(lia) Ea) as [[-> _]|(_ & Hfn & _)]; [done|].
    destruct (cow_copy o s np p (up_pa up) V Ea Hne Hf E1) as (Hnp & H0 & Hr1 & Hr2 & Hcp & Hrest).
    set (s2 := free_page _ _) in *. change (vm_at s2 ti) with (vm_at s ti).
    set (s3 := set_vm s2 ti (set_page (vm_at s ti) ui (set_up_pa up np))).
    assert (E3 : vm_at s3 ti = set_page (vm_at s ti) ui (set_up_pa up np)) by by apply (vm_at_set_len s2).
    rewrite E3. destruct (task_set_user_pte _ _ _ _) as [m'|] eqn:Em; [|done].
    intros H. apply pair_equal_spec in H as [_ <-]. exists np. constructor; try done.
    + intros va. rewrite (open_page_translate s3 _ _ _ _ _ _ ltac:(simpl; by rewrite length_insert) (ready_set_page _ _ _ R) Hfn Em). done.
    + intros tj Hj. rewrite open_page_other by done. unfold s3. by rewrite vm_at_set_ne.
  - destruct (task_set_user_pte _ _ _ _) as [m'|] eqn:Em; [|done].
    intros H. apply pair_equal_spec in H as [_ <-]. exists (up_pa up). constructor; try done.
    + by apply open_page_translate with (m1 := vm_at s ti).
    + intros tj Hj. by apply open_page_other.
    + change (pmm_page_refcount (s_pmm s) (up_pa up) = 1). pose proof (refcount_range (s_pmm s) (up_pa up) (vs_pmm _ _ V)) as Hu32.
      unfold is_u32 in Hu32. lia.
Qed.

(** The fault is always resolved when a frame can be had. *)
Lemma write_fault_cow_total o s ti ui up hw :
  vm_sys o s -> owners 8 o -> (ti < MAX_TASKS)%nat ->
  task_find_page (vm_at s ti) (up_va up) = Some ui -> page_at (vm_at s ti) ui = up ->
  task_page_validate_hw (vm_at s ti) up = Some hw -> hw_cow hw = true ->
  (1 < pmm_page_refcount (s_pmm s) (up_pa up) -> PMM_OOM_RESERVE_PAGES < pmm_available_pages (s_pmm s)) ->
  exists s', write_fault ti (up_va up) s = (true, s').
Proof.
  intros V B Hti Ef Hat Ev Hc Hav. unfold write_fault. cbv zeta. rewrite Ef, Hat, Ev, Hc. cbn [negb].
  pose proof (vm_at_inv _ _ _ V Hti) as I. pose proof Ef as (u & Hi & Hat' & Hu & _)%find_page_Some.
  assert (u = up) as -> by congruence.
  assert (Hui : (ui < MAX_USER_PAGES)%nat) by (rewrite <- (vo_len _ (vi_ok _ I)); by eapply lookup_lt_Some).
  destruct (fork_source o s ti ui up hw) as (_ & _ & _ & Hf & [A1 A2] & He & _); try done.
  destruct (up_writable_intent up); cbn [negb]; [|destruct (A1 eq_refl); congruence].
  destruct (hw_writable hw); [by destruct A2|].
  pose proof (cache_refs_bound s (up_pa up) (vs_ents _ _ V)). unfold ext_refs in He.
  replace (pmm_page_refcount (s_pmm s) (up_pa up) =? 0) with false by lia.
  destruct (vo_pages _ (vi_ok _ I) ui up Hi Hu) as [_ _ _ (hw0 & Hg & _)].
  destruct (1 <? _) eqn:E1; bool_hyps.
  - replace (_ <=? _) with false by lia. destruct (pmm_alloc_page (s_pmm s)) as [np p] eqn:Ea.
    destruct (alloc_avail_sys o 8 s np p V B ltac:(lia) ltac:(lia) Ea) as (Hne & _). replace (np =? 0) with false by lia.
    set (s3 := set_vm (free_page _ _) ti _).
    destruct (set_pte_total (vm_at s3 ti) (up_va up) (pte_of (up_pa up) hw0) np (task_user_attrs true (hw_executable hw) false)) as [m' ->];
      [|by eexists].
    unfold s3. rewrite vm_at_set_len by (simpl; by rewrite (vs_len _ _ V)). exact Hg.
  - destruct (set_pte_total (vm_at s ti) (up_va up) _ (up_pa up) (task_user_attrs true (hw_executable hw) false) Hg) as [m' ->].
    by eexists.
Qed.

(** ** When fork is refused *)

(** Fork touches no other page of the parent. *)
Lemma fork_page_keeps s parent child ui s' va :
  parent <> child -> (parent < length (kt_tasks (s_top s)))%nat -> va <> up_va (page_at (vm_at s parent) ui) ->
  fork_page parent child ui s = (true, s') ->
  pages (vm_at s' parent) = pages (vm_at s parent) /\
  task_get_user_pte (vm_at s' parent) va = task_get_user_pte (vm_at s parent) va.
Proof.
  intros Hne Hl Hva. unfold fork_page. cbv zeta. set (m := vm_at s parent) in *.
  destruct (task_page_validate_hw m _) as [hw|]; [|done]. intros H. peel H ltac:(by simplify_eq).
  match type of H with (if ?b then _ else _) = _ => destruct b end.
  - destruct (hw_cow hw); [done|]. destruct (task_map_user_page _ _ _ _ _ _ _ _) as [ok1 s1] eqn:Em.
    apply map_user_page_other with (tj := parent) in Em as Ho; [|done]. change (vm_at s1 parent = m) in Ho.
    destruct ok1; cbn [negb] in H; [apply pair_equal_spec in H as [_ <-]; by rewrite Ho|done].
  - destruct (task_map_user_page _ _ _ _ _ _ _ _) as [ok1 s1] eqn:Em.
    apply map_user_page_other with (tj := parent) in Em as Ho; [|done]. change (vm_at s1 parent = m) in Ho.
    apply map_user_page_len in Em. destruct ok1; cbn [negb] in H; [|by simplify_eq].
    match type of H with (if ?b then _ else _) = _ => destruct b end; [|apply pair_equal_spec in H as [_ <-]; by rewrite Ho].
    rewrite Ho in H. destruct (task_set_user_pte m _ _ _) as [m'|] eqn:Es; [|by simplify_eq].
    apply pair_equal_spec in H as [_ <-]. change (vm_at (flush_va ?x _ _) parent) with (vm_at x parent).
    rewrite vm_at_set_len by (rewrite Em; done). pose proof (set_pte_Some _ _ _ _ _ Es) as (_ & w & t & _ & ->). split.
    + by destruct (l3_only_fields _ _ (l3_store_only m w t (up_va (page_at m ui))
        (mmu_make_page (up_pa (page_at m ui)) (task_user_attrs false (hw_executable hw) true)))).
    + by rewrite (set_pte_get _ _ _ _ _ va Es), decide_False.
Qed.

(** A page meant to be writable whose entry is neither writable nor copy-on-write
    stops the fork. *)
Lemma fork_pages_refused o n k j s parent child pp hw :
  vm_sys o s -> owners 8 o -> parent <> child -> (parent < MAX_TASKS)%nat -> (child < MAX_TASKS)%nat ->
  (j + n = MAX_USER_PAGES)%nat -> (j <= k)%nat ->
  pages (vm_at s parent) !! k = Some pp -> up_used pp = true -> up_writable_intent pp = true ->
  task_page_validate_hw (vm_at s parent) pp = Some hw -> hw_writable hw = false -> hw_cow hw = false ->
  (fork_pages (seq j n) parent child s).1 = false.
Proof.
  intros V B Hne Hp Hc. revert j s V. induction n as [|n IH]; intros j s V Hj Hjk Hk Hu Hin Hv Hw Hcw; cbn [seq fork_pages].
  { apply lookup_lt_Some in Hk. rewrite (vo_len _ (vi_ok _ (vm_at_inv _ _ _ V Hp))) in Hk. lia. }
  destruct (decide (j = k)) as [->|Hjk'].
  - assert (Hat : page_at (vm_at s parent) k = pp) by by apply list_lookup_total_correct.
    unfold fork_page. cbv zeta. rewrite Hat, Hu, Hv, Hin, Hw, Hcw. done.
  - destruct (up_used (page_at (vm_at s parent) j)) eqn:Huj; cbn [negb]; [|apply IH; try done; lia].
    destruct (fork_page parent child j s) as [ok s1] eqn:Ef. destruct ok; cbn [negb]; [|done].
    pose proof Ef as (V1 & _ & _)%(fork_page_sys o); try done; [|lia].
    pose proof (vm_at_inv _ _ _ V Hp) as I.
    destruct (fork_page_keeps s parent child j s1 (up_va pp)) as [Ep Eg]; try done; [by rewrite (vs_len _ _ V)| |].
    + intros He. apply Hjk'. eapply (vo_inj _ (vi_ok _ I)); [|exact Hk|exact Huj|done|done].
      apply list_lookup_lookup_total_lt. rewrite (vo_len _ (vi_ok _ I)). lia.
    + apply IH; try done; [lia|lia|by rewrite Ep|]. revert Hv. unfold task_page_validate_hw. by rewrite Eg.
Qed.

End Fork.
