(* ===== verification/VmProps.v ===== *)
(** * Properties of user memory (kernel/task.c, kernel/mmu.c)

    The system calls, page faults and context switches that touch user memory as
    a transition system, and what holds in all its states. *)

From S2P Require Import Prelude KString Pmm Inode BlockCache PageCache FsIo TaskDefs Mmu Vma Vm VmInv VmOps VmFork.

Section Steps.
Context {D E X : Type} `{!BlockDrivers D, !Ext4Ops D E}.
Implicit Types s : sys D E (ktasks X).

Record vm_good (o : Z -> Z) s : Prop := {
  vg_sys : vm_sys o s;
  vg_current : current_ok s;
  vg_stack ti : (ti < MAX_TASKS)%nat -> stack_placed (vm_at s ti);
}.

Definition set_current s (c : option nat) : sys D E (ktasks X) :=
  let k := s_top s in
  sys_set_top s (mk_ktasks (kt_tasks k) c (kt_next_pid k) (kt_init_pid k) (kt_next_asid k) (kt_asid_epoch k) (kt_mmu k) (kt_io k)).

Inductive vm_step s : sys D E (ktasks X) -> Prop :=
  | st_switch c : (forall ti, c = Some ti -> (ti < MAX_TASKS)%nat) -> vm_step s (set_current s c)
  | st_fault va w t x sp ok s' : task_handle_page_fault va w t x sp s = (ok, s') -> vm_step s s'
  | st_brk b r s' : task_brk b s = (r, s') -> vm_step s s'
  | st_mmap addr len prot flags fd off r s' :
      is_u64 addr -> task_mmap addr len prot flags fd off s = (r, s') -> vm_step s s'
  | st_munmap addr len r s' : is_u64 addr -> is_u64 len -> task_munmap addr len s = (r, s') -> vm_step s s'
  | st_mprotect addr len prot r s' :
      is_u64 addr -> is_u64 len -> task_mprotect addr len prot s = (r, s') -> vm_step s s'
  | st_msync addr len flags r s' : task_msync addr len flags s = (r, s') -> vm_step s s'
  | st_sync ino r s' : fs_sync_inode ino s = (r, s') -> vm_step s s'
  | st_fork parent child ok s' :
      parent <> child -> (parent < MAX_TASKS)%nat -> (child < MAX_TASKS)%nat ->
      fork_pages (seq 0 MAX_USER_PAGES) parent child s = (ok, s') -> vm_step s s'
  | st_release ti : (ti < MAX_TASKS)%nat -> vm_step s (task_unmap_user ti s).

Lemma good_same o s s' : vm_good o s -> vm_sys o s' -> same_ranges s s' -> vm_good o s'.
Proof.
  intros [V C P] V' [R1 R2]. constructor; [done| |].
  - unfold current_ok. by rewrite R1.
  - intros ti Hti. specialize (P ti Hti). specialize (R2 ti). unfold ranges in R2. unfold stack_placed in *. congruence.
Qed.

Lemma good_other o s s' ti : vm_good o s -> vm_sys o s' -> other_ranges ti s s' -> vm_good o s'.
Proof.
  intros [V C P] V' [R1 R2 R3]. constructor; [done| |].
  - unfold current_ok. by rewrite R1.
  - intros tj Htj. specialize (P tj Htj). unfold stack_placed in *. destruct (decide (tj = ti)) as [->|Hne].
    + by destruct R3 as (_ & _ & ->).
    + specialize (R2 tj Hne). unfold ranges in R2. congruence.
Qed.

Lemma step_good o s s' : vm_good o s -> owners 8 o -> vm_step s s' -> vm_good o s'.
Proof.
  intros G B. pose proof G as [V C P]. destruct 1 as [c Hc|va w t x sp ok s' H|b r s' H|addr len prot flags fd off r s' Ha H|
    addr len r s' Ha Hl H|addr len prot r s' Ha Hl H|addr len flags r s' H|ino r s' H|parent child ok s' Hne Hp Hch H|ti Hti].
  - constructor; [eapply sys_eq; [..|exact V]; reflexivity|exact Hc|exact P].
  - apply (page_fault_sys o) in H as [V' R']; try done. by eapply good_same.
  - destruct (kt_current (s_top s)) as [ti|] eqn:Ec; [|unfold task_brk in H; rewrite Ec in H; by simplify_eq].
    destruct (brk_sys o s ti b r s') as (V' & E' & S' & O' & _); auto.
    constructor; [done|intros tj; rewrite E'; intros [= <-]; by apply C|].
    intros tj Htj. specialize (P tj Htj). unfold stack_placed in *. destruct (decide (tj = ti)) as [->|Hne]; [by rewrite S'|].
    specialize (O' tj Hne). unfold ranges in O'. congruence.
  - destruct (kt_current (s_top s)) as [ti|] eqn:Ec; [|unfold task_mmap in H; rewrite Ec in H; by simplify_eq].
    destruct (mmap_sys o s ti addr len prot flags fd off r s') as (V' & O' & _); auto. by eapply good_other.
  - destruct (kt_current (s_top s)) as [ti|] eqn:Ec; [|unfold task_munmap in H; rewrite Ec in H; by simplify_eq].
    destruct (munmap_sys o s ti addr len r s') as (V' & O' & _); auto. by eapply good_other.
  - destruct (kt_current (s_top s)) as [ti|] eqn:Ec; [|unfold task_mprotect in H; rewrite Ec in H; by simplify_eq].
    destruct (mprotect_sys o s ti addr len prot r s') as (V' & O' & _); auto. by eapply good_other.
  - apply (msync_sys o) in H as [V' R']; try done. by eapply good_same.
  - apply (sync_inode_sys o) in H as [V' R']; try done. by eapply good_same.
  - apply (fork_pages_sys o) in H as (V' & R' & _); try done. by eapply good_same.
  - destruct (unmap_user_sys o s ti V B Hti) as (V' & R' & _). by eapply good_same.
Qed.

Lemma reach_good o s s' : vm_good o s -> owners 8 o -> rtc vm_step s s' -> vm_good o s'.
Proof. intros G B H. revert G. induction H; [done|]. intros G. by apply IHrtc, (step_good o x). Qed.

End Steps.

(** ** Properties *)

(** C1: user memory stays sound. In every state reachable by page faults, brk, mmap,
    munmap, mprotect, msync, sync, fork and exit of any task: the page tables of
    each task map exactly its tracked pages, with the tracked frames and no more
    rights than intended; its ranges are disjoint, aligned and within the table;
    and each frame's reference count is the number of cache entries and tracked
    pages that hold it plus those of the other owners, so no frame in use is
    freed and none is leaked. *)
Theorem vm_invariant {D E X} `{!BlockDrivers D, !Ext4Ops D E} o (s s' : sys D E (ktasks X)) :
  vm_good o s -> owners 8 o -> rtc vm_step s s' -> vm_good o s'.
Proof. apply reach_good. Qed.


(** C20: mmap refines the abstract map. A failed call leaves the map as it was, except
    that a fixed mapping may have unmapped its range before it found no slot. A
    successful one returns an aligned start such that the whole range lies below
    the stack, and the map changes exactly there: to the file (or to anonymous
    memory) with the offsets, protection and flags asked for. Without MAP_FIXED the
    range lies above the heap and nothing was mapped in it. *)
Theorem mmap_refines {D E X} `{!BlockDrivers D, !Ext4Ops D E} o (s s' : sys D E (ktasks X))
    ti addr len prot flags fd offset r :
  vm_good o s -> owners 8 o -> kt_current (s_top s) = Some ti -> is_u64 addr ->
  task_mmap addr len prot flags fd offset s = (r, s') ->
  mmap_spec ti addr len prot flags fd offset s r s'.
Proof.
  intros [V C P] B Hc Ha H. by apply (mmap_sys o s ti) in H as (_ & _ & ?); auto.
Qed.

(** C21: munmap refines the abstract map: it fails without any effect, or removes
    exactly the pages of [addr, addr + len) from the map, splitting the ranges that
    stick out. *)
Theorem munmap_refines {D E X} `{!BlockDrivers D, !Ext4Ops D E} o (s s' : sys D E (ktasks X)) ti addr len r :
  vm_good o s -> owners 8 o -> kt_current (s_top s) = Some ti -> is_u64 addr -> is_u64 len ->
  task_munmap addr len s = (r, s') -> munmap_spec ti addr len s r s'.
Proof.
  intros [V C P] B Hc Ha Hl H. by apply (munmap_sys o s ti) in H as (_ & _ & ?); auto.
Qed.


(** C8: after fork's loop over the pages, parent and child see the same memory: at
    every address both translate to the frame the parent had there, executable as
    before, and writable only if it was and the address is in a shared mapping. No
    byte of memory is changed. *)
Theorem fork_shares_address_space {D E X} `{!BlockDrivers D, !Ext4Ops D E} o (s s' : sys D E (ktasks X)) parent child :
  vm_good o s -> owners 8 o -> parent <> child -> (parent < MAX_TASKS)%nat -> (child < MAX_TASKS)%nat ->
  tables_ready (vm_at s parent) -> tables_ready (vm_at s child) ->
  (forall va, el0_translate (vm_at s child) va = None) ->
  fork_pages (seq 0 MAX_USER_PAGES) parent child s = (true, s') ->
  s_ram s' = s_ram s /\
  forall va, el0_translate (vm_at s' child) va = cow_view (vm_at s parent) va (el0_translate (vm_at s parent) va) /\
    el0_translate (vm_at s' parent) va = cow_view (vm_at s parent) va (el0_translate (vm_at s parent) va).
Proof.
  intros [V _ _] B Hne Hp Hc Rp Rc Hz H. apply (fork_pages_sys o) in H as (_ & _ & F); try done.
  destruct (F eq_refl Rp Rc) as [F1 _ _ Fi Fo]. split; [done|]. intros va.
  destruct (find_idx (fun up => up_used up && ((up_va up <=? va) && (va <? up_va up + PAGE_SIZE))) (pages (vm_at s parent))) as [i|] eqn:Ef.
  - apply find_idx_Some in Ef as (up & Hi & Hu & _). bool_hyps. apply Fi. exists i, up. split_and!; try done; lia.
  - assert (Hn : ~ tracked_from 0 (pages (vm_at s parent)) va).
    { intros (i & up & _ & Hi & Hu & Hr). apply (find_idx_None _ _ _ _ Ef) in Hi. rewrite Hu in Hi. lia. }
    destruct (Fo va Hn) as [-> ->]. rewrite Hz, (tracked_iff (vm_at s parent)); try done. by apply (vm_at_inv o).
Qed.

(** C9: a write to a copy-on-write page is resolved, unless a copy is needed and
    memory is short: the page becomes writable on a frame only this page holds, with
    the same contents; every other address of the task, every other task and every
    other byte of memory is unchanged, and the shared frame loses one reference. *)
Theorem cow_fault_correct {D E X} `{!BlockDrivers D, !Ext4Ops D E} o (s : sys D E (ktasks X)) ti fault_va sp ui hw :
  let m := vm_at s ti in
  let up := page_at m ui in
  vm_good o s -> owners 8 o -> kt_current (s_top s) = Some ti -> tables_ready m -> user_va fault_va ->
  task_find_page m (align_down fault_va PAGE_SIZE) = Some ui -> task_page_validate_hw m up = Some hw -> hw_cow hw = true ->
  (1 < pmm_page_refcount (s_pmm s) (up_pa up) -> PMM_OOM_RESERVE_PAGES < pmm_available_pages (s_pmm s)) ->
  exists s' pa', task_handle_page_fault fault_va true false false sp s = (true, s') /\
    cow_resolved ti (up_va up) (up_pa up) pa' (hw_executable hw) s s'.
Proof.
  intros m up [V C P] B Hc R Hva Ef Ev Hcow Hav. assert (Hti : (ti < MAX_TASKS)%nat) by auto.
  pose proof Ef as (u & _ & Hat & _ & Hv)%find_page_Some. fold up in Hat. subst u. rewrite <- Hv in Ef.
  destruct (write_fault_cow_total o s ti ui up hw) as [s' H]; try done.
  destruct (write_fault_cow o s ti ui up hw s') as [pa' Hres]; try done.
  exists s', pa'. split; [|done]. unfold task_handle_page_fault. rewrite Hc, <- Hv.
  replace (_ || _) with false by (unfold user_va in Hva; lia). exact H.
Qed.

(** C32: the memory of an exiting or exec'ing task is given back completely: after
    task_unmap_user no address translates for it, every frame has lost exactly as
    many references as the task had pages on it, also when writing a page back
    fails, and the other tasks keep their address spaces. *)
Theorem unmap_user_releases {D E X} `{!BlockDrivers D, !Ext4Ops D E} o (s : sys D E (ktasks X)) ti :
  vm_good o s -> owners 8 o -> (ti < MAX_TASKS)%nat -> tables_ready (vm_at s ti) ->
  let s' := task_unmap_user ti s in
  (forall va, el0_translate (vm_at s' ti) va = None) /\
  (forall p, ext_refs s' p = ext_refs s p - page_refs (vm_at s ti) p) /\
  (forall tj, tj <> ti -> vm_at s' tj = vm_at s tj).
Proof.
  intros [V _ _] B Hti R. destruct (unmap_user_sys o s ti V B Hti) as (V' & _ & Hz & Ho & Ht).
  split_and!; [by apply Ht| |done]. intros p. rewrite (refs_other o s _ ti p), Hz by done. lia.
Qed.

(** C33: the search of mmap for a place ends and misses none: a well formed request
    for anonymous memory at no fixed place is refused only when no slot is free or
    every page-aligned position between the heap and the stack overlaps a range. *)
Theorem mmap_finds_place {D E X} `{!BlockDrivers D, !Ext4Ops D E} o (s s' : sys D E (ktasks X)) ti addr len prot flags offset :
  let map_len := align_up len PAGE_SIZE in
  let floor := align_up (heap_end (vm_at s ti)) PAGE_SIZE in
  vm_good o s -> kt_current (s_top s) = Some ti -> 0 < len -> 0 < map_len ->
  task_vma_prot_valid prot = true -> task_vma_flags_valid flags = true -> page_aligned offset ->
  has_bits flags MAP_ANONYMOUS = true -> has_bits flags MAP_FIXED = false ->
  task_mmap addr len prot flags (-1) offset s = (-1, s') ->
  task_vma_slot (vm_at s ti) = None \/
  forall c, page_aligned c -> floor <= c -> c + map_len <= STACK_FLOOR ->
    task_vma_overlaps (vm_at s ti) c (c + map_len) = true.
Proof.
  intros map_len floor [V C P] Hc Hlen Hml Hp Hf Ho Han Hfx. unfold task_mmap. rewrite Hc. cbv zeta.
  rewrite Hp, Hf, page_offset_mod, Ho, Han, Hfx. replace (len =? 0) with false by lia. cbn [negb orb].
  fold map_len floor. replace (map_len =? 0) with false by lia. cbn [Z.eqb negb].
  rewrite (stack_floor_placed _ (P ti (C ti Hc))).
  destruct (align_up_page_u64 (heap_end (vm_at s ti))) as [Afl Hfl]. fold floor in Afl, Hfl.
  destruct (align_up_page_u64 len) as [Am Hm]. fold map_len in Am, Hm.
  destruct (_ || _) eqn:Eb; [right; intros c Ac H1 H2; bool_hyps; lia|]. bool_hyps.
  assert (Hu : is_u64 (STACK_FLOOR - map_len)) by (unfold is_u64; lia).
  pose proof (align_down_page_bounds _ Hu) as Hcb. pose proof (align_down_page_aligned _ Hu) as Hca.
  destruct (mmap_search _ _ _ floor map_len) as [start|] eqn:Es.
  - destruct (task_vma_slot _) eqn:Ek; [|by left]. intros Hr. exfalso. apply mmap_search_Some in Es; [|done].
    apply pair_equal_spec in Hr as [Hr _]. lia.
  - intros _. right. intros c Ac Hc1 Hc2. rewrite <- (u64_small (c + map_len)) by (unfold is_u64; lia).
    eapply mmap_search_None; [exact Hca|exact Afl| |exact Es|done|].
    + rewrite Z2Nat.id by dlia. unfold page_aligned in *. dlia.
    + split; [done|]. unfold page_aligned in *. dlia.
Qed.

(** C34: fork is refused while the caller has a page that is meant to be writable but
    whose entry is neither writable nor copy-on-write. That is the state of every
    page of a writable shared file mapping until it is first written, and again
    after each write-back, so a process with such a mapping cannot fork. *)
Theorem fork_refuses_clean_shared_page {D E X} `{!BlockDrivers D, !Ext4Ops D E} o (s : sys D E (ktasks X))
    parent child k pp hw :
  vm_good o s -> owners 8 o -> parent <> child -> (parent < MAX_TASKS)%nat -> (child < MAX_TASKS)%nat ->
  pages (vm_at s parent) !! k = Some pp -> up_used pp = true -> up_writable_intent pp = true ->
  task_page_validate_hw (vm_at s parent) pp = Some hw -> hw_writable hw = false -> hw_cow hw = false ->
  (fork_pages (seq 0 MAX_USER_PAGES) parent child s).1 = false.
Proof. intros [V _ _] B Hne Hp Hc. intros. apply (fork_pages_refused o _ k _ _ _ _ pp hw); try done. lia. Qed.

(** ** A small system to run the definitions on

    One megabyte of frames, a memory file, 64 tasks with that file open, of which
    the first two get page tables. *)

Definition demo_vm : vm_state :=
  set_heap_limit (set_heap_end (set_heap_base vm_state_zero 0x410000) 0x410000) STACK_FLOOR.

Definition demo_task : task :=
  set_fds (set_t_vm task_zero demo_vm)
    (<[3%nat := mk_fd FD_INODE (Some 1) None None 0 O_RDWR true]> (replicate MAX_FDS fd_zero)).

Definition demo_boot : sys ramdisks unit (ktasks unit) :=
  mk_sys pmm_demo (mk_storage demo_bc (<[1 := demo_file]> ∅) tt) (mk_pcache (replicate MAX_FILE_CACHE_PAGES entry_zero) 0 0 0 0 0)
    (mk_ktasks (replicate MAX_TASKS demo_task) (Some 0%nat) 1 1 1 0 (mk_mmu ∅ 0 0 0 0 0 0 false) tt).

Definition demo_start : sys ramdisks unit (ktasks unit) := (task_pt_setup 1 (task_pt_setup 0 demo_boot).2).2.

Lemma replicate_countb {A} (f : A -> bool) n x : f x = false -> countb f (replicate n x) = 0.
Proof. intros Hf. induction n as [|n IH]; [done|]. cbn [replicate]. by rewrite countb_cons, Hf, IH. Qed.

Lemma demo_vm_inv : vm_inv demo_vm.
Proof.
  assert (Hz : forall i up, pages demo_vm !! i = Some up -> up_used up = false).
  { intros i up Hi. change (pages demo_vm) with (replicate MAX_USER_PAGES user_page_zero) in Hi.
    by apply lookup_replicate in Hi as [-> _]. }
  constructor.
  - constructor; [apply length_replicate|..].
    + intros i up Hi Hu. apply Hz in Hi. congruence.
    + intros i j up up' Hi _ Hu. apply Hz in Hi. congruence.
    + intros va pte _ Hg. by eapply get_pte_cleared in Hg.
  - apply vmas_check_wf. vm_compute. reflexivity.
  - right. done.
Qed.

Lemma demo_boot_sys : vm_sys (fun _ => 0) demo_boot.
Proof.
  assert (Hc : forall p, cache_refs demo_boot p = 0).
  { intros p. unfold cache_refs. change (s_ents demo_boot) with (replicate MAX_FILE_CACHE_PAGES entry_zero).
    by apply replicate_countb. }
  assert (Hr : forall p, pmm_page_refcount (s_pmm demo_boot) p = 0).
  { intros p. unfold pmm_page_refcount. by destruct (page_index p). }
  assert (Ht : forall p, tasks_refs (s_top demo_boot) p = 0).
  { intros p. unfold tasks_refs. change (kt_tasks (s_top demo_boot)) with (replicate MAX_TASKS demo_task).
    assert (Hp : page_refs (t_vm demo_task) p = 0) by by apply replicate_countb.
    induction MAX_TASKS as [|n IH]; [done|]. cbn [replicate]. unfold zsum in *. cbn [foldr]. lia. }
  constructor.
  - apply pmm_demo_wf.
  - apply length_replicate.
  - apply length_replicate.
  - intros ti t Hti. change (kt_tasks (s_top demo_boot)) with (replicate MAX_TASKS demo_task) in Hti.
    apply lookup_replicate in Hti as [-> _]. apply demo_vm_inv.
  - intros p. unfold ext_refs. by rewrite Hc, Hr, Ht.
  - intros p. unfold ext_refs. by rewrite Hc, Hr.
Qed.

Lemma pair_fst {A B} (x : A * B) a : x.1 = a -> x = (a, x.2).
Proof. intros <-. apply surjective_pairing. Qed.

Lemma d1_range p q : 0 <= d1 p q <= 1.
Proof. unfold d1. case_decide; lia. Qed.

Lemma demo_setup0 : (task_pt_setup 0 demo_boot).1 = true.
Proof. vm_compute. reflexivity. Qed.

Lemma demo_setup1 : (task_pt_setup 1 (task_pt_setup 0 demo_boot).2).1 = true.
Proof. vm_compute. reflexivity. Qed.

Lemma demo_start_good : exists o,
  vm_good o demo_start /\ owners 8 o /\ tables_ready (vm_at demo_start 0) /\ tables_ready (vm_at demo_start 1).
Proof.
  unfold demo_start. pose proof (pair_fst (task_pt_setup 0 demo_boot) true demo_setup0) as E1.
  pose proof (pair_fst (task_pt_setup 1 (task_pt_setup 0 demo_boot).2) true demo_setup1) as E2.
  set (s1 := (task_pt_setup 0 demo_boot).2) in *.
  assert (Hn : l3_user_a (vm_at s1 1) = None /\ l3_user_b (vm_at s1 1) = None) by (split; vm_compute; reflexivity).
  destruct (pt_setup_sys _ _ 0%nat _ _ demo_boot_sys ltac:(intros p; lia) ltac:(lia) eq_refl eq_refl E1)
    as [[? _]|(_ & R1 & S1 & _ & _ & p1 & p2 & pa & pb & V1)]; [done|].
  assert (B1 : owners 4 (fun q => 0 + d1 p1 q + d1 p2 q + d1 pa q + d1 pb q)).
  { intros q. cbv beta. pose proof (d1_range p1 q). pose proof (d1_range p2 q). pose proof (d1_range pa q). pose proof (d1_range pb q). lia. }
  clearbody s1. set (s2 := (task_pt_setup 1 s1).2) in *. clearbody s2.
  destruct (pt_setup_sys _ _ 1%nat _ _ V1 B1 ltac:(lia) (proj1 Hn) (proj2 Hn) E2)
    as [[? _]|(_ & R2 & S2 & O2 & _ & q1 & q2 & qa & qb & V2)]; [done|].
  assert (S : same_ranges demo_boot s2) by by etransitivity.
  eexists. split_and!; [|..|by rewrite O2|exact R2].
  - constructor; [exact V2| |].
    + intros ti. rewrite (sr_current _ _ S). intros [= <-]. lia.
    + intros ti Hti. pose proof (sr_ranges _ _ S ti) as Hr. unfold ranges in Hr. left.
      assert (Hb : stack_base (vm_at demo_boot ti) = 0); [|congruence].
      unfold vm_at, kt_vm, kt_task. change (kt_tasks (s_top demo_boot)) with (replicate MAX_TASKS demo_task).
      by rewrite lookup_total_replicate_2.
  - intros q. specialize (B1 q). cbv beta in *. pose proof (d1_range q1 q). pose proof (d1_range q2 q). pose proof (d1_range qa q). pose proof (d1_range qb q). lia.
Qed.

(** A private anonymous mapping of two pages, its first page written, a fork, and a
    write to the page now shared copy-on-write; and a shared mapping of the file
    with its first page read. *)
Abbreviation DEMO_VA := 0x7F5000 (only parsing).

Definition demo_mapped := (task_mmap 0 8192 3 0x22 (-1) 0 demo_start).2.
Definition demo_touched := (task_handle_page_fault (DEMO_VA + 8) true true false DEMO_VA demo_mapped).2.
Definition demo_forked := (fork_pages (seq 0 MAX_USER_PAGES) 0 1 demo_touched).2.
Definition demo_cow := (task_handle_page_fault (DEMO_VA + 8) true false false DEMO_VA demo_forked).2.
Definition demo_file_mapped := (task_mmap 0 4096 3 0x1 3 0 demo_start).2.
Definition demo_file_read := (task_handle_page_fault 0x7F6000 false true false DEMO_VA demo_file_mapped).2.

Lemma demo_run :
  (task_mmap 0 8192 3 0x22 (-1) 0 demo_start).1 = DEMO_VA /\
  (task_handle_page_fault (DEMO_VA + 8) true true false DEMO_VA demo_mapped).1 = true /\
  (fork_pages (seq 0 MAX_USER_PAGES) 0 1 demo_touched).1 = true /\
  (task_handle_page_fault (DEMO_VA + 8) true false false DEMO_VA demo_forked).1 = true.
Proof. vm_compute. done. Qed.

Lemma demo_file_run :
  (task_mmap 0 4096 3 0x1 3 0 demo_start).1 = 0x7F6000 /\
  (task_handle_page_fault 0x7F6000 false true false DEMO_VA demo_file_mapped).1 = true.
Proof. vm_compute. done. Qed.

Lemma demo_reach :
  rtc vm_step demo_start demo_touched /\ rtc vm_step demo_touched demo_forked /\ rtc vm_step demo_forked demo_cow /\
  rtc vm_step demo_start demo_file_read.
Proof.
  destruct demo_run as (H1 & H2 & H3 & H4). destruct demo_file_run as (H5 & H6).
  assert (Z0 : is_u64 0) by (unfold is_u64; lia). split; [|split; [|split]].
  - eapply rtc_l; [exact (st_mmap _ _ _ _ _ _ _ _ _ Z0 (pair_fst _ _ H1))|].
    eapply rtc_once. exact (st_fault _ _ _ _ _ _ _ _ (pair_fst _ _ H2)).
  - eapply rtc_once. exact (st_fork _ 0 1 _ _ (Nat.neq_0_succ 0) ltac:(lia) ltac:(lia) (pair_fst _ _ H3)).
  - eapply rtc_once. exact (st_fault _ _ _ _ _ _ _ _ (pair_fst _ _ H4)).
  - eapply rtc_l; [exact (st_mmap _ _ _ _ _ _ _ _ _ Z0 (pair_fst _ _ H5))|].
    eapply rtc_once. exact (st_fault _ _ _ _ _ _ _ _ (pair_fst _ _ H6)).
Qed.

Lemma vm_invariant_witness : exists o, vm_good o demo_cow /\ owners 8 o.
Proof.
  destruct demo_start_good as (o & G & B & _). destruct demo_reach as (R1 & R2 & R3 & _). exists o. split; [|exact B].
  apply (vm_invariant o demo_start demo_cow G B).
  transitivity demo_touched; [exact R1|]. transitivity demo_forked; [exact R2|exact R3].
Defined.

Lemma good_ready {D E X} `{!BlockDrivers D, !Ext4Ops D E} o (s : sys D E (ktasks X)) ti :
  vm_good o s -> (ti < MAX_TASKS)%nat -> bool_decide (l3_user_a (vm_at s ti) = None) = false -> tables_ready (vm_at s ti).
Proof.
  intros [V _ _] Hti Hn. destruct (vi_tables _ (vm_at_inv _ _ _ V Hti)) as [?|[Ha _]]; [done|].
  by rewrite Ha in Hn.
Qed.

Lemma untracked_all m va :
  vm_inv m -> tables_ready m -> forallb (fun up => negb (up_used up)) (pages m) = true -> el0_translate m va = None.
Proof.
  intros I R Hf. rewrite forallb_forall in Hf. apply tracked_iff; try done. intros (i & up & _ & Hi & Hu & _).
  apply list_elem_of_lookup_2, list_elem_of_In, Hf in Hi. by rewrite Hu in Hi.
Qed.

Lemma demo_touched_good : exists o,
  vm_good o demo_touched /\ owners 8 o /\ tables_ready (vm_at demo_touched 0) /\ tables_ready (vm_at demo_touched 1).
Proof.
  destruct demo_start_good as (o & G & B & _). destruct demo_reach as (R1 & _).
  pose proof (reach_good _ _ _ G B R1) as G1. exists o. split; [exact G1|]. split; [exact B|].
  split; apply (good_ready o); [exact G1|lia|vm_compute; reflexivity|exact G1|lia|vm_compute; reflexivity].
Qed.


Lemma mmap_refines_witness : mmap_spec 0 0 8192 3 0x22 (-1) 0 demo_start DEMO_VA demo_mapped.
Proof.
  destruct demo_start_good as (o & G & B & _).
  apply (mmap_refines o demo_start demo_mapped 0 0 8192 3 0x22 (-1) 0 DEMO_VA G B).
  - vm_compute. reflexivity.
  - unfold is_u64. lia.
  - exact (pair_fst _ _ (proj1 demo_run)).
Defined.

Lemma munmap_refines_witness :
  munmap_spec 0 DEMO_VA 4096 demo_touched 0 (task_munmap DEMO_VA 4096 demo_touched).2.
Proof.
  destruct demo_touched_good as (o & G & B & _).
  assert (H : (task_munmap DEMO_VA 4096 demo_touched).1 = 0) by (vm_compute; reflexivity).
  apply (munmap_refines o demo_touched _ 0 DEMO_VA 4096 0 G B); [vm_compute; reflexivity|unfold is_u64; lia..|].
  exact (pair_fst _ _ H).
Defined.


Lemma fork_shares_address_space_witness :
  s_ram demo_forked = s_ram demo_touched /\
  el0_translate (vm_at demo_forked 1) (DEMO_VA + 8) = el0_translate (vm_at demo_forked 0) (DEMO_VA + 8) /\
  el0_translate (vm_at demo_forked 1) (DEMO_VA + 8) <> None.
Proof.
  destruct demo_touched_good as (o & G & B & R0 & R1). destruct demo_run as (_ & _ & H3 & _).
  assert (Hz : forall va, el0_translate (vm_at demo_touched 1) va = None).
  { intros va. apply untracked_all; [destruct G as [V _ _]; apply (vm_at_inv o); [exact V|lia]|exact R1|vm_compute; reflexivity]. }
  destruct (fork_shares_address_space o demo_touched demo_forked 0 1 G B ltac:(lia) ltac:(lia) ltac:(lia) R0 R1 Hz
    (pair_fst _ _ H3)) as [Hram H].
  destruct (H (DEMO_VA + 8)) as [Hc Hp]. split; [exact Hram|]. split; [congruence|].
  assert (Hn : bool_decide (el0_translate (vm_at demo_forked 1) (DEMO_VA + 8) = None) = false) by (vm_compute; reflexivity).
  intros Hx. rewrite Hx in Hn. discriminate Hn.
Defined.

Lemma demo_forked_good : exists o, vm_good o demo_forked /\ owners 8 o /\ tables_ready (vm_at demo_forked 0).
Proof.
  destruct demo_touched_good as (o & G & B & _). destruct demo_reach as (_ & R2 & _).
  pose proof (reach_good _ _ _ G B R2) as G1. exists o. split; [exact G1|]. split; [exact B|].
  apply (good_ready o); [exact G1|lia|vm_compute; reflexivity].
Qed.

Lemma cow_fault_correct_witness : exists s' pa',
  task_handle_page_fault (DEMO_VA + 8) true false false DEMO_VA demo_forked = (true, s') /\
  pmm_page_refcount (s_pmm s') pa' = 1 /\
  mem_get (s_ram s') (pa' + 8) = mem_get (s_ram demo_forked) (up_pa (page_at (vm_at demo_forked 0) 0) + 8).
Proof.
  destruct demo_forked_good as (o & G & B & R).
  destruct (cow_fault_correct o demo_forked 0 (DEMO_VA + 8) DEMO_VA 0 (mk_hw false false true) G B) as (s' & pa' & H & C).
  - vm_compute. reflexivity.
  - exact R.
  - unfold user_va. lia.
  - vm_compute. reflexivity.
  - vm_compute. reflexivity.
  - reflexivity.
  - intros _. apply Z.ltb_lt. vm_compute. reflexivity.
  - exists s', pa'. split; [exact H|]. split; [apply (cr_alone _ _ _ _ _ _ _ C)|apply (cr_copy _ _ _ _ _ _ _ C); lia].
Defined.

Lemma unmap_user_releases_witness :
  let s' := task_unmap_user 0 demo_touched in
  el0_translate (vm_at s' 0) (DEMO_VA + 8) = None /\
  ext_refs s' (up_pa (page_at (vm_at demo_touched 0) 0)) = 0.
Proof.
  destruct demo_touched_good as (o & G & B & R & _).
  destruct (unmap_user_releases o demo_touched 0 G B ltac:(lia) R) as (H1 & H2 & _). split; [apply H1|].
  rewrite H2. vm_compute. reflexivity.
Defined.

Lemma mmap_finds_place_witness :
  task_vma_slot (vm_at demo_start 0) = None \/
  forall c, page_aligned c -> 0x410000 <= c -> c + 0x400000 <= STACK_FLOOR ->
    task_vma_overlaps (vm_at demo_start 0) c (c + 0x400000) = true.
Proof.
  destruct demo_start_good as (o & G & _).
  assert (H : (task_mmap 0 0x400000 3 0x22 (-1) 0 demo_start).1 = -1) by (vm_compute; reflexivity).
  assert (E1 : align_up 0x400000 PAGE_SIZE = 0x400000) by (vm_compute; reflexivity).
  assert (E2 : align_up (heap_end (vm_at demo_start 0)) PAGE_SIZE = 0x410000) by (vm_compute; reflexivity).
  pose proof (mmap_finds_place o demo_start (task_mmap 0 0x400000 3 0x22 (-1) 0 demo_start).2 0 0 0x400000 3 0x22 0 G ltac:(vm_compute; reflexivity) ltac:(lia)) as M.
  cbv zeta in M. rewrite E1, E2 in M. apply M; [lia|vm_compute; reflexivity..|exact (pair_fst _ _ H)].
Defined.

Lemma fork_refuses_clean_shared_page_witness :
  (fork_pages (seq 0 MAX_USER_PAGES) 0 1 demo_file_read).1 = false /\
  page_shared (vm_at demo_file_read 0) 0x7F6000 = true.
Proof.
  destruct demo_start_good as (o & G & B & _). destruct demo_reach as (_ & _ & _ & R).
  pose proof (reach_good _ _ _ G B R) as G1. split; [|vm_compute; reflexivity].
  apply (fork_refuses_clean_shared_page o demo_file_read 0 1 0 (page_at (vm_at demo_file_read 0) 0) (mk_hw false false false)
    G1 B); try lia; vm_compute; reflexivity.
Defined.
