(* ===== verification/Proc.v ===== *)
(** * Processes (kernel/task.c)

    The task table: descriptors, waiting, exiting and reaping, signals between
    tasks, address space identifiers, scheduling and fork. The functions of
    task.c that work on the address space are in Vm.v, those on the signal state of
    a single task in Signal.v. A [task_t *] is the index of the slot in [tasks]. *)

From S2P Require Import Prelude KString Pmm Pipe UserCopy Inode BlockCache PageCache FsIo TaskDefs Signal Mmu Vma Vm.

Abbreviation TASK_ASID_MIN := 1 (only parsing).
Abbreviation TASK_ASID_MAX := 255 (only parsing).
Abbreviation TASK_KSTACK_SIZE := 65536 (only parsing).
Abbreviation KERR_ESRCH := (-3) (only parsing).
Abbreviation KERR_ECHILD := (-10) (only parsing).
Abbreviation KERR_EINVAL := (-22) (only parsing).
Abbreviation O_NONBLOCK := 0x800 (only parsing).
Abbreviation tmp := 1 (only parsing).
Abbreviation WNOHANG := 1 (only parsing).
Abbreviation WUNTRACED := 2 (only parsing).
Abbreviation WCONTINUED := 8 (only parsing).

Definition WAIT_STATUS_EXIT (code : Z) : Z := Z.shiftl (Z.land code 0xFF) 8.
Definition WAIT_STATUS_SIG (sig : Z) : Z := Z.land sig 0x7F.
Definition WAIT_STATUS_STOP (sig : Z) : Z := Z.lor (Z.shiftl (Z.land sig 0xFF) 8) 0x7F.
Definition WAIT_STATUS_CONT : Z := 0xFFFF.

(** The sockets of kernel/net.c, as far as descriptors need them. *)
Class SocketOps (N : Type) := {
  net_socket_ref : Z -> N -> N;
  net_socket_close : Z -> N -> N;
}.

Record kio (N : Type) := mk_kio { io_pipes : list pipe; io_net : N }.
#[global] Arguments mk_kio {N}.
#[global] Arguments io_pipes {N}.
#[global] Arguments io_net {N}.

Inductive task_child_event_t := TASK_CHLD_EXIT | TASK_CHLD_STOP | TASK_CHLD_CONT.

Definition is_state (t : task) (x : task_state) : bool := bool_decide (state t = x).

(** Neither unused nor a zombie. *)
Definition is_live (t : task) : bool := negb (is_state t TASK_UNUSED) && negb (is_state t TASK_ZOMBIE).

(** [wait_pid = -1; wait_kind = WAIT_NONE; wait_obj = 0; wake_tick = 0;] *)
Definition wait_cleared : wait_info := mk_wait_info (-1) WAIT_NONE None 0.

(** ** Functions of single tasks *)

Definition task_wait_matches_filter (parent child : task) (filter : Z) : bool :=
  if negb (ppid child =? pid parent) then false
  else if 0 <? filter then pid child =? filter
  else if filter =? -1 then true
  else if filter =? 0 then pgid child =? pgid parent
  else pgid child =? - filter.

Definition task_sigchld_auto_reap (parent : option task) : bool :=
  match parent with
  | None => false
  | Some p =>
      if negb (is_live p) then false
      else if sig_arr (signal_handler (t_sig p)) SIGCHLD =? SIG_IGN then true
      else negb (Z.land (sig_arr (signal_flags (t_sig p)) SIGCHLD) SA_NOCLDWAIT =? 0)
  end.

Definition task_signal_may_restart_wait (kind : wait_kind_t) : bool :=
  bool_decide (kind = WAIT_PIPE_READ) || bool_decide (kind = WAIT_PIPE_WRITE) || bool_decide (kind = WAIT_CHILD).

Definition task_signal_wake_waiter (victim : task) (handler_restart : bool) : task :=
  if negb (is_state victim TASK_WAITING) then victim
  else
    let kind := wait_kind (t_wait victim) in
    let v := set_t_wait (set_state victim TASK_RUNNABLE) wait_cleared in
    let restart_ok := handler_restart && task_signal_may_restart_wait kind in
    match t_tf v with
    | Some tf =>
        if (tf_x tf !!! 0%nat =? u64 (-2)) && negb restart_ok
        then set_t_tf v (Some (set_tf_x tf (<[0%nat := u64 (-4)]> (tf_x tf)))) else v
    | None => v
    end.

Definition on_sig (t : task) (f : sig_state -> sig_state) : task := set_t_sig t (f (t_sig t)).

Definition task_fd_needs_writeback (ns : gmap Z inode) (f : fd) : bool :=
  if negb (fd_used f) || negb (bool_decide (fd_kind f = FD_INODE)) then false
  else
    match fd_inode f with
    | None => false
    | Some p =>
        let n := ns !!! p in
        if negb (bool_decide (i_type n = INODE_FILE)) && negb (fs_is_block_dev n) then false
        else
          let mode := Z.land (fd_flags f) O_ACCMODE in
          (mode =? O_WRONLY) || (mode =? O_RDWR)
    end.

(** The name after the last slash, or the whole name when that is empty. *)
Fixpoint comm_base (base p : list Z) : list Z :=
  match p with
  | [] => base
  | c :: p => comm_base (if c =? 47 then p else base) p
  end.

(** [strncpy] of a string without its terminator into an array of [n] bytes. *)
Definition strncpy_list (n : nat) (src : list Z) : list Z :=
  take n src ++ replicate (n - length src) 0.

Definition task_set_comm_internal (t : task) (name : option (list Z)) : task :=
  match name with
  | None | Some [] => set_comm t (<[0%nat := 0]> (comm t))
  | Some name =>
      let base := comm_base name name in
      let base := match base with [] => name | _ => base end in
      set_comm t (strncpy_list 31 base ++ [0])
  end.

(** ** The table *)

Section Proc.
Context {D E N : Type} `{!BlockDrivers D, !Ext4Ops D E, !SocketOps N}.
Abbreviation st := (sys D E (ktasks (kio N))).
Implicit Types (s : st) (k : ktasks (kio N)).

Definition kt_with k (cur : option nat) (npid ipid nasid epoch : Z) (io : kio N) : ktasks (kio N) :=
  mk_ktasks (kt_tasks k) cur npid ipid nasid epoch (kt_mmu k) io.
Definition kt_set_current k (c : option nat) : ktasks (kio N) :=
  kt_with k c (kt_next_pid k) (kt_init_pid k) (kt_next_asid k) (kt_asid_epoch k) (kt_io k).
Definition kt_set_next_pid k (x : Z) : ktasks (kio N) :=
  kt_with k (kt_current k) x (kt_init_pid k) (kt_next_asid k) (kt_asid_epoch k) (kt_io k).
Definition kt_set_init_pid k (x : Z) : ktasks (kio N) :=
  kt_with k (kt_current k) (kt_next_pid k) x (kt_next_asid k) (kt_asid_epoch k) (kt_io k).
Definition kt_set_next_asid k (x : Z) : ktasks (kio N) :=
  kt_with k (kt_current k) (kt_next_pid k) (kt_init_pid k) x (kt_asid_epoch k) (kt_io k).
Definition kt_set_epoch k (x : Z) : ktasks (kio N) :=
  kt_with k (kt_current k) (kt_next_pid k) (kt_init_pid k) (kt_next_asid k) x (kt_io k).
Definition kt_set_io k (x : kio N) : ktasks (kio N) :=
  kt_with k (kt_current k) (kt_next_pid k) (kt_init_pid k) (kt_next_asid k) (kt_asid_epoch k) x.

Definition on_top s (f : ktasks (kio N) -> ktasks (kio N)) : st := sys_set_top s (f (s_top s)).
Definition upd_task s (ti : nat) (f : task -> task) : st := set_task s ti (f (task_at s ti)).

(** A loop over the table that touches the visited slot only. *)
Definition map_tasks s (f : task -> task) : st := on_top s (fun k => kt_set_tasks k (map f (kt_tasks k))).

Definition get_tasks s : list task := kt_tasks (s_top s).
Definition current s : option nat := kt_current (s_top s).

Definition get_pipes s : list pipe := io_pipes (kt_io (s_top s)).
Definition set_pipes s (ps : list pipe) : st :=
  on_top s (fun k => kt_set_io k (mk_kio ps (io_net (kt_io k)))).
Definition on_net s (f : N -> N) : st :=
  on_top s (fun k => kt_set_io k (mk_kio (io_pipes (kt_io k)) (f (io_net (kt_io k))))).

Definition task_init s : st :=
  sys_set_top s (mk_ktasks (replicate MAX_TASKS task_zero) None 1 (-1) TASK_ASID_MIN 1
                   (kt_mmu (s_top s)) (kt_io (s_top s))).

Definition task_by_pid s (p : Z) : option nat :=
  find_idx (fun t => negb (is_state t TASK_UNUSED) && (pid t =? p)) (get_tasks s).

Definition task_find_live_init s : option nat :=
  let ip := kt_init_pid (s_top s) in
  if ip <=? 0 then None
  else
    match find_idx (fun t => pid t =? ip) (get_tasks s) with
    | Some i => if negb (is_live (task_at s i)) then None else Some i
    | None => None
    end.

Definition task_parent_of s (child : task) : option nat :=
  if ppid child <=? 0 then None else task_by_pid s (ppid child).

Definition task_parent_alive s (t : task) : bool :=
  if ppid t <=? 0 then false
  else existsb (fun p => (pid p =? ppid t) && is_live p) (get_tasks s).

Definition task_parent_has_child_sigchld_event s (parent : task) : bool :=
  let nocldstop := negb (Z.land (sig_arr (signal_flags (t_sig parent)) SIGCHLD) SA_NOCLDSTOP =? 0) in
  existsb (fun child =>
    negb (is_state child TASK_UNUSED) && (ppid child =? pid parent) &&
    (is_state child TASK_ZOMBIE ||
     (negb nocldstop && is_state child TASK_STOPPED && stop_report_pending child) ||
     (negb nocldstop && cont_report_pending child))) (get_tasks s).

Definition task_group_exists s (g : Z) : bool :=
  if g <=? 0 then false
  else existsb (fun t => negb (is_state t TASK_UNUSED) && (pgid t =? g)) (get_tasks s).

(** ** Blocking and waking *)

Definition block_current s (kind : wait_kind_t) (obj : option nat) (tick : Z) : st :=
  match current s with
  | None => s
  | Some c =>
      upd_task s c (fun t => set_t_wait (set_state t TASK_WAITING)
        (mk_wait_info (wait_pid (t_wait t)) kind obj tick))
  end.

Definition task_block_on_pipe_read (p : option nat) s : st := block_current s WAIT_PIPE_READ p 0.
Definition task_block_on_pipe_write (p : option nat) s : st := block_current s WAIT_PIPE_WRITE p 0.
Definition task_block_on_sleep (tick : Z) s : st := block_current s WAIT_SLEEP None tick.

(** Runnable again, the wait fields other than [wait_pid] reset. *)
Definition woken (t : task) : task :=
  set_t_wait (set_state t TASK_RUNNABLE) (mk_wait_info (wait_pid (t_wait t)) WAIT_NONE None 0).

Definition task_wake_pipe (p : option nat) s : st :=
  match p with
  | None => s
  | Some _ =>
      map_tasks s (fun t =>
        if negb (is_state t TASK_WAITING) then t
        else
          let w := t_wait t in
          if (bool_decide (wait_kind w = WAIT_PIPE_READ) || bool_decide (wait_kind w = WAIT_PIPE_WRITE)) &&
             bool_decide (wait_obj w = p)
          then woken t else t)
  end.

Definition sleeper_due (now : Z) (t : task) : bool :=
  is_state t TASK_WAITING && bool_decide (wait_kind (t_wait t) = WAIT_SLEEP) && (wake_tick (t_wait t) <=? now).

Definition task_wake_sleepers (now : Z) s : bool * st :=
  (existsb (sleeper_due now) (get_tasks s), map_tasks s (fun t => if sleeper_due now t then woken t else t)).

Definition task_wake_waiters (child_pid : Z) s : st :=
  match task_by_pid s child_pid with
  | None => s
  | Some ci =>
      let child := task_at s ci in
      map_tasks s (fun waiter =>
        if negb (is_state waiter TASK_WAITING) || negb (bool_decide (wait_kind (t_wait waiter) = WAIT_CHILD)) then waiter
        else if negb (task_wait_matches_filter waiter child (wait_pid (t_wait waiter))) then waiter
        else set_t_wait (set_state waiter TASK_RUNNABLE) wait_cleared)
  end.

(** ** Descriptors *)

Definition task_fd_ref (f : fd) s : st :=
  if negb (fd_used f) then s
  else
    match fd_kind f with
    | FD_PIPE_R => match fd_pipe f with None => s | p => set_pipes s (pipe_ref_read (get_pipes s) p) end
    | FD_PIPE_W => match fd_pipe f with None => s | p => set_pipes s (pipe_ref_write (get_pipes s) p) end
    | FD_SOCKET => match fd_sock f with None => s | Some h => on_net s (net_socket_ref h) end
    | _ => s
    end.

Definition task_fd_drop (f : fd) s : st :=
  if negb (fd_used f) then s
  else
    match fd_kind f with
    | FD_PIPE_R => match fd_pipe f with None => s | p => set_pipes s (pipe_close_read (get_pipes s) p) end
    | FD_PIPE_W => match fd_pipe f with None => s | p => set_pipes s (pipe_close_write (get_pipes s) p) end
    | FD_SOCKET => match fd_sock f with None => s | Some h => on_net s (net_socket_close h) end
    | _ => s
    end.

Definition get_fd s (ti i : nat) : fd := fds (task_at s ti) !!! i.
Definition set_fd s (ti i : nat) (f : fd) : st := upd_task s ti (fun t => set_fds t (<[i := f]> (fds t))).

Definition fd_bad (i : Z) : bool := (i <? 0) || (Z.of_nat MAX_FDS <=? i).

Definition task_fd_alloc (ti : nat) s : Z * st :=
  match find_idx (fun f => negb (fd_used f)) (drop 3 (fds (task_at s ti))) with
  | Some j => (Z.of_nat (3 + j), set_fd s ti (3 + j) (mk_fd FD_NONE None None None 0 0 true))
  | None => (-1, s)
  end.

Definition task_fd_close (ti : nat) (i : Z) s : Z * st :=
  if fd_bad i then (-1, s)
  else
    let i := Z.to_nat i in
    let closing := get_fd s ti i in
    if negb (fd_used closing) then (-1, s)
    else
      let '(rc, s) :=
        if task_fd_needs_writeback (s_inodes s) closing then
          let '(r, s) := pagecache_flush_inode (fd_inode closing) s in
          (if negb (r =? 0) then -1 else 0, s)
        else (0, s) in
      let wait_obj :=
        if bool_decide (fd_kind closing = FD_PIPE_R) || bool_decide (fd_kind closing = FD_PIPE_W)
        then fd_pipe closing else None in
      let s := task_fd_drop closing s in
      let s := set_fd s ti i fd_zero in
      (rc, task_wake_pipe wait_obj s).

Definition task_fd_dup2 (ti : nat) (oldfd newfd : Z) s : Z * st :=
  if fd_bad oldfd || fd_bad newfd then (-1, s)
  else if negb (fd_used (get_fd s ti (Z.to_nat oldfd))) then (-1, s)
  else if oldfd =? newfd then (newfd, s)
  else
    let s := (task_fd_close ti newfd s).2 in
    let s := set_fd s ti (Z.to_nat newfd) (set_fd_used (get_fd s ti (Z.to_nat oldfd)) true) in
    (newfd, task_fd_ref (get_fd s ti (Z.to_nat newfd)) s).

(** The loops that close every open descriptor. *)
Definition close_fds (ti : nat) s : st :=
  foldl (fun s i => if fd_used (get_fd s ti i) then (task_fd_close ti (Z.of_nat i) s).2 else s) s (seq 0 MAX_FDS).

(** ** Address space identifiers *)

Definition on_mmu s (f : mmu_state -> mmu_state) : st := on_top s (fun k => kt_set_mmu k (f (kt_mmu k))).

Definition expire_asid (t : task) : task :=
  if negb (is_state t TASK_UNUSED) then set_t_vm t (set_asid_epoch (t_vm t) 0) else t.

Definition give_asid s (ti : nat) (a : Z) : st :=
  set_vm s ti (set_asid_epoch (set_asid (vm_at s ti) a) (kt_asid_epoch (s_top s))).

Definition task_asid_rollover s : st :=
  let s := on_mmu s mmu_tlb_flush_all in
  let e := u32 (kt_asid_epoch (s_top s) + 1) in
  let s := on_top s (fun k => kt_set_epoch k (if e =? 0 then 1 else e)) in
  let s := on_top s (fun k => kt_set_next_asid k TASK_ASID_MIN) in
  let s := map_tasks s expire_asid in
  match current s with
  | Some c =>
      if negb (is_state (task_at s c) TASK_UNUSED) then
        let a := kt_next_asid (s_top s) in
        let s := on_top s (fun k => kt_set_next_asid k (u16 (a + 1))) in
        let s := give_asid s c a in
        on_mmu s (mmu_switch_ttbr0 (ttbr0_phys (vm_at s c)) (asid (vm_at s c)))
      else s
  | None => s
  end.

Definition task_alloc_asid s : Z * st :=
  let n := kt_next_asid (s_top s) in
  let s := if (n <? TASK_ASID_MIN) || (TASK_ASID_MAX <? n) then task_asid_rollover s else s in
  let a := kt_next_asid (s_top s) in
  (a, on_top s (fun k => kt_set_next_asid k (u16 (a + 1)))).

Definition task_ensure_asid (ti : nat) s : st :=
  if asid_epoch (vm_at s ti) =? kt_asid_epoch (s_top s) then s
  else let '(a, s) := task_alloc_asid s in give_asid s ti a.

(** ** Creation and release *)

Definition free_range (a b : Z) s : st := foldl (fun s p => free_page p s) s (page_range a b).

(** The standard descriptors: open, without an object, read-only and write-only. *)
Definition std_fds : list fd :=
  mk_fd FD_NONE None None None 0 O_RDONLY true ::
  replicate 2 (mk_fd FD_NONE None None None 0 O_WRONLY true) ++ replicate 13 fd_zero.

Definition comm_task : list Z := [116; 97; 115; 107].
Definition comm_init : list Z := [105; 110; 105; 116].

Definition task_alloc s : option nat * st :=
  if pmm_available_pages (s_pmm s) <=? TASK_KSTACK_SIZE / PAGE_SIZE + PMM_OOM_RESERVE_PAGES then (None, s)
  else
    match find_idx (fun t => is_state t TASK_UNUSED) (get_tasks s) with
    | None => (None, s)
    | Some i =>
        let s := set_task s i task_zero in
        let '(base, p) := pmm_alloc (s_pmm s) TASK_KSTACK_SIZE PAGE_SIZE in
        let s := sys_set_pmm s p in
        if base =? 0 then (None, set_task s i task_zero)
        else
          let t := set_kstack_base task_zero base in
          let t := set_kstack_top t (base + TASK_KSTACK_SIZE) in
          let t := set_t_tf t (Some trapframe_zero) in
          let p := kt_next_pid (s_top s) in
          let s := on_top s (fun k => kt_set_next_pid k (p + 1)) in
          let t := set_pgid (set_pid t p) p in
          let s := set_task s i t in
          let '(a, s) := task_alloc_asid s in
          let s := give_asid s i a in
          if asid (vm_at s i) =? 0 then
            (None, set_task (free_range (kstack_base (task_at s i)) (kstack_top (task_at s i)) s) i task_zero)
          else
            let s := upd_task s i (fun t =>
              let t := set_t_wait (set_state t TASK_RUNNABLE) wait_cleared in
              let t := task_set_comm_internal t (Some comm_task) in
              let t := set_fds t std_fds in
              set_cwd t (47 :: 0 :: drop 2 (cwd t))) in
            (Some i, refresh i s)
    end.

(** [if (t->field) { pmm_free_page(t->field); t->field = 0; }] *)
Definition free_table (o : option ptable) s : st :=
  match o with Some t => free_page (pt_page t) s | None => s end.

Definition clear_vmas (ti : nat) s : st := set_vm s ti (task_clear_vmas (vm_at s ti)).

Definition task_release (ti : nat) s : st :=
  let s := close_fds ti s in
  let s := task_unmap_user ti s in
  let s := clear_vmas ti s in
  let s := free_table (l1 (vm_at s ti)) s in
  let s := set_vm s ti (set_l1 (vm_at s ti) None) in
  let s := free_table (l2_low (vm_at s ti)) s in
  let s := set_vm s ti (set_l2_low (vm_at s ti) None) in
  let s := free_table (l3_user_a (vm_at s ti)) s in
  let s := set_vm s ti (set_l3_user_a (vm_at s ti) None) in
  let s := free_table (l3_user_b (vm_at s ti)) s in
  let s := set_vm s ti (set_l3_user_b (vm_at s ti) None) in
  let s :=
    if negb (kstack_base (task_at s ti) =? 0) then
      let s := free_range (kstack_base (task_at s ti)) (kstack_top (task_at s ti)) s in
      upd_task s ti (fun t => set_t_tf (set_kstack_top (set_kstack_base t 0) 0) None)
    else s in
  set_vm s ti (set_ttbr0_phys (vm_at s ti) 0).

Definition task_reap_slot (ti : nat) s : st :=
  let s := if pid (task_at s ti) =? kt_init_pid (s_top s)
           then on_top s (fun k => kt_set_init_pid k (-1)) else s in
  set_task (task_release ti s) ti task_zero.

(** ** Exiting *)

Definition task_notify_sigchld (child : task) (ev : task_child_event_t) s : st :=
  match task_parent_of s child with
  | None => s
  | Some pi =>
      let parent := task_at s pi in
      if negb (is_live parent) then s
      else
        let stop_or_cont := match ev with TASK_CHLD_EXIT => false | _ => true end in
        if stop_or_cont && negb (Z.land (sig_arr (signal_flags (t_sig parent)) SIGCHLD) SA_NOCLDSTOP =? 0) then s
        else upd_task s pi (fun t => on_sig t (fun g => (task_signal_enqueue g SIGCHLD).2))
  end.

(** The parent of child [ci] is notified and, if it waits for the child, woken. *)
Definition announce (ci : nat) (ev : task_child_event_t) s : st :=
  let s := task_notify_sigchld (task_at s ci) ev s in
  task_wake_waiters (pid (task_at s ci)) s.

Fixpoint reap_sigchld_loop (is_ : list nat) (parent : nat) s : st :=
  match is_ with
  | [] => s
  | i :: is_ =>
      let child := task_at s i in
      if negb (is_state child TASK_ZOMBIE) || negb (ppid child =? pid (task_at s parent))
      then reap_sigchld_loop is_ parent s
      else reap_sigchld_loop is_ parent (task_reap_slot i s)
  end.

Definition task_reap_sigchld_zombies (parent : nat) s : st :=
  if negb (task_sigchld_auto_reap (Some (task_at s parent))) then s
  else reap_sigchld_loop (seq 0 MAX_TASKS) parent s.

Fixpoint reparent_loop (is_ : list nat) (old_ppid new_ppid : Z) (init : option nat) s : st :=
  match is_ with
  | [] => s
  | i :: is_ =>
      let child := task_at s i in
      if is_state child TASK_UNUSED || negb (ppid child =? old_ppid) then reparent_loop is_ old_ppid new_ppid init s
      else
        let s := upd_task s i (fun t => set_ppid t new_ppid) in
        let s :=
          match init with
          | None => s
          | Some ii =>
              if new_ppid <=? 0 then s
              else if is_state (task_at s i) TASK_ZOMBIE then
                if task_sigchld_auto_reap (Some (task_at s ii)) then task_reap_slot i s
                else announce i TASK_CHLD_EXIT s
              else if is_state (task_at s i) TASK_STOPPED && stop_report_pending (task_at s i) then
                announce i TASK_CHLD_STOP s
              else if cont_report_pending (task_at s i) then announce i TASK_CHLD_CONT s
              else s
          end in
        reparent_loop is_ old_ppid new_ppid init s
  end.

Definition task_reparent_children (old_ppid : Z) s : st :=
  if old_ppid <=? 0 then s
  else
    let init := task_find_live_init s in
    let new_ppid := match init with Some i => pid (task_at s i) | None => -1 end in
    reparent_loop (seq 0 MAX_TASKS) old_ppid new_ppid init s.

Definition sig_exited (g : sig_state) : sig_state :=
  let g := set_pending_signals g 0 in
  let g := set_signal_queue g [] in
  let g := set_signal_mask g 0 in
  let g := set_signal_active g false in
  let g := set_signal_active_num g 0 in
  set_signal_saved_mask g 0.

Definition to_zombie (code : Z) (t : task) : task :=
  let t := set_state (set_exit_code t code) TASK_ZOMBIE in
  let t := on_sig (set_t_wait t wait_cleared) sig_exited in
  set_stop_signal (set_cont_report_pending (set_stop_report_pending t false) false) 0.

Definition task_force_exit (victim : nat) (code : Z) s : st :=
  if negb (is_live (task_at s victim)) then s
  else
    let parent := task_parent_of s (task_at s victim) in
    let auto_reap := task_sigchld_auto_reap (task_at s <$> parent) in
    let s := close_fds victim s in
    let s := upd_task s victim (to_zombie code) in
    let s := task_notify_sigchld (task_at s victim) TASK_CHLD_EXIT s in
    let s := task_reparent_children (pid (task_at s victim)) s in
    let s := task_wake_waiters (pid (task_at s victim)) s in
    if auto_reap then task_reap_slot victim s else s.

Definition task_mark_exit (code : Z) s : st :=
  match current s with
  | None => s
  | Some c => task_force_exit c (WAIT_STATUS_EXIT code) s
  end.

Fixpoint reap_orphans_loop (is_ : list nat) (exclude : option nat) s : st :=
  match is_ with
  | [] => s
  | i :: is_ =>
      if bool_decide (Some i = exclude) then reap_orphans_loop is_ exclude s
      else if is_state (task_at s i) TASK_ZOMBIE && negb (task_parent_alive s (task_at s i))
      then reap_orphans_loop is_ exclude (task_reap_slot i s)
      else reap_orphans_loop is_ exclude s
  end.

Definition task_reap_orphan_zombies (exclude : option nat) s : st :=
  match task_find_live_init s with
  | Some _ => s
  | None => reap_orphans_loop (seq 0 MAX_TASKS) exclude s
  end.

(** ** Waiting *)

(** Drops the caller's pending SIGCHLD when no child has anything to report. *)
Definition settle_sigchld (self : nat) s : st :=
  if negb (task_parent_has_child_sigchld_event s (task_at s self))
  then upd_task s self (fun t => on_sig t (fun g => task_signal_clear_pending g SIGCHLD)) else s.

(** The loop over the table: the pid and status reported, if any, and whether a
    child was seen. *)
Fixpoint wait_loop (is_ : list nat) (self : nat) (filter options : Z) (has_child : bool) s
    : option (Z * Z) * bool * st :=
  match is_ with
  | [] => (None, has_child, s)
  | i :: is_ =>
      let t := task_at s i in
      if is_state t TASK_UNUSED then wait_loop is_ self filter options has_child s
      else if negb (task_wait_matches_filter (task_at s self) t filter)
      then wait_loop is_ self filter options has_child s
      else if is_state t TASK_ZOMBIE then
        (Some (pid t, exit_code t), true, settle_sigchld self (task_reap_slot i s))
      else if has_bits options WUNTRACED && is_state t TASK_STOPPED && stop_report_pending t then
        let stop_sig := if negb (stop_signal t =? 0) then stop_signal t else SIGSTOP in
        let s := upd_task s i (fun t => set_stop_report_pending t false) in
        (Some (pid t, WAIT_STATUS_STOP stop_sig), true, settle_sigchld self s)
      else if has_bits options WCONTINUED && cont_report_pending t then
        let s := upd_task s i (fun t => set_cont_report_pending t false) in
        (Some (pid t, WAIT_STATUS_CONT), true, settle_sigchld self s)
      else wait_loop is_ self filter options true s
  end.

(** The result and the status stored, when one is. *)
Definition task_wait (filter options : Z) s : Z * option Z * st :=
  match current s with
  | None => (-1, None, s)
  | Some self =>
      if negb (Z.land options (Z.lnot (Z.lor (Z.lor WNOHANG WUNTRACED) WCONTINUED)) =? 0)
      then (KERR_EINVAL, None, s)
      else
        match wait_loop (seq 0 MAX_TASKS) self filter options false s with
        | (Some (p, status), _, s) => (p, Some status, s)
        | (None, has_child, s) =>
            if negb has_child then
              (KERR_ECHILD, None, upd_task s self (fun t => on_sig t (fun g => task_signal_clear_pending g SIGCHLD)))
            else if has_bits options WNOHANG then (0, None, s)
            else
              (-2, None, upd_task s self (fun t =>
                 set_t_wait (set_state t TASK_WAITING) (mk_wait_info filter WAIT_CHILD None 0)))
        end
  end.


(** ** Process groups *)

Definition task_setpgid (p g : Z) s : Z * st :=
  match current s with
  | None => (-1, s)
  | Some self =>
      if (p <? 0) || (g <? 0) then (-1, s)
      else
        let p := if p =? 0 then pid (task_at s self) else p in
        match task_by_pid s p with
        | None => (-1, s)
        | Some target =>
            let t := task_at s target in
            if negb (is_live t) then (-1, s)
            else if negb (bool_decide (target = self)) && negb (ppid t =? pid (task_at s self)) then (-1, s)
            else
              let g := if g =? 0 then pid t else g in
              if negb (g =? pid t) && negb (task_group_exists s g) then (-1, s)
              else (0, upd_task s target (fun t => set_pgid t g))
        end
  end.

Definition task_getpgid (p : Z) s : Z :=
  match current s with
  | None => -1
  | Some self =>
      if p <? 0 then -1
      else
        let p := if p =? 0 then pid (task_at s self) else p in
        match task_by_pid s p with
        | None => -1
        | Some target => if is_state (task_at s target) TASK_UNUSED then -1 else pgid (task_at s target)
        end
  end.

(** ** Signals *)

(** Stopped by [sig], and running again; the parent learns of both. *)
Definition to_stopped (sig : Z) (t : task) : task :=
  let t := set_t_wait (set_state t TASK_STOPPED) wait_cleared in
  set_stop_signal (set_stop_report_pending (set_cont_report_pending t false) true) (u8 sig).

Definition to_continued (t : task) : task :=
  let t := set_cont_report_pending (set_state t TASK_RUNNABLE) true in
  set_stop_signal (set_stop_report_pending t false) 0.

Definition stop_task (ti : nat) (sig : Z) s : st :=
  if negb (is_state (task_at s ti) TASK_STOPPED)
  then announce ti TASK_CHLD_STOP (upd_task s ti (to_stopped sig)) else s.

Definition continue_task (ti : nat) s : st :=
  if is_state (task_at s ti) TASK_STOPPED
  then announce ti TASK_CHLD_CONT (upd_task s ti to_continued) else s.

Definition task_signal_one (self : nat) (victim : option nat) (sig : Z) s : Z * st :=
  match victim with
  | None => (0, s)
  | Some v =>
      let t := task_at s v in
      if is_state t TASK_UNUSED then (0, s)
      else if (pid t =? kt_init_pid (s_top s)) && negb (pid (task_at s self) =? kt_init_pid (s_top s)) then (0, s)
      else if (sig =? 0) || is_state t TASK_ZOMBIE then (1, s)
      else
        let in_range := (0 <? sig) && (sig <? 32) in
        let handler := if in_range then sig_arr (signal_handler (t_sig t)) sig else SIG_DFL in
        let flags := if in_range then sig_arr (signal_flags (t_sig t)) sig else 0 in
        if sig =? SIGKILL then (1, task_force_exit v (WAIT_STATUS_SIG sig) s)
        else if (handler =? SIG_IGN) && negb (sig =? SIGSTOP) && negb (sig =? SIGKILL) then (1, s)
        else
          let s := upd_task s v (fun t => on_sig t (fun g => (task_signal_enqueue g sig).2)) in
          if task_signal_blocked (t_sig (task_at s v)) sig then (1, s)
          else if sig =? SIGCONT then
            let s := upd_task s v (fun t => on_sig t (fun g => task_signal_clear_pending g SIGSTOP)) in
            let s := continue_task v s in
            (1, upd_task s v (fun t => task_signal_wake_waiter t true))
          else if sig =? SIGSTOP then
            let s := upd_task s v (fun t => on_sig t (fun g => task_signal_clear_pending g SIGCONT)) in
            (1, stop_task v sig s)
          else
            let restart_ok := negb (handler =? SIG_DFL) && negb (Z.land flags SA_RESTART =? 0) in
            (1, upd_task s v (fun t => task_signal_wake_waiter t restart_ok))
  end.

(** A handler that can be entered: registered with a restorer, both in user space. *)
Definition handler_enterable (g : sig_state) (sig : Z) : bool :=
  let handler := sig_arr (signal_handler g) sig in
  let restorer := sig_arr (signal_restorer g) sig in
  negb ((Z.land (sig_arr (signal_flags g) sig) SA_RESTORER =? 0) ||
        (restorer <? USER_VA_BASE) || (USER_VA_LIMIT <=? restorer) ||
        (handler <? USER_VA_BASE) || (USER_VA_LIMIT <=? handler)).

(** The delivery loop; [None] if [fuel] rounds were not enough. *)
Fixpoint deliver_loop (fuel : nat) (ti : nat) s : option (bool * st) :=
  match fuel with
  | O => None
  | S fuel =>
      let '(sig, g) := task_pick_pending_unblocked (t_sig (task_at s ti)) in
      let s := upd_task s ti (fun t => set_t_sig t g) in
      if sig <=? 0 then Some (true, s)
      else
        let handler := sig_arr (signal_handler g) sig in
        let dfl := task_signal_default_action sig in
        let dfl_ignore := match dfl with TASK_SIG_DFL_IGNORE => true | _ => false end in
        if (handler =? SIG_IGN) || ((handler =? SIG_DFL) && dfl_ignore) then deliver_loop fuel ti s
        else if handler =? SIG_DFL then
          match dfl with
          | TASK_SIG_DFL_CONT => deliver_loop fuel ti (continue_task ti s)
          | TASK_SIG_DFL_STOP => Some (false, stop_task ti sig s)
          | _ => Some (false, task_force_exit ti (WAIT_STATUS_SIG sig) s)
          end
        else if signal_active g then
          Some (true, upd_task s ti (fun t => on_sig t (fun g => (task_signal_enqueue g sig).2)))
        else if negb (handler_enterable g sig) then
          Some (false, task_force_exit ti (WAIT_STATUS_SIG SIGTERM) s)
        else
          match t_tf (task_at s ti) with
          | None => Some (true, s)
          | Some tf =>
              let '(g, tf) := enter_handler g tf sig in
              Some (true, upd_task s ti (fun t => set_t_tf (set_t_sig t g) (Some tf)))
          end
  end.

(** Every round takes a pending signal away: 33 rounds suffice for 32 of them. *)
Definition task_deliver_pending_signal (ti : nat) s : option (bool * st) :=
  let t := task_at s ti in
  if bool_decide (t_tf t = None) || negb (is_live t) then Some (true, s)
  else deliver_loop 34 ti s.

Fixpoint kill_loop (is_ : list nat) (self : nat) (p sig matched : Z) s : Z * st :=
  match is_ with
  | [] => (matched, s)
  | i :: is_ =>
      let v := task_at s i in
      if is_state v TASK_UNUSED then kill_loop is_ self p sig matched s
      else if (p =? 0) && negb (pgid v =? pgid (task_at s self)) then kill_loop is_ self p sig matched s
      else if (p <? -1) && negb (pgid v =? - p) then kill_loop is_ self p sig matched s
      else if (p =? -1) && (pid v =? kt_init_pid (s_top s)) then kill_loop is_ self p sig matched s
      else
        let '(n, s) := task_signal_one self (Some i) sig s in
        kill_loop is_ self p sig (matched + n) s
  end.

Definition task_kill (p sig : Z) s : Z * st :=
  match current s with
  | None => (KERR_EINVAL, s)
  | Some self =>
      if negb (task_signal_supported sig) then (KERR_EINVAL, s)
      else if 0 <? p then
        let '(n, s) := task_signal_one self (task_by_pid s p) sig s in
        (if negb (n =? 0) then 0 else KERR_ESRCH, s)
      else
        let '(matched, s) := kill_loop (seq 0 MAX_TASKS) self p sig 0 s in
        (if matched =? 0 then KERR_ESRCH else 0, s)
  end.

(** The result and the old action, which is stored before the new one is checked. *)
Definition task_sigaction (sig : Z) (act : option sigaction) s : Z * option sigaction * st :=
  match current s with
  | None => (KERR_EINVAL, None, s)
  | Some self =>
      let g := t_sig (task_at s self) in
      if (sig <=? 0) || (32 <=? sig) || negb (task_signal_supported sig) then (KERR_EINVAL, None, s)
      else
        let old := Some (sigaction_old g sig) in
        match sigaction_store g sig act with
        | None => (KERR_EINVAL, old, s)
        | Some g =>
            let s := upd_task s self (fun t => set_t_sig t g) in
            if bool_decide (act <> None) && (sig =? SIGCHLD)
            then (0, old, settle_sigchld self (task_reap_sigchld_zombies self s)) else (0, old, s)
        end
  end.

(** ** Scheduling *)

Definition task_yield s : st :=
  match current s with
  | Some c => if is_state (task_at s c) TASK_RUNNING then upd_task s c (fun t => set_state t TASK_RUNNABLE) else s
  | None => s
  end.

Definition task_set_syscall_ret (ti : nat) (value : Z) s : st :=
  match t_tf (task_at s ti) with
  | Some tf => upd_task s ti (fun t => set_t_tf t (Some (set_tf_x tf (<[0%nat := value]> (tf_x tf)))))
  | None => s
  end.

(** The first runnable slot after [from], the search going round the table. *)
Definition task_next_runnable (from : option nat) s : option nat :=
  let start := match from with Some i => S i | None => 0%nat end in
  let runnable i := is_state (task_at s i) TASK_RUNNABLE in
  match find runnable (seq start (MAX_TASKS - start)) with
  | Some i => Some i
  | None => find runnable (seq 0 start)
  end.

Definition current_runnable s : option nat :=
  match current s with
  | Some c => if is_state (task_at s c) TASK_RUNNABLE then Some c else None
  | None => None
  end.

(** [task_next_runnable], or the current task if it is the only one. *)
Definition pick_next (from : option nat) s : option nat :=
  match task_next_runnable from s with
  | Some i => Some i
  | None => current_runnable s
  end.

(** The idle loop; [ticks] are the values [timer_ticks()] returns in it. [None]
    if no task became runnable in their time. *)
Fixpoint idle_loop (ticks : list Z) s : option (nat * list Z * st) :=
  match ticks with
  | [] => None
  | now :: ticks =>
      let '(woke, s) := task_wake_sleepers now s in
      if woke then
        match pick_next (current s) s with
        | Some n => Some (n, ticks, s)
        | None => idle_loop ticks s
        end
      else idle_loop ticks s
  end.

(** The delivery of signals to the chosen task, and to the next one as long as the
    signal stops or ends it. [None] if [fuel] rounds were not enough; every round
    that goes on has stopped or ended a task. *)
Fixpoint settle_loop (fuel : nat) (next : option nat) s : option (option nat * st) :=
  match fuel, next with
  | _, None => Some (None, s)
  | O, Some _ => None
  | S fuel, Some n =>
      match task_deliver_pending_signal n s with
      | None => None
      | Some (ok, s) =>
          let t := task_at s n in
          if negb ok || is_state t TASK_ZOMBIE || is_state t TASK_STOPPED || is_state t TASK_WAITING
          then settle_loop fuel (pick_next (Some n) s) s
          else Some (Some n, s)
      end
  end.

(** The first part of [task_schedule_from_trap]: the frame is kept, and the current
    task is one of those that can be chosen. *)
Definition sched_entry (current_tf : option trapframe) s : st :=
  let s :=
    match current s, current_tf with
    | Some c, Some tf =>
        let s := upd_task s c (fun t => set_t_tf t (Some tf)) in
        if is_state (task_at s c) TASK_RUNNING then upd_task s c (fun t => set_state t TASK_RUNNABLE) else s
    | _, _ => s
    end in
  task_reap_orphan_zombies (current s) s.

(** The frame the trap returns to, and the state. *)
Definition task_schedule_from_trap (current_tf : option trapframe) (force_resched : bool) (ticks : list Z) s
    : option (option trapframe * st) :=
  let s := sched_entry current_tf s in
  let next := if negb force_resched then current_runnable s else None in
  let next := match next with Some n => Some n | None => pick_next (current s) s end in
  match (match next with Some n => Some (n, ticks, s) | None => idle_loop ticks s end) with
  | None => None
  | Some (n, ticks, s) =>
      match settle_loop (S MAX_TASKS) (Some n) s with
      | None => None
      | Some (next, s) =>
          match (match next with Some n => Some (n, ticks, s) | None => idle_loop ticks s end) with
          | None => None
          | Some (n, _, s) =>
              let s := on_top s (fun k => kt_set_current k (Some n)) in
              let s := task_ensure_asid n s in
              let s := upd_task s n (fun t => set_state t TASK_RUNNING) in
              let s := on_mmu s (mmu_switch_ttbr0 (ttbr0_phys (vm_at s n)) (asid (vm_at s n))) in
              Some (t_tf (task_at s n), s)
          end
      end
  end.

Definition task_enter_first (ti : nat) s : st :=
  let s := on_top s (fun k => kt_set_current k (Some ti)) in
  let s := task_ensure_asid ti s in
  let s := upd_task s ti (fun t => set_state t TASK_RUNNING) in
  on_mmu s (mmu_switch_ttbr0 (ttbr0_phys (vm_at s ti)) (asid (vm_at s ti))).

(** ** Fork *)

(** [strcpy] and [strncpy] between arrays: the bytes before the terminator. *)
Fixpoint before_nul (l : list Z) : list Z :=
  match l with
  | [] => []
  | c :: l => if c =? 0 then [] else c :: before_nul l
  end.

Definition strcpy_arr (dst src : list Z) : list Z :=
  let b := before_nul src ++ [0] in take (length dst) (b ++ drop (length b) dst).

Definition fork_vm (child parent : vm_state) : vm_state :=
  let m := set_heap_base child (heap_base parent) in
  let m := set_heap_end m (heap_end parent) in
  let m := set_heap_limit m (heap_limit parent) in
  let m := set_stack_base m (stack_base parent) in
  let m := set_stack_mapped_bottom m (stack_mapped_bottom parent) in
  set_vmas m (vmas parent).

Definition fork_fds (parent child : nat) s : st :=
  foldl (fun s i =>
    let s := set_fd s child i (get_fd s parent i) in
    if fd_used (get_fd s child i) then task_fd_ref (get_fd s child i) s else s) s (seq 0 MAX_FDS).

(** The rest of [task_fork], once the child shares the pages: memory layout,
    registers, descriptors, names and signal actions. *)
Definition fork_finish (parent child : nat) (tf : trapframe) s : Z * st :=
  let s := set_vm s child (fork_vm (vm_at s child) (vm_at s parent)) in
  if bool_decide (t_tf (task_at s child) = None) then (-1, task_reap_slot child s)
  else
    let s := upd_task s child (fun t => set_t_tf t (Some (set_tf_x tf (<[0%nat := 0]> (tf_x tf))))) in
    let s := fork_fds parent child s in
    let p := task_at s parent in
    let s := upd_task s child (fun t =>
      let t := set_cwd t (strcpy_arr (cwd t) (cwd p)) in
      let t := set_comm t (strncpy_list 31 (before_nul (comm p)) ++ [0]) in
      let t := set_t_sig t (task_inherit_signal_state_for_fork (t_sig t) (t_sig p)) in
      set_state t TASK_RUNNABLE) in
    let s := refresh child (refresh parent s) in
    (pid (task_at s child), s).

Definition task_fork (parent_tf : option trapframe) s : Z * st :=
  match current s, parent_tf with
  | Some parent, Some tf =>
      if negb (task_fork_budget_ok (s_pmm s) (vm_at s parent)) then (-1, s)
      else
        match task_alloc s with
        | (None, s) => (-1, s)
        | (Some child, s) =>
            let s := upd_task s child (fun t => set_ppid t (pid (task_at s parent))) in
            let s := upd_task s child (fun t => set_pgid t (pgid (task_at s parent))) in
            let '(ok, s) := task_pt_setup child s in
            if negb ok then (-1, task_reap_slot child s)
            else
              let '(ok, s) := fork_pages (seq 0 MAX_USER_PAGES) parent child s in
              if negb ok then (-1, task_reap_slot child s) else fork_finish parent child tf s
        end
  | _, _ => (-1, s)
  end.

(** [done ? done : r] *)
Definition done_or (done r : Z) : Z := if negb (done =? 0) then done else r.

End Proc.
