(* ===== verification/Elf.v ===== *)
(** * Programs (include/elf.h, kernel/task.c)

    Loading an ELF image into a task: headers, the table of function names, the
    checks on the segments, the segments themselves, the first stack page with
    arguments and auxiliary vector, exec and the creation of tasks. The image is
    given by the memory [img] from its start on, which may go on behind the
    [elf_size] bytes of the file. *)

From S2P Require Import Prelude KString Pmm Pipe UserCopy Inode BlockCache PageCache FsIo TaskDefs Signal Mmu Vma Vm Proc.

Abbreviation EHDR_SIZE := 64 (only parsing).
Abbreviation PHDR_SIZE := 56 (only parsing).
Abbreviation SHDR_SIZE := 64 (only parsing).
Abbreviation SYM_SIZE := 24 (only parsing).
Abbreviation ELFCLASS64 := 2 (only parsing).
Abbreviation EM_AARCH64 := 183 (only parsing).
Abbreviation ET_EXEC := 2 (only parsing).
Abbreviation PT_LOAD := 1 (only parsing).
Abbreviation PT_PHDR := 6 (only parsing).
Abbreviation PF_X := 1 (only parsing).
Abbreviation PF_W := 2 (only parsing).
Abbreviation SHT_SYMTAB := 2 (only parsing).
Abbreviation SHT_STRTAB := 3 (only parsing).
Abbreviation SHT_DYNSYM := 11 (only parsing).
Abbreviation STT_FUNC := 2 (only parsing).
Abbreviation SHN_UNDEF := 0 (only parsing).
Abbreviation TASK_DEBUG_SYMS_MAX := 128%nat (only parsing).
Abbreviation TASK_DEBUG_NAME_MAX := 48%nat (only parsing).
Abbreviation USER_STACK_PAGES := 8 (only parsing).
Abbreviation MAX_ARGV := 16%nat (only parsing).
Abbreviation MAX_ARG_LEN := 256%nat (only parsing).
Abbreviation TIMER_HZ := 100 (only parsing).

(** ** Headers *)

Definition byte_at (img : list Z) (i : Z) : Z := img !!! Z.to_nat i.

(** The little-endian number of [n] bytes at [off]. *)
Fixpoint le_at (img : list Z) (off : Z) (n : nat) : Z :=
  match n with
  | O => 0
  | S n => byte_at img off + 256 * le_at img (off + 1) n
  end.

Record Elf64_Ehdr := mk_ehdr {
  e_ident : list Z;
  e_type : Z;
  e_machine : Z;
  e_entry : Z;
  e_phoff : Z;
  e_shoff : Z;
  e_phentsize : Z;
  e_phnum : Z;
  e_shentsize : Z;
  e_shnum : Z;
}.

Definition ehdr_at (img : list Z) : Elf64_Ehdr :=
  mk_ehdr (map (byte_at img) (seqZ 0 16)) (le_at img 16 2) (le_at img 18 2) (le_at img 24 8) (le_at img 32 8)
    (le_at img 40 8) (le_at img 54 2) (le_at img 56 2) (le_at img 58 2) (le_at img 60 2).

Record Elf64_Phdr := mk_phdr {
  p_type : Z;
  p_flags : Z;
  p_offset : Z;
  p_vaddr : Z;
  p_filesz : Z;
  p_memsz : Z;
}.

Definition phdr_at (img : list Z) (a : Z) : Elf64_Phdr :=
  mk_phdr (le_at img a 4) (le_at img (a + 4) 4) (le_at img (a + 8) 8) (le_at img (a + 16) 8)
    (le_at img (a + 32) 8) (le_at img (a + 40) 8).

(** [ph[0]], ..., [ph[phnum - 1]] for [ph] at offset [off]. *)
Definition phdrs (img : list Z) (off num : Z) : list Elf64_Phdr :=
  map (fun i => phdr_at img (off + i * PHDR_SIZE)) (seqZ 0 num).

Record Elf64_Shdr := mk_shdr {
  sh_type : Z;
  sh_offset : Z;
  sh_size : Z;
  sh_link : Z;
  sh_entsize : Z;
}.

Definition shdr_at (img : list Z) (a : Z) : Elf64_Shdr :=
  mk_shdr (le_at img (a + 4) 4) (le_at img (a + 24) 8) (le_at img (a + 32) 8) (le_at img (a + 40) 4) (le_at img (a + 56) 8).

Record Elf64_Sym := mk_sym {
  st_name : Z;
  st_info : Z;
  st_shndx : Z;
  st_value : Z;
  st_size : Z;
}.

Definition sym_at (img : list Z) (a : Z) : Elf64_Sym :=
  mk_sym (le_at img a 4) (byte_at img (a + 4)) (le_at img (a + 6) 2) (le_at img (a + 8) 8) (le_at img (a + 16) 8).

(** ** The table of function names *)

Definition task_debug_syms_add (ds : list debug_sym) (start fin : Z) (name : list Z) : list debug_sym :=
  if bool_decide (name = []) || (start <? USER_VA_BASE) || (USER_VA_LIMIT <=? start) then ds
  else
    let fin := if fin <=? start then start + 1 else fin in
    let fin := if USER_VA_LIMIT <? fin then USER_VA_LIMIT else fin in
    match find_idx (fun d => (ds_start d =? start) && bool_decide (ds_name d = name)) ds with
    | Some i =>
        let d := ds !!! i in
        if ds_end d <? fin then <[i := set_ds_end d fin]> ds else ds
    | None =>
        if (TASK_DEBUG_SYMS_MAX <=? length ds)%nat then ds
        else ds ++ [mk_debug_sym start fin (take (TASK_DEBUG_NAME_MAX - 1) name)]
    end.

(** The inner loop of the insertion sort, on the reversed prefix. *)
Fixpoint sort_shift (rl : list debug_sym) (key : debug_sym) : list debug_sym :=
  match rl with
  | [] => [key]
  | d :: rl => if ds_start key <? ds_start d then d :: sort_shift rl key else key :: d :: rl
  end.

Definition task_debug_syms_sort (ds : list debug_sym) : list debug_sym := reverse (foldl sort_shift [] ds).

Fixpoint add_symbols (ns : list Z) (img : list Z) (symsh strsh : Elf64_Shdr) (ds : list debug_sym) : list debug_sym :=
  match ns with
  | [] => ds
  | n :: ns =>
      let sym := sym_at img (sh_offset symsh + n * sh_entsize symsh) in
      if negb (Z.land (st_info sym) 15 =? STT_FUNC) || (st_shndx sym =? SHN_UNDEF) || (sh_size strsh <=? st_name sym)
      then add_symbols ns img symsh strsh ds
      else
        let name := before_nul (drop (Z.to_nat (sh_offset strsh + st_name sym)) img) in
        if bool_decide (name = []) then add_symbols ns img symsh strsh ds
        else
          let start := st_value sym in
          let ds := task_debug_syms_add ds start (u64 (start + st_size sym)) name in
          if (TASK_DEBUG_SYMS_MAX <=? length ds)%nat then ds else add_symbols ns img symsh strsh ds
  end.

(** The sections with indices [is_], of those at [shoff]. *)
Fixpoint add_sections (is_ : list Z) (img : list Z) (elf_size shoff shnum : Z) (ds : list debug_sym) : list debug_sym :=
  match is_ with
  | [] => ds
  | i :: is_ =>
      let symsh := shdr_at img (shoff + i * SHDR_SIZE) in
      let strsh := shdr_at img (shoff + sh_link symsh * SHDR_SIZE) in
      if negb (sh_type symsh =? SHT_SYMTAB) && negb (sh_type symsh =? SHT_DYNSYM) then
        add_sections is_ img elf_size shoff shnum ds
      else if (shnum <=? sh_link symsh) || (sh_entsize symsh <? SYM_SIZE) || (sh_size symsh <? sh_entsize symsh) then
        add_sections is_ img elf_size shoff shnum ds
      else if (elf_size <? sh_offset symsh) || (elf_size - sh_offset symsh <? sh_size symsh) then
        add_sections is_ img elf_size shoff shnum ds
      else if negb (sh_type strsh =? SHT_STRTAB) || (elf_size <? sh_offset strsh) ||
              (elf_size - sh_offset strsh <? sh_size strsh) then
        add_sections is_ img elf_size shoff shnum ds
      else
        let nsyms := sh_size symsh / sh_entsize symsh in
        let ds := add_symbols (seqZ 0 nsyms) img symsh strsh ds in
        if (TASK_DEBUG_SYMS_MAX <=? length ds)%nat then ds else add_sections is_ img elf_size shoff shnum ds
  end.

Definition task_debug_syms_load (img : list Z) (elf_size : Z) (eh : Elf64_Ehdr) : list debug_sym :=
  if (e_shoff eh =? 0) || (e_shnum eh =? 0) || negb (e_shentsize eh =? SHDR_SIZE) then []
  else if (elf_size <? e_shoff eh) || (elf_size - e_shoff eh <? e_shnum eh * e_shentsize eh) then []
  else if 1024 <? e_shnum eh then []
  else task_debug_syms_sort (add_sections (seqZ 0 (e_shnum eh)) img elf_size (e_shoff eh) (e_shnum eh) []).

(** The magic number, class and machine. *)
Definition ehdr_known (eh : Elf64_Ehdr) : bool :=
  bool_decide (take 4 (e_ident eh) = [0x7f; 69; 76; 70]) && (e_ident eh !!! 4%nat =? ELFCLASS64) &&
  (e_machine eh =? EM_AARCH64).

Definition task_load_debug_symbols (t : task) (img : list Z) (elf_size : Z) : task :=
  if elf_size <? EHDR_SIZE then set_debug_syms t []
  else if negb (ehdr_known (ehdr_at img)) then set_debug_syms t []
  else set_debug_syms t (task_debug_syms_load img elf_size (ehdr_at img)).

(** The index of the symbol for [pc] among the first ones, given the best so far. *)
Fixpoint symbolize_loop (is_ : list nat) (ds : list debug_sym) (pc : Z) (best : option nat) : option nat :=
  match is_ with
  | [] => best
  | i :: is_ =>
      let d := ds !!! i in
      if bool_decide (ds_name d = []) || (pc <? ds_start d) then symbolize_loop is_ ds pc best
      else if pc <? ds_end d then
        let take_it := match best with None => true | Some b => ds_start (ds !!! b) <=? ds_start d end in
        symbolize_loop is_ ds pc (if take_it then Some i else best)
      else
        let take_it := match best with None => true | Some b => ds_start (ds !!! b) <? ds_start d end in
        symbolize_loop is_ ds pc (if take_it then Some i else best)
  end.

Definition task_symbolize_pc (t : task) (pc : Z) : option debug_sym :=
  let ds := debug_syms t in
  (fun i => ds !!! i) <$> symbolize_loop (seq 0 (length ds)) ds pc None.

(** ** Checking the segments *)

Definition ph_start (ph : Elf64_Phdr) : Z := align_down (p_vaddr ph) PAGE_SIZE.
Definition ph_end (ph : Elf64_Phdr) : Z := align_up (u64 (p_vaddr ph + p_memsz ph)) PAGE_SIZE.

Abbreviation USER_EXEC_PAGE_SLOTS := 1024 (only parsing).

(** The pages [vas] of a segment enter the array [seen]; [mapped] counts them. *)
Fixpoint see_pages (vas : list Z) (seen : gset Z) (mapped : Z) : option (gset Z * Z) :=
  match vas with
  | [] => Some (seen, mapped)
  | va :: vas =>
      let idx := u64 (va - USER_VA_BASE) / PAGE_SIZE in
      if USER_EXEC_PAGE_SLOTS <=? idx then None
      else if bool_decide (idx ∈ seen) then see_pages vas seen mapped
      else see_pages vas ({[idx]} ∪ seen) (mapped + 1)
  end.

Fixpoint validate_loop (phs : list Elf64_Phdr) (elf_size : Z) (seen : gset Z) (max_load_end mapped : Z) : option (Z * Z) :=
  match phs with
  | [] => Some (max_load_end, mapped)
  | ph :: phs =>
      if negb (p_type ph =? PT_LOAD) || (p_memsz ph =? 0) then validate_loop phs elf_size seen max_load_end mapped
      else if p_memsz ph <? p_filesz ph then None
      else if p_vaddr ph <? USER_VA_BASE then None
      else if u64 (USER_VA_LIMIT - p_memsz ph) <? p_vaddr ph then None
      else if elf_size <? p_offset ph then None
      else if elf_size - p_offset ph <? p_filesz ph then None
      else
        let start := ph_start ph in
        let fin := ph_end ph in
        if (USER_VA_LIMIT <? fin) || (fin <? start) then None
        else
          let max_load_end := if max_load_end <? fin then fin else max_load_end in
          match see_pages (page_range start fin) seen mapped with
          | None => None
          | Some (seen, mapped) => validate_loop phs elf_size seen max_load_end mapped
          end
  end.

(** The end of the last segment and the number of pages they take. *)
Definition task_validate_elf_loads (img : list Z) (phoff phnum phentsize elf_size : Z) : option (Z * Z) :=
  if negb (phentsize =? PHDR_SIZE) then None
  else
    match validate_loop (phdrs img phoff phnum) elf_size ∅ USER_VA_BASE 0 with
    | None => None
    | Some (max_load_end, mapped) => if mapped =? 0 then None else Some (max_load_end, mapped)
    end.

Definition task_elf_phdr_user_addr (img : list Z) (eh : Elf64_Ehdr) (elf_size : Z) : Z :=
  if elf_size <=? e_phoff eh then 0
  else
    let phs := phdrs img (e_phoff eh) (e_phnum eh) in
    match find (fun ph => p_type ph =? PT_PHDR) phs with
    | Some ph => p_vaddr ph
    | None =>
        let phoff := e_phoff eh in
        let phsize := e_phnum eh * e_phentsize eh in
        match find (fun ph =>
                (p_type ph =? PT_LOAD) && negb (p_filesz ph =? 0) && (p_offset ph <=? phoff) &&
                (u64 (phoff + phsize) <=? u64 (p_offset ph + p_filesz ph))) phs with
        | Some ph => u64 (p_vaddr ph + (phoff - p_offset ph))
        | None => 0
        end
    end.

(** ** The loader *)

(** [kargv]: the arguments, cut to the length of the buffers. *)
Definition kargs (argv : option (list (list Z))) : list (list Z) :=
  match argv with
  | None => []
  | Some argv => map (take (MAX_ARG_LEN - 1)) (take MAX_ARGV argv)
  end.

(** The loop of [task_fill_aux_random]; [addr] is the address of the task. *)
Fixpoint aux_random_loop (n : nat) (seed : Z) : list Z :=
  match n with
  | O => []
  | S n =>
      let seed := u64 (seed * 6364136223846793005 + 1) in
      u8 (Z.shiftr seed 24) :: aux_random_loop n seed
  end.

Definition task_fill_aux_random (ticks pid addr : Z) : list Z :=
  aux_random_loop 16 (Z.lxor (Z.lxor ticks (u64 (Z.shiftl (u32 pid) 32))) addr).

(** The bytes of a number and of an array of numbers. *)
Definition le_bytes (n : nat) (x : Z) : list Z := map (fun i => u8 (Z.shiftr x (8 * i))) (seqZ 0 (Z.of_nat n)).
Definition words_bytes (ws : list Z) : list Z := mbind (le_bytes 8) ws.

Section Load.
Context {D E N : Type} `{!BlockDrivers D, !Ext4Ops D E, !SocketOps N}.
Abbreviation st := (sys D E (ktasks (kio N))).
Implicit Types s : st.

(** The pages [vas] of a segment are mapped, or their rights extended. *)
Fixpoint map_segment (vas : list Z) (ti : nat) (writable executable : bool) s : bool * st :=
  match vas with
  | [] => (true, s)
  | va :: vas =>
      match task_find_page (vm_at s ti) va with
      | Some ui =>
          let up := page_at (vm_at s ti) ui in
          match task_page_validate_hw (vm_at s ti) up with
          | None => (false, s)
          | Some hw =>
              let merged_w := hw_writable hw || writable in
              let merged_x := hw_executable hw || executable in
              let merged_cow := hw_cow hw && negb merged_w in
              match task_set_user_pte (vm_at s ti) va (up_pa up) (task_user_attrs merged_w merged_x merged_cow) with
              | None => (false, s)
              | Some m =>
                  let m := set_page m ui (set_up_writable_intent up (up_writable_intent up || writable)) in
                  map_segment vas ti writable executable (flush_va (set_vm s ti m) ti va)
              end
          end
      | None =>
          if pmm_available_pages (s_pmm s) <=? PMM_OOM_RESERVE_PAGES then (false, s)
          else
            let '(page, p) := pmm_alloc_page (s_pmm s) in
            let s := sys_set_pmm s p in
            if page =? 0 then (false, s)
            else
              let '(ok, s) := task_map_user_page ti va page writable executable false writable s in
              if negb ok then (false, s) else map_segment vas ti writable executable s
      end
  end.

Fixpoint zero_user (n : nat) (ti : nat) (va : Z) s : bool * st :=
  match n with
  | O => (true, s)
  | S n =>
      let '(ok, s) := task_copy_to_user_va ti va [0] s in
      if negb ok then (false, s) else zero_user n ti (u64 (va + 1)) s
  end.

(** [len] bytes of the image from [off] on. *)
Definition img_bytes (img : list Z) (off len : Z) : list Z := map (fun i => byte_at img (off + i)) (seqZ 0 len).

Fixpoint load_segments (phs : list Elf64_Phdr) (ti : nat) (img : list Z) s : bool * st :=
  match phs with
  | [] => (true, s)
  | ph :: phs =>
      if negb (p_type ph =? PT_LOAD) || (p_memsz ph =? 0) then load_segments phs ti img s
      else
        let writable := negb (Z.land (p_flags ph) PF_W =? 0) in
        let executable := negb (Z.land (p_flags ph) PF_X =? 0) in
        let '(ok, s) := map_segment (page_range (ph_start ph) (ph_end ph)) ti writable executable s in
        if negb ok then (false, s)
        else
          let '(ok, s) := task_copy_to_user_va ti (p_vaddr ph) (img_bytes img (p_offset ph) (p_filesz ph)) s in
          if negb ok then (false, s)
          else
            let bss_start := u64 (p_vaddr ph + p_filesz ph) in
            let bss_len := p_memsz ph - p_filesz ph in
            let '(ok, s) := zero_user (Z.to_nat bss_len) ti bss_start s in
            if negb ok then (false, s) else load_segments phs ti img s
  end.

(** The page of the entry point becomes executable. *)
Definition open_entry (ti : nat) (entry : Z) s : bool * st :=
  let entry_page := align_down entry PAGE_SIZE in
  match task_find_page (vm_at s ti) entry_page with
  | None => (false, s)
  | Some ui =>
      let up := page_at (vm_at s ti) ui in
      match task_page_validate_hw (vm_at s ti) up with
      | None => (false, s)
      | Some hw =>
          if negb (hw_executable hw) then
            match task_set_user_pte (vm_at s ti) entry_page (up_pa up) (task_user_attrs (hw_writable hw) true (hw_cow hw)) with
            | None => (false, s)
            | Some m => (true, flush_va (set_vm s ti m) ti entry_page)
            end
          else (true, s)
      end
  end.

(** The first page of the stack. *)
Definition map_stack (ti : nat) s : bool * st :=
  if pmm_available_pages (s_pmm s) <=? PMM_OOM_RESERVE_PAGES then (false, s)
  else
    let '(page, p) := pmm_alloc_page (s_pmm s) in
    let s := sys_set_pmm s p in
    if page =? 0 then (false, s)
    else
      let '(ok, s) := task_map_user_page ti (USER_STACK_TOP - PAGE_SIZE) page true false false true s in
      if negb ok then (false, free_page page s) else (true, s).

(** The arguments are copied from the last to the first, downwards from [sp]:
    the addresses of all of them, and the new [sp]. *)
Fixpoint push_args (rargs : list (list Z)) (ti : nat) (sp : Z) (ptrs : list Z) s : option (list Z * Z) * st :=
  match rargs with
  | [] => (Some (ptrs, sp), s)
  | a :: rargs =>
      let sp := sp - (Z.of_nat (length a) + 1) in
      let '(ok, s) := task_copy_to_user_va ti sp (a ++ [0]) s in
      if negb ok then (None, s) else push_args rargs ti sp (sp :: ptrs) s
  end.

(** The auxiliary vector: types and values. *)
Definition auxv (eh : Elf64_Ehdr) (phdr_addr aux_random_user execfn : Z) : list Z :=
  [3; phdr_addr; 4; e_phentsize eh; 5; e_phnum eh; 6; PAGE_SIZE; 7; 0; 9; e_entry eh; 11; 0; 12; 0; 13; 0; 14; 0;
   16; 0; 26; 0; 17; TIMER_HZ; 23; 0; 25; aux_random_user; 31; execfn; 0; 0].

(** What the new program finds at its stack pointer. *)
Definition stack_frame (ptrs aux : list Z) : list Z := Z.of_nat (length ptrs) :: ptrs ++ [0; 0] ++ aux.

Definition entry_frame (entry sp argc : Z) : trapframe :=
  let tf := set_spsr_el1 (set_sp_el0 (set_elr_el1 trapframe_zero entry) sp) 0 in
  set_tf_x tf (argc :: sp + 8 :: sp + 8 * (2 + argc) :: sp + 8 * (3 + argc) :: drop 4 (tf_x tf)).

(** Arguments, random bytes and vector on the stack; the registers. *)
Definition load_stack (ti : nat) (img : list Z) (elf_size : Z) (eh : Elf64_Ehdr) (argv : option (list (list Z)))
    (ticks addr : Z) s : bool * st :=
  let args := kargs argv in
  match push_args (reverse args) ti USER_STACK_TOP [] s with
  | (None, s) => (false, s)
  | (Some (ptrs, sp), s) =>
      let aux_random := task_fill_aux_random ticks (pid (task_at s ti)) addr in
      let sp := sp - 16 in
      let '(ok, s) := task_copy_to_user_va ti sp aux_random s in
      if negb ok then (false, s)
      else
        let aux := auxv eh (task_elf_phdr_user_addr img eh elf_size) sp (match ptrs with p :: _ => p | [] => 0 end) in
        let frame := stack_frame ptrs aux in
        let sp := Z.land sp (not64 15) - 8 * Z.of_nat (length frame) in
        let '(ok, s) := task_copy_to_user_va ti sp (words_bytes frame) s in
        if negb ok then (false, s)
        else if bool_decide (t_tf (task_at s ti) = None) then (false, s)
        else
          let s := upd_task s ti (fun t => set_t_tf t (Some (entry_frame (e_entry eh) sp (Z.of_nat (length ptrs))))) in
          (true, refresh ti s)
  end.

(** The checks before anything is changed: the end of the segments. *)
Definition load_checks (img : list Z) (elf_size : Z) s : option Z :=
  if elf_size <? EHDR_SIZE then None
  else
    let eh := ehdr_at img in
    if negb (ehdr_known eh) || negb (e_type eh =? ET_EXEC) then None
    else if (elf_size <? e_phoff eh) || (elf_size - e_phoff eh <? e_phnum eh * e_phentsize eh) then None
    else
      match task_validate_elf_loads img (e_phoff eh) (e_phnum eh) (e_phentsize eh) elf_size with
      | None => None
      | Some (max_load_end, mapped) =>
          let needed := mapped + 1 in
          if (Z.of_nat MAX_USER_PAGES <? needed) || (pmm_available_pages (s_pmm s) <=? PMM_OOM_RESERVE_PAGES + needed) then None
          else Some max_load_end
      end.

(** The layout of the address space once the stack page is there. *)
Definition set_layout (m : vm_state) (max_load_end : Z) : vm_state :=
  let m := set_stack_base m (USER_STACK_TOP - USER_STACK_PAGES * PAGE_SIZE) in
  let m := set_stack_mapped_bottom m (USER_STACK_TOP - PAGE_SIZE) in
  let m := set_heap_base m (align_up max_load_end PAGE_SIZE) in
  let m := set_heap_end m (heap_base m) in
  task_recompute_heap_limit m.

(** [ticks] is the timer's value and [addr] the address of the task, the sources of
    the random bytes. *)
Definition task_load_elf (ti : nat) (img : list Z) (elf_size : Z) (argv : option (list (list Z))) (ticks addr : Z) s
    : bool * st :=
  match load_checks img elf_size s with
  | None => (false, s)
  | Some max_load_end =>
      let eh := ehdr_at img in
      let s := upd_task s ti (fun t => task_load_debug_symbols t img elf_size) in
      let s := task_unmap_user ti s in
      let '(ok, s) := load_segments (phdrs img (e_phoff eh) (e_phnum eh)) ti img s in
      if negb ok then (false, s)
      else
        let '(ok, s) := open_entry ti (e_entry eh) s in
        if negb ok then (false, s)
        else
          let '(ok, s) := map_stack ti s in
          if negb ok then (false, s)
          else
            let s := set_vm s ti (set_layout (vm_at s ti) max_load_end) in
            if heap_limit (vm_at s ti) <? heap_base (vm_at s ti) then (false, s)
            else load_stack ti img elf_size eh argv ticks addr s
  end.

Definition task_exec (ti : nat) (img : list Z) (elf_size : Z) (argv : option (list (list Z))) (ticks addr : Z) s : Z * st :=
  let '(ok, s) := task_load_elf ti img elf_size argv ticks addr s in
  if negb ok then (-1, s)
  else
    let s := upd_task s ti (fun t => on_sig t task_reset_signal_state_for_exec) in
    match argv with
    | Some (a :: _) => (0, upd_task s ti (fun t => task_set_comm_internal t (Some a)))
    | _ => (0, s)
    end.

Definition task_create_user (img : list Z) (elf_size pp ticks : Z) (addr : nat -> Z) s : option nat * st :=
  match task_alloc s with
  | (None, s) => (None, s)
  | (Some ti, s) =>
      let s := upd_task s ti (fun t => set_ppid t pp) in
      let s :=
        if 0 <? pp then
          match task_by_pid s pp with
          | Some parent => upd_task s ti (fun t => set_pgid t (pgid (task_at s parent)))
          | None => s
          end
        else s in
      let s := if (pp <=? 0) && (kt_init_pid (s_top s) <=? 0)
               then on_top s (fun k => kt_set_init_pid k (pid (task_at s ti))) else s in
      let '(ok, s) := task_pt_setup ti s in
      if negb ok then (None, task_reap_slot ti s)
      else
        let '(rc, s) := task_exec ti img elf_size None ticks (addr ti) s in
        if negb (rc =? 0) then (None, task_reap_slot ti s)
        else
          let s := if (pp <=? 0) && (kt_init_pid (s_top s) =? pid (task_at s ti))
                   then upd_task s ti (fun t => task_set_comm_internal t (Some comm_init)) else s in
          (Some ti, s)
  end.

End Load.
