(* ===== verification/ProcInv.v ===== *)
(** * Invariants of the task table

    Four invariants of the table and lemmas that the operations of Proc.v keep
    them: process identifiers are unique ([table_inv]), address space identifiers
    are unique within an epoch ([asid_inv]), the reader and writer counts of the
    pipes are the numbers of descriptors ([ends_inv]), and no task waits for what
    has already happened ([wait_inv]). Most steps only change fields that no
    invariant reads, or let a task stop waiting; [psim] and [asim] say so. *)

From S2P Require Import Prelude KString Pmm Pipe UserCopy Inode BlockCache PageCache FsIo TaskDefs Signal Mmu Vma Vm VmInv Proc.

(** ** Harmless changes of a task *)

Record tsim (t t' : task) : Prop := {
  ts_pid : pid t' = pid t;
  ts_pgid : pgid t' = pgid t;
  ts_fds : fds t' = fds t;
  ts_unused : state t' = TASK_UNUSED <-> state t = TASK_UNUSED;
  ts_running : state t' = TASK_RUNNING -> state t = TASK_RUNNING;
  ts_zombie : state t' = TASK_ZOMBIE -> state t = TASK_ZOMBIE /\ ppid t' = ppid t;
  ts_waiting : state t' = TASK_WAITING -> state t = TASK_WAITING /\ t_wait t' = t_wait t;
}.

#[global] Instance tsim_preorder : PreOrder tsim.
Proof.
  split; [by intros t; constructor|].
  intros a b c [A1 A2 A3 A4 A5 A6 A7] [B1 B2 B3 B4 B5 B6 B7].
  constructor; try congruence; try tauto.
  - intros H. apply B6 in H as [H ->]. by apply A6 in H.
  - intros H. apply B7 in H as [H ->]. by apply A7 in H.
Qed.

Record asame (t t' : task) : Prop := {
  as_asid : asid (t_vm t') = asid (t_vm t);
  as_epoch : asid_epoch (t_vm t') = asid_epoch (t_vm t);
  as_unused : state t' = TASK_UNUSED -> state t = TASK_UNUSED;
}.

#[global] Instance asame_preorder : PreOrder asame.
Proof. split; [by intros t; constructor|]. intros a b c [] []. constructor; try congruence. tauto. Qed.

Lemma tsim_state t t' :
  pid t' = pid t -> pgid t' = pgid t -> fds t' = fds t -> ppid t' = ppid t -> t_wait t' = t_wait t ->
  state t' = state t -> tsim t t'.
Proof. intros ? ? ? ? ? E. constructor; rewrite ?E; auto. Qed.

(** A task that stops waiting, or waits no longer for a signal's sake. *)
Lemma tsim_wakes t t' :
  pid t' = pid t -> pgid t' = pgid t -> fds t' = fds t -> state t <> TASK_UNUSED ->
  state t' = TASK_RUNNABLE \/ state t' = TASK_STOPPED -> tsim t t'.
Proof. intros ? ? ? ? [E|E]; constructor; rewrite ?E; try done. Qed.

(** Two of the kernel's paths lose wakeups; whether they are ruled out is a parameter
    of the invariants. *)
Class Strict : Type := strict : Prop.

Section Sim.
Context {N : Type} {Sx : Strict}.
Implicit Types k : ktasks (kio N).

Record psim k k' : Prop := {
  ps_tasks : Forall2 tsim (kt_tasks k) (kt_tasks k');
  ps_current : kt_current k' = kt_current k;
  ps_next_pid : kt_next_pid k' = kt_next_pid k;
  ps_pipes : io_pipes (kt_io k') = io_pipes (kt_io k);
}.

Record asim k k' : Prop := {
  am_tasks : Forall2 asame (kt_tasks k) (kt_tasks k');
  am_next : kt_next_asid k' = kt_next_asid k;
  am_epoch : kt_asid_epoch k' = kt_asid_epoch k;
}.

#[global] Instance psim_preorder : PreOrder psim.
Proof.
  split; [intros k; constructor; reflexivity|]. intros a b c [] []. constructor; try congruence. by etransitivity.
Qed.

#[global] Instance asim_preorder : PreOrder asim.
Proof.
  split; [intros k; constructor; reflexivity|]. intros a b c [] []. constructor; try congruence. by etransitivity.
Qed.

(** ** The invariants *)

Definition closed (t : task) : Prop := Forall (fun f => fd_used f = false) (fds t).

(** A descriptor has the object its kind is about. *)
Definition fd_typed (f : fd) : Prop :=
  match fd_kind f with
  | FD_NONE => True
  | FD_INODE => is_Some (fd_inode f)
  | FD_PIPE_R | FD_PIPE_W => is_Some (fd_pipe f)
  | FD_SOCKET => is_Some (fd_sock f)
  end.

Definition fds_typed (l : list fd) : Prop := Forall (fun f => fd_used f = true -> fd_typed f) l.

(** [run] is the only slot that may be marked as running. *)
Record table_inv (run : option nat) k : Prop := {
  tb_len : length (kt_tasks k) = MAX_TASKS;
  tb_fds ti t : kt_tasks k !! ti = Some t -> length (fds t) = MAX_FDS;
  tb_typed ti t : kt_tasks k !! ti = Some t -> fds_typed (fds t);
  tb_next : 1 <= kt_next_pid k;
  tb_pid ti t : kt_tasks k !! ti = Some t -> state t <> TASK_UNUSED -> 0 < pid t < kt_next_pid k;
  tb_uniq ti tj t u : kt_tasks k !! ti = Some t -> kt_tasks k !! tj = Some u ->
    state t <> TASK_UNUSED -> state u <> TASK_UNUSED -> pid t = pid u -> ti = tj;
  tb_closed ti t : kt_tasks k !! ti = Some t -> state t = TASK_UNUSED \/ state t = TASK_ZOMBIE -> closed t;
  tb_running ti t : kt_tasks k !! ti = Some t -> state t = TASK_RUNNING -> run = Some ti;
}.

Record asid_inv k : Prop := {
  ai_next : 1 <= kt_next_asid k <= 256;
  ai_epoch : 1 <= kt_asid_epoch k < 2 ^ 32;
  ai_unused ti t : kt_tasks k !! ti = Some t -> state t = TASK_UNUSED -> asid_epoch (t_vm t) = 0;
  ai_range ti t : kt_tasks k !! ti = Some t -> asid_epoch (t_vm t) = kt_asid_epoch k ->
    1 <= asid (t_vm t) < kt_next_asid k;
  ai_uniq ti tj t u : kt_tasks k !! ti = Some t -> kt_tasks k !! tj = Some u ->
    asid_epoch (t_vm t) = kt_asid_epoch k -> asid_epoch (t_vm u) = kt_asid_epoch k ->
    asid (t_vm t) = asid (t_vm u) -> ti = tj;
}.

(** The descriptors that are a read end ([rd]) or a write end of pipe [p]. *)
Definition is_end (rd : bool) (p : nat) (f : fd) : bool :=
  fd_used f && bool_decide (fd_kind f = if rd then FD_PIPE_R else FD_PIPE_W) && bool_decide (fd_pipe f = Some p).

Definition ends (rd : bool) (p : nat) (ts : list task) : Z := zsum (fun t => countb (is_end rd p) (fds t)) ts.

Definition pipe_refs (rd : bool) (q : pipe) : Z := if rd then readers q else writers q.

(** [x rd p] ends of pipe [p] are held by an operation in progress. *)
Record ends_inv (x : bool -> nat -> Z) k : Prop := {
  ei_len : length (io_pipes (kt_io k)) = MAX_PIPES;
  ei_refs rd p q : io_pipes (kt_io k) !! p = Some q -> pipe_refs rd q = ends rd p (kt_tasks k) + x rd p;
  ei_none rd p : (MAX_PIPES <= p)%nat -> ends rd p (kt_tasks k) + x rd p = 0;
  ei_used p q : io_pipes (kt_io k) !! p = Some q ->
    0 <= readers q /\ 0 <= writers q /\ (used q = true <-> 0 < readers q + writers q);
  ei_count p q : io_pipes (kt_io k) !! p = Some q -> 0 <= count q <= PIPE_CAPACITY;
  ei_ring p q : io_pipes (kt_io k) !! p = Some q -> 0 <= rpos q < PIPE_CAPACITY /\ wpos q = (rpos q + count q) mod PIPE_CAPACITY;
}.

Definition x0 : bool -> nat -> Z := fun _ _ => 0.

Definition v0 : nat -> Prop := fun _ => False.

(** What the waiting task [w] waits for has not happened. The exceptions are the
    children in the slots [v] and the pipe [y] of an operation in progress. *)
Definition read_blocked (ps : list pipe) (p : nat) : Prop :=
  exists q, ps !! p = Some q /\ used q = true /\ count q = 0 /\ 0 < writers q.

Definition write_blocked (ps : list pipe) (p : nat) : Prop :=
  exists q, ps !! p = Some q /\ used q = true /\ count q = PIPE_CAPACITY /\ 0 < readers q.

Record wait_inv (v : nat -> Prop) (y : option nat) k : Prop := {
  wi_child wi ci w c : kt_tasks k !! wi = Some w -> kt_tasks k !! ci = Some c -> ~ v ci ->
    state w = TASK_WAITING -> wait_kind (t_wait w) = WAIT_CHILD -> state c = TASK_ZOMBIE ->
    task_wait_matches_filter w c (wait_pid (t_wait w)) = false;
  wi_read wi w : kt_tasks k !! wi = Some w -> state w = TASK_WAITING -> wait_kind (t_wait w) = WAIT_PIPE_READ ->
    exists p, wait_obj (t_wait w) = Some p /\ (Some p = y \/ read_blocked (io_pipes (kt_io k)) p);
  wi_write wi w : kt_tasks k !! wi = Some w -> state w = TASK_WAITING -> wait_kind (t_wait w) = WAIT_PIPE_WRITE ->
    exists p, wait_obj (t_wait w) = Some p /\ (Some p = y \/ write_blocked (io_pipes (kt_io k)) p);
}.

(** ** Harmless changes keep the invariants *)

Lemma psim_at k k' ti t' :
  psim k k' -> kt_tasks k' !! ti = Some t' -> exists t, kt_tasks k !! ti = Some t /\ tsim t t'.
Proof. intros S Ht. apply (Forall2_lookup_r _ _ _ _ _ (ps_tasks _ _ S) Ht). Qed.

Lemma asim_at k k' ti t' :
  asim k k' -> kt_tasks k' !! ti = Some t' -> exists t, kt_tasks k !! ti = Some t /\ asame t t'.
Proof. intros S Ht. apply (Forall2_lookup_r _ _ _ _ _ (am_tasks _ _ S) Ht). Qed.

Lemma table_psim run k k' : table_inv run k -> psim k k' -> table_inv run k'.
Proof.
  intros I S. pose proof (psim_at k k') as L. constructor.
  - by rewrite <- (Forall2_length _ _ _ (ps_tasks _ _ S)), (tb_len _ _ I).
  - intros ti t' Ht. destruct (L ti t' S Ht) as (t & H & T). rewrite (ts_fds _ _ T). by eapply tb_fds.
  - intros ti t' Ht. destruct (L ti t' S Ht) as (t & H & T). rewrite (ts_fds _ _ T). by eapply tb_typed.
  - rewrite (ps_next_pid _ _ S). apply I.
  - intros ti t' Ht Hs. destruct (L ti t' S Ht) as (t & H & T). rewrite (ts_pid _ _ T), (ps_next_pid _ _ S).
    eapply tb_pid; [done|done|]. by rewrite <- (ts_unused _ _ T).
  - intros ti tj t' u' Ht Hu Hs Hs' E. destruct (L ti t' S Ht) as (t & H & T). destruct (L tj u' S Hu) as (u & H' & T').
    rewrite (ts_pid _ _ T), (ts_pid _ _ T') in E. rewrite (ts_unused _ _ T) in Hs. rewrite (ts_unused _ _ T') in Hs'.
    exact (tb_uniq _ _ I ti tj t u H H' Hs Hs' E).
  - intros ti t' Ht Hs. destruct (L ti t' S Ht) as (t & H & T). unfold closed. rewrite (ts_fds _ _ T).
    apply (tb_closed _ _ I ti t H). destruct Hs as [Hs|Hs]; [left; by apply T|right; by apply T].
  - intros ti t' Ht Hs. destruct (L ti t' S Ht) as (t & H & T). eapply tb_running; [done|done|by apply T].
Qed.

Lemma ends_psim x k k' : ends_inv x k -> psim k k' -> ends_inv x k'.
Proof.
  intros I S.
  assert (E : forall rd p, ends rd p (kt_tasks k') = ends rd p (kt_tasks k)).
  { intros rd p. symmetry. apply zsum_ext; [apply (Forall2_length _ _ _ (ps_tasks _ _ S))|].
    intros i t t' Ht Ht'. destruct (psim_at _ _ i t' S Ht') as (u & Hu & T). simplify_eq. by rewrite (ts_fds _ _ T). }
  constructor; rewrite ?(ps_pipes _ _ S); try apply I; intros *; rewrite E; apply I.
Qed.

Lemma filter_tsim w w' c c' f :
  tsim w w' -> tsim c c' -> state c' = TASK_ZOMBIE -> task_wait_matches_filter w' c' f = task_wait_matches_filter w c f.
Proof.
  intros W C Hz. destruct (ts_zombie _ _ C Hz) as [_ Hp]. unfold task_wait_matches_filter.
  by rewrite Hp, (ts_pid _ _ W), (ts_pid _ _ C), (ts_pgid _ _ W), (ts_pgid _ _ C).
Qed.

Lemma wait_psim v y k k' : wait_inv v y k -> psim k k' -> wait_inv v y k'.
Proof.
  intros I S. pose proof (psim_at k k') as L. constructor; rewrite ?(ps_pipes _ _ S).
  - intros wi ci w' c' Hw Hc Hne Sw Kw Sc. destruct (L wi w' S Hw) as (w & H & T). destruct (L ci c' S Hc) as (c & H' & T').
    rewrite (filter_tsim _ _ _ _ _ T T' Sc). destruct (ts_waiting _ _ T Sw) as [Sw0 E].
    destruct (ts_zombie _ _ T' Sc) as [Sc0 _]. rewrite E in *. by eapply wi_child.
  - intros wi w' Hw Sw Kw. destruct (L wi w' S Hw) as (w & H & T). destruct (ts_waiting _ _ T Sw) as [Sw0 E].
    rewrite E in *. by eapply wi_read.
  - intros wi w' Hw Sw Kw. destruct (L wi w' S Hw) as (w & H & T). destruct (ts_waiting _ _ T Sw) as [Sw0 E].
    rewrite E in *. by eapply wi_write.
Qed.

Lemma asid_asim k k' : asid_inv k -> asim k k' -> asid_inv k'.
Proof.
  intros I S. pose proof (asim_at k k') as L. constructor; rewrite ?(am_next _ _ S), ?(am_epoch _ _ S); try apply I.
  - intros ti t' Ht Hs. destruct (L ti t' S Ht) as (t & H & []). rewrite as_epoch0. eapply ai_unused; eauto.
  - intros ti t' Ht Hs. destruct (L ti t' S Ht) as (t & H & []). rewrite as_asid0. eapply ai_range; eauto; congruence.
  - intros ti tj t' u' Ht Hu Hs Hs' E. destruct (L ti t' S Ht) as (t & H & []). destruct (L tj u' S Hu) as (u & H' & []).
    apply (ai_uniq _ I ti tj t u H H'); congruence.
Qed.

(** The invariants together; [cur] is the current task. *)
Record proc_inv (cur run : option nat) (x : bool -> nat -> Z) (v : nat -> Prop) (y : option nat) k : Prop := {
  pi_current : kt_current k = cur;
  pi_table : table_inv run k;
  pi_asid : asid_inv k;
  pi_ends : ends_inv x k;
  pi_wait : strict -> wait_inv v y k;
}.

Definition sim k k' : Prop := psim k k' /\ asim k k'.

#[global] Instance sim_preorder : PreOrder sim.
Proof. split; [by intros k|]. intros a b c [] []. by split; etransitivity. Qed.

Lemma inv_sim cur run x v y k k' : proc_inv cur run x v y k -> sim k k' -> proc_inv cur run x v y k'.
Proof.
  intros [] [S ?]. constructor; [by rewrite (ps_current _ _ S)|by eapply table_psim|by eapply asid_asim|by eapply ends_psim|intros St; eapply wait_psim; eauto].
Qed.

(** ** Harmless steps *)

Lemma Forall2_insert_total {A} `{!Inhabited A} (R : A -> A -> Prop) `{!Reflexive R} (l : list A) i y :
  R (l !!! i) y -> Forall2 R l (<[i := y]> l).
Proof.
  intros H. destruct (decide (i < length l)%nat) as [Hi|Hi].
  - rewrite <- (list_insert_id l i (l !!! i)) at 1 by (by apply list_lookup_lookup_total_lt).
    apply Forall2_insert; [reflexivity|done].
  - rewrite list_insert_ge by lia. reflexivity.
Qed.

Lemma sim_set_task k ti t : tsim (kt_task k ti) t -> asame (kt_task k ti) t -> sim k (kt_set_task k ti t).
Proof. intros T A. split; constructor; try done; by apply Forall2_insert_total; [apply _|]. Qed.

Lemma Forall2_map_r {A} (R : A -> A -> Prop) f l : (forall t, R t (f t)) -> Forall2 R l (map f l).
Proof. intros H. induction l; simpl; constructor; auto. Qed.

Lemma sim_map k f : (forall t, tsim t (f t)) -> (forall t, asame t (f t)) -> sim k (kt_set_tasks k (map f (kt_tasks k))).
Proof. intros T A. split; constructor; try done; by apply Forall2_map_r. Qed.

(** ** Changes the invariants do not read

    What memory management, file operations and exec change of a task is read by none
    of the invariants. *)

Record tkeep (t t' : task) : Prop := {
  tk_pid : pid t' = pid t;
  tk_ppid : ppid t' = ppid t;
  tk_pgid : pgid t' = pgid t;
  tk_state : state t' = state t;
  tk_wait : t_wait t' = t_wait t;
  tk_fds : fds t' = fds t;
  tk_asid : asid (t_vm t') = asid (t_vm t);
  tk_epoch : asid_epoch (t_vm t') = asid_epoch (t_vm t);
}.

#[global] Instance tkeep_preorder : PreOrder tkeep.
Proof. split; [by intros t; constructor|]. intros a b c [] []. constructor; congruence. Qed.

Record same k k' : Prop := {
  sm_tasks : Forall2 tkeep (kt_tasks k) (kt_tasks k');
  sm_current : kt_current k' = kt_current k;
  sm_next_pid : kt_next_pid k' = kt_next_pid k;
  sm_init_pid : kt_init_pid k' = kt_init_pid k;
  sm_next : kt_next_asid k' = kt_next_asid k;
  sm_epoch : kt_asid_epoch k' = kt_asid_epoch k;
  sm_pipes : io_pipes (kt_io k') = io_pipes (kt_io k);
}.

#[global] Instance same_preorder : PreOrder same.
Proof.
  split; [intros k; constructor; reflexivity|]. intros a b c [] []. constructor; try congruence. by etransitivity.
Qed.

Lemma same_sim k k' : same k k' -> sim k k'.
Proof.
  intros [T]. split; constructor; try done; (eapply Forall2_impl; [exact T|]); intros t t' [].
  - by apply tsim_state.
  - constructor; congruence.
Qed.

Lemma same_set_task k ti t : tkeep (kt_task k ti) t -> same k (kt_set_task k ti t).
Proof. intros T. constructor; try done. by apply Forall2_insert_total; [apply _|]. Qed.

Lemma same_set_vm k ti m :
  asid m = asid (kt_vm k ti) -> asid_epoch m = asid_epoch (kt_vm k ti) -> same k (kt_set_vm k ti m).
Proof. intros A B. apply same_set_task. by constructor. Qed.

Lemma same_flush_va k ti va : same k (kt_flush_va k ti va).
Proof. constructor; reflexivity. Qed.

Lemma set_pte_asid m va pa at_ m' :
  task_set_user_pte m va pa at_ = Some m' -> asid m' = asid m /\ asid_epoch m' = asid_epoch m.
Proof. intros H. apply set_pte_Some in H as (_ & w & t & _ & ->). by destruct w. Qed.

Lemma same_wp_pages pis ns ino off ti k : same k (wp_pages pis ns ino off ti k).2.
Proof.
  revert k. induction pis as [|pi pis IH]; intros k; cbn [wp_pages]; [done|].
  destruct (negb _); [apply IH|]. destruct (task_page_validate_hw _ _) as [hw|]; [|done].
  destruct (hw_cow hw); [done|]. destruct (negb (hw_writable hw)); [apply IH|].
  destruct (task_set_user_pte _ _ _ _) as [m'|] eqn:Es; [|done]. destruct (set_pte_asid _ _ _ _ _ Es).
  etransitivity; [by apply same_set_vm|]. etransitivity; [apply same_flush_va|]. apply IH.
Qed.

Lemma same_wp ns ino off k : same k (task_pagecache_writeprotect_shared ns ino off k).2.
Proof.
  unfold task_pagecache_writeprotect_shared, writeprotect_shared. destruct ino; [|done].
  generalize (seq 0 MAX_TASKS). intros tis. revert k. induction tis as [|ti tis IH]; intros k; cbn [wp_tasks]; [done|].
  destruct (_ || _); [apply IH|].
  pose proof (same_wp_pages (seq 0 MAX_USER_PAGES) ns (Some z) (align_down off PAGE_SIZE) ti k) as R.
  destruct (wp_pages _ _ _ _ _ _) as [ok k1]. destruct ok; [|exact R]. etransitivity; [exact R|]. apply IH.
Qed.

End Sim.

(** ** The address-space operations are harmless *)

Create HintDb ssim.

Section Vm.
Context {D E N : Type} `{!BlockDrivers D, !Ext4Ops D E}.
Abbreviation st := (sys D E (ktasks (kio N))).
Implicit Types s : st.

Definition ssim s s' : Prop := sim (s_top s) (s_top s').

#[global] Instance ssim_preorder : PreOrder ssim.
Proof. split; [by intros s|]. intros a b c A B. unfold ssim in *. by etransitivity. Qed.

Definition ssame s s' : Prop := same (s_top s) (s_top s').

#[global] Instance ssame_preorder : PreOrder ssame.
Proof. split; [intros s; unfold ssame; reflexivity|]. intros a b c. unfold ssame. apply transitivity. Qed.

Lemma ssame_ssim s s' : ssame s s' -> ssim s s'.
Proof. apply same_sim. Qed.

Lemma ssame_top s s' : s_top s' = s_top s -> ssame s s'.
Proof. intros H. unfold ssame. by rewrite H. Qed.

Lemma task_at_set s ti tj t :
  task_at (set_task s ti t) tj = if decide (ti = tj /\ (ti < length (kt_tasks (s_top s)))%nat) then t else task_at s tj.
Proof.
  unfold task_at, kt_task. simpl. case_decide as H.
  - destruct H as [<- H]. by rewrite list_lookup_total_insert_eq.
  - destruct (decide (ti = tj)) as [<-|Hne]; [|by rewrite list_lookup_total_insert_ne].
    rewrite list_insert_ge by lia. done.
Qed.

Lemma vm_at_set_eq s ti m :
  vm_at (set_vm s ti m) ti = if decide (ti < length (kt_tasks (s_top s)))%nat then m else vm_at s ti.
Proof.
  unfold vm_at, kt_vm. change (t_vm (task_at (set_task s ti (set_t_vm (task_at s ti) m)) ti) =
    if decide (ti < length (kt_tasks (s_top s)))%nat then m else t_vm (task_at s ti)).
  rewrite task_at_set. destruct (decide (ti < _)%nat); [by rewrite decide_True|]. rewrite decide_False; [done|tauto].
Qed.

Lemma ssame_tkeep s s' ti : ssame s s' -> tkeep (task_at s ti) (task_at s' ti).
Proof.
  intros S. pose proof (sm_tasks _ _ S) as F. unfold task_at, kt_task. destruct (kt_tasks (s_top s) !! ti) as [t|] eqn:Ht.
  - destruct (Forall2_lookup_l _ _ _ _ _ F Ht) as (t' & Ht' & T). by rewrite (list_lookup_total_correct _ _ _ Ht), (list_lookup_total_correct _ _ _ Ht').
  - assert (Ht' : kt_tasks (s_top s') !! ti = None).
    { apply lookup_ge_None. apply lookup_ge_None in Ht. by rewrite <- (Forall2_length _ _ _ F). }
    rewrite !list_lookup_total_alt, Ht, Ht'. done.
Qed.

Lemma ssame_set_vm s ti m :
  asid m = asid (vm_at s ti) -> asid_epoch m = asid_epoch (vm_at s ti) -> ssame s (set_vm s ti m).
Proof. apply same_set_vm. Qed.

Lemma ssame_flush s ti va : ssame s (flush_va s ti va).
Proof. apply same_flush_va. Qed.

Lemma ssame_refresh s ti : ssame s (refresh ti s).
Proof. by apply ssame_set_vm. Qed.

Lemma ssame_free s p : ssame s (free_page p s).
Proof. by apply ssame_top. Qed.

Lemma ssame_set_pmm s p : ssame s (sys_set_pmm s p).
Proof. by apply ssame_top. Qed.

Lemma ssame_set_ram s m : ssame s (sys_set_ram s m).
Proof. by apply ssame_top. Qed.

Lemma ssame_writeback_page ti vi ui s : ssame s (task_vma_writeback_page ti vi ui s).2.
Proof.
  unfold task_vma_writeback_page. destruct vi as [vi|]; [|done]. cbv zeta.
  destruct (vma_inode _) as [p|]; [|done]. do 4 (destruct (_ : bool); [done|]).
  destruct (task_page_validate_hw _ _) as [hw|]; [|done]. do 2 (destruct (_ : bool); [done|]).
  destruct (pagecache_writeback _ _ _ _ _) as [ok s'] eqn:Ew. apply top_writeback in Ew. by apply ssame_top.
Qed.

Lemma ssame_flush_inode ino s : ssame s (pagecache_flush_inode ino s).2.
Proof.
  unfold pagecache_flush_inode. destruct ino; [|done].
  destruct (pagecache_flush_match _ _ _ _ _ _) as [rc s'] eqn:Ef.
  exact (topr_flush_match same same_wp _ _ _ _ _ _ _ _ Ef).
Qed.

Lemma ssame_map_user_page ti va pa w x c i s : ssame s (task_map_user_page ti va pa w x c i s).2.
Proof.
  unfold task_map_user_page. cbv zeta. destruct (task_find_page _ _); [done|].
  destruct (task_set_user_pte _ _ _ _) as [m|] eqn:Es; [|done]. destruct (set_pte_asid _ _ _ _ _ Es) as [A B].
  unfold task_track_page. destruct (find_idx _ _) as [j|]; cbn [snd].
  - etransitivity; [|apply ssame_refresh]. by apply ssame_set_vm.
  - unfold clear_pte. destruct (task_l3_for_va m va) as [[w0 t0]|]; [|by apply ssame_set_vm].
    apply ssame_set_vm; by destruct w0.
Qed.

Lemma ssame_unmap_user ti s : ssame s (task_unmap_user ti s).
Proof.
  unfold task_unmap_user. trans (unmap_user_loop (seq 0 MAX_USER_PAGES) ti s).
  - generalize (seq 0 MAX_USER_PAGES). intros uis. revert s. induction uis as [|ui uis IH]; intros s; cbn [unmap_user_loop]; [done|].
    destruct (up_used _); [|apply IH].
    pose proof (ssame_writeback_page ti (task_vma_find (vm_at s ti) (up_va (page_at (vm_at s ti) ui))) ui s) as W.
    destruct (task_vma_writeback_page _ _ _ _) as [ok s1]. cbn [snd] in W.
    etransitivity; [exact W|]. etransitivity; [apply ssame_free|apply IH].
  - generalize (unmap_user_loop (seq 0 MAX_USER_PAGES) ti s). clear s. intros s.
    unfold unmap_user_tables. cbv zeta. etransitivity; [|apply ssame_refresh].
    match goal with |- context [set_vm s ti ?m] => set (m0 := m) end.
    trans (set_vm s ti m0); [by apply ssame_set_vm|]. clearbody m0.
    destruct (negb (asid m0 =? 0)); [|reflexivity]. constructor; reflexivity.
Qed.

Lemma ssame_pt_setup ti s : ssame s (task_pt_setup ti s).2.
Proof.
  unfold task_pt_setup. destruct (_ <=? _); [done|].
  repeat match goal with |- context [let '(_, _) := ?a in _] => destruct a end. cbv zeta.
  match goal with |- context [if ?b then _ else _] => destruct b end; cbn [snd].
  - etransitivity; [apply ssame_set_pmm|]. by apply ssame_set_vm.
  - etransitivity; [|apply ssame_refresh]. etransitivity; [apply ssame_set_pmm|].
    etransitivity; apply ssame_set_vm; try reflexivity; rewrite vm_at_set_eq; by case_decide.
Qed.

Lemma ssame_fork_pages uis p c s : ssame s (fork_pages uis p c s).2.
Proof.
  revert s. induction uis as [|ui uis IH]; intros s; cbn [fork_pages]; [done|].
  destruct (negb _); [apply IH|].
  assert (F : ssame s (fork_page p c ui s).2).
  { unfold fork_page. cbv zeta. destruct (task_page_validate_hw _ _) as [hw|]; [|done].
    do 4 (destruct (_ : bool); [done|]).
    match goal with |- context [if ?b then _ else _] => destruct b end.
    - destruct (hw_cow hw); [done|].
      match goal with |- context [task_map_user_page ?a ?b ?d ?e ?f ?g ?h ?i] =>
        pose proof (ssame_map_user_page a b d e f g h i) as M; destruct (task_map_user_page a b d e f g h i) as [ok s1] end.
      cbn [snd] in M. assert (S1 : ssame s s1) by (etransitivity; [|exact M]; by apply ssame_top).
      destruct (negb ok); [etransitivity; [exact S1|apply ssame_free]|exact S1].
    - match goal with |- context [task_map_user_page ?a ?b ?d ?e ?f ?g ?h ?i] =>
        pose proof (ssame_map_user_page a b d e f g h i) as M; destruct (task_map_user_page a b d e f g h i) as [ok s1] end.
      cbn [snd] in M. assert (S1 : ssame s s1) by (etransitivity; [|exact M]; by apply ssame_top).
      destruct (negb ok); [etransitivity; [exact S1|apply ssame_free]|].
      destruct (_ && _); [|exact S1]. destruct (task_set_user_pte _ _ _ _) as [m|] eqn:Es; [|exact S1].
      destruct (set_pte_asid _ _ _ _ _ Es) as [A B]. etransitivity; [exact S1|].
      etransitivity; [by apply ssame_set_vm|apply ssame_flush]. }
  destruct (fork_page p c ui s) as [ok s1]. cbn [snd] in F. destruct (negb ok); [exact F|].
  etransitivity; [exact F|apply IH].
Qed.

End Vm.
