(* ===== verification/ProcVm.v ===== *)
(** * User memory and the task table

    The operations of Vm.v leave everything the invariants of ProcInv.v speak of
    alone: page faults, brk, mmap, munmap, mprotect, msync and syncing only change
    the address spaces, the TLB, the caches and the allocator. So does exec, apart
    from the names, registers and signal actions. *)

From S2P Require Import Prelude KString Pmm Pipe UserCopy Inode BlockCache PageCache FsIo TaskDefs Signal Mmu Vma Vm VmInv Proc Elf ProcInv.

(** A call [f] in the goal, with the harmless change [lem] says it makes. *)
Ltac ssame_call f lem :=
  let W := fresh "W" in
  let E := fresh "E" in
  pose proof lem as W; destruct f as [? ?] eqn:E; clear E; cbn [snd] in W; (etransitivity; [exact W|]); clear W.

Ltac case_bool := match goal with |- ssame _ (snd (if ?b then _ else _)) => destruct b end.

Section Memory.
Context {D E N : Type} `{!BlockDrivers D, !Ext4Ops D E}.
Abbreviation st := (sys D E (ktasks (kio N))).
Implicit Types s : st.

Lemma ssame_set_vm_eq s ti m m' :
  m = vm_at s ti -> asid m' = asid m -> asid_epoch m' = asid_epoch m -> ssame s (set_vm s ti m').
Proof. intros ->. apply ssame_set_vm. Qed.

Lemma clear_pte_asid m va : asid (clear_pte m va) = asid m /\ asid_epoch (clear_pte m va) = asid_epoch m.
Proof. unfold clear_pte. by destruct (task_l3_for_va m va) as [[[] ?]|]. Qed.

Lemma vma_cut_asid m i cs ce m' : vma_cut m i cs ce = Some m' -> asid m' = asid m /\ asid_epoch m' = asid_epoch m.
Proof.
  unfold vma_cut. do 3 (destruct (_ : bool); [by intros [= <-]|]). destruct (task_vma_slot m); by intros [= <-].
Qed.

Lemma split_at_asid m a ok m' : task_vma_split_at m a = (ok, m') -> asid m' = asid m /\ asid_epoch m' = asid_epoch m.
Proof.
  unfold task_vma_split_at. destruct (negb _); [by intros [= <- <-]|]. destruct (find_idx _ _); [|by intros [= <- <-]].
  cbv zeta. destruct (task_vma_slot m); by intros [= <- <-].
Qed.

Lemma ssame_anon_fault ti va w x s : ssame s (task_map_user_anon_fault_page ti va w x s).2.
Proof.
  unfold task_map_user_anon_fault_page. destruct (_ <=? _); [done|]. destruct (pmm_alloc_page _) as [page p]. cbv zeta.
  etransitivity; [apply (ssame_set_pmm s p)|]. destruct (page =? 0); [done|].
  match goal with |- context [let '(_, _) := ?f in _] => ssame_call f (ssame_map_user_page ti va page w x false w (sys_set_pmm s p)) end.
  destruct (negb _); [apply ssame_free|apply ssame_flush].
Qed.

Lemma ssame_get_or_create ino off s : ssame s (pagecache_get_or_create ino off s).2.
Proof. destruct (pagecache_get_or_create ino off s) as [r s'] eqn:Ec. apply ssame_top. exact (top_get_or_create _ _ _ _ _ Ec). Qed.

Lemma ssame_file_fault ti vi va w x s : ssame s (task_map_user_file_fault_page ti vi va w x s).2.
Proof.
  unfold task_map_user_file_fault_page. cbv zeta. destruct (_ || _); [done|]. destruct (has_bits _ _).
  - match goal with |- context [pagecache_get_or_create ?i ?o s] =>
      ssame_call (pagecache_get_or_create i o s) (ssame_get_or_create i o s) end.
    destruct o as [pa|]; [|done].
    match goal with |- context [let '(_, _) := task_map_user_page ?a ?b ?c ?d ?e ?f ?g ?h in _] =>
      ssame_call (task_map_user_page a b c d e f g h) (ssame_map_user_page a b c d e f g h) end.
    destruct (negb _); [apply ssame_free|apply ssame_flush].
  - destruct (_ <=? _); [done|]. destruct (pmm_alloc_page _) as [page p]. etransitivity; [apply (ssame_set_pmm s p)|].
    destruct (page =? 0); [done|].
    match goal with |- context [pagecache_get_or_create ?i ?o ?s] =>
      ssame_call (pagecache_get_or_create i o s) (ssame_get_or_create i o s) end.
    destruct o as [pa|]; [|apply ssame_free].
    match goal with |- context [let '(_, _) := task_map_user_page ?a ?b ?c ?d ?e ?f ?g ?h in _] =>
      trans h; [by apply ssame_top|ssame_call (task_map_user_page a b c d e f g h) (ssame_map_user_page a b c d e f g h)] end.
    destruct (negb _); [apply ssame_free|apply ssame_flush].
Qed.

Lemma ssame_unmap_page ti va s : ssame s (task_unmap_user_page ti va s).2.
Proof.
  unfold task_unmap_user_page. destruct (task_find_page _ _) as [ui|]; [|done].
  destruct (task_page_validate_hw _ _); [|done]. destruct (bool_decide _); [done|].
  assert (W : ssame s (match task_vma_find (vm_at s ti) va with
    | None => (true, s) | Some vi => task_vma_writeback_page ti (Some vi) ui s end).2).
  { destruct (task_vma_find _ _); [apply ssame_writeback_page|done]. }
  match goal with |- context [let '(_, _) := ?f in _] => destruct f as [ok s1] end. cbn [snd] in W.
  etransitivity; [exact W|]. clear W. destruct (negb ok); [done|]. cbv zeta. cbn [snd].
  etransitivity; [|apply ssame_refresh]. destruct (clear_pte_asid (vm_at s1 ti) va) as [A B].
  etransitivity; [apply (ssame_set_vm s1 ti _ A B)|]. etransitivity; [apply (ssame_flush _ ti va)|].
  etransitivity; [apply ssame_free|]. by apply ssame_set_vm.
Qed.

Lemma ssame_unmap_pages ti vas s : ssame s (unmap_pages ti vas s).
Proof.
  unfold unmap_pages. revert s. induction vas as [|va vas IH]; intros s; cbn [foldl]; [done|].
  etransitivity; [apply ssame_unmap_page|apply IH].
Qed.

Lemma ssame_unmap_range ti a b r s : ssame s (task_vma_unmap_range ti a b r s).2.
Proof.
  unfold task_vma_unmap_range. cbv zeta. do 3 (destruct (_ : bool); [done|]).
  assert (L : forall is_ s, ssame s (unmap_range_loop is_ ti a b s).2).
  { clear s. intros is_. induction is_ as [|i is_ IH]; intros s; cbn [unmap_range_loop]; [done|]. cbv zeta.
    destruct (negb _); [apply IH|].
    match goal with |- context [unmap_pages ti ?v s] => trans (unmap_pages ti v s); [apply ssame_unmap_pages|] end.
    match goal with |- context [vma_cut ?m ?i ?c ?e] => destruct (vma_cut m i c e) as [m'|] eqn:Ec end; [|done].
    apply vma_cut_asid in Ec as [A B]. etransitivity; [apply (ssame_set_vm _ ti m' A B)|apply IH]. }
  ssame_call (unmap_range_loop (seq 0 MAX_VMAS) ti a b s) (L (seq 0 MAX_VMAS) s).
  destruct (negb _); [done|]. cbn [snd]. etransitivity; [|apply ssame_refresh]. by apply ssame_set_vm.
Qed.

Lemma ssame_brk b s : ssame s (task_brk b s).2.
Proof.
  unfold task_brk. destruct (kt_current _) as [ti|]; [|done]. cbv zeta. do 2 (destruct (_ : bool); [done|]). cbn [snd].
  etransitivity; [apply (ssame_set_vm s ti (set_heap_end (vm_at s ti) b)); reflexivity|].
  destruct (_ <? _); [apply ssame_unmap_pages|done].
Qed.

Lemma ssame_mmap addr len prot flags fd off s : ssame s (task_mmap addr len prot flags fd off s).2.
Proof.
  unfold task_mmap. destruct (kt_current _) as [ti|]; [|done]. cbv zeta. do 3 (destruct (_ : bool); [done|]).
  match goal with |- context [match ?f with Some _ => _ | None => _ end] => destruct f as [file|] end; [|done].
  destruct (_ : bool); [done|].
  match goal with |- context [let '(_, _) := ?f in _] => assert (W : ssame s f.2); [|destruct f as [place s1]; cbn [snd] in W] end.
  { destruct (has_bits _ _); [|done]. do 2 (destruct (_ : bool); [done|]).
    match goal with |- context [task_vma_unmap_range ?a ?b ?c ?d ?e] => pose proof (ssame_unmap_range a b c d e) as W; by destruct (task_vma_unmap_range a b c d e) end. }
  etransitivity; [exact W|]. destruct place as [start|]; [|done]. destruct (task_vma_slot _); [|done]. by apply ssame_set_vm.
Qed.

Lemma ssame_munmap addr len s : ssame s (task_munmap addr len s).2.
Proof.
  unfold task_munmap. destruct (kt_current _) as [ti|]; [|done]. cbv zeta. do 3 (destruct (_ : bool); [done|]).
  match goal with |- context [task_vma_unmap_range ?a ?b ?c ?d ?e] => pose proof (ssame_unmap_range a b c d e) as W; by destruct (task_vma_unmap_range a b c d e) end.
Qed.

Lemma ssame_set_prot ti ui prot s : ssame s (task_page_set_prot ti ui prot s).2.
Proof.
  unfold task_page_set_prot. cbv zeta. destruct (task_page_validate_hw _ _); [|done].
  assert (F : forall s va pa at_, ssame s (match task_set_user_pte (vm_at s ti) va pa at_ with
    | None => (false, s) | Some m => (true, flush_va (set_vm s ti m) ti va) end).2).
  { clear s. intros s va pa at_. destruct (task_set_user_pte _ _ _ _) as [m|] eqn:Es; [|done].
    destruct (set_pte_asid _ _ _ _ _ Es) as [A B]. cbn [snd]. etransitivity; [apply (ssame_set_vm s ti m A B)|apply ssame_flush]. }
  destruct (has_bits _ _); [|etransitivity; [|apply F]; by apply ssame_set_vm].
  destruct (_ =? 0); [done|]. destruct (_ && _); [|etransitivity; [|apply F]; by apply ssame_set_vm].
  destruct (_ <=? _); [done|]. destruct (pmm_alloc_page _) as [page p]. etransitivity; [apply (ssame_set_pmm s p)|].
  destruct (page =? 0); [done|]. etransitivity; [|apply F].
  etransitivity; [|by apply ssame_set_vm]. by apply ssame_top.
Qed.

Lemma ssame_mprotect addr len prot s : ssame s (task_mprotect addr len prot s).2.
Proof.
  unfold task_mprotect. destruct (kt_current _) as [ti|]; [|done]. cbv zeta. do 6 (destruct (_ : bool); [done|]).
  destruct (task_vma_split_at _ addr) as [ok1 m1] eqn:E1. apply split_at_asid in E1 as [A1 B1].
  destruct (negb ok1); [by apply ssame_set_vm|].
  destruct (task_vma_split_at m1 _) as [ok2 m2] eqn:E2. apply split_at_asid in E2 as [A2 B2].
  destruct (negb ok2); [apply ssame_set_vm; simpl; congruence|].
  match goal with |- context [mprotect_pages ti ?v prot ?s1] => trans s1; [apply ssame_set_vm; simpl; congruence|generalize v s1] end.
  clear. intros vas s. assert (L : ssame s (mprotect_pages ti vas prot s).2).
  { revert s. induction vas as [|va vas IH]; intros s; cbn [mprotect_pages]; [done|].
    destruct (task_find_page _ _) as [ui|]; [|apply IH]. ssame_call (task_page_set_prot ti ui prot s) (ssame_set_prot ti ui prot s).
    destruct (negb _); [done|apply IH]. }
  ssame_call (mprotect_pages ti vas prot s) L. destruct (negb _); [done|apply ssame_refresh].
Qed.

Lemma ssame_sync_inode ino s : ssame s (fs_sync_inode ino s).2.
Proof.
  unfold fs_sync_inode. destruct ino as [p|]; [|done]. cbv zeta.
  match goal with |- context [let '(_, _) := ?f in _] => assert (W : ssame s f.2); [|ssame_call f W] end.
  { destruct (_ : bool); [apply ssame_flush_inode|done]. }
  destruct (negb _); [done|]. case_decide.
  - unfold sync_ext4. destruct (ext4_sync_filesystem _) as [ok x]. destruct (negb ok); [by apply ssame_top|].
    destruct (fs_is_block_dev _); [|by apply ssame_top]. unfold sync_blocks.
    destruct (block_cache_flush _) as [rc b]. destruct (negb _); by apply ssame_top.
  - simpl. destruct (fs_is_block_dev _); [|by apply ssame_top]. unfold sync_blocks.
    destruct (block_cache_flush _) as [rc b]. destruct (negb _); by apply ssame_top.
Qed.

Lemma ssame_flush_range ino off len s : ssame s (pagecache_flush_inode_range ino off len s).2.
Proof.
  unfold pagecache_flush_inode_range. destruct ino; [|done].
  match goal with |- context [pagecache_flush_match ?a ?b ?c ?d ?e ?f] => destruct (pagecache_flush_match a b c d e f) as [rc s'] eqn:Ef end.
  exact (topr_flush_match same same_wp _ _ _ _ _ _ _ _ Ef).
Qed.

Lemma ssame_invalidate ino off len s : ssame s (pagecache_invalidate_inode_range ino off len s).2.
Proof.
  unfold pagecache_invalidate_inode_range. destruct ino; [|done].
  match goal with |- context [invalidate_range_loop ?a ?b ?c ?d ?e ?f] => destruct (invalidate_range_loop a b c d e f) as [rc s'] eqn:Ef end.
  apply ssame_top. exact (top_invalidate_range _ _ _ _ _ _ _ _ Ef).
Qed.

Lemma ssame_msync_loop is_ ti a b flags synced s : ssame s (msync_loop is_ ti a b flags synced s).2.
Proof.
  revert synced s. induction is_ as [|i is_ IH]; intros synced s; cbn [msync_loop]; [done|]. cbv zeta.
  destruct (_ || _); [apply IH|]. destruct (vma_inode _) as [p|]; [|apply IH]. do 2 (destruct (_ : bool); [apply IH|]).
  match goal with |- context [pagecache_flush_inode_range ?a ?b ?c ?d] =>
    ssame_call (pagecache_flush_inode_range a b c d) (ssame_flush_range a b c d) end.
  destruct (negb _); [done|].
  match goal with |- ssame ?s1 (let '(_, _) := ?f in _).2 => assert (W : ssame s1 f.2); [|ssame_call f W] end.
  { destruct (has_bits _ _); [apply ssame_invalidate|done]. }
  destruct (negb _); [done|]. destruct (_ && _); [|apply IH].
  match goal with |- context [fs_sync_inode ?a ?b] => ssame_call (fs_sync_inode a b) (ssame_sync_inode a b) end.
  destruct (negb _); [done|apply IH].
Qed.

Lemma ssame_msync addr len flags s : ssame s (task_msync addr len flags s).2.
Proof.
  unfold task_msync. destruct (kt_current _) as [ti|]; [|done]. cbv zeta. do 6 (destruct (_ : bool); [done|]).
  apply ssame_msync_loop.
Qed.

Lemma ssame_grow fuel ti b s : ssame s (grow_stack fuel ti b s).2.
Proof.
  revert s. induction fuel as [|fuel IH]; intros s; cbn [grow_stack]; [done|]. destruct (negb _); [done|]. cbv zeta.
  match goal with |- context [task_map_user_anon_fault_page ?a ?b ?c ?d ?e] =>
    ssame_call (task_map_user_anon_fault_page a b c d e) (ssame_anon_fault a b c d e) end.
  destruct (negb _); [done|]. etransitivity; [|apply IH]. by apply ssame_set_vm.
Qed.

Lemma ssame_mark_dirty ino off len s : ssame s (pagecache_mark_dirty ino off len s).
Proof. exact (topr_mark_dirty same same_wp ino off len s). Qed.

Lemma ssame_write_fault ti va s : ssame s (write_fault ti va s).2.
Proof.
  unfold write_fault. cbv zeta. destruct (task_find_page _ _) as [ui|]; [|done].
  destruct (task_page_validate_hw _ _) as [hw|]; [|done].
  assert (F : forall s pa, ssame s (match task_set_user_pte (vm_at s ti) va pa (task_user_attrs true (hw_executable hw) false) with
    | None => (false, s) | Some m => (true, refresh ti (flush_va (set_vm s ti m) ti va)) end).2).
  { clear s. intros s pa. destruct (task_set_user_pte _ _ _ _) as [m|] eqn:Es; [|done].
    destruct (set_pte_asid _ _ _ _ _ Es) as [A B]. cbn [snd]. etransitivity; [|apply ssame_refresh].
    etransitivity; [apply (ssame_set_vm s ti m A B)|apply ssame_flush]. }
  do 2 (case_bool; [done|]). case_bool.
  - destruct (task_vma_find _ _) as [vi|]; [|done]. case_bool; [done|].
    etransitivity; [apply ssame_mark_dirty|apply F].
  - destruct (_ =? 0); [done|]. destruct (1 <? _); [|apply F]. destruct (_ <=? _); [done|].
    destruct (pmm_alloc_page _) as [page p]. etransitivity; [apply (ssame_set_pmm s p)|].
    destruct (page =? 0); [done|]. etransitivity; [|apply F]. etransitivity; [|by apply ssame_set_vm]. by apply ssame_top.
Qed.

Lemma ssame_translation_fault ti fva va w x sp s : ssame s (translation_fault ti fva va w x sp s).2.
Proof.
  unfold translation_fault. cbv zeta. destruct (task_find_page _ _); [done|]. case_bool; [done|].
  destruct (task_vma_find _ _) as [vi|].
  - do 3 (case_bool; [done|]). case_bool; [apply ssame_file_fault|apply ssame_anon_fault].
  - destruct x; [done|]. case_bool; [apply ssame_anon_fault|]. case_bool; [|done].
    unfold stack_fault. cbv zeta. do 5 (case_bool; [done|]). apply ssame_grow.
Qed.

Lemma ssame_page_fault va w t x sp s : ssame s (task_handle_page_fault va w t x sp s).2.
Proof.
  unfold task_handle_page_fault. destruct (kt_current _) as [ti|]; [|done]. cbv zeta. destruct (_ || _); [done|].
  destruct t; [apply ssame_translation_fault|]. destruct (negb w); [done|apply ssame_write_fault].
Qed.

End Memory.

(** ** Exec *)

Section Exec.
Context {D E N : Type} `{!BlockDrivers D, !Ext4Ops D E, !SocketOps N}.
Abbreviation st := (sys D E (ktasks (kio N))).
Implicit Types s : st.

Lemma ssame_upd s ti f :
  (forall t, pid (f t) = pid t /\ ppid (f t) = ppid t /\ pgid (f t) = pgid t /\ state (f t) = state t /\
    t_wait (f t) = t_wait t /\ fds (f t) = fds t /\ t_vm (f t) = t_vm t) -> ssame s (upd_task s ti f).
Proof.
  intros H. destruct (H (task_at s ti)) as (H1 & H2 & H3 & H4 & H5 & H6 & H7).
  apply same_set_task. constructor; rewrite ?H7; done.
Qed.

Lemma ssame_copy_user ti va bs s : ssame s (task_copy_to_user_va ti va bs s).2.
Proof.
  revert va s. induction bs as [|b bs IH]; intros va s; cbn [task_copy_to_user_va]; [done|].
  destruct (task_translate _ _) as [pa|]; [|done]. etransitivity; [|apply IH]. apply ssame_set_ram.
Qed.

Lemma ssame_map_segment vas ti w x s : ssame s (map_segment vas ti w x s).2.
Proof.
  revert s. induction vas as [|va vas IH]; intros s; cbn [map_segment]; [done|]. destruct (task_find_page _ _) as [ui|].
  - cbv zeta. destruct (task_page_validate_hw _ _) as [hw|]; [|done].
    destruct (task_set_user_pte _ _ _ _) as [m|] eqn:Es; [|done]. destruct (set_pte_asid _ _ _ _ _ Es) as [A B].
    etransitivity; [|apply IH]. etransitivity; [|apply ssame_flush]. by apply ssame_set_vm.
  - destruct (_ <=? _); [done|]. destruct (pmm_alloc_page _) as [page p]. cbv zeta.
    etransitivity; [apply (ssame_set_pmm s p)|]. destruct (page =? 0); [done|].
    match goal with |- context [let '(_, _) := ?f in _] =>
      ssame_call f (ssame_map_user_page ti va page w x false w (sys_set_pmm s p)) end.
    case_bool; [done|apply IH].
Qed.

Lemma ssame_zero_user n ti va s : ssame s (zero_user n ti va s).2.
Proof.
  revert va s. induction n as [|n IH]; intros va s; cbn [zero_user]; [done|].
  ssame_call (task_copy_to_user_va ti va [0] s) (ssame_copy_user ti va [0] s). case_bool; [done|apply IH].
Qed.

Lemma ssame_load_segments phs ti img s : ssame s (load_segments phs ti img s).2.
Proof.
  revert s. induction phs as [|ph phs IH]; intros s; cbn [load_segments]; [done|]. case_bool; [apply IH|]. cbv zeta.
  match goal with |- context [map_segment ?a ?b ?c ?d ?e] => ssame_call (map_segment a b c d e) (ssame_map_segment a b c d e) end.
  case_bool; [done|].
  match goal with |- context [task_copy_to_user_va ?a ?b ?c ?d] => ssame_call (task_copy_to_user_va a b c d) (ssame_copy_user a b c d) end.
  case_bool; [done|].
  match goal with |- context [zero_user ?a ?b ?c ?d] => ssame_call (zero_user a b c d) (ssame_zero_user a b c d) end.
  case_bool; [done|apply IH].
Qed.

Lemma ssame_open_entry ti e s : ssame s (open_entry ti e s).2.
Proof.
  unfold open_entry. cbv zeta. destruct (task_find_page _ _) as [ui|]; [|done].
  destruct (task_page_validate_hw _ _) as [hw|]; [|done]. case_bool; [|done].
  destruct (task_set_user_pte _ _ _ _) as [m|] eqn:Es; [|done]. destruct (set_pte_asid _ _ _ _ _ Es) as [A B].
  cbn [snd]. etransitivity; [by apply (ssame_set_vm s ti m)|apply ssame_flush].
Qed.

Lemma ssame_map_stack ti s : ssame s (map_stack ti s).2.
Proof.
  unfold map_stack. destruct (_ <=? _); [done|]. destruct (pmm_alloc_page _) as [page p]. cbv zeta.
  etransitivity; [apply (ssame_set_pmm s p)|]. destruct (page =? 0); [done|].
  match goal with |- context [task_map_user_page ?a ?b ?c ?d ?e ?f ?g ?h] =>
    ssame_call (task_map_user_page a b c d e f g h) (ssame_map_user_page a b c d e f g h) end.
  case_bool; [apply ssame_free|done].
Qed.

Lemma ssame_push_args rargs ti sp ptrs s : ssame s (push_args rargs ti sp ptrs s).2.
Proof.
  revert sp ptrs s. induction rargs as [|a rargs IH]; intros sp ptrs s; cbn [push_args]; [done|]. cbv zeta.
  match goal with |- context [task_copy_to_user_va ?a ?b ?c ?d] => ssame_call (task_copy_to_user_va a b c d) (ssame_copy_user a b c d) end.
  case_bool; [done|apply IH].
Qed.

Lemma ssame_load_stack ti img sz eh argv ticks addr s : ssame s (load_stack ti img sz eh argv ticks addr s).2.
Proof.
  unfold load_stack. pose proof (ssame_push_args (reverse (kargs argv)) ti USER_STACK_TOP [] s) as P. cbv zeta.
  destruct (push_args _ _ _ _ _) as [[[ptrs sp]|] s1]; [|exact P]. etransitivity; [exact P|]. clear P.
  match goal with |- context [task_copy_to_user_va ?a ?b ?c ?d] => ssame_call (task_copy_to_user_va a b c d) (ssame_copy_user a b c d) end.
  case_bool; [done|].
  match goal with |- context [task_copy_to_user_va ?a ?b ?c ?d] => ssame_call (task_copy_to_user_va a b c d) (ssame_copy_user a b c d) end.
  do 2 (case_bool; [done|]). cbn [snd]. etransitivity; [|apply ssame_refresh]. by apply ssame_upd.
Qed.

Lemma debug_syms_harmless img sz t :
  let t' := task_load_debug_symbols t img sz in
  pid t' = pid t /\ ppid t' = ppid t /\ pgid t' = pgid t /\ state t' = state t /\ t_wait t' = t_wait t /\ fds t' = fds t /\ t_vm t' = t_vm t.
Proof. unfold task_load_debug_symbols. destruct (_ <? _); [done|]. by destruct (negb _). Qed.

Lemma ssame_load_elf ti img sz argv ticks addr s : ssame s (task_load_elf ti img sz argv ticks addr s).2.
Proof.
  unfold task_load_elf. destruct (load_checks _ _ _) as [mle|]; [|done]. cbv zeta.
  match goal with |- context [load_segments ?a ?b ?c ?d] =>
    trans d; [|ssame_call (load_segments a b c d) (ssame_load_segments a b c d)] end.
  { etransitivity; [|apply ssame_unmap_user]. apply ssame_upd. apply debug_syms_harmless. }
  case_bool; [done|].
  match goal with |- context [open_entry ?a ?b ?c] => ssame_call (open_entry a b c) (ssame_open_entry a b c) end.
  case_bool; [done|].
  match goal with |- context [map_stack ?a ?b] => ssame_call (map_stack a b) (ssame_map_stack a b) end.
  case_bool; [done|].
  match goal with |- context [load_stack _ _ _ _ _ _ _ ?s1] => trans s1; [by apply ssame_set_vm|] end.
  case_bool; [done|apply ssame_load_stack].
Qed.

Lemma set_comm_harmless t name :
  let t' := task_set_comm_internal t name in
  pid t' = pid t /\ ppid t' = ppid t /\ pgid t' = pgid t /\ state t' = state t /\ t_wait t' = t_wait t /\ fds t' = fds t /\ t_vm t' = t_vm t.
Proof. unfold task_set_comm_internal. by destruct name as [[|? ?]|]. Qed.

Lemma ssame_exec ti img sz argv ticks addr s : ssame s (task_exec ti img sz argv ticks addr s).2.
Proof.
  unfold task_exec. ssame_call (task_load_elf ti img sz argv ticks addr s) (ssame_load_elf ti img sz argv ticks addr s).
  case_bool; [done|]. cbv zeta. destruct argv as [[|a argv]|]; [by apply ssame_upd| |by apply ssame_upd].
  etransitivity; [by apply (ssame_upd _ ti (fun t => on_sig t task_reset_signal_state_for_exec))|].
  apply ssame_upd. intros t. apply (set_comm_harmless t (Some a)).
Qed.

End Exec.
