(* ===== verification/ProcOps.v ===== *)
(** * The process operations keep the invariants of the task table

    Lemmas for waking, descriptors, address space identifiers, creation, release,
    exiting, waiting, signals, scheduling and the system calls on pipes. *)

From S2P Require Import Prelude KString Pmm Pipe UserCopy Inode BlockCache PageCache FsIo TaskDefs Signal Mmu Vma Vm VmInv Proc ProcInv.

Lemma is_state_true t x : is_state t x = true <-> state t = x.
Proof. apply bool_decide_eq_true. Qed.

Lemma is_state_false t x : is_state t x = false <-> state t <> x.
Proof. apply bool_decide_eq_false. Qed.

Lemma is_live_true t : is_live t = true <-> state t <> TASK_UNUSED /\ state t <> TASK_ZOMBIE.
Proof. unfold is_live. by rewrite andb_true_iff, !negb_true_iff, !is_state_false. Qed.

Section Ops.
Context {D E N : Type} `{!BlockDrivers D, !Ext4Ops D E, !SocketOps N}.
Abbreviation st := (sys D E (ktasks (kio N))).
Implicit Types s : st.

Context {Sx : Strict} {cur run : option nat}.

Definition inv (x : bool -> nat -> Z) (v : nat -> Prop) (y : option nat) s : Prop := proc_inv cur run x v y (s_top s).

Lemma inv_ssim x v y s s' : inv x v y s -> ssim s s' -> inv x v y s'.
Proof. apply inv_sim. Qed.

Lemma task_lookup s ti : (ti < length (get_tasks s))%nat -> get_tasks s !! ti = Some (task_at s ti).
Proof. apply list_lookup_lookup_total_lt. Qed.

Lemma task_in x v y s ti : inv x v y s -> (ti < MAX_TASKS)%nat -> get_tasks s !! ti = Some (task_at s ti).
Proof. intros I H. apply task_lookup. unfold get_tasks. by rewrite (tb_len _ _ (pi_table _ _ _ _ _ _ I)). Qed.

Lemma task_at_eq s ti t : get_tasks s !! ti = Some t -> task_at s ti = t.
Proof. apply list_lookup_total_correct. Qed.

Lemma upd_ssim s ti f :
  tsim (task_at s ti) (f (task_at s ti)) -> asame (task_at s ti) (f (task_at s ti)) -> ssim s (upd_task s ti f).
Proof. apply sim_set_task. Qed.

Lemma map_ssim s f : (forall t, tsim t (f t)) -> (forall t, asame t (f t)) -> ssim s (map_tasks s f).
Proof. apply sim_map. Qed.

(** ** Waking *)

Lemma woken_tsim t : state t = TASK_WAITING -> tsim t (woken t).
Proof. intros H. apply tsim_wakes; [done..|congruence|by left]. Qed.

Lemma wake_pipe_ssim p s : ssim s (task_wake_pipe p s).
Proof.
  unfold task_wake_pipe. destruct p as [p|]; [|done]. apply map_ssim; intros t; cbv zeta.
  all: destruct (is_state t TASK_WAITING) eqn:Hs; cbn [negb]; [|done]; destruct (_ && _); [|done].
  - apply woken_tsim. by apply is_state_true.
  - by constructor.
Qed.

Lemma wake_sleepers_ssim now s : ssim s (task_wake_sleepers now s).2.
Proof.
  apply map_ssim; intros t; (destruct (sleeper_due now t) eqn:H; [|reflexivity]); unfold sleeper_due in H;
    apply andb_true_iff in H as [[Hs _]%andb_true_iff _]; apply is_state_true in Hs.
  - by apply woken_tsim.
  - by constructor.
Qed.

Lemma wake_waiters_ssim c s : ssim s (task_wake_waiters c s).
Proof.
  unfold task_wake_waiters. destruct (task_by_pid s c) as [ci|]; [|done]. cbv zeta. apply map_ssim; intros t;
  (destruct (is_state t TASK_WAITING) eqn:Hs; cbn [negb orb]; [|reflexivity]);
  (destruct (negb _); [reflexivity|]); (destruct (negb _); [reflexivity|]); apply is_state_true in Hs.
  - apply tsim_wakes; [done..|congruence|by left].
  - by constructor.
Qed.

(** Waking the tasks that wait for pipe [p] ends the exception. *)
Lemma wake_pipe_inv x v p s : inv x v (Some p) s -> inv x v None (task_wake_pipe (Some p) s).
Proof.
  intros I. pose proof (inv_ssim _ _ _ _ _ I (wake_pipe_ssim (Some p) s)) as [Hcu T A Ed W]. constructor; try done. intros St. specialize (W St).
  assert (L : forall wi w, kt_tasks (s_top (task_wake_pipe (Some p) s)) !! wi = Some w -> state w = TASK_WAITING ->
    wait_kind (t_wait w) = WAIT_PIPE_READ \/ wait_kind (t_wait w) = WAIT_PIPE_WRITE -> wait_obj (t_wait w) <> Some p).
  { intros wi w Hw Sw Kw. unfold task_wake_pipe in Hw. simpl in Hw. apply list_lookup_fmap_Some in Hw as (t & -> & Ht).
    cbv zeta in *. destruct (is_state t TASK_WAITING) eqn:Hs; cbn [negb] in *; [|by apply is_state_false in Hs].
    destruct (_ && _) eqn:Hb; [done|]. intros Ho. apply andb_false_iff in Hb as [Hb|Hb].
    - apply orb_false_iff in Hb as [H1%bool_decide_eq_false H2%bool_decide_eq_false]. by destruct Kw.
    - by apply bool_decide_eq_false in Hb. }
  destruct W as [W1 W2 W3]. constructor; [done| |].
  - intros wi w Hw Sw Kw. destruct (W2 wi w Hw Sw Kw) as (q & Hq & [Hy|B]); exists q; [|by auto].
    simplify_eq. exfalso. by eapply L; eauto.
  - intros wi w Hw Sw Kw. destruct (W3 wi w Hw Sw Kw) as (q & Hq & [Hy|B]); exists q; [|by auto].
    simplify_eq. exfalso. by eapply L; eauto.
Qed.

Lemma by_pid_Some s p i : task_by_pid s p = Some i ->
  exists t, get_tasks s !! i = Some t /\ state t <> TASK_UNUSED /\ pid t = p.
Proof.
  intros H. apply find_idx_Some in H as (t & Ht & Hb & _). apply andb_true_iff in Hb as [Hs Hp].
  apply negb_true_iff, is_state_false in Hs. exists t. split_and!; [done|done|lia].
Qed.

Lemma by_pid_own s x v y i t :
  inv x v y s -> get_tasks s !! i = Some t -> state t <> TASK_UNUSED -> task_by_pid s (pid t) = Some i.
Proof.
  intros I Ht Hs. apply (find_idx_unique _ _ i t); [done| |].
  - apply andb_true_iff. split; [by apply negb_true_iff, is_state_false|lia].
  - intros j u Hu Hb. apply andb_true_iff in Hb as [Hj Hp]. apply negb_true_iff, is_state_false in Hj.
    apply (tb_uniq _ _ (pi_table _ _ _ _ _ _ I) j i u t); try done. lia.
Qed.

(** Waking the parent that waits for the task in slot [vi] ends the exception. *)
Lemma wake_waiters_inv x v vi y s :
  inv x v y s -> inv x (fun c => v c /\ c <> vi) y (task_wake_waiters (pid (task_at s vi)) s).
Proof.
  intros I. pose proof (inv_ssim _ _ _ _ _ I (wake_waiters_ssim (pid (task_at s vi)) s)) as [Hcu T A Ed W].
  constructor; try done. intros St. destruct (W St) as [W1 W2 W3]. constructor; [|done..].
  intros wi ci w c Hw Hc Hv Sw Kw Sc. destruct (decide (ci = vi)) as [->|Hne].
  2: { apply (W1 wi ci); try done. intros H. by apply Hv. }
  unfold task_wake_waiters in Hw, Hc. destruct (task_by_pid s (pid (task_at s vi))) as [k|] eqn:Ek.
  2: { rewrite (task_at_eq _ _ _ Hc) in Ek. rewrite (by_pid_own s x v y vi c) in Ek; [done|done|done|by rewrite Sc]. }
  simpl in Hw, Hc. apply list_lookup_fmap_Some in Hw as (w0 & -> & Hw0).
  apply list_lookup_fmap_Some in Hc as (c0 & Ec & Hc0).
  assert (c0 = c) as ->. { revert Sc. subst c. cbv beta.
    destruct (negb (is_state c0 _) || _); [done|]. by destruct (negb (task_wait_matches_filter c0 _ _)). }
  rewrite (task_at_eq s vi c Hc0) in Ek. rewrite (by_pid_own s x v y vi c) in Ek; [|done..|by rewrite Sc].
  injection Ek as <-. rewrite (task_at_eq s vi c Hc0) in *. clear Ec.
  destruct (negb (is_state w0 _) || _) eqn:Hn.
  - apply orb_true_iff in Hn as [Hn|Hn]; apply negb_true_iff in Hn;
      [by apply is_state_false in Hn|by apply bool_decide_eq_false in Hn].
  - destruct (negb (task_wait_matches_filter w0 c _)) eqn:Hm; [by apply negb_true_iff in Hm|done].
Qed.

Lemma inv_v x v v' y s : inv x v y s -> (forall c, v c -> v' c) -> inv x v' y s.
Proof.
  intros [Hcu T A Ed W] H. constructor; try done. intros St. destruct (W St) as [W1 W2 W3]. constructor; [|done..].
  intros wi ci w c H1 H2 Hv. apply (W1 wi ci); auto.
Qed.

(** ** Pipes *)

Lemma inv_x x x' v y s : inv x v y s -> (forall rd p, x rd p = x' rd p) -> inv x' v y s.
Proof.
  intros [Hcu T A Ed W] H. constructor; try done. destruct Ed. constructor; try done; intros *; rewrite <- H; auto.
Qed.

Lemma inv_y x v p s : inv x v None s -> inv x v p s.
Proof.
  intros [Hcu T A Ed W]. constructor; try done. intros St. destruct (W St) as [W1 W2 W3]. constructor; [done| |].
  - intros wi w H1 H2 H3. destruct (W2 wi w H1 H2 H3) as (q & ? & [?|?]); [done|]. eauto.
  - intros wi w H1 H2 H3. destruct (W3 wi w H1 H2 H3) as (q & ? & [?|?]); [done|]. eauto.
Qed.

Definition pipe_sound (q : pipe) : Prop :=
  0 <= readers q /\ 0 <= writers q /\ (used q = true <-> 0 < readers q + writers q) /\ 0 <= count q <= PIPE_CAPACITY /\
  0 <= rpos q < PIPE_CAPACITY /\ wpos q = (rpos q + count q) mod PIPE_CAPACITY.

(** One pipe changes, and with it what an operation holds of it. *)
Lemma set_pipe_inv x x' v s p q q' :
  inv x v None s -> get_pipes s !! p = Some q -> (forall rd r, r <> p -> x' rd r = x rd r) ->
  (forall rd, pipe_refs rd q' - x' rd p = pipe_refs rd q - x rd p) -> pipe_sound q' ->
  inv x' v (Some p) (set_pipes s (<[p := q']> (get_pipes s))).
Proof.
  intros [Hcu T A Ed W] Hq Hx Hr (U1 & U2 & U3 & U4 & U5). unfold get_pipes in *. constructor; [exact Hcu|..].
  - by destruct T; constructor.
  - by destruct A; constructor.
  - destruct Ed as [E1 E2 E3 E4 E5 E6]. pose proof (lookup_lt_Some _ _ _ Hq) as Hp.
    constructor; simpl; [by rewrite length_insert| | | | |].
    + intros rd r u Hu. destruct (decide (r = p)) as [->|Hne].
      * rewrite list_lookup_insert_eq in Hu by done. simplify_eq. specialize (Hr rd). rewrite (E2 rd p q Hq) in Hr. lia.
      * rewrite list_lookup_insert_ne in Hu by done. rewrite (E2 rd r u Hu), Hx by done. done.
    + intros rd r Hr'. rewrite Hx by lia. by apply E3.
    + intros r u Hu. destruct (decide (r = p)) as [->|Hne].
      * rewrite list_lookup_insert_eq in Hu by done. by simplify_eq.
      * rewrite list_lookup_insert_ne in Hu by done. by eapply E4.
    + intros r u Hu. destruct (decide (r = p)) as [->|Hne].
      * rewrite list_lookup_insert_eq in Hu by done. by simplify_eq.
      * rewrite list_lookup_insert_ne in Hu by done. by eapply E5.
    + intros r u Hu. destruct (decide (r = p)) as [->|Hne].
      * rewrite list_lookup_insert_eq in Hu by done. by simplify_eq.
      * rewrite list_lookup_insert_ne in Hu by done. by eapply E6.
  - intros St. destruct (W St) as [W1 W2 W3]. constructor; [done| |]; simpl.
    + intros wi w H1 H2 H3. destruct (W2 wi w H1 H2 H3) as (r & Hr' & [?|(u & Hu & B)]); [done|].
      exists r. split; [done|]. destruct (decide (r = p)) as [->|Hne]; [by left|right].
      exists u. by rewrite list_lookup_insert_ne.
    + intros wi w H1 H2 H3. destruct (W3 wi w H1 H2 H3) as (r & Hr' & [?|(u & Hu & B)]); [done|].
      exists r. split; [done|]. destruct (decide (r = p)) as [->|Hne]; [by left|right].
      exists u. by rewrite list_lookup_insert_ne.
Qed.

(** A pipe changes in a way that lets no blocked task go on. *)
Lemma set_pipe_keep x x' v s p q q' :
  inv x v None s -> get_pipes s !! p = Some q -> (forall rd r, r <> p -> x' rd r = x rd r) ->
  (forall rd, pipe_refs rd q' - x' rd p = pipe_refs rd q - x rd p) -> pipe_sound q' ->
  (used q = true -> count q = 0 -> 0 < writers q -> used q' = true /\ count q' = 0 /\ 0 < writers q') ->
  (used q = true -> count q = PIPE_CAPACITY -> 0 < readers q -> used q' = true /\ count q' = PIPE_CAPACITY /\ 0 < readers q') ->
  inv x' v None (set_pipes s (<[p := q']> (get_pipes s))).
Proof.
  intros I Hq Hx Hr Hs Hrd Hwr. destruct (set_pipe_inv x x' v s p q q' I Hq Hx Hr Hs) as [C1 T1 A1 E1 W1].
  constructor; try done. intros St. destruct (W1 St) as [V1 _ _]. destruct (pi_wait _ _ _ _ _ _ I St) as [_ V2 V3].
  unfold get_pipes in *. pose proof (lookup_lt_Some _ _ _ Hq) as Hl.
  constructor; [done| |]; simpl.
  - intros wi w K1 K2 K3. destruct (V2 wi w K1 K2 K3) as (r & Hr' & [?|(u & B1 & B2 & B3 & B4)]); [done|].
    exists r. split; [done|]. right. unfold read_blocked. destruct (decide (r = p)) as [->|Hne].
    + exists q'. rewrite list_lookup_insert_eq by done. simplify_eq. destruct (Hrd B2 B3 B4) as (?&?&?). done.
    + exists u. by rewrite list_lookup_insert_ne.
  - intros wi w K1 K2 K3. destruct (V3 wi w K1 K2 K3) as (r & Hr' & [?|(u & B1 & B2 & B3 & B4)]); [done|].
    exists r. split; [done|]. right. unfold write_blocked. destruct (decide (r = p)) as [->|Hne].
    + exists q'. rewrite list_lookup_insert_eq by done. simplify_eq. destruct (Hwr B2 B3 B4) as (?&?&?). done.
    + exists u. by rewrite list_lookup_insert_ne.
Qed.

Lemma pipe_soundness x v y s p q : inv x v y s -> get_pipes s !! p = Some q -> pipe_sound q.
Proof.
  intros [_ _ _ Ed _] Hq. destruct (ei_used _ _ Ed p q Hq) as (?&?&?). pose proof (ei_count _ _ Ed p q Hq).
  by destruct (ei_ring _ _ Ed p q Hq).
Qed.

Definition x_add (x : bool -> nat -> Z) (rd : bool) (p : nat) (d : Z) : bool -> nat -> Z :=
  fun rd' p' => x rd' p' + if eqb rd' rd && bool_decide (p' = p) then d else 0.

Definition pipe_close (rd : bool) (ps : list pipe) (h : option nat) : list pipe :=
  if rd then pipe_close_read ps h else pipe_close_write ps h.

Definition pipe_ref (rd : bool) (ps : list pipe) (h : option nat) : list pipe :=
  if rd then pipe_ref_read ps h else pipe_ref_write ps h.

Lemma x_add_other x rd p d rd' r : r <> p -> x_add x rd p d rd' r = x rd' r.
Proof. intros H. unfold x_add. rewrite (bool_decide_eq_false_2 (r = p)) by done. rewrite andb_false_r. lia. Qed.

Lemma held_pipe x v y s rd p :
  inv x v y s -> 1 <= ends rd p (get_tasks s) + x rd p ->
  exists q, get_pipes s !! p = Some q /\ 1 <= pipe_refs rd q /\ used q = true.
Proof.
  intros [_ _ _ Ed _] H.
  destruct (get_pipes s !! p) as [q|] eqn:Hq.
  - exists q. pose proof (ei_refs _ _ Ed rd p q Hq) as Hr. destruct (ei_used _ _ Ed p q Hq) as (?&?&U).
    unfold get_tasks in *. split_and!; [done|lia|]. apply U. destruct rd; simpl in Hr; lia.
  - apply lookup_ge_None in Hq. unfold get_pipes in Hq. rewrite (ei_len _ _ Ed) in Hq.
    pose proof (ei_none _ _ Ed rd p Hq). unfold get_tasks in *. lia.
Qed.

Lemma pipe_close_inv x v s rd p :
  inv x v None s -> 1 <= ends rd p (get_tasks s) + x rd p ->
  inv (x_add x rd p (-1)) v (Some p) (set_pipes s (pipe_close rd (get_pipes s) (Some p))).
Proof.
  intros I H. destruct (held_pipe _ _ _ _ _ _ I H) as (q & Hq & Hr & Hu).
  destruct (pipe_soundness _ _ _ _ _ _ I Hq) as (?&?&U&C&P1&P2).
  set (q1 := if rd then with_readers q (readers q - 1) else with_writers q (writers q - 1)).
  assert (Ec : pipe_close rd (get_pipes s) (Some p) = <[p := pipe_maybe_release q1]> (get_pipes s)).
  { unfold pipe_close, pipe_close_read, pipe_close_write, pipe_at, q1. simpl. rewrite Hq. simpl. rewrite Hu.
    destruct rd; simpl in Hr; by replace (_ <=? 0) with false by lia. }
  assert (R1 : forall rd', pipe_refs rd' q1 = pipe_refs rd' q - if eqb rd' rd then 1 else 0).
  { intros rd'. unfold q1. destruct rd, rd'; simpl; lia. }
  rewrite Ec. apply (set_pipe_inv x _ v s p q); [done|done|by intros; apply x_add_other| |].
  - intros rd'. unfold x_add. rewrite (bool_decide_eq_true_2 (p = p)), andb_true_r by done.
    assert (Rm : pipe_refs rd' (pipe_maybe_release q1) = pipe_refs rd' q1).
    { unfold pipe_maybe_release. destruct (_ && _) eqn:Hz; [|done]. bool_hyps. destruct rd'; simpl; lia. }
    rewrite Rm, R1. destruct (eqb rd' rd); lia.
  - pose proof (R1 true) as Rt. pose proof (R1 false) as Rf. simpl in Rt, Rf.
    assert (used q1 = true /\ count q1 = count q /\ rpos q1 = rpos q /\ wpos q1 = wpos q) as (Hu1 & Hc1 & Hr1 & Hw1) by (unfold q1; by destruct rd).
    unfold pipe_maybe_release. destruct (_ && _) eqn:Hz; bool_hyps; [split_and!; simpl; try done; lia|].
    rewrite <- Hr1, <- Hw1, <- Hc1 in *. split_and!; [destruct rd; simpl in *; lia..| |lia|lia|lia|lia|done]. rewrite Hu1. split; [|done]. intros _.
    apply andb_false_iff in Hz. destruct rd; simpl in *; lia.
Qed.

Lemma pipe_ref_inv x v s rd p :
  inv x v None s -> 1 <= ends rd p (get_tasks s) + x rd p ->
  inv (x_add x rd p 1) v None (set_pipes s (pipe_ref rd (get_pipes s) (Some p))).
Proof.
  intros I H. destruct (held_pipe _ _ _ _ _ _ I H) as (q & Hq & Hr & Hu).
  destruct (pipe_soundness _ _ _ _ _ _ I Hq) as (?&?&U&C&P1&P2).
  set (q1 := if rd then with_readers q (readers q + 1) else with_writers q (writers q + 1)).
  assert (Ec : pipe_ref rd (get_pipes s) (Some p) = <[p := q1]> (get_pipes s)).
  { unfold pipe_ref, pipe_ref_read, pipe_ref_write, pipe_at, q1. simpl. rewrite Hq. simpl. rewrite Hu. by destruct rd. }
  rewrite Ec. apply (set_pipe_keep x _ v s p q); [done|done|by intros; apply x_add_other| | | |].
  - intros rd'. unfold x_add, q1. rewrite (bool_decide_eq_true_2 (p = p)), andb_true_r by done.
    destruct rd, rd'; simpl; lia.
  - unfold q1, pipe_sound. destruct rd; simpl; rewrite Hu; split_and!; try lia; split; try done; lia.
  - unfold q1. destruct rd; simpl; intros; split_and!; try done; lia.
  - unfold q1. destruct rd; simpl; intros; split_and!; try done; lia.
Qed.

(** ** Descriptors *)

Definition fd_x (f : fd) : bool -> nat -> Z := fun rd p => Z.b2z (is_end rd p f).

Lemma ends_set rd p ts ti t t' : ts !! ti = Some t ->
  ends rd p (<[ti := t']> ts) = ends rd p ts - countb (is_end rd p) (fds t) + countb (is_end rd p) (fds t').
Proof. intros H. unfold ends. by rewrite (zsum_insert _ _ _ _ _ H). Qed.

Lemma ends_pos rd p s ti i f :
  get_tasks s !! ti = Some (task_at s ti) -> fds (task_at s ti) !! i = Some f -> is_end rd p f = true ->
  1 <= ends rd p (get_tasks s).
Proof.
  intros Ht Hi He. transitivity (countb (is_end rd p) (fds (task_at s ti))); [by eapply countb_pos|].
  unfold ends. apply (zsum_elem (fun t => countb (is_end rd p) (fds t)) _ ti); [|done].
  intros j t _. apply countb_nonneg.
Qed.

Lemma fd_lookup x v y s ti i :
  inv x v y s -> (ti < MAX_TASKS)%nat -> (i < MAX_FDS)%nat -> fds (task_at s ti) !! i = Some (get_fd s ti i).
Proof.
  intros I Hti Hi. apply list_lookup_lookup_total_lt.
  by rewrite (tb_fds _ _ (pi_table _ _ _ _ _ _ I) ti _ (task_in _ _ _ _ _ I Hti)).
Qed.

Lemma fd_is_typed x v y s ti i :
  inv x v y s -> (ti < MAX_TASKS)%nat -> (i < MAX_FDS)%nat -> fd_used (get_fd s ti i) = true -> fd_typed (get_fd s ti i).
Proof.
  intros I Hti Hi. apply (Forall_lookup_1 _ _ i (get_fd s ti i) (tb_typed _ _ (pi_table _ _ _ _ _ _ I) ti _ (task_in _ _ _ _ _ I Hti))).
  by eapply fd_lookup.
Qed.

(** A task whose descriptors change; only live tasks may hold any. *)
Lemma set_fds_inv x v y s ti l :
  inv x v y s -> (ti < MAX_TASKS)%nat -> length l = MAX_FDS -> fds_typed l ->
  Forall (fun f => fd_used f = false) l \/ is_live (task_at s ti) = true ->
  inv (fun rd p => x rd p + countb (is_end rd p) (fds (task_at s ti)) - countb (is_end rd p) l) v y
    (upd_task s ti (fun t => set_fds t l)).
Proof.
  intros I Hti Hl Hty Hc. pose proof (task_in _ _ _ _ _ I Hti) as Ht. destruct I as [Hcu T A Ed W].
  unfold get_tasks in *. set (t := task_at s ti) in *.
  assert (L : forall tj u, <[ti := set_fds t l]> (kt_tasks (s_top s)) !! tj = Some u ->
    exists u0 l', kt_tasks (s_top s) !! tj = Some u0 /\ u = set_fds u0 l' /\ (tj <> ti -> l' = fds u0) /\ (tj = ti -> l' = l)).
  { intros tj u Hu. destruct (decide (tj = ti)) as [->|Hne].
    - rewrite list_lookup_insert_eq in Hu by (by eapply lookup_lt_Some). injection Hu as <-. by exists t, l.
    - rewrite list_lookup_insert_ne in Hu by done. exists u, (fds u). split_and!; try done. by destruct u. }
  constructor; [exact Hcu|..].
  - destruct T. constructor; simpl; try done.
    + by rewrite length_insert.
    + intros tj u Hu. destruct (L tj u Hu) as (u0 & l' & H0 & -> & F1 & F2). simpl.
      destruct (decide (tj = ti)) as [->|Hne]; [by rewrite F2|rewrite F1 by done; eauto].
    + intros tj u Hu. destruct (L tj u Hu) as (u0 & l' & H0 & -> & F1 & F2). simpl.
      destruct (decide (tj = ti)) as [->|Hne]; [by rewrite F2|rewrite F1 by done; eauto].
    + intros tj u Hu Hs. destruct (L tj u Hu) as (u0 & l' & H0 & -> & _). exact (tb_pid tj u0 H0 Hs).
    + intros tj tk u u' Hu Hu' S1 S2 P. destruct (L tj u Hu) as (u0 & l1 & H0 & -> & _).
      destruct (L tk u' Hu') as (u1 & l2 & H1 & -> & _). exact (tb_uniq _ _ u0 u1 H0 H1 S1 S2 P).
    + intros tj u Hu Hs. destruct (L tj u Hu) as (u0 & l' & H0 & -> & F1 & F2). unfold closed. simpl in *.
      destruct (decide (tj = ti)) as [->|Hne]; [|rewrite F1 by done; exact (tb_closed tj u0 H0 Hs)]. rewrite F2 by done.
      destruct Hc as [Hc|Hc]; [done|]. apply is_live_true in Hc. assert (u0 = t) as -> by congruence. tauto.
    + intros tj u Hu Hs. destruct (L tj u Hu) as (u0 & l' & H0 & -> & _). exact (tb_running tj u0 H0 Hs).
  - destruct A. constructor; simpl; try done.
    + intros tj u Hu Hs. destruct (L tj u Hu) as (u0 & l' & H0 & -> & _). exact (ai_unused tj u0 H0 Hs).
    + intros tj u Hu Hs. destruct (L tj u Hu) as (u0 & l' & H0 & -> & _). exact (ai_range tj u0 H0 Hs).
    + intros tj tk u u' Hu Hu' S1 S2 P. destruct (L tj u Hu) as (u0 & l1 & H0 & -> & _).
      destruct (L tk u' Hu') as (u1 & l2 & H1 & -> & _). exact (ai_uniq _ _ u0 u1 H0 H1 S1 S2 P).
  - destruct Ed. constructor; simpl; try done.
    + intros rd p q Hq. rewrite (ends_set _ _ _ _ _ _ Ht), (ei_refs rd p q Hq). simpl. lia.
    + intros rd p Hp. rewrite (ends_set _ _ _ _ _ _ Ht). specialize (ei_none rd p Hp). simpl. lia.
  - intros St. destruct (W St). constructor; simpl.
    + intros wi ci w c Hw Hc' Hne S1 K S2. destruct (L wi w Hw) as (w0 & l1 & H0 & -> & _).
      destruct (L ci c Hc') as (c0 & l2 & H1 & -> & _). exact (wi_child wi ci w0 c0 H0 H1 Hne S1 K S2).
    + intros wi w Hw S1 K. destruct (L wi w Hw) as (w0 & l1 & H0 & -> & _). exact (wi_read wi w0 H0 S1 K).
    + intros wi w Hw S1 K. destruct (L wi w Hw) as (w0 & l1 & H0 & -> & _). exact (wi_write wi w0 H0 S1 K).
Qed.

Lemma set_fd_inv x v y s ti i f :
  inv x v y s -> (ti < MAX_TASKS)%nat -> (i < MAX_FDS)%nat -> (fd_used f = true -> is_live (task_at s ti) = true /\ fd_typed f) ->
  inv (fun rd p => x rd p + fd_x (get_fd s ti i) rd p - fd_x f rd p) v y (set_fd s ti i f).
Proof.
  intros I Hti Hi Hf. pose proof (fd_lookup _ _ _ _ _ _ I Hti Hi) as Hl. pose proof (task_in _ _ _ _ _ I Hti) as Ht.
  assert (Hlen : length (<[i := f]> (fds (task_at s ti))) = MAX_FDS).
  { rewrite length_insert. apply (tb_fds _ _ (pi_table _ _ _ _ _ _ I) ti _ Ht). }
  unfold set_fd, upd_task.
  eapply inv_x; [apply (set_fds_inv x v y s ti (<[i := f]> (fds (task_at s ti))) I Hti Hlen)|].
  - apply Forall_insert; [exact (tb_typed _ _ (pi_table _ _ _ _ _ _ I) ti _ Ht)|intros H; exact (proj2 (Hf H))].
  - destruct (is_live (task_at s ti)) eqn:Hlive; [by right|left].
    apply Forall_insert; [|destruct (fd_used f); [by destruct (Hf eq_refl)|done]].
    apply (tb_closed _ _ (pi_table _ _ _ _ _ _ I) ti _ Ht).
    destruct (decide (state (task_at s ti) = TASK_UNUSED)); [by left|].
    destruct (decide (state (task_at s ti) = TASK_ZOMBIE)); [by right|].
    rewrite (proj2 (is_live_true _)) in Hlive; [done|tauto].
  - intros rd p. cbv beta. rewrite (countb_insert _ _ _ _ _ Hl). unfold fd_x. lia.
Qed.

Lemma fd_x_none f rd p :
  fd_used f = false \/ fd_pipe f = None \/ (fd_kind f <> FD_PIPE_R /\ fd_kind f <> FD_PIPE_W) -> fd_x f rd p = 0.
Proof.
  intros H. unfold fd_x, is_end. destruct H as [->|[->|[H1 H2]]]; [done| |].
  - rewrite (bool_decide_eq_false_2 (None = Some p)), andb_false_r; done.
  - rewrite (bool_decide_eq_false_2 (fd_kind f = _)) by (by destruct rd). by rewrite andb_false_r.
Qed.

Lemma fd_x_pipe f (rd : bool) p rd' r :
  fd_used f = true -> fd_kind f = (if rd then FD_PIPE_R else FD_PIPE_W) -> fd_pipe f = Some p ->
  fd_x f rd' r = if eqb rd' rd && bool_decide (r = p) then 1 else 0.
Proof.
  intros H1 H2 H3. unfold fd_x, is_end. rewrite H1, H2, H3. cbn [andb].
  destruct (decide (r = p)) as [->|Hne].
  - rewrite !(bool_decide_eq_true_2 (_ = Some p)), !(bool_decide_eq_true_2 (p = p)) by done. destruct rd, rd'; done.
  - rewrite (bool_decide_eq_false_2 (r = p)), (bool_decide_eq_false_2 (Some p = Some r)) by congruence. by rewrite !andb_false_r.
Qed.

(** [wait_obj] of [task_fd_close]. *)
Definition closing_obj (f : fd) : option nat :=
  if bool_decide (fd_kind f = FD_PIPE_R) || bool_decide (fd_kind f = FD_PIPE_W) then fd_pipe f else None.

Lemma on_net_ssim s f : ssim s (on_net s f).
Proof. split; constructor; reflexivity. Qed.

(** Cases of a descriptor: an end of a pipe, or nothing the pipes know of. *)
Lemma fd_cases f :
  (exists (rd : bool) p, fd_used f = true /\ fd_kind f = (if rd then FD_PIPE_R else FD_PIPE_W) /\ fd_pipe f = Some p) \/
  (fd_used f = false \/ fd_pipe f = None \/ (fd_kind f <> FD_PIPE_R /\ fd_kind f <> FD_PIPE_W)).
Proof.
  destruct (fd_used f) eqn:Hu; [|by right; left]. destruct (fd_pipe f) as [p|] eqn:Hp; [|by right; right; left].
  destruct (fd_kind f) eqn:Hk; try by right; right; right; split.
  - left. by exists true, p.
  - left. by exists false, p.
Qed.

Lemma fd_drop_inv x v s f :
  inv x v None s -> (forall rd p, is_end rd p f = true -> 1 <= ends rd p (get_tasks s) + x rd p) ->
  inv (fun rd p => x rd p - fd_x f rd p) v (closing_obj f) (task_fd_drop f s).
Proof.
  intros I H. destruct (fd_cases f) as [(rd & p & Hu & Hk & Hp)|Hn].
  - assert (Hc : closing_obj f = Some p) by (unfold closing_obj; rewrite Hk, Hp; by destruct rd).
    rewrite Hc. unfold task_fd_drop. rewrite Hu, Hk, Hp. cbn [negb].
    replace (match (if rd then FD_PIPE_R else FD_PIPE_W) with FD_PIPE_R => _ | _ => _ end)
      with (set_pipes s (pipe_close rd (get_pipes s) (Some p))) by (by destruct rd).
    eapply inv_x; [apply (pipe_close_inv x v s rd p I)|].
    + apply H. unfold is_end. rewrite Hu, Hk, Hp. by rewrite !bool_decide_eq_true_2.
    + intros rd' r. unfold x_add. rewrite (fd_x_pipe f rd p) by done. destruct (_ && _); lia.
  - assert (S1 : ssim s (task_fd_drop f s)).
    { unfold task_fd_drop. destruct (fd_used f); [|done]. cbn [negb]. destruct (fd_kind f), (fd_pipe f), (fd_sock f);
        try reflexivity; try (exfalso; by destruct Hn as [|[|[]]]); apply on_net_ssim. }
    apply inv_y. eapply inv_ssim; [|exact S1]. eapply inv_x; [exact I|]. intros rd p. rewrite fd_x_none by done. lia.
Qed.

Lemma fd_ref_inv x v s f :
  inv x v None s -> (forall rd p, is_end rd p f = true -> 1 <= ends rd p (get_tasks s) + x rd p) ->
  inv (fun rd p => x rd p + fd_x f rd p) v None (task_fd_ref f s).
Proof.
  intros I H. destruct (fd_cases f) as [(rd & p & Hu & Hk & Hp)|Hn].
  - unfold task_fd_ref. rewrite Hu, Hk, Hp. cbn [negb].
    replace (match (if rd then FD_PIPE_R else FD_PIPE_W) with FD_PIPE_R => _ | _ => _ end)
      with (set_pipes s (pipe_ref rd (get_pipes s) (Some p))) by (by destruct rd).
    eapply inv_x; [apply (pipe_ref_inv x v s rd p I)|].
    + apply H. unfold is_end. rewrite Hu, Hk, Hp. by rewrite !bool_decide_eq_true_2.
    + intros rd' r. unfold x_add. by rewrite (fd_x_pipe f rd p).
  - assert (S1 : ssim s (task_fd_ref f s)).
    { unfold task_fd_ref. destruct (fd_used f); [|done]. cbn [negb]. destruct (fd_kind f), (fd_pipe f), (fd_sock f);
        try reflexivity; try (exfalso; by destruct Hn as [|[|[]]]); apply on_net_ssim. }
    eapply inv_ssim; [|exact S1]. eapply inv_x; [exact I|]. intros rd p. rewrite fd_x_none by done. lia.
Qed.

Lemma wake_inv x v y s : inv x v y s -> inv x v None (task_wake_pipe y s).
Proof. destruct y as [p|]; [apply wake_pipe_inv|done]. Qed.

Lemma psim_task s s' ti : psim (s_top s) (s_top s') -> tsim (task_at s ti) (task_at s' ti).
Proof.
  intros P. unfold task_at, kt_task. rewrite !list_lookup_total_alt.
  destruct (kt_tasks (s_top s') !! ti) as [t'|] eqn:Ht'.
  - by destruct (psim_at _ _ _ _ P Ht') as (t & -> & T).
  - apply lookup_ge_None in Ht'. rewrite <- (Forall2_length _ _ _ (ps_tasks _ _ P)) in Ht'.
    by rewrite (lookup_ge_None_2 _ _ Ht').
Qed.

Lemma ssim_task s s' ti : ssim s s' -> tsim (task_at s ti) (task_at s' ti).
Proof. intros [S _]. by apply psim_task. Qed.

Lemma ssim_fds s s' ti : ssim s s' -> fds (task_at s' ti) = fds (task_at s ti).
Proof. intros S. apply (ts_fds _ _ (ssim_task s s' ti S)). Qed.

Lemma ssim_live s s' ti : ssim s s' -> is_live (task_at s ti) = true -> is_live (task_at s' ti) = true.
Proof.
  intros S. destruct (ssim_task s s' ti S) as [_ _ _ U _ Z _]. rewrite !is_live_true, U. intros [? ?]. split; [done|].
  intros Hz. by apply Z in Hz as [? _].
Qed.

Lemma drop_tasks f s : kt_tasks (s_top (task_fd_drop f s)) = kt_tasks (s_top s).
Proof.
  unfold task_fd_drop. destruct (negb _); [done|]. by destruct (fd_kind f), (fd_pipe f), (fd_sock f).
Qed.

Lemma drop_task f s ti : task_at (task_fd_drop f s) ti = task_at s ti.
Proof. unfold task_at, kt_task. by rewrite drop_tasks. Qed.

Lemma upd_same s ti f : (ti < length (kt_tasks (s_top s)))%nat -> task_at (upd_task s ti f) ti = f (task_at s ti).
Proof. intros H. unfold upd_task. by rewrite task_at_set, decide_True. Qed.

Lemma fd_zero_x rd p : fd_x fd_zero rd p = 0.
Proof. by apply fd_x_none; left. Qed.

Lemma fd_bad_false i : fd_bad i = false <-> 0 <= i < Z.of_nat MAX_FDS.
Proof. unfold fd_bad. rewrite orb_false_iff. lia. Qed.

(** Closing a descriptor keeps the invariant and empties its slot. *)
Lemma fd_close_inv x v s ti i :
  inv x v None s -> (forall rd p, 0 <= x rd p) -> (ti < MAX_TASKS)%nat ->
  let s' := (task_fd_close ti i s).2 in
  inv x v None s' /\
  (0 <= i < Z.of_nat MAX_FDS -> fd_used (get_fd s ti (Z.to_nat i)) = true ->
   fds (task_at s' ti) = <[Z.to_nat i := fd_zero]> (fds (task_at s ti))) /\
  (is_live (task_at s ti) = true -> is_live (task_at s' ti) = true).
Proof.
  intros I Hx Hti. unfold task_fd_close. destruct (fd_bad i) eqn:Hb.
  { split_and!; try done. intros Hi. apply fd_bad_false in Hi. by rewrite Hi in Hb. }
  apply fd_bad_false in Hb. assert (Hi : (Z.to_nat i < MAX_FDS)%nat) by lia. cbv zeta.
  set (f := get_fd s ti (Z.to_nat i)). destruct (fd_used f) eqn:Hu; cbn [negb]; [|by split_and!].
  match goal with |- context [let '(_, _) := ?a in _] => destruct a as [rc s1] eqn:E1 end. cbn [snd].
  assert (S1 : ssim s s1).
  { destruct (task_fd_needs_writeback _ _); [|by injection E1 as _ <-].
    pose proof (ssame_ssim _ _ (ssame_flush_inode (fd_inode f) s)) as F. destruct (pagecache_flush_inode _ _) as [r s2].
    by injection E1 as _ <-. }
  assert (I1 : inv x v None s1) by by eapply inv_ssim.
  assert (Hf : get_fd s1 ti (Z.to_nat i) = f) by (unfold get_fd; by rewrite (ssim_fds _ _ ti S1)).
  assert (Hl : (ti < length (kt_tasks (s_top (task_fd_drop f s1))))%nat).
  { rewrite drop_tasks, (tb_len _ _ (pi_table _ _ _ _ _ _ I1)). done. }
  set (s2 := task_fd_drop f s1) in *. set (s3 := set_fd s2 ti (Z.to_nat i) fd_zero).
  assert (I2 : inv (fun rd p => x rd p - fd_x f rd p) v (closing_obj f) s2).
  { apply fd_drop_inv; [done|]. intros rd p He. specialize (Hx rd p).
    assert (1 <= ends rd p (get_tasks s1)); [|lia].
    apply (ends_pos rd p s1 ti (Z.to_nat i) f); [by eapply task_in|rewrite <- Hf; by eapply fd_lookup|done]. }
  assert (I3 : inv x v (closing_obj f) s3).
  { eapply inv_x; [apply (set_fd_inv _ v _ s2 ti (Z.to_nat i) fd_zero I2 Hti Hi); done|].
    intros rd p. cbv beta. rewrite fd_zero_x. unfold get_fd, s2. rewrite drop_task.
    change (fds (task_at s1 ti) !!! Z.to_nat i) with (get_fd s1 ti (Z.to_nat i)). rewrite Hf. lia. }
  assert (T3 : task_at s3 ti = set_fds (task_at s1 ti) (<[Z.to_nat i := fd_zero]> (fds (task_at s1 ti)))).
  { unfold s3, set_fd. rewrite upd_same by done. unfold s2. by rewrite !drop_task. }
  change (if bool_decide (fd_kind f = FD_PIPE_R) || bool_decide (fd_kind f = FD_PIPE_W) then fd_pipe f else None)
    with (closing_obj f). split_and!.
  - by apply wake_inv.
  - intros _ _. rewrite (ssim_fds _ _ ti (wake_pipe_ssim (closing_obj f) s3)), T3. simpl. by rewrite (ssim_fds _ _ ti S1).
  - intros Hlive. eapply ssim_live; [apply wake_pipe_ssim|]. rewrite T3. by eapply (ssim_live s s1).
Qed.

(** Closing slot [j]: nothing is left there, the other slots stay. *)
Lemma close_slot s ti j v :
  inv x0 v None s -> (ti < MAX_TASKS)%nat -> 0 <= j < Z.of_nat MAX_FDS ->
  fd_used (get_fd (task_fd_close ti j s).2 ti (Z.to_nat j)) = false /\
  (forall k, k <> Z.to_nat j -> get_fd (task_fd_close ti j s).2 ti k = get_fd s ti k).
Proof.
  intros I Hti Hj. destruct (fd_close_inv x0 v s ti j I ltac:(by intros; unfold x0) Hti) as (_ & F & _).
  destruct (fd_used (get_fd s ti (Z.to_nat j))) eqn:Hu.
  - unfold get_fd at 1 2. rewrite F by done. split; [|intros k Hk; by apply list_lookup_total_insert_ne].
    rewrite list_lookup_total_insert_eq; [done|].
    rewrite (tb_fds _ _ (pi_table _ _ _ _ _ _ I) ti _ (task_in _ _ _ _ _ I Hti)). lia.
  - unfold task_fd_close. rewrite (proj2 (fd_bad_false j)) by done. cbv zeta. rewrite Hu. done.
Qed.

Lemma set_fd_ends v y x s ti i f rd p :
  inv x v y s -> (ti < MAX_TASKS)%nat -> (i < MAX_FDS)%nat ->
  ends rd p (get_tasks (set_fd s ti i f)) = ends rd p (get_tasks s) - fd_x (get_fd s ti i) rd p + fd_x f rd p.
Proof.
  intros I Hti Hi. unfold get_tasks, set_fd, upd_task. simpl. erewrite ends_set by by eapply task_in.
  simpl. rewrite (countb_insert _ _ _ _ _ (fd_lookup _ _ _ _ _ _ I Hti Hi)). unfold fd_x. lia.
Qed.

Lemma dup2_inv v s ti i j :
  inv x0 v None s -> (ti < MAX_TASKS)%nat -> is_live (task_at s ti) = true -> inv x0 v None (task_fd_dup2 ti i j s).2.
Proof.
  intros I Hti Hlive. unfold task_fd_dup2. destruct (fd_bad i || fd_bad j) eqn:Hb; [done|].
  apply orb_false_iff in Hb as [Hi Hj]. apply fd_bad_false in Hi, Hj.
  destruct (fd_used (get_fd s ti (Z.to_nat i))) eqn:Hu; cbn [negb]; [|done].
  destruct (i =? j) eqn:Hij; [done|]. cbv zeta. cbn [snd].
  destruct (fd_close_inv x0 v s ti j I ltac:(by intros; unfold x0) Hti) as (I1 & _ & L1). specialize (L1 Hlive).
  destruct (close_slot s ti j v I Hti Hj) as [Uj Uo]. rewrite <- (Uo (Z.to_nat i)) in Hu by lia.
  set (s1 := (task_fd_close ti j s).2) in *.
  set (f := set_fd_used (get_fd s1 ti (Z.to_nat i)) true). set (s2 := set_fd s1 ti (Z.to_nat j) f).
  assert (Z1 : forall rd p, fd_x (get_fd s1 ti (Z.to_nat j)) rd p = 0) by (intros; apply fd_x_none; by left).
  assert (Hf : get_fd s2 ti (Z.to_nat j) = f).
  { unfold get_fd, s2, set_fd. rewrite upd_same by by rewrite (tb_len _ _ (pi_table _ _ _ _ _ _ I1)).
    apply list_lookup_total_insert_eq. rewrite (tb_fds _ _ (pi_table _ _ _ _ _ _ I1) ti _ (task_in _ _ _ _ _ I1 Hti)). lia. }
  assert (I2 : inv (fun rd p => 0 - fd_x f rd p) v None s2).
  { eapply inv_x; [apply (set_fd_inv x0 v None s1 ti (Z.to_nat j) f I1 Hti); [lia|]|].
    { intros _. split; [done|]. eapply (fd_is_typed x0 v None s1 ti (Z.to_nat i)); [done|done|lia|done]. }
    intros rd p. cbv beta. rewrite Z1. unfold x0. lia. }
  rewrite Hf. eapply inv_x; [apply fd_ref_inv; [exact I2|]|intros; unfold x0; lia].
  intros rd p He. cbv beta. unfold s2. rewrite (set_fd_ends v None x0) by (done || lia). rewrite Z1.
  assert (1 <= ends rd p (get_tasks s1)); [|lia].
  apply (ends_pos rd p s1 ti (Z.to_nat i) (get_fd s1 ti (Z.to_nat i))); [by eapply task_in|eapply fd_lookup; [done|done|lia]|].
  revert He. unfold is_end, f. simpl. by rewrite Hu.
Qed.

(** ** Replacing a task *)

Section SetTask.
Context (k : ktasks (kio N)) (ti : nat) (t' : task).
Context (Hti : (ti < MAX_TASKS)%nat).

Lemma set_lookup tj u :
  table_inv run k -> kt_tasks (kt_set_task k ti t') !! tj = Some u ->
  (tj = ti /\ u = t') \/ (tj <> ti /\ kt_tasks k !! tj = Some u).
Proof.
  intros T Hu. simpl in Hu. destruct (decide (tj = ti)) as [->|Hne].
  - rewrite list_lookup_insert_eq in Hu by (by rewrite (tb_len _ _ T)). left. by simplify_eq.
  - rewrite list_lookup_insert_ne in Hu by done. by right.
Qed.

Lemma set_task_table :
  table_inv run k -> length (fds t') = MAX_FDS -> fds_typed (fds t') ->
  (state t' <> TASK_UNUSED -> 0 < pid t' < kt_next_pid k /\
   forall tj u, tj <> ti -> kt_tasks k !! tj = Some u -> state u <> TASK_UNUSED -> pid u <> pid t') ->
  (state t' = TASK_UNUSED \/ state t' = TASK_ZOMBIE -> closed t') ->
  (state t' = TASK_RUNNING -> run = Some ti) ->
  table_inv run (kt_set_task k ti t').
Proof.
  intros T Hl Hty Hp Hc Hr. pose proof (fun tj u => set_lookup tj u T) as L. constructor.
  - simpl. rewrite length_insert. apply T.
  - intros tj u Hu. destruct (L tj u Hu) as [[-> ->]|[_ H]]; [done|exact (tb_fds _ _ T tj u H)].
  - intros tj u Hu. destruct (L tj u Hu) as [[-> ->]|[_ H]]; [done|exact (tb_typed _ _ T tj u H)].
  - apply T.
  - intros tj u Hu Hs. destruct (L tj u Hu) as [[-> ->]|[_ H]]; [by apply Hp|exact (tb_pid _ _ T tj u H Hs)].
  - intros tj tl u u' Hu Hu' S1 S2 P. destruct (L tj u Hu) as [[-> ->]|[N1 H]], (L tl u' Hu') as [[-> ->]|[N2 H']]; [done| | |].
    + exfalso. apply (proj2 (Hp S1) tl u' N2 H' S2). by symmetry.
    + exfalso. exact (proj2 (Hp S2) tj u N1 H S1 P).
    + exact (tb_uniq _ _ T tj tl u u' H H' S1 S2 P).
  - intros tj u Hu Hs. destruct (L tj u Hu) as [[-> ->]|[_ H]]; [auto|exact (tb_closed _ _ T tj u H Hs)].
  - intros tj u Hu Hs. destruct (L tj u Hu) as [[-> ->]|[_ H]]; [auto|exact (tb_running _ _ T tj u H Hs)].
Qed.

Lemma set_task_asid :
  table_inv run k -> asid_inv k ->
  (state t' = TASK_UNUSED -> asid_epoch (t_vm t') = 0) ->
  (asid_epoch (t_vm t') = kt_asid_epoch k -> 1 <= asid (t_vm t') < kt_next_asid k /\
   forall tj u, tj <> ti -> kt_tasks k !! tj = Some u -> asid_epoch (t_vm u) = kt_asid_epoch k ->
     asid (t_vm u) <> asid (t_vm t')) ->
  asid_inv (kt_set_task k ti t').
Proof.
  intros T A Hu0 Hp. pose proof (fun tj u => set_lookup tj u T) as L. constructor; simpl; try apply A.
  - intros tj u Hu Hs. destruct (L tj u Hu) as [[-> ->]|[_ H]]; [auto|exact (ai_unused _ A tj u H Hs)].
  - intros tj u Hu Hs. destruct (L tj u Hu) as [[-> ->]|[_ H]]; [by apply Hp|exact (ai_range _ A tj u H Hs)].
  - intros tj tl u u' Hu Hu' S1 S2 P. destruct (L tj u Hu) as [[-> ->]|[N1 H]], (L tl u' Hu') as [[-> ->]|[N2 H']]; [done| | |].
    + exfalso. apply (proj2 (Hp S1) tl u' N2 H' S2). by symmetry.
    + exfalso. exact (proj2 (Hp S2) tj u N1 H S1 P).
    + exact (ai_uniq _ A tj tl u u' H H' S1 S2 P).
Qed.

Lemma set_task_ends x :
  table_inv run k -> ends_inv x k -> (forall rd p, countb (is_end rd p) (fds t') = countb (is_end rd p) (fds (kt_task k ti))) ->
  ends_inv x (kt_set_task k ti t').
Proof.
  intros T Ed H. assert (Ht : kt_tasks k !! ti = Some (kt_task k ti)).
  { apply list_lookup_lookup_total_lt. by rewrite (tb_len _ _ T). }
  destruct Ed. constructor; simpl; try done.
  - intros rd p q Hq. rewrite (ends_set _ _ _ _ _ _ Ht), H, (ei_refs rd p q Hq). lia.
  - intros rd p Hp. rewrite (ends_set _ _ _ _ _ _ Ht), H. specialize (ei_none rd p Hp). lia.
Qed.

Lemma set_task_wait v y :
  table_inv run k -> wait_inv v y k ->
  (state t' = TASK_WAITING -> wait_kind (t_wait t') = WAIT_CHILD ->
   forall ci c, ci <> ti -> kt_tasks k !! ci = Some c -> ~ v ci -> state c = TASK_ZOMBIE ->
     task_wait_matches_filter t' c (wait_pid (t_wait t')) = false) ->
  (state t' = TASK_ZOMBIE -> ~ v ti ->
   forall wi w, wi <> ti -> kt_tasks k !! wi = Some w -> state w = TASK_WAITING -> wait_kind (t_wait w) = WAIT_CHILD ->
     task_wait_matches_filter w t' (wait_pid (t_wait w)) = false) ->
  (state t' = TASK_WAITING -> wait_kind (t_wait t') = WAIT_PIPE_READ ->
   exists p, wait_obj (t_wait t') = Some p /\ (Some p = y \/ read_blocked (io_pipes (kt_io k)) p)) ->
  (state t' = TASK_WAITING -> wait_kind (t_wait t') = WAIT_PIPE_WRITE ->
   exists p, wait_obj (t_wait t') = Some p /\ (Some p = y \/ write_blocked (io_pipes (kt_io k)) p)) ->
  wait_inv v y (kt_set_task k ti t').
Proof.
  intros T W H1 H2 H3 H4. pose proof (fun tj u => set_lookup tj u T) as L. constructor.
  - intros wi ci w c Hw Hc Hne S1 K S2.
    destruct (L wi w Hw) as [[-> ->]|[N1 H]], (L ci c Hc) as [[-> ->]|[N2 H']]; [by rewrite S1 in S2|exact (H1 S1 K ci c N2 H' Hne S2)|exact (H2 S2 Hne wi w N1 H S1 K)|].
    exact (wi_child _ _ _ W wi ci w c H H' Hne S1 K S2).
  - intros wi w Hw S1 K. destruct (L wi w Hw) as [[-> ->]|[N1 H]]; [auto|exact (wi_read _ _ _ W wi w H S1 K)].
  - intros wi w Hw S1 K. destruct (L wi w Hw) as [[-> ->]|[N1 H]]; [auto|exact (wi_write _ _ _ W wi w H S1 K)].
Qed.

(** A task that is neither waiting nor a zombie. *)
Lemma set_task_wait_plain v y :
  table_inv run k -> wait_inv v y k -> state t' <> TASK_WAITING -> state t' <> TASK_ZOMBIE -> wait_inv v y (kt_set_task k ti t').
Proof. intros. by apply set_task_wait. Qed.

End SetTask.

Lemma closed_ends rd p l : Forall (fun f => fd_used f = false) l -> countb (is_end rd p) l = 0.
Proof.
  induction 1 as [|f l Hf Hl IH]; [done|]. rewrite countb_cons, IH. unfold is_end. by rewrite Hf.
Qed.

Lemma zero_slot_inv x v y s ti :
  inv x v y s -> (ti < MAX_TASKS)%nat -> closed (task_at s ti) -> inv x v y (set_task s ti task_zero).
Proof.
  intros [Hcu T A Ed W] Hti Hc. constructor; [exact Hcu|..].
  - apply set_task_table; try done; [by apply Forall_replicate|]. intros _. by repeat constructor.
  - apply set_task_asid; try done. simpl. destruct (ai_epoch _ A). lia.
  - apply set_task_ends; try done. intros rd p. rewrite (closed_ends rd p (fds (kt_task _ _)) Hc). by apply closed_ends; repeat constructor.
  - intros St. by apply set_task_wait_plain; [..|apply W| |].
Qed.

(** ** Releasing a task *)

Lemma close_loop_inv v s ti n :
  inv x0 v None s -> (ti < MAX_TASKS)%nat -> (n <= MAX_FDS)%nat ->
  let s' := foldl (fun s i => if fd_used (get_fd s ti i) then (task_fd_close ti (Z.of_nat i) s).2 else s) s (seq 0 n) in
  inv x0 v None s' /\ (forall j, (j < n)%nat -> fd_used (get_fd s' ti j) = false) /\
  (is_live (task_at s ti) = true -> is_live (task_at s' ti) = true).
Proof.
  intros I Hti. induction n as [|n IH]; intros Hn; [by split_and!; try lia|].
  cbv zeta. rewrite seq_S, foldl_app. simpl. destruct (IH ltac:(lia)) as (I1 & U1 & L1). clear IH.
  set (s1 := foldl _ s (seq 0 n)) in *. clearbody s1.
  destruct (fd_used (get_fd s1 ti n)) eqn:Hu.
  - destruct (fd_close_inv x0 v s1 ti (Z.of_nat n) I1 ltac:(by intros; unfold x0) Hti) as (I2 & _ & L2).
    destruct (close_slot s1 ti (Z.of_nat n) v I1 Hti ltac:(lia)) as [Uj Uo]. rewrite Nat2Z.id in Uj, Uo.
    split_and!; [done| |auto]. intros j Hj. destruct (decide (j = n)) as [->|Hne]; [done|]. rewrite Uo by done. apply U1. lia.
  - split_and!; [done| |done]. intros j Hj. destruct (decide (j = n)) as [->|Hne]; [done|]. apply U1. lia.
Qed.

Lemma close_fds_inv v s ti :
  inv x0 v None s -> (ti < MAX_TASKS)%nat ->
  inv x0 v None (close_fds ti s) /\ closed (task_at (close_fds ti s) ti) /\
  (is_live (task_at s ti) = true -> is_live (task_at (close_fds ti s) ti) = true).
Proof.
  intros I Hti. pose proof (close_loop_inv v s ti MAX_FDS I Hti ltac:(lia)) as H. cbv zeta in H.
  unfold close_fds. revert H. match goal with |- context [foldl ?f s ?l] => generalize (foldl f s l) end.
  intros s1 (I1 & U1 & L1).
  split_and!; [done| |done]. apply Forall_lookup. intros j f Hj.
  pose proof (lookup_lt_Some _ _ _ Hj) as Hlt.
  rewrite (tb_fds _ _ (pi_table _ _ _ _ _ _ I1) ti _ (task_in _ _ _ _ _ I1 Hti)) in Hlt.
  rewrite <- (U1 j Hlt). unfold get_fd. by rewrite (list_lookup_total_correct _ _ _ Hj).
Qed.

Lemma top_ssim s f : psim (s_top s) (f (s_top s)) -> asim (s_top s) (f (s_top s)) -> ssim s (on_top s f).
Proof. by split. Qed.

Lemma ssame_free_range a b s : ssame s (free_range a b s).
Proof.
  unfold free_range. generalize (page_range a b). intros l. revert s. induction l as [|p l IH]; intros s; [done|].
  cbn [foldl]. etransitivity; [apply ssame_free|apply IH].
Qed.

Lemma free_range_ssim a b s : ssim s (free_range a b s).
Proof. apply ssame_ssim, ssame_free_range. Qed.

Lemma free_table_ssim o s : ssim s (free_table o s).
Proof. destruct o; [apply ssame_ssim, ssame_free|done]. Qed.

Lemma release_ssim ti s : ssim (close_fds ti s) (task_release ti s).
Proof.
  cbv beta delta [task_release]. let_step ltac:(reflexivity). let_step ltac:(apply ssame_ssim, ssame_unmap_user).
  let_step ltac:(by apply ssame_ssim, ssame_set_vm).
  do 4 (let_step ltac:(apply free_table_ssim); let_step ltac:(by apply ssame_ssim, ssame_set_vm)).
  let_step ltac:(idtac); [|by apply ssame_ssim, ssame_set_vm].
  destruct (negb _); [|done]. let_step ltac:(apply free_range_ssim). by apply upd_ssim; [apply tsim_state|constructor].
Qed.

Lemma reap_inv v s ti : inv x0 v None s -> (ti < MAX_TASKS)%nat -> inv x0 v None (task_reap_slot ti s).
Proof.
  intros I Hti. unfold task_reap_slot. cbv zeta.
  match goal with |- context [task_release ti ?a] => assert (I1 : inv x0 v None a); [|generalize dependent a] end.
  { destruct (_ =? _); [|done]. eapply inv_ssim; [exact I|]. split; constructor; reflexivity. }
  clear I s. intros s I. destruct (close_fds_inv v s ti I Hti) as (I1 & C1 & _).
  pose proof (release_ssim ti s) as R. apply zero_slot_inv; [by eapply inv_ssim|done|].
  unfold closed. by rewrite (ssim_fds _ _ ti R).
Qed.

Lemma reaped_slot s i c : kt_tasks (s_top (task_reap_slot i s)) !! i = Some c -> c = task_zero.
Proof.
  unfold task_reap_slot. cbv zeta. match goal with |- context [set_task ?a i task_zero] => generalize a end.
  clear s. intros s. change (<[i := task_zero]> (kt_tasks (s_top s)) !! i = Some c -> c = task_zero).
  intros H. pose proof (lookup_lt_Some _ _ _ H) as Hl. rewrite length_insert in Hl.
  rewrite list_lookup_insert_eq in H by exact Hl. by injection H.
Qed.

(** ** Notifying the parent *)

Lemma on_sig_ssim s ti f : ssim s (upd_task s ti (fun t => on_sig t f)).
Proof. by apply upd_ssim; [apply tsim_state|constructor]. Qed.

Lemma notify_ssim c ev s : ssim s (task_notify_sigchld c ev s).
Proof.
  unfold task_notify_sigchld. destruct (task_parent_of s c) as [pi|]; [|done]. cbv zeta.
  destruct (negb _); [done|]. destruct (_ && _); [done|]. apply on_sig_ssim.
Qed.

Lemma announce_ssim ci ev s : ssim s (announce ci ev s).
Proof. unfold announce. etransitivity; [apply notify_ssim|apply wake_waiters_ssim]. Qed.

Lemma announce_inv x v ci y ev s : inv x v y s -> inv x (fun c => v c /\ c <> ci) y (announce ci ev s).
Proof. intros I. apply wake_waiters_inv. eapply inv_ssim; [exact I|apply notify_ssim]. Qed.

Lemma settle_sigchld_ssim self s : ssim s (settle_sigchld self s).
Proof. unfold settle_sigchld. destruct (negb _); [apply on_sig_ssim|done]. Qed.

(** ** Exiting *)

Lemma reap_sigchld_inv v s parent : inv x0 v None s -> inv x0 v None (task_reap_sigchld_zombies parent s).
Proof.
  intros I. unfold task_reap_sigchld_zombies. destruct (negb _); [done|].
  assert (H : Forall (fun i => (i < MAX_TASKS)%nat) (seq 0 MAX_TASKS)) by (apply Forall_seq; lia).
  revert s I H. generalize (seq 0 MAX_TASKS). intros is_. induction is_ as [|i is_ IH]; intros s I H; [done|].
  apply Forall_cons in H as [Hi H]. cbn [reap_sigchld_loop]. cbv zeta. destruct (_ || _); [by apply IH|].
  apply IH; [by apply reap_inv|done].
Qed.

(** The state of one task changes, the fields the table relies on stay. *)
Lemma set_plain_inv x v v' y s ti t' :
  inv x v y s -> (ti < MAX_TASKS)%nat -> pid t' = pid (task_at s ti) -> fds t' = fds (task_at s ti) ->
  asid (t_vm t') = asid (t_vm (task_at s ti)) -> asid_epoch (t_vm t') = asid_epoch (t_vm (task_at s ti)) ->
  (state t' = TASK_UNUSED <-> state (task_at s ti) = TASK_UNUSED) ->
  (state t' = TASK_ZOMBIE -> closed (task_at s ti)) ->
  (state t' = TASK_RUNNING -> run = Some ti) ->
  (strict -> wait_inv v' y (kt_set_task (s_top s) ti t')) ->
  inv x v' y (set_task s ti t').
Proof.
  intros I Hti Hp Hf Ha He Hu Hz Hr HW. pose proof (task_in _ _ _ _ _ I Hti) as Ht. destruct I as [Hcu T A Ed W].
  constructor; [exact Hcu| | | |done].
  - apply set_task_table; try done.
    + rewrite Hf. exact (tb_fds _ _ T ti _ Ht).
    + rewrite Hf. exact (tb_typed _ _ T ti _ Ht).
    + intros Hs. rewrite Hu in Hs. rewrite Hp. split; [exact (tb_pid _ _ T ti _ Ht Hs)|].
      intros tj u Hne Hl Hsu E1. apply Hne. exact (tb_uniq _ _ T tj ti u _ Hl Ht Hsu Hs E1).
    + unfold closed. rewrite Hf. intros [Hs|Hs]; [|by apply Hz]. rewrite Hu in Hs.
      apply (tb_closed _ _ T ti _ Ht). by left.
  - apply set_task_asid; try done.
    + rewrite Hu, He. intros Hs. exact (ai_unused _ A ti _ Ht Hs).
    + rewrite He, Ha. intros Hs. split; [exact (ai_range _ A ti _ Ht Hs)|].
      intros tj u Hne Hl Hsu E1. apply Hne. exact (ai_uniq _ A tj ti u _ Hl Ht Hsu Hs E1).
  - apply set_task_ends; try done. intros rd p. by rewrite Hf.
Qed.

(** A task becomes a zombie; its parent has yet to be told. *)
Lemma to_zombie_inv x v y s ti code :
  inv x v y s -> (ti < MAX_TASKS)%nat -> state (task_at s ti) <> TASK_UNUSED -> closed (task_at s ti) ->
  inv x (fun c => v c \/ c = ti) y (upd_task s ti (to_zombie code)).
Proof.
  intros I Hti Hs Hc. pose proof (pi_wait _ _ _ _ _ _ I) as W. pose proof (pi_table _ _ _ _ _ _ I) as T.
  apply (set_plain_inv x v); try done. intros St.
  apply set_task_wait; try done; [|by intros _ []; right]. destruct (W St) as [W1 W2 W3]. constructor; [|done..].
  intros wi ci w c H1 H2 Hv. apply (W1 wi ci); try done. tauto.
Qed.

Lemma not_own_child w c f : 0 < pid w -> ppid c <= 0 -> task_wait_matches_filter w c f = false.
Proof. intros H1 H2. unfold task_wait_matches_filter. by replace (ppid c =? pid w) with false by lia. Qed.

Lemma set_ppid_inv v s i p :
  inv x0 v None s -> (i < MAX_TASKS)%nat -> state (task_at s i) <> TASK_UNUSED ->
  inv x0 (fun c => v c \/ (c = i /\ state (task_at s i) = TASK_ZOMBIE /\ 0 < p)) None
    (upd_task s i (fun t => set_ppid t p)).
Proof.
  intros I Hi Hs. pose proof (task_in _ _ _ _ _ I Hi) as Ht.
  pose proof (pi_wait _ _ _ _ _ _ I) as W. pose proof (pi_table _ _ _ _ _ _ I) as T.
  apply (set_plain_inv x0 v); try done.
  - intros Hz. exact (tb_closed _ _ T i _ Ht (or_intror Hz)).
  - exact (tb_running _ _ T i _ Ht).
  - intros St. specialize (W St). assert (W' : wait_inv (fun c => v c \/ (c = i /\ state (task_at s i) = TASK_ZOMBIE /\ 0 < p)) None (s_top s)).
    { destruct W as [W1 W2 W3]. constructor; [|done..]. intros wi ci w c H1 H2 Hv. apply (W1 wi ci); try done. tauto. }
    apply set_task_wait; try done.
    + intros Sw Kw ci c _ Hc Hv Sc. destruct W as [W1 _ _].
      apply (W1 i ci (task_at s i) c); try done. tauto.
    + intros Hz Hv wi w _ Hw Sw Kw. apply not_own_child; simpl.
      * apply (tb_pid _ _ T wi w Hw). by rewrite Sw.
      * destruct (decide (0 < p)); [|lia]. exfalso. apply Hv. right. by split_and!.
    + exact (wi_read _ _ _ W' i _ Ht).
    + exact (wi_write _ _ _ W' i _ Ht).
Qed.

Lemma reparent_loop_inv is_ v s op np init :
  inv x0 v None s -> Forall (fun i => (i < MAX_TASKS)%nat) is_ -> (init = None -> np <= 0) ->
  inv x0 v None (reparent_loop is_ op np init s).
Proof.
  revert s. induction is_ as [|i is_ IH]; intros s I H Hn; [done|]. apply Forall_cons in H as [Hi H].
  cbn [reparent_loop]. cbv zeta. destruct (is_state (task_at s i) TASK_UNUSED || _) eqn:Hb; [by apply IH|].
  apply orb_false_iff in Hb as [Hs%is_state_false _]. apply IH; [|done..]. clear IH H.
  pose proof (set_ppid_inv v s i np I Hi Hs) as I1.
  assert (Hst : state (task_at (upd_task s i (fun t => set_ppid t np)) i) = state (task_at s i)).
  { rewrite upd_same; [done|]. by rewrite (tb_len _ _ (pi_table _ _ _ _ _ _ I)). }
  set (s1 := upd_task s i (fun t => set_ppid t np)) in *. clearbody s1.
  assert (Iv : np <= 0 \/ state (task_at s1 i) <> TASK_ZOMBIE -> inv x0 v None s1).
  { intros Hc. eapply inv_v; [exact I1|]. cbv beta. intros c [?|(_ & Hz & ?)]; [done|]. rewrite Hst in Hc. destruct Hc; [lia|done]. }
  destruct init as [ii|]; [|by apply Iv; auto]. destruct (np <=? 0) eqn:Hnp; [apply Iv; left; lia|].
  destruct (is_state (task_at s1 i) TASK_ZOMBIE) eqn:Hz.
  - destruct (task_sigchld_auto_reap _).
    + (* the slot is empty afterwards, so the exception for it is void *)
      pose proof (reap_inv _ s1 i I1 Hi) as [Hcu T A Ed W]. constructor; try done. intros St. destruct (W St) as [W1 W2 W3]. constructor; [|done..].
      intros wi ci w c Hw Hc Hv Sw Kw Sc. apply (W1 wi ci); try done. intros [?|(-> & _)]; [done|].
      apply reaped_slot in Hc as ->. discriminate Sc.
    + eapply inv_v; [by apply announce_inv|]. cbv beta. tauto.
  - apply is_state_false in Hz. specialize (Iv (or_intror Hz)).
    destruct (_ && _); [by eapply inv_ssim; [|apply announce_ssim]|].
    destruct (cont_report_pending _); [by eapply inv_ssim; [|apply announce_ssim]|done].
Qed.

Lemma reparent_inv v s p : inv x0 v None s -> inv x0 v None (task_reparent_children p s).
Proof.
  intros I. unfold task_reparent_children. destruct (_ <=? 0); [done|]. cbv zeta. apply reparent_loop_inv; [done| |].
  - apply Forall_seq. lia.
  - by intros ->.
Qed.

Lemma force_exit_inv s ti code : inv x0 v0 None s -> (ti < MAX_TASKS)%nat -> inv x0 v0 None (task_force_exit ti code s).
Proof.
  intros I Hti. unfold task_force_exit. destruct (is_live (task_at s ti)) eqn:Hl; cbn [negb]; [|done]. cbv zeta.
  destruct (close_fds_inv v0 s ti I Hti) as (I1 & C1 & L1). specialize (L1 Hl). apply is_live_true in L1 as [L1 _].
  generalize dependent (close_fds ti s). intros s1 I1 C1 L1.
  pose proof (to_zombie_inv x0 v0 None s1 ti code I1 Hti L1 C1) as I2.
  generalize dependent (upd_task s1 ti (to_zombie code)). intros s2 I2.
  assert (I3 : inv x0 (fun c => v0 c \/ c = ti) None (task_notify_sigchld (task_at s2 ti) TASK_CHLD_EXIT s2)).
  { eapply inv_ssim; [exact I2|apply notify_ssim]. }
  generalize dependent (task_notify_sigchld (task_at s2 ti) TASK_CHLD_EXIT s2). intros s3 I3.
  apply (reparent_inv _ _ (pid (task_at s3 ti))) in I3.
  generalize dependent (task_reparent_children (pid (task_at s3 ti)) s3). intros s4 I4.
  assert (I5 : inv x0 v0 None (task_wake_waiters (pid (task_at s4 ti)) s4)).
  { eapply inv_v; [by apply wake_waiters_inv|]. cbv beta. tauto. }
  destruct (task_sigchld_auto_reap _); [by apply reap_inv|done].
Qed.

Lemma mark_exit_inv s code :
  inv x0 v0 None s -> (forall c, current s = Some c -> (c < MAX_TASKS)%nat) -> inv x0 v0 None (task_mark_exit code s).
Proof. intros I Hc. unfold task_mark_exit. destruct (current s) as [c|]; [apply force_exit_inv; auto|done]. Qed.

Lemma reap_orphans_inv v s ex : inv x0 v None s -> inv x0 v None (task_reap_orphan_zombies ex s).
Proof.
  intros I. unfold task_reap_orphan_zombies. destruct (task_find_live_init s); [done|].
  assert (H : Forall (fun i => (i < MAX_TASKS)%nat) (seq 0 MAX_TASKS)) by (apply Forall_seq; lia).
  revert s I H. generalize (seq 0 MAX_TASKS). intros is_. induction is_ as [|i is_ IH]; intros s I H; [done|].
  apply Forall_cons in H as [Hi H]. cbn [reap_orphans_loop]. destruct (bool_decide _); [by apply IH|].
  destruct (_ && _); [|by apply IH]. apply IH; [by apply reap_inv|done].
Qed.

End Ops.
