(* ===== verification/ProcSteps.v ===== *)
(** * System calls and scheduling keep the invariants of the task table *)

From S2P Require Import Prelude KString Pmm Pipe UserCopy Inode BlockCache PageCache FsIo TaskDefs Signal Mmu Vma Vm VmInv Proc ProcInv ProcOps.

Section Steps.
Context {D E N : Type} `{!BlockDrivers D, !Ext4Ops D E, !SocketOps N}.
Abbreviation st := (sys D E (ktasks (kio N))).
Implicit Types s : st.
Context {Sx : Strict} {cur run : option nat}.

(** The invariant between two operations. *)
Definition ok s : Prop := inv (cur := cur) (run := run) x0 v0 None s.

Lemma ok_ssim s s' : ok s -> ssim s s' -> ok s'.
Proof. apply inv_ssim. Qed.

Lemma all_slots : Forall (fun i => (i < MAX_TASKS)%nat) (seq 0 MAX_TASKS).
Proof. apply Forall_seq. lia. Qed.

(** The current task runs: the state in which a system call is entered. *)
Record running s (c : nat) : Prop := {
  rn_current : current s = Some c;
  rn_slot : (c < MAX_TASKS)%nat;
  rn_state : state (task_at s c) = TASK_RUNNING;
}.

Lemma running_live s c : running s c -> is_live (task_at s c) = true.
Proof. intros R. apply is_live_true. by rewrite (rn_state _ _ R). Qed.

(** ** Waiting *)

Lemma wait_loop_spec is_ self f o h s r h' s' :
  ok s -> Forall (fun i => (i < MAX_TASKS)%nat) is_ -> wait_loop is_ self f o h s = (r, h', s') ->
  ok s' /\ (r = None -> s' = s /\ forall i, i ∈ is_ -> state (task_at s i) = TASK_ZOMBIE ->
    task_wait_matches_filter (task_at s self) (task_at s i) f = false).
Proof.
  intros I. revert h. induction is_ as [|i is_ IH]; intros h H Hw; cbn [wait_loop] in Hw.
  { simplify_eq. split; [done|]. intros _. split; [done|]. intros i Hi. by apply elem_of_nil in Hi. }
  apply Forall_cons in H as [Hi H]. cbv zeta in Hw.
  assert (Skip : forall h, wait_loop is_ self f o h s = (r, h', s') -> (state (task_at s i) = TASK_ZOMBIE ->
    task_wait_matches_filter (task_at s self) (task_at s i) f = false) ->
    ok s' /\ (r = None -> s' = s /\ forall j, j ∈ i :: is_ -> state (task_at s j) = TASK_ZOMBIE ->
    task_wait_matches_filter (task_at s self) (task_at s j) f = false)).
  { intros h0 Hw0 Hz. destruct (IH h0 H Hw0) as [I1 Hr]. split; [done|]. intros Hn. destruct (Hr Hn) as [-> Hr'].
    split; [done|]. intros j [->|Hj]%elem_of_cons; auto. }
  destruct (is_state (task_at s i) TASK_UNUSED) eqn:Hu; [apply (Skip h Hw); apply is_state_true in Hu; congruence|].
  destruct (negb _) eqn:Hm; [apply (Skip h Hw); by apply negb_true_iff in Hm|].
  destruct (is_state (task_at s i) TASK_ZOMBIE) eqn:Hz.
  { simplify_eq. split; [|done]. eapply ok_ssim; [|apply settle_sigchld_ssim]. by apply reap_inv. }
  apply is_state_false in Hz.
  destruct (_ && stop_report_pending _).
  { simplify_eq. split; [|done]. eapply ok_ssim; [|apply settle_sigchld_ssim]. eapply ok_ssim; [exact I|].
    by apply upd_ssim; [apply tsim_state|constructor]. }
  destruct (_ && cont_report_pending _).
  { simplify_eq. split; [|done]. eapply ok_ssim; [|apply settle_sigchld_ssim]. eapply ok_ssim; [exact I|].
    by apply upd_ssim; [apply tsim_state|constructor]. }
  by apply (Skip true Hw).
Qed.

Lemma wait_ok s c f o : ok s -> running s c -> ok (task_wait f o s).2.
Proof.
  intros I R. unfold task_wait. rewrite (rn_current _ _ R). destruct (negb _); [done|].
  destruct (wait_loop _ _ _ _ _ _) as [[r h] s1] eqn:Ew.
  destruct (wait_loop_spec _ _ _ _ _ _ _ _ _ I all_slots Ew) as [I1 Hn]. destruct r as [[p status]|]; [done|].
  destruct (Hn eq_refl) as [-> Hz]. clear Hn. destruct (negb h); [by eapply ok_ssim; [|apply on_sig_ssim]|].
  destruct (has_bits _ _); [done|]. cbn [snd].
  pose proof (pi_wait _ _ _ _ _ _ I) as W. pose proof (pi_table _ _ _ _ _ _ I) as T.
  pose proof (rn_slot _ _ R) as Hc. pose proof (rn_state _ _ R) as Hs.
  apply (set_plain_inv x0 v0); try done.
  { split; [done|]. by rewrite Hs. }
  intros St. apply (set_task_wait (run := run)); try done; [by apply W|]. intros _ _ ci u _ Hu _ Sz. simpl.
  rewrite <- (task_at_eq s ci u Hu) in *. apply (Hz ci); [|done].
  apply elem_of_seq. apply lookup_lt_Some in Hu. rewrite (tb_len _ _ T) in Hu. lia.
Qed.

(** ** Process groups *)

(** A task that waits for its own group, and a child of another group that has
    exited: only then does a new group matter to a waiting task. *)
Definition group_free s (p : Z) : Prop :=
  forall ti t, get_tasks s !! ti = Some t -> pid t = p -> state t = TASK_WAITING ->
    wait_kind (t_wait t) = WAIT_CHILD -> wait_pid (t_wait t) <> 0.

Lemma setpgid_ok s c p g : ok s -> running s c -> (strict -> group_free s p) -> ok (task_setpgid p g s).2.
Proof.
  intros I R G. unfold task_setpgid. rewrite (rn_current _ _ R). destruct (_ || _); [done|]. cbv zeta.
  destruct (task_by_pid s _) as [ti|] eqn:Hb; [|done]. destruct (is_live _) eqn:Hl; cbn [negb]; [|done].
  destruct (_ && _); [done|]. destruct (_ && _); [done|]. cbn [snd].
  match goal with |- context [set_pgid _ ?g1] => generalize g1 end. intros g1.
  apply by_pid_Some in Hb as (t & Ht & Hs & Hp). pose proof (task_at_eq s ti t Ht) as <-.
  pose proof (pi_wait _ _ _ _ _ _ I) as W. pose proof (pi_table _ _ _ _ _ _ I) as T. apply is_live_true in Hl as [_ Hz].
  assert (Hti : (ti < MAX_TASKS)%nat). { apply lookup_lt_Some in Ht. unfold get_tasks in Ht. by rewrite (tb_len _ _ T) in Ht. }
  apply (set_plain_inv x0 v0); try done; [exact (tb_running _ _ T ti _ Ht)|]. intros St. specialize (W St). specialize (G St).
  apply (set_task_wait (run := run)); try done.
  - intros Sw Kw ci u Hne Hu Hv Sc. simpl in *.
    pose proof (wi_child _ _ _ W ti ci _ u Ht Hu Hv Sw Kw Sc) as Hm. revert Hm. unfold task_wait_matches_filter. simpl.
    destruct (negb _); [done|]. destruct (0 <? _); [done|]. destruct (_ =? -1); [done|].
    destruct (wait_pid _ =? 0) eqn:H0; [|done]. exfalso. destruct (p =? 0) eqn:Hp0.
    + (* the caller itself runs *)
      assert (ti = c) as ->; [|by rewrite (rn_state _ _ R) in Sw].
      apply (tb_uniq _ _ T ti c _ _ Ht (task_in _ _ _ _ _ I (rn_slot _ _ R)) Hs); [by rewrite (rn_state _ _ R)|done].
    + apply (G ti _ Ht Hp Sw Kw). lia.
  - exact (wi_read _ _ _ W ti _ Ht).
  - exact (wi_write _ _ _ W ti _ Ht).
Qed.

(** ** Signals *)

Lemma stop_task_ssim ti sig s : state (task_at s ti) <> TASK_UNUSED -> ssim s (stop_task ti sig s).
Proof.
  intros Hs. unfold stop_task. destruct (negb _); [|done]. etransitivity; [|apply announce_ssim].
  apply upd_ssim; [apply tsim_wakes; try done; by right|by constructor].
Qed.

Lemma continue_task_ssim ti s : ssim s (continue_task ti s).
Proof.
  unfold continue_task. destruct (is_state _ _) eqn:Hs; [|done]. apply is_state_true in Hs.
  etransitivity; [|apply announce_ssim].
  apply upd_ssim; [apply tsim_wakes; try done; [by rewrite Hs|by left]|by constructor].
Qed.

Lemma wake_waiter_ssim ti b s : ssim s (upd_task s ti (fun t => task_signal_wake_waiter t b)).
Proof.
  apply upd_ssim; unfold task_signal_wake_waiter; destruct (is_state _ _) eqn:Hs; cbn [negb]; try reflexivity;
    apply is_state_true in Hs; cbv zeta.
  - destruct (t_tf _); [destruct (_ && _)|]; apply tsim_wakes; try done; try (by left); by rewrite Hs.
  - destruct (t_tf _); [destruct (_ && _)|]; by constructor.
Qed.

Lemma signal_one_ok self victim sig s :
  ok s -> (forall v, victim = Some v -> (v < MAX_TASKS)%nat) -> ok (task_signal_one self victim sig s).2.
Proof.
  intros I Hv. unfold task_signal_one. destruct victim as [v|]; [|done]. specialize (Hv v eq_refl).
  cbv zeta. destruct (is_state (task_at s v) TASK_UNUSED) eqn:Hu; [done|]. apply is_state_false in Hu.
  destruct (_ && _); [done|]. destruct (_ || _); [done|]. destruct (sig =? SIGKILL); [by apply force_exit_inv|].
  destruct (_ && _ && _); [done|].
  pose proof (on_sig_ssim s v (fun g => (task_signal_enqueue g sig).2)) as S1.
  set (s1 := upd_task s v _) in *. assert (I1 : ok s1) by by eapply ok_ssim.
  assert (U1 : state (task_at s1 v) <> TASK_UNUSED) by by rewrite (ts_unused _ _ (ssim_task _ _ v S1)).
  clearbody s1. destruct (task_signal_blocked _ _); [done|]. destruct (sig =? SIGCONT); [|destruct (sig =? SIGSTOP)]; cbn [snd].
  - eapply ok_ssim; [|apply wake_waiter_ssim]. eapply ok_ssim; [|apply continue_task_ssim].
    eapply ok_ssim; [exact I1|apply on_sig_ssim].
  - pose proof (on_sig_ssim s1 v (fun g => task_signal_clear_pending g SIGCONT)) as S2.
    eapply ok_ssim; [eapply ok_ssim; [exact I1|exact S2]|]. apply stop_task_ssim.
    by rewrite (ts_unused _ _ (ssim_task _ _ v S2)).
  - eapply ok_ssim; [exact I1|apply wake_waiter_ssim].
Qed.

Lemma by_pid_slot s p v : ok s -> task_by_pid s p = Some v -> (v < MAX_TASKS)%nat.
Proof.
  intros I H. apply by_pid_Some in H as (t & Ht & _). apply lookup_lt_Some in Ht. unfold get_tasks in Ht.
  by rewrite (tb_len _ _ (pi_table _ _ _ _ _ _ I)) in Ht.
Qed.

Lemma kill_loop_ok is_ self p sig n s :
  ok s -> Forall (fun i => (i < MAX_TASKS)%nat) is_ -> ok (kill_loop is_ self p sig n s).2.
Proof.
  revert n s. induction is_ as [|i is_ IH]; intros n s I H; cbn [kill_loop]; [done|]. apply Forall_cons in H as [Hi H].
  cbv zeta. do 4 (destruct (_ : bool); [by apply IH|]).
  pose proof (signal_one_ok self (Some i) sig s I) as I1. destruct (task_signal_one self (Some i) sig s) as [m s1].
  apply IH; [|done]. apply I1. by intros v [= <-].
Qed.

Lemma kill_ok p sig s : ok s -> ok (task_kill p sig s).2.
Proof.
  intros I. unfold task_kill. destruct (current s) as [self|]; [|done]. destruct (negb _); [done|]. destruct (0 <? p).
  - pose proof (signal_one_ok self (task_by_pid s p) sig s I (fun v => by_pid_slot s p v I)) as I1.
    by destruct (task_signal_one _ _ _ _).
  - pose proof (kill_loop_ok (seq 0 MAX_TASKS) self p sig 0 s I all_slots) as I1. by destruct (kill_loop _ _ _ _ _ _).
Qed.

Lemma sigaction_ok sig act s : ok s -> ok (task_sigaction sig act s).2.
Proof.
  intros I. unfold task_sigaction. destruct (current s) as [self|]; [|done]. cbv zeta. destruct (_ || _ || _); [done|].
  destruct (sigaction_store _ _ _) as [g|]; [|done]. cbn [snd].
  assert (I1 : ok (upd_task s self (fun t => set_t_sig t g))).
  { eapply ok_ssim; [exact I|]. by apply upd_ssim; [apply tsim_state|constructor]. }
  destruct (_ && _); [|done]. cbn [snd]. eapply ok_ssim; [|apply settle_sigchld_ssim]. by apply reap_sigchld_inv.
Qed.

Lemma deliver_loop_ok fuel ti s b s' :
  ok s -> (ti < MAX_TASKS)%nat -> state (task_at s ti) <> TASK_UNUSED -> deliver_loop fuel ti s = Some (b, s') -> ok s'.
Proof.
  intros I Hti. revert s I. induction fuel as [|fuel IH]; intros s I Hs H; cbn [deliver_loop] in H; [done|].
  destruct (task_pick_pending_unblocked _) as [sig g]. cbv zeta in H.
  assert (S1 : ssim s (upd_task s ti (fun t => set_t_sig t g))) by by apply upd_ssim; [apply tsim_state|constructor].
  set (s1 := upd_task s ti (fun t => set_t_sig t g)) in *. assert (I1 : ok s1) by by eapply ok_ssim.
  assert (U1 : state (task_at s1 ti) <> TASK_UNUSED) by by rewrite (ts_unused _ _ (ssim_task _ _ ti S1)).
  clearbody s1. destruct (sig <=? 0); [by simplify_eq|].
  match type of H with (if ?b then _ else _) = _ => destruct b end; [by apply (IH s1)|].
  match type of H with (if ?b then _ else _) = _ => destruct b end.
  - destruct (task_signal_default_action sig).
    + simplify_eq. by apply force_exit_inv.
    + simplify_eq. by apply force_exit_inv.
    + simplify_eq. eapply ok_ssim; [exact I1|by apply stop_task_ssim].
    + pose proof (continue_task_ssim ti s1) as S2. apply (IH (continue_task ti s1)); [by eapply ok_ssim| |done].
      by rewrite (ts_unused _ _ (ssim_task _ _ ti S2)).
  - destruct (signal_active g); [simplify_eq; eapply ok_ssim; [exact I1|apply on_sig_ssim]|].
    destruct (negb _); [simplify_eq; by apply force_exit_inv|].
    destruct (t_tf _) as [tf|]; [|by simplify_eq]. destruct (enter_handler g tf sig) as [g1 tf1]. simplify_eq.
    eapply ok_ssim; [exact I1|]. by apply upd_ssim; [apply tsim_state|constructor].
Qed.

Lemma deliver_ok ti s b s' : ok s -> (ti < MAX_TASKS)%nat -> task_deliver_pending_signal ti s = Some (b, s') -> ok s'.
Proof.
  intros I Hti. unfold task_deliver_pending_signal. cbv zeta. destruct (_ || negb (is_live _)) eqn:Hb; [by intros [= _ <-]|].
  apply orb_false_iff in Hb as [_ Hl]. apply negb_false_iff, is_live_true in Hl as [Hu _]. by apply deliver_loop_ok.
Qed.

(** ** Address space identifiers *)

Lemma psim_ok s s' : ok s -> psim (s_top s) (s_top s') -> asid_inv (s_top s') -> ok s'.
Proof.
  intros [Hcu T A Ed W] S A'. constructor; [by rewrite (ps_current _ _ S)|by eapply table_psim|done|by eapply ends_psim|intros St; eapply wait_psim; eauto].
Qed.

Lemma mmu_ssim s f : ssim s (on_mmu s f).
Proof. split; constructor; reflexivity. Qed.

Lemma give_asid_psim s ti a : psim (s_top s) (s_top (give_asid s ti a)).
Proof. constructor; try done. apply Forall2_insert_total; [apply _|]. by apply tsim_state. Qed.

Lemma give_asid_inv s ti a :
  table_inv run (s_top s) -> asid_inv (s_top s) -> (ti < MAX_TASKS)%nat -> state (task_at s ti) <> TASK_UNUSED ->
  1 <= a < kt_next_asid (s_top s) ->
  (forall tj u, get_tasks s !! tj = Some u -> asid_epoch (t_vm u) = kt_asid_epoch (s_top s) -> asid (t_vm u) <> a) ->
  asid_inv (s_top (give_asid s ti a)).
Proof.
  intros T A Hti Hs Ha Hf. apply (set_task_asid (run := run)); try done. intros _. split; [done|].
  intros tj u _. apply Hf.
Qed.

Lemma expire_tsim t : tsim t (expire_asid t).
Proof. unfold expire_asid. destruct (negb _); [by apply tsim_state|done]. Qed.

(** A rollover: nobody holds an identifier of the new epoch but the current task. *)
Lemma rollover_spec s :
  ok s -> let s' := task_asid_rollover s in
  ok s' /\ psim (s_top s) (s_top s') /\ 1 <= kt_next_asid (s_top s') <= 2.
Proof.
  intros I. unfold task_asid_rollover. cbv zeta.
  set (e := if u32 (kt_asid_epoch (s_top s) + 1) =? 0 then 1 else u32 (kt_asid_epoch (s_top s) + 1)).
  assert (He : 1 <= e < 2 ^ 32).
  { unfold e. pose proof (u32_range (kt_asid_epoch (s_top s) + 1)) as Hu. unfold is_u32 in Hu.
    destruct (_ =? 0) eqn:Hz; lia. }
  match goal with |- context [current ?a] => set (s4 := a) end.
  assert (P4 : psim (s_top s) (s_top s4)) by (constructor; try done; apply Forall2_map_r, expire_tsim).
  assert (E4 : kt_asid_epoch (s_top s4) = e /\ kt_next_asid (s_top s4) = 1) by done.
  assert (N4 : forall tj u, kt_tasks (s_top s4) !! tj = Some u -> asid_epoch (t_vm u) = 0).
  { intros tj u Hu. simpl in Hu. apply list_lookup_fmap_Some in Hu as (t & -> & Ht). unfold expire_asid.
    destruct (is_state t TASK_UNUSED) eqn:Hs; cbn [negb]; [|done]. apply is_state_true in Hs.
    exact (ai_unused _ (pi_asid _ _ _ _ _ _ I) tj t Ht Hs). }
  destruct E4 as [Ee En]. clearbody s4 e.
  assert (A4 : asid_inv (s_top s4)).
  { constructor; rewrite ?Ee, ?En; [lia|lia|by intros; eapply N4| |]; intros *; intros Hu; rewrite (N4 _ _ Hu); lia. }
  pose proof (psim_ok _ _ I P4 A4) as I4.
  destruct (current s4) as [c|] eqn:Hc; [|split_and!; [done|done|lia|lia]].
  destruct (is_state (task_at s4 c) TASK_UNUSED) eqn:Hs; cbn [negb]; [split_and!; [done|done|lia|lia]|].
  apply is_state_false in Hs. rewrite En. change (u16 (1 + 1)) with 2.
  assert (Hcl : (c < MAX_TASKS)%nat).
  { destruct (decide (c < MAX_TASKS)%nat); [done|]. exfalso. apply Hs. unfold task_at, kt_task.
    rewrite list_lookup_total_alt, lookup_ge_None_2; [done|]. rewrite (tb_len _ _ (pi_table _ _ _ _ _ _ I4)). lia. }
  set (s5 := on_top s4 (fun k => kt_set_next_asid k 2)).
  assert (T5 : table_inv run (s_top s5)) by (eapply table_psim; [apply I4|by constructor]).
  assert (A5 : asid_inv (s_top (give_asid s5 c 1))).
  { apply give_asid_inv; try done.
    - destruct A4. constructor; simpl; try done. intros tj u Hu He1. specialize (ai_range tj u Hu He1). lia.
    - intros tj u Hu. unfold get_tasks in Hu. rewrite (N4 tj u Hu). simpl. rewrite Ee. lia. }
  assert (P5 : psim (s_top s) (s_top (give_asid s5 c 1))).
  { etransitivity; [exact P4|]. etransitivity; [|apply give_asid_psim]. by constructor. }
  pose proof (psim_ok _ _ I P5 A5) as I5. split_and!.
  - eapply ok_ssim; [exact I5|apply mmu_ssim].
  - etransitivity; [exact P5|apply mmu_ssim].
  - simpl. lia.
  - simpl. lia.
Qed.

(** A new identifier: nobody else holds it in this epoch. *)
Lemma alloc_asid_spec s a s' :
  ok s -> task_alloc_asid s = (a, s') ->
  ok s' /\ psim (s_top s) (s_top s') /\ 1 <= a < kt_next_asid (s_top s') /\
  (forall tj u, get_tasks s' !! tj = Some u -> asid_epoch (t_vm u) = kt_asid_epoch (s_top s') -> asid (t_vm u) <> a).
Proof.
  intros I. unfold task_alloc_asid. cbv zeta.
  match goal with |- context [on_top ?b _] => set (s1 := b) end.
  assert (H1 : ok s1 /\ psim (s_top s) (s_top s1) /\ 1 <= kt_next_asid (s_top s1) <= 255).
  { pose proof (ai_next _ (pi_asid _ _ _ _ _ _ I)) as Hn. unfold s1. destruct (_ || _) eqn:Hb.
    - destruct (rollover_spec s I) as (I1 & P1 & N1). split_and!; try done; lia.
    - apply orb_false_iff in Hb as [? ?]. split_and!; [done|done|lia|lia]. }
  clearbody s1. destruct H1 as (I1 & P1 & N1). intros H. apply pair_equal_spec in H as [<- <-].
  assert (Hu : u16 (kt_next_asid (s_top s1) + 1) = kt_next_asid (s_top s1) + 1) by (apply Z.mod_small; lia).
  destruct I1 as [Hc1 T1 A1 Ed1 W1]. assert (P2 : psim (s_top s1) (s_top (on_top s1 (fun k => kt_set_next_asid k
    (u16 (kt_next_asid (s_top s1) + 1)))))) by by constructor.
  rewrite Hu in *. split_and!.
  - apply (psim_ok s1); [done|done|]. destruct A1. constructor; simpl; try done; [lia|].
    intros tj u Hl He. specialize (ai_range tj u Hl He). lia.
  - by etransitivity.
  - lia.
  - simpl. lia.
  - intros tj u Hl He. pose proof (ai_range _ A1 tj u Hl He). lia.
Qed.

Lemma psim_state s s' ti : psim (s_top s) (s_top s') -> (state (task_at s' ti) = TASK_UNUSED <-> state (task_at s ti) = TASK_UNUSED).
Proof. intros P. apply (psim_task s s' ti P). Qed.

Lemma ensure_asid_ok ti s :
  ok s -> (ti < MAX_TASKS)%nat -> state (task_at s ti) <> TASK_UNUSED ->
  ok (task_ensure_asid ti s) /\ psim (s_top s) (s_top (task_ensure_asid ti s)).
Proof.
  intros I Hti Hs. unfold task_ensure_asid. destruct (_ =? _); [done|].
  destruct (task_alloc_asid s) as [a s1] eqn:Ea. destruct (alloc_asid_spec s a s1 I Ea) as (I1 & P1 & Ha & Hf).
  assert (P2 : psim (s_top s) (s_top (give_asid s1 ti a))) by (etransitivity; [exact P1|apply give_asid_psim]).
  split; [|done]. apply (psim_ok s); [done|done|]. apply give_asid_inv; try done; [apply I1|apply I1|].
  by rewrite (psim_state _ _ ti P1).
Qed.

(** ** Creation *)

Lemma idle_slot_ok s ti t' :
  ok s -> (ti < MAX_TASKS)%nat -> closed (task_at s ti) -> state t' = TASK_UNUSED -> asid_epoch (t_vm t') = 0 ->
  length (fds t') = MAX_FDS -> closed t' -> ok (set_task s ti t').
Proof.
  intros [Hcu T A Ed W] Hti Hc Hs He Hl Hc'. constructor; [exact Hcu|..].
  - apply set_task_table; try done; [|by rewrite Hs]. eapply Forall_impl; [exact Hc'|]. by intros f ->.
  - apply (set_task_asid (run := run)); try done. rewrite He. destruct (ai_epoch _ A). lia.
  - apply (set_task_ends (run := run)); try done. intros rd p. by rewrite (closed_ends rd p (fds (kt_task _ _)) Hc), closed_ends.
  - intros St. apply (set_task_wait_plain (run := run)); rewrite ?Hs; try done. by apply W.
Qed.

(** A task enters an empty slot. *)
Lemma install_ok s ti t' :
  ok s -> (ti < MAX_TASKS)%nat -> state (task_at s ti) = TASK_UNUSED -> state t' = TASK_RUNNABLE ->
  length (fds t') = MAX_FDS -> fds_typed (fds t') -> (forall rd p, countb (is_end rd p) (fds t') = 0) -> 0 < pid t' < kt_next_pid (s_top s) ->
  (forall tj u, tj <> ti -> get_tasks s !! tj = Some u -> state u <> TASK_UNUSED -> pid u <> pid t') ->
  1 <= asid (t_vm t') < kt_next_asid (s_top s) ->
  (forall tj u, get_tasks s !! tj = Some u -> asid_epoch (t_vm u) = kt_asid_epoch (s_top s) ->
     asid (t_vm u) <> asid (t_vm t')) ->
  ok (set_task s ti t').
Proof.
  intros I Hti Hu Hs Hl Hty He Hp Hq Ha Hb. pose proof (task_in _ _ _ _ _ I Hti) as Ht. destruct I as [Hcu T A Ed W]. constructor; [exact Hcu|..].
  - apply set_task_table; try done; rewrite Hs; try done. by intros [].
  - apply (set_task_asid (run := run)); try done; [by rewrite Hs|]. intros _. split; [done|]. intros tj u _. apply Hb.
  - apply (set_task_ends (run := run)); try done. intros rd p. rewrite He. symmetry. apply closed_ends.
    exact (tb_closed _ _ T ti _ Ht (or_introl Hu)).
  - intros St. apply (set_task_wait_plain (run := run)); rewrite ?Hs; try done. by apply W.
Qed.

Lemma next_pid_ok s : ok s -> ok (on_top s (fun k => kt_set_next_pid k (kt_next_pid (s_top s) + 1))).
Proof.
  intros [Hcu T A Ed W]. constructor; [exact Hcu| |by destruct A; constructor|by destruct Ed; constructor|intros St; by destruct (W St); constructor].
  destruct T. constructor; simpl; try done; [lia|]. intros ti t Ht Hs. specialize (tb_pid ti t Ht Hs). lia.
Qed.

Lemma set_twice s ti a f :
  (ti < length (kt_tasks (s_top s)))%nat -> upd_task (set_task s ti a) ti f = set_task s ti (f a).
Proof.
  intros H. unfold upd_task. rewrite task_at_set, decide_True by done. unfold set_task, sys_set_top. simpl.
  unfold kt_set_task, kt_set_tasks. simpl. by rewrite list_insert_insert_eq.
Qed.

Lemma std_fds_ends rd p : countb (is_end rd p) std_fds = 0.
Proof. by destruct rd. Qed.

(** The task made of the slot [t]. *)
Definition new_task (t : task) : task :=
  let t := set_t_wait (set_state t TASK_RUNNABLE) wait_cleared in
  let t := task_set_comm_internal t (Some comm_task) in
  let t := set_fds t std_fds in
  set_cwd t (47 :: 0 :: drop 2 (cwd t)).

(** The second half: the slot has its process identifier, the task is completed. *)
Lemma alloc_finish s i t a s2 :
  ok s -> (i < MAX_TASKS)%nat -> closed (task_at s i) -> state t = TASK_UNUSED -> asid_epoch (t_vm t) = 0 ->
  length (fds t) = MAX_FDS -> closed t -> pid t = kt_next_pid (s_top s) ->
  task_alloc_asid (set_task (on_top s (fun k => kt_set_next_pid k (kt_next_pid (s_top s) + 1))) i t) = (a, s2) ->
  let s3 := upd_task (give_asid s2 i a) i new_task in
  asid (vm_at (give_asid s2 i a) i) = a /\ 1 <= a /\ ok s3 /\
  state (task_at s3 i) = TASK_RUNNABLE /\ fds (task_at s3 i) = std_fds /\
  (forall tj, tj <> i -> tsim (task_at s tj) (task_at s3 tj)) /\ current s3 = current s.
Proof.
  intros I Hi Hc Hs He Hl Hc' Hp Ha. set (s1 := set_task _ i t) in Ha.
  assert (I1 : ok s1) by by apply idle_slot_ok; [apply next_pid_ok|..].
  destruct (alloc_asid_spec s1 a s2 I1 Ha) as (I2 & P2 & Ra & Fa). pose proof (pi_table _ _ _ _ _ _ I2) as T2.
  assert (L2 : (i < length (kt_tasks (s_top s2)))%nat) by by rewrite (tb_len _ _ T2).
  assert (Z1 : task_at s1 i = t).
  { unfold s1. rewrite task_at_set, decide_True; [done|]. split; [done|]. simpl. by rewrite (tb_len _ _ (pi_table _ _ _ _ _ _ I)). }
  assert (O1 : forall tj, tj <> i -> task_at s1 tj = task_at s tj).
  { intros tj Hne. unfold s1. by rewrite task_at_set, decide_False by naive_solver. }
  assert (T12 : forall tj, tsim (task_at s1 tj) (task_at s2 tj)) by (intros tj; by apply psim_task).
  assert (N2 : kt_next_pid (s_top s2) = kt_next_pid (s_top s) + 1) by by rewrite (ps_next_pid _ _ P2).
  assert (C2 : kt_current (s_top s2) = kt_current (s_top s)) by by rewrite (ps_current _ _ P2).
  assert (U2 : state (task_at s2 i) = TASK_UNUSED) by (apply (ts_unused _ _ (T12 i)); by rewrite Z1).
  assert (Hp2 : pid (task_at s2 i) = kt_next_pid (s_top s)) by by rewrite (ts_pid _ _ (T12 i)), Z1.
  cbv zeta. split; [unfold give_asid; rewrite vm_at_set_eq, decide_True by done; done|]. split; [lia|].
  set (t2 := set_t_vm (task_at s2 i) (set_asid_epoch (set_asid (vm_at s2 i) a) (kt_asid_epoch (s_top s2)))).
  change (give_asid s2 i a) with (set_task s2 i t2). rewrite set_twice by done.
  assert (Hn : task_at (set_task s2 i (new_task t2)) i = new_task t2) by by rewrite task_at_set, decide_True.
  split_and!; try by rewrite Hn.
  - pose proof (tb_next _ _ (pi_table _ _ _ _ _ _ I)) as Hnx. pose proof (task_in _ _ _ _ _ I Hi) as Hti.
    apply install_ok; try done.
    + by repeat constructor.
    + apply std_fds_ends.
    + change (pid (new_task t2)) with (pid (task_at s2 i)). rewrite Hp2, N2. lia.
    + intros tj u Hne Hu Hsu. change (pid (new_task t2)) with (pid (task_at s2 i)). rewrite Hp2.
      rewrite <- (task_at_eq _ _ _ Hu) in *. pose proof (T12 tj) as Tj. rewrite (O1 tj Hne) in Tj.
      rewrite (ts_pid _ _ Tj). rewrite (ts_unused _ _ Tj) in Hsu.
      assert (Hj : (tj < MAX_TASKS)%nat). { apply lookup_lt_Some in Hu. unfold get_tasks in Hu. by rewrite (tb_len _ _ T2) in Hu. }
      pose proof (tb_pid _ _ (pi_table _ _ _ _ _ _ I) tj _ (task_in _ _ _ _ _ I Hj) Hsu). lia.
  - intros tj Hne. rewrite task_at_set, decide_False by naive_solver. rewrite <- (O1 tj Hne). apply T12.
  - exact C2.
Qed.

Lemma task_alloc_ok s r s' :
  ok s -> task_alloc s = (r, s') ->
  ok s' /\ (forall i, r = Some i -> (i < MAX_TASKS)%nat /\ state (task_at s i) = TASK_UNUSED /\
    state (task_at s' i) = TASK_RUNNABLE /\ fds (task_at s' i) = std_fds /\
    (forall tj, tj <> i -> tsim (task_at s tj) (task_at s' tj)) /\ current s' = current s).
Proof.
  intros I. unfold task_alloc. destruct (_ <=? _); [by intros [= <- <-]|].
  destruct (find_idx _ _) as [i|] eqn:Hf; [|by intros [= <- <-]].
  apply find_idx_Some in Hf as (t & Ht & Hs & _). apply is_state_true in Hs.
  pose proof (pi_table _ _ _ _ _ _ I) as T.
  assert (Hi : (i < MAX_TASKS)%nat). { apply lookup_lt_Some in Ht. unfold get_tasks in Ht. by rewrite (tb_len _ _ T) in Ht. }
  pose proof (tb_closed _ _ T i t Ht (or_introl Hs)) as Hc. rewrite <- (task_at_eq _ _ _ Ht) in Hc, Hs.
  cbv zeta. destruct (pmm_alloc _ _ _) as [base p].
  set (s1 := sys_set_pmm (set_task s i task_zero) p).
  assert (I1 : ok s1) by by apply (zero_slot_inv x0 v0 None s i I Hi Hc).
  assert (Z1 : task_at s1 i = task_zero).
  { unfold s1. change (task_at (set_task s i task_zero) i = task_zero). rewrite task_at_set, decide_True; [done|].
    split; [done|]. unfold get_tasks in *. by rewrite (tb_len _ _ T). }
  assert (O1 : forall tj, tj <> i -> task_at s1 tj = task_at s tj).
  { intros tj Hne. change (task_at (set_task s i task_zero) tj = task_at s tj). by rewrite task_at_set, decide_False by naive_solver. }
  assert (N1 : kt_next_pid (s_top s1) = kt_next_pid (s_top s) /\ current s1 = current s) by done. clearbody s1.
  destruct (base =? 0).
  { intros H. apply pair_equal_spec in H as [<- <-]. split; [|done]. apply zero_slot_inv; [done|done|].
    rewrite Z1. by repeat constructor. }
  match goal with |- context [set_task (on_top s1 _) i ?u] => set (t1 := u) end.
  destruct (task_alloc_asid _) as [a s2] eqn:Ea.
  assert (Hz : closed (task_at s1 i)) by (rewrite Z1; by repeat constructor).
  destruct (alloc_finish s1 i t1 a s2 I1 Hi Hz eq_refl eq_refl eq_refl ltac:(by repeat constructor) eq_refl Ea)
    as (A3 & Ha & I3 & S3 & F3 & O3 & C3).
  rewrite A3. destruct (a =? 0) eqn:Hz0; [lia|]. intros H. apply pair_equal_spec in H as [<- <-].
  change (upd_task (give_asid s2 i a) i _) with (upd_task (give_asid s2 i a) i new_task).
  generalize dependent (upd_task (give_asid s2 i a) i new_task). intros s3 I3 S3 F3 O3 C3.
  pose proof (ssame_ssim _ _ (ssame_refresh s3 i)) as R. split; [by eapply ok_ssim|]. intros j [= <-]. split_and!; try done.
  - rewrite <- S3. unfold refresh, set_vm. change (state (task_at (set_task s3 i (set_t_vm (task_at s3 i)
      (task_refresh_mem_accounting (s_pmm s3) (kstack_base (task_at s3 i)) (vm_at s3 i)))) i) = state (task_at s3 i)).
    rewrite task_at_set. by case_decide.
  - by rewrite (ssim_fds _ _ i R).
  - intros tj Hne. rewrite <- (O1 tj Hne). etransitivity; [by apply O3|]. by apply ssim_task.
  - destruct N1 as [_ <-]. exact C3.
Qed.

(** ** Fork *)

Lemma ref_tasks f s : kt_tasks (s_top (task_fd_ref f s)) = kt_tasks (s_top s).
Proof.
  unfold task_fd_ref. destruct (negb _); [done|]. by destruct (fd_kind f), (fd_pipe f), (fd_sock f).
Qed.

Lemma ref_task f s ti : task_at (task_fd_ref f s) ti = task_at s ti.
Proof. unfold task_at, kt_task. by rewrite ref_tasks. Qed.

(** The descriptors of another task are copied one by one into empty slots. *)
Lemma fork_fds_step s parent child i :
  ok s -> parent <> child -> (parent < MAX_TASKS)%nat -> (child < MAX_TASKS)%nat -> (i < MAX_FDS)%nat ->
  is_live (task_at s child) = true -> (forall rd p, fd_x (get_fd s child i) rd p = 0) ->
  let f := get_fd s parent i in
  let s1 := set_fd s child i f in
  let s2 := if fd_used (get_fd s1 child i) then task_fd_ref (get_fd s1 child i) s1 else s1 in
  ok s2 /\ is_live (task_at s2 child) = true /\ (forall j, j <> i -> get_fd s2 child j = get_fd s child j).
Proof.
  intros I Hne Hp Hc Hi Hl Hx f s1.
  assert (T1 : task_at s1 child = set_fds (task_at s child) (<[i := f]> (fds (task_at s child)))).
  { unfold s1, set_fd. rewrite upd_same; [done|]. by rewrite (tb_len _ _ (pi_table _ _ _ _ _ _ I)). }
  assert (Hf : get_fd s1 child i = f).
  { unfold get_fd. rewrite T1. apply list_lookup_total_insert_eq.
    by rewrite (tb_fds _ _ (pi_table _ _ _ _ _ _ I) child _ (task_in _ _ _ _ _ I Hc)). }
  rewrite Hf. intros s2.
  assert (T2 : task_at s2 child = task_at s1 child) by (unfold s2; destruct (fd_used f); [apply ref_task|done]).
  split_and!.
  - assert (I1 : inv (cur := cur) (run := run) (fun rd p => 0 - fd_x f rd p) v0 None s1).
    { eapply inv_x; [apply (set_fd_inv x0 v0 None s child i f I Hc Hi)|].
      { intros Hu. split; [done|]. exact (fd_is_typed x0 v0 None s parent i I Hp Hi Hu). }
      intros rd p. cbv beta. rewrite Hx. unfold x0. lia. }
    unfold s2. destruct (fd_used f) eqn:Hu.
    + eapply inv_x; [apply fd_ref_inv; [exact I1|]|intros; unfold x0; lia].
      intros rd p He. cbv beta. unfold s1. rewrite (set_fd_ends v0 None x0 s), Hx by done.
      assert (1 <= ends rd p (get_tasks s)); [|lia].
      apply (ends_pos rd p s parent i f); [by eapply task_in|by eapply fd_lookup|done].
    + eapply inv_x; [exact I1|]. intros rd p. cbv beta. rewrite fd_x_none by (by left). done.
  - by rewrite T2, T1.
  - intros j Hj. unfold get_fd. rewrite T2, T1. by apply list_lookup_total_insert_ne.
Qed.

Lemma fork_fds_ok s parent child :
  ok s -> parent <> child -> (parent < MAX_TASKS)%nat -> (child < MAX_TASKS)%nat -> is_live (task_at s child) = true ->
  fds (task_at s child) = std_fds -> ok (fork_fds parent child s) /\ is_live (task_at (fork_fds parent child s) child) = true.
Proof.
  intros I Hne Hp Hc Hl Hf. unfold fork_fds.
  assert (Hx : forall j, j ∈ seq 0 MAX_FDS -> (j < MAX_FDS)%nat /\ forall rd p, fd_x (get_fd s child j) rd p = 0).
  { intros j Hj%elem_of_seq. split; [lia|]. intros rd p. unfold get_fd. rewrite Hf. apply fd_x_none. right; right.
    assert (Forall (fun f => fd_kind f <> FD_PIPE_R /\ fd_kind f <> FD_PIPE_W) std_fds) as H by by repeat constructor.
    rewrite Forall_forall in H. apply H. apply list_elem_of_lookup_total_2. simpl. lia. }
  clear Hf. pose proof (NoDup_seq 0 MAX_FDS) as ND. revert s I Hl Hx ND. generalize (seq 0 MAX_FDS).
  intros is_. induction is_ as [|i is_ IH]; intros s I Hl Hx ND; [done|]. cbn [foldl].
  apply NoDup_cons in ND as [Hni ND]. destruct (Hx i ltac:(by left)) as [Hi Hxi].
  destruct (fork_fds_step s parent child i I Hne Hp Hc Hi Hl Hxi) as (I1 & L1 & O1). cbv zeta in *.
  apply IH; [done|done| |done]. intros j Hj. destruct (Hx j ltac:(by right)) as [Hlt Hxj]. split; [done|].
  intros rd p. rewrite O1; [done|]. by intros ->.
Qed.

Lemma set_runnable_ok s ti f :
  ok s -> (ti < MAX_TASKS)%nat -> state (task_at s ti) <> TASK_UNUSED ->
  (forall t, pid (f t) = pid t /\ fds (f t) = fds t /\ asid (t_vm (f t)) = asid (t_vm t) /\
    asid_epoch (t_vm (f t)) = asid_epoch (t_vm t)) ->
  state (f (task_at s ti)) = TASK_RUNNABLE -> ok (upd_task s ti f).
Proof.
  intros I Hti Hu Hf Hs. destruct (Hf (task_at s ti)) as (H1 & H2 & H3 & H4).
  apply (set_plain_inv x0 v0); try done; rewrite ?Hs; try done.
  intros St. apply (set_task_wait_plain (run := run)); rewrite ?Hs; try done; by apply I.
Qed.

(** The slot of the child: filled, with the standard descriptors. *)
Definition child_slot s (ti : nat) : Prop :=
  state (task_at s ti) = TASK_RUNNABLE /\ fds (task_at s ti) = std_fds.

Lemma child_new s ti f :
  ok s -> (ti < MAX_TASKS)%nat -> child_slot s ti ->
  (forall t, pid (f t) = pid t /\ fds (f t) = fds t /\ asid (t_vm (f t)) = asid (t_vm t) /\
    asid_epoch (t_vm (f t)) = asid_epoch (t_vm t)) -> (forall t, state (f t) = state t) ->
  ok (upd_task s ti f) /\ child_slot (upd_task s ti f) ti.
Proof.
  intros I Hti [Hs Hf] Hk Hst. split; [apply set_runnable_ok; try done; [by rewrite Hs|by rewrite Hst]|].
  unfold child_slot. rewrite upd_same by by rewrite (tb_len _ _ (pi_table _ _ _ _ _ _ I)). rewrite Hst.
  by destruct (Hk (task_at s ti)) as (_ & -> & _).
Qed.

Lemma fork_finish_ok s parent child tf :
  ok s -> parent <> child -> (parent < MAX_TASKS)%nat -> (child < MAX_TASKS)%nat -> is_live (task_at s child) = true ->
  fds (task_at s child) = std_fds -> ok (fork_finish parent child tf s).2.
Proof.
  intros I Hne Hp Hc Hl Hf. unfold fork_finish. cbv zeta.
  assert (S1 : ssim s (set_vm s child (fork_vm (vm_at s child) (vm_at s parent)))) by by apply ssame_ssim, ssame_set_vm.
  generalize dependent (set_vm s child (fork_vm (vm_at s child) (vm_at s parent))). intros s1 S1.
  destruct (bool_decide _); [apply reap_inv; [by eapply ok_ssim|done]|]. cbn [snd].
  assert (S2 : ssim s (upd_task s1 child (fun t => set_t_tf t (Some (set_tf_x tf (<[0%nat := 0]> (tf_x tf))))))).
  { etransitivity; [exact S1|]. by apply upd_ssim; [apply tsim_state|constructor]. }
  generalize dependent (upd_task s1 child (fun t => set_t_tf t (Some (set_tf_x tf (<[0%nat := 0]> (tf_x tf)))))).
  intros s2 S2. rewrite <- (ssim_fds _ _ child S2) in Hf.
  destruct (fork_fds_ok s2 parent child) as [I3 L3]; try done; [by eapply ok_ssim|by eapply ssim_live|].
  generalize dependent (fork_fds parent child s2). intros s3 I3 L3. apply is_live_true in L3 as [U3 _].
  eapply ok_ssim; [|apply ssame_ssim, ssame_refresh]. eapply ok_ssim; [|apply ssame_ssim, ssame_refresh]. by apply set_runnable_ok.
Qed.

Lemma fork_ok s c tf : ok s -> running s c -> ok (task_fork tf s).2.
Proof.
  intros I R. unfold task_fork. rewrite (rn_current _ _ R). destruct tf as [tf|]; [|done]. destruct (negb _); [done|].
  destruct (task_alloc s) as [[child|] s1] eqn:Ea; destruct (task_alloc_ok _ _ _ I Ea) as [I1 Hc]; [|done].
  destruct (Hc child eq_refl) as (Hi & Hu & Hs & Hf & _). clear Hc Ea. cbv zeta.
  assert (Hne : c <> child) by (intros ->; by rewrite (rn_state _ _ R) in Hu).
  pose proof (rn_slot _ _ R) as Hp. clear R I Hu.
  assert (C1 : child_slot s1 child) by done. clear Hs Hf.
  destruct (child_new s1 child (fun t => set_ppid t (pid (task_at s1 c))) I1 Hi C1) as [I2 C2]; try done.
  generalize dependent (upd_task s1 child (fun t => set_ppid t (pid (task_at s1 c)))). clear s I1 C1. intros s I2 C2.
  destruct (child_new s child (fun t => set_pgid t (pgid (task_at s c))) I2 Hi C2) as [I3 C3]; try done.
  generalize dependent (upd_task s child (fun t => set_pgid t (pgid (task_at s c)))). clear s I2 C2. intros s I3 [S3 F3].
  assert (L3 : is_live (task_at s child) = true) by (apply is_live_true; by rewrite S3). clear S3.
  pose proof (ssame_ssim _ _ (ssame_pt_setup child s)) as P. destruct (task_pt_setup child s) as [b1 s4]. cbn [snd] in P.
  assert (I4 : ok s4) by by eapply ok_ssim. pose proof (ssim_live _ _ child P L3) as L4.
  rewrite <- (ssim_fds _ _ child P) in F3. clear P I3 L3. destruct b1; cbn [negb]; [|by apply reap_inv].
  pose proof (ssame_ssim _ _ (ssame_fork_pages (seq 0 MAX_USER_PAGES) c child s4)) as P.
  destruct (fork_pages _ c child s4) as [b2 s5]. cbn [snd] in P.
  assert (I5 : ok s5) by by eapply ok_ssim. pose proof (ssim_live _ _ child P L4) as L5.
  rewrite <- (ssim_fds _ _ child P) in F3. destruct b2; cbn [negb]; [by apply fork_finish_ok|by apply reap_inv].
Qed.

(** ** Pipes through descriptors *)

Lemma pipe_alloc_loop_spec ps i r ps' :
  pipe_alloc_loop ps i = (r, ps') ->
  match r with
  | None => ps' = ps
  | Some j => exists k q, j = (i + k)%nat /\ ps !! k = Some q /\ used q = false /\ ps' = <[k := mk_pipe true ∅ 0 0 0 1 1]> ps
  end.
Proof.
  revert i r ps'. induction ps as [|q ps IH]; intros i r ps' H; cbn [pipe_alloc_loop] in H; [by simplify_eq|].
  destruct (used q) eqn:Hu; cbn [negb] in H.
  - destruct (pipe_alloc_loop ps (S i)) as [r1 ps1] eqn:E1. simplify_eq. specialize (IH _ _ _ E1). destruct r as [j|]; [|by subst].
    destruct IH as (k & q1 & -> & H1 & H2 & ->). exists (S k), q1. split_and!; try done. lia.
  - simplify_eq. exists 0%nat, q. split_and!; try done; lia.
Qed.

Lemma pipe_alloc_inv v s r ps :
  inv (cur := cur) (run := run) x0 v None s -> pipe_alloc (get_pipes s) = (r, ps) ->
  match r with
  | None => set_pipes s ps = set_pipes s (get_pipes s)
  | Some p => inv (cur := cur) (run := run) (x_add (x_add x0 true p 1) false p 1) v None (set_pipes s ps)
  end.
Proof.
  intros I H. apply pipe_alloc_loop_spec in H. destruct r as [p|]; [|by subst].
  destruct H as (k & q & -> & Hq & Hu & ->). simpl. destruct (pipe_soundness _ _ _ _ _ _ I Hq) as (R & W & U & _).
  assert (readers q = 0 /\ writers q = 0) as [R0 W0].
  { destruct (decide (0 < readers q + writers q)) as [Hp|]; [apply U in Hp; congruence|lia]. }
  apply (set_pipe_keep x0 _ v s k q); try done.
  - intros rd r Hne. by rewrite !x_add_other.
  - intros rd. unfold x_add. rewrite (bool_decide_eq_true_2 (k = k)) by done. destruct rd; simpl; rewrite ?R0, ?W0; unfold x0; lia.
  - by rewrite Hu.
Qed.

Lemma set_pipes_same s : ssim s (set_pipes s (get_pipes s)).
Proof. split; constructor; reflexivity. Qed.

Definition plain_fd : fd := mk_fd FD_NONE None None None 0 0 true.

Lemma fd_alloc_inv x v y s ti r s' :
  inv (cur := cur) (run := run) x v y s -> (ti < MAX_TASKS)%nat -> is_live (task_at s ti) = true ->
  task_fd_alloc ti s = (r, s') ->
  inv (cur := cur) (run := run) x v y s' /\ is_live (task_at s' ti) = true /\
  (r = -1 /\ s' = s \/ exists i, r = Z.of_nat i /\ (3 <= i < MAX_FDS)%nat /\ fd_used (get_fd s ti i) = false /\
     s' = set_fd s ti i plain_fd).
Proof.
  intros I Hti Hl. unfold task_fd_alloc. destruct (find_idx _ _) as [j|] eqn:Hf; intros H; apply pair_equal_spec in H as [<- <-];
    [|split_and!; [done|done|by left]].
  apply find_idx_Some in Hf as (f & Hj & Hu & _). rewrite lookup_drop in Hj. apply negb_true_iff in Hu.
  pose proof (lookup_lt_Some _ _ _ Hj) as Hlt.
  rewrite (tb_fds _ _ (pi_table _ _ _ _ _ _ I) ti _ (task_in _ _ _ _ _ I Hti)) in Hlt.
  assert (Hg : get_fd s ti (3 + j) = f) by by apply list_lookup_total_correct.
  split_and!.
  - eapply inv_x; [apply (set_fd_inv x v y s ti (3 + j) plain_fd I Hti Hlt); done|]. intros rd p. cbv beta.
    rewrite Hg, (fd_x_none f) by (by left). rewrite (fd_x_none plain_fd) by (right; right; by split). lia.
  - unfold set_fd. rewrite upd_same; [done|]. by rewrite (tb_len _ _ (pi_table _ _ _ _ _ _ I)).
  - right. exists (3 + j)%nat. rewrite Hg. split_and!; try done; lia.
Qed.

(** Nobody waits for pipe [p]. *)
Definition nowait s (p : nat) : Prop :=
  strict -> forall wi w, get_tasks s !! wi = Some w -> state w = TASK_WAITING ->
    wait_kind (t_wait w) = WAIT_PIPE_READ \/ wait_kind (t_wait w) = WAIT_PIPE_WRITE -> wait_obj (t_wait w) <> Some p.

Abbreviation invr := (inv (cur := cur) (run := run)).

Lemma nowait_inv x v p s : invr x v (Some p) s -> nowait s p -> invr x v None s.
Proof.
  intros [C T A Ed W] H. constructor; try done. intros St. destruct (W St) as [W1 W2 W3]. specialize (H St). constructor; [done| |].
  - intros wi w Hw Sw Kw. destruct (W2 wi w Hw Sw Kw) as (q & Hq & [Hy|B]); exists q; [|by auto].
    simplify_eq. exfalso. by apply (H wi w Hw Sw (or_introl Kw)).
  - intros wi w Hw Sw Kw. destruct (W3 wi w Hw Sw Kw) as (q & Hq & [Hy|B]); exists q; [|by auto].
    simplify_eq. exfalso. by apply (H wi w Hw Sw (or_intror Kw)).
Qed.

Lemma unused_nowait x v s p q : invr x v None s -> get_pipes s !! p = Some q -> used q = false -> nowait s p.
Proof.
  intros I Hq Hu St wi w Hw Sw Kw Ho. destruct (pi_wait _ _ _ _ _ _ I St) as [_ W2 W3]. unfold get_pipes in Hq.
  destruct Kw as [Kw|Kw]; [destruct (W2 wi w Hw Sw Kw) as (r & Hr & [?|(u & B1 & B2 & _)])
    |destruct (W3 wi w Hw Sw Kw) as (r & Hr & [?|(u & B1 & B2 & _)])]; simplify_eq; congruence.
Qed.

Lemma nowait_set_fd s ti i f p : nowait s p -> nowait (set_fd s ti i f) p.
Proof.
  intros H St wi w Hw. specialize (H St). unfold get_tasks, set_fd, upd_task in Hw. simpl in Hw.
  destruct (decide (wi = ti)) as [->|Hne]; [|rewrite list_lookup_insert_ne in Hw by done; exact (H wi w Hw)].
  pose proof (lookup_lt_Some _ _ _ Hw) as Hl. rewrite length_insert in Hl.
  rewrite list_lookup_insert_eq in Hw by done. injection Hw as <-. exact (H ti _ (task_lookup s ti Hl)).
Qed.

Lemma ends_nonneg rd p ts : 0 <= ends rd p ts.
Proof.
  unfold ends. induction ts as [|t ts IH]; [done|]. unfold zsum in *. simpl.
  pose proof (countb_nonneg (is_end rd p) (fds t)). lia.
Qed.

(** Giving up a new pipe. *)
Lemma drop_pipe_inv v s p :
  invr (x_add (x_add x0 true p 1) false p 1) v None s -> nowait s p ->
  let s1 := set_pipes s (pipe_close_read (get_pipes s) (Some p)) in
  invr x0 v None (set_pipes s1 (pipe_close_write (get_pipes s1) (Some p))).
Proof.
  intros I H s1. pose proof (ends_nonneg true p (get_tasks s)) as E1.
  assert (I1 : invr (x_add (x_add (x_add x0 true p 1) false p 1) true p (-1)) v None s1).
  { apply (nowait_inv _ _ p); [|done]. apply (pipe_close_inv _ v s true p I). unfold x_add. simpl.
    rewrite (bool_decide_eq_true_2 (p = p)) by done. unfold x0. lia. }
  pose proof (ends_nonneg false p (get_tasks s1)) as E2.
  eapply inv_x; [apply (nowait_inv _ _ p); [|done]; apply (pipe_close_inv _ v s1 false p I1)|].
  - unfold x_add. simpl. rewrite (bool_decide_eq_true_2 (p = p)) by done. unfold x0. lia.
  - intros rd r. unfold x_add, x0. destruct rd, (bool_decide (r = p)); simpl; lia.
Qed.

Lemma close_plain s ti i :
  (i < MAX_FDS)%nat -> get_fd s ti i = plain_fd -> (task_fd_close ti (Z.of_nat i) s).2 = set_fd s ti i fd_zero.
Proof.
  intros Hi H. unfold task_fd_close. rewrite (proj2 (fd_bad_false (Z.of_nat i))) by lia. cbv zeta. by rewrite Nat2Z.id, H.
Qed.

Lemma get_set_fd x v y s ti i f j :
  invr x v y s -> (ti < MAX_TASKS)%nat -> (i < MAX_FDS)%nat ->
  get_fd (set_fd s ti i f) ti j = if decide (j = i) then f else get_fd s ti j.
Proof.
  intros I Hti Hi. unfold get_fd, set_fd. rewrite upd_same by by rewrite (tb_len _ _ (pi_table _ _ _ _ _ _ I)). simpl.
  case_decide as Hj; [subst|by rewrite list_lookup_total_insert_ne]. apply list_lookup_total_insert_eq.
  by rewrite (tb_fds _ _ (pi_table _ _ _ _ _ _ I) ti _ (task_in _ _ _ _ _ I Hti)).
Qed.

Lemma set_fd_live x v y s ti i f :
  invr x v y s -> (ti < MAX_TASKS)%nat -> is_live (task_at (set_fd s ti i f) ti) = is_live (task_at s ti).
Proof. intros I Hti. unfold set_fd. rewrite upd_same; [done|]. by rewrite (tb_len _ _ (pi_table _ _ _ _ _ _ I)). Qed.

(** The two ends of a new pipe enter the table. *)
Lemma pipe_ends_ok s ti p r w :
  invr (x_add (x_add x0 true p 1) false p 1) v0 None s -> (ti < MAX_TASKS)%nat -> is_live (task_at s ti) = true ->
  (r < MAX_FDS)%nat -> (w < MAX_FDS)%nat -> r <> w -> get_fd s ti r = plain_fd -> get_fd s ti w = plain_fd ->
  let s1 := set_fd s ti r (mk_fd FD_PIPE_R None (Some p) None 0 O_RDONLY (fd_used (get_fd s ti r))) in
  ok (set_fd s1 ti w (mk_fd FD_PIPE_W None (Some p) None 0 O_WRONLY (fd_used (get_fd s1 ti w)))).
Proof.
  intros I Hti Hl Hr Hw Hne Gr Gw s1.
  set (fr := mk_fd FD_PIPE_R None (Some p) None 0 O_RDONLY true). set (fw := mk_fd FD_PIPE_W None (Some p) None 0 O_WRONLY true).
  assert (Xp : forall rd q, fd_x plain_fd rd q = 0) by (intros; apply fd_x_none; right; right; by split).
  assert (E1 : s1 = set_fd s ti r fr) by (unfold s1; by rewrite Gr). clearbody s1. subst s1.
  assert (I1 : invr (fun rd q => x_add (x_add x0 true p 1) false p 1 rd q + fd_x (get_fd s ti r) rd q - fd_x fr rd q) v0 None
    (set_fd s ti r fr)) by (apply set_fd_inv; try done; intros _; split; [done|by eexists]).
  assert (G1 : get_fd (set_fd s ti r fr) ti w = plain_fd).
  { rewrite (get_set_fd _ _ _ _ _ _ _ _ I Hti Hr), decide_False; [done|]. by intros ->. }
  rewrite G1. eapply inv_x; [apply (set_fd_inv _ v0 None _ ti w fw I1 Hti Hw)|].
  - intros _. rewrite (set_fd_live _ _ _ _ _ _ _ I Hti). split; [done|by eexists].
  - intros rd q. cbv beta. rewrite G1, Gr, !Xp, (fd_x_pipe fr true p), (fd_x_pipe fw false p) by done.
    unfold x_add, x0. destruct rd, (bool_decide (q = p)); simpl; lia.
Qed.

(** ** Reading and writing pipes *)

Lemma pipe_write_cases m ps p len n ps' :
  0 < len -> pipe_write m ps (Some p) tmp len = (n, ps') ->
  (n = 0 /\ ps' = ps /\ forall q, ps !! p = Some q -> used q = true -> pipe_sound q -> count q = PIPE_CAPACITY) \/
  (0 < n /\ exists q q', ps !! p = Some q /\ ps' = <[p := q']> ps /\ readers q' = readers q /\ writers q' = writers q /\
    used q' = used q /\ (pipe_sound q -> pipe_sound q')).
Proof.
  intros Hlen. unfold pipe_write, pipe_at. simpl. destruct (ps !! p) as [q|] eqn:Hq; simpl; [|intros [= <- <-]; by left].
  destruct (used q) eqn:Hu; simpl; [|intros [= <- <-]; left; split_and!; try done; intros q1 H1 H2; exfalso; congruence].
  replace (len =? 0) with false by lia. destruct (PIPE_CAPACITY <=? count q) eqn:Hc.
  { intros [= <- <-]. left. split_and!; try done. intros q1 H1 _ (_ & _ & _ & ? & _). simplify_eq. lia. }
  set (k := if _ <? len then _ else _). assert (Hk : 0 < k <= PIPE_CAPACITY - count q) by (unfold k; destruct (_ <? len) eqn:?; lia).
  clearbody k. destruct (pipe_write_loop _ _ _ _ _) as [d' w'] eqn:L. intros H. apply pair_equal_spec in H as [<- <-]. right.
  split; [lia|]. eexists q, _. split_and!; try done. intros (H1 & H2 & H3 & H4 & H5 & H6).
  unfold pipe_sound. simpl. rewrite Hu in H3. split_and!; try done; [lia..|].
  pose proof (pipe_write_loop_spec (Z.to_nat k) m tmp (data q) (rpos q) (count q) ltac:(lia) ltac:(lia)) as Ls.
  rewrite <- H6, L in Ls. destruct Ls as [_ ->]. f_equal. lia.
Qed.

Lemma pipe_read_cases m ps p len n m' ps' :
  0 < len -> pipe_read m ps (Some p) tmp len = (n, m', ps') ->
  (n = 0 /\ ps' = ps /\ forall q, ps !! p = Some q -> used q = true -> count q = 0) \/
  ((0 < n <= len \/ forall q, ps !! p = Some q -> ~ pipe_sound q) /\
    exists q q', ps !! p = Some q /\ ps' = <[p := q']> ps /\ readers q' = readers q /\ writers q' = writers q /\
    used q' = used q /\ (pipe_sound q -> pipe_sound q')).
Proof.
  intros Hlen. unfold pipe_read, pipe_at. simpl. destruct (ps !! p) as [q|] eqn:Hq; simpl; [|intros [= <- <- <-]; by left].
  destruct (used q) eqn:Hu; simpl; [|intros [= <- <- <-]; left; split_and!; try done; intros q1 H1 H2; exfalso; congruence].
  replace (len =? 0) with false by lia. destruct (count q =? 0) eqn:Hc.
  { intros [= <- <- <-]. left. split_and!; try done. intros q1 H1 _. simplify_eq. lia. }
  set (k := if _ <? len then _ else _). assert (Hk : 0 < count q -> 0 < k <= len /\ k <= count q) by (unfold k; destruct (_ <? len) eqn:?; lia).
  clearbody k. destruct (pipe_read_loop _ _ _ _ _) as [d' w'] eqn:L. intros H. apply pair_equal_spec in H as [H <-].
  apply pair_equal_spec in H as [<- <-]. right. split.
  - destruct (decide (0 < count q)); [left; lia|right]. intros q1 [= <-] (_ & _ & _ & ? & _). lia.
  - eexists q, _. split_and!; try done. intros (H1 & H2 & H3 & H4 & H5 & H6). specialize (Hk ltac:(lia)).
    destruct (pipe_read_loop_spec (Z.to_nat k) m tmp (data q) (rpos q) (count q) ltac:(lia) ltac:(lia)) as [Ls _].
    rewrite L in Ls. injection Ls as _ ->. rewrite Z2Nat.id by lia.
    unfold pipe_sound. simpl. rewrite Hu in H3. split_and!; try done; [lia..|dlia|dlia|]. rewrite H6, Zplus_mod_idemp_l. f_equal. lia.
Qed.

(** A transfer through pipe [p], whose waiters are then woken. *)
Lemma transfer_ok s p q q' :
  ok s -> get_pipes s !! p = Some q -> readers q' = readers q -> writers q' = writers q -> (pipe_sound q -> pipe_sound q') ->
  ok (task_wake_pipe (Some p) (set_pipes s (<[p := q']> (get_pipes s)))).
Proof.
  intros I Hq Hr Hw Hs. apply wake_inv. apply (set_pipe_inv x0 _ _ _ _ q); try done.
  - intros rd. by destruct rd; simpl; rewrite ?Hr, ?Hw.
  - apply Hs. by eapply pipe_soundness.
Qed.

Lemma running_set_pipes s c ps : running s c -> running (set_pipes s ps) c.
Proof. intros [A B C]. by constructor. Qed.

Lemma map_task s f c : (c < length (get_tasks s))%nat -> task_at (map_tasks s f) c = f (task_at s c).
Proof.
  intros H. apply task_at_eq. unfold get_tasks. simpl. apply list_lookup_fmap_Some.
  exists (task_at s c). split; [done|]. by apply task_lookup.
Qed.

Lemma running_wake s c p : length (get_tasks s) = MAX_TASKS -> running s c -> running (task_wake_pipe p s) c.
Proof.
  intros Hl [A B C]. unfold task_wake_pipe. destruct p as [p|]; [|by constructor]. constructor; [done|done|].
  rewrite map_task by (by rewrite Hl). cbv zeta. by rewrite (proj2 (is_state_false (task_at s c) TASK_WAITING)) by (by rewrite C).
Qed.

Lemma block_ok s c kind obj tick :
  ok s -> running s c ->
  (kind = WAIT_PIPE_READ -> exists p, obj = Some p /\ read_blocked (get_pipes s) p) ->
  (kind = WAIT_PIPE_WRITE -> exists p, obj = Some p /\ write_blocked (get_pipes s) p) ->
  kind <> WAIT_CHILD -> ok (block_current s kind obj tick).
Proof.
  intros I R Hrd Hwr Hk. unfold block_current. rewrite (rn_current _ _ R).
  pose proof (pi_wait _ _ _ _ _ _ I) as W. pose proof (pi_table _ _ _ _ _ _ I) as T. destruct R as [_ Hc Hs].
  apply (set_plain_inv x0 v0); try done; [split; [done|by rewrite Hs]|].
  intros St. apply (set_task_wait (run := run)); try done; simpl; [by apply W|..].
  - intros _ K. destruct (Hrd K) as (p & -> & B). exists p. auto.
  - intros _ K. destruct (Hwr K) as (p & -> & B). exists p. auto.
Qed.

Definition user_buffer (buf len : Z) : Prop := is_u64 buf /\ is_u64 len /\ user_ptr_valid buf len = true.

Lemma user_part buf len dn n :
  user_buffer buf len -> 0 <= dn -> 0 < n -> dn + n <= len -> user_ptr_valid (u64 (buf + dn)) n = true.
Proof.
  intros (Hb & Hl & Hv) Hd Hn Hs. apply user_ptr_valid_spec in Hv; [|done..]. unfold is_u64 in *.
  destruct Hv as [->|[H1 H2]]; [lia|]. rewrite u64_small by (unfold is_u64; lia).
  apply user_ptr_valid_spec; unfold is_u64; lia.
Qed.

End Steps.

(** ** Scheduling *)

Section Sched.
Context {D E N : Type} `{!BlockDrivers D, !Ext4Ops D E, !SocketOps N} {Sx : Strict}.
Abbreviation st := (sys D E (ktasks (kio N))).
Implicit Types (s : st) (cur run : option nat).

Abbreviation okc cur run := (ok (cur := cur) (run := run)).

Lemma change_run cur run run' s :
  okc cur run s -> (forall ti, state (task_at s ti) = TASK_RUNNING -> run' = Some ti) -> okc cur run' s.
Proof.
  intros [C T A Ed W] H. constructor; try done. destruct T. constructor; try done.
  intros ti t Ht Hs. apply H. by rewrite (task_at_eq s ti t Ht).
Qed.

Lemma change_current cur run c s : okc cur run s -> okc (Some c) run (on_top s (fun k => kt_set_current k (Some c))).
Proof. intros [C T A Ed W]. constructor; [done|by destruct T; constructor|by destruct A; constructor|by destruct Ed; constructor|intros St; by destruct (W St); constructor]. Qed.

Lemma runnable_slot s n : length (get_tasks s) = MAX_TASKS -> state (task_at s n) <> TASK_UNUSED -> (n < MAX_TASKS)%nat.
Proof.
  intros Hl Hs. destruct (decide (n < MAX_TASKS)%nat); [done|]. exfalso. apply Hs. unfold task_at, kt_task.
  rewrite list_lookup_total_alt, lookup_ge_None_2; [done|]. unfold get_tasks in Hl. rewrite Hl. lia.
Qed.

Lemma find_seq_Some (f : nat -> bool) l i : List.find f l = Some i -> f i = true /\ i ∈ l.
Proof. intros H. apply find_some in H as [H1 H2]. split; [done|]. by apply list_elem_of_In. Qed.

Lemma pick_next_runnable from s n : pick_next from s = Some n -> state (task_at s n) = TASK_RUNNABLE.
Proof.
  unfold pick_next, task_next_runnable, current_runnable. cbv zeta. intros H. apply is_state_true.
  destruct (List.find _ (seq _ (_ - _))) as [i|] eqn:E1; [apply find_seq_Some in E1 as [H1 _]; by simplify_eq|].
  destruct (List.find _ (seq 0 _)) as [i|] eqn:E2; [apply find_seq_Some in E2 as [H2 _]; by simplify_eq|].
  destruct (current s) as [c|]; [|done]. destruct (is_state (task_at s c) TASK_RUNNABLE) eqn:Hs; by simplify_eq.
Qed.

Lemma idle_loop_ok cur run ticks s n ticks' s' :
  okc cur run s -> idle_loop ticks s = Some (n, ticks', s') -> okc cur run s' /\ state (task_at s' n) = TASK_RUNNABLE.
Proof.
  revert s. induction ticks as [|now ticks IH]; intros s I H; cbn [idle_loop] in H; [done|].
  pose proof (ok_ssim _ _ I (wake_sleepers_ssim now s)) as I1. destruct (task_wake_sleepers now s) as [woke s1]. cbn [snd] in I1.
  destruct woke; [|by apply (IH s1)]. destruct (pick_next (current s1) s1) as [m|] eqn:Hp; [|by apply (IH s1)].
  apply pick_next_runnable in Hp. by simplify_eq.
Qed.

(** Delivery that lets the task go on is harmless. *)
Lemma deliver_true_ssim fuel ti s s' : deliver_loop fuel ti s = Some (true, s') -> ssim s s'.
Proof.
  revert s. induction fuel as [|fuel IH]; intros s H; cbn [deliver_loop] in H; [done|].
  destruct (task_pick_pending_unblocked _) as [sig g]. cbv zeta in H.
  assert (S1 : ssim s (upd_task s ti (fun t => set_t_sig t g))) by by apply upd_ssim; [apply tsim_state|constructor].
  set (s1 := upd_task s ti (fun t => set_t_sig t g)) in *. clearbody s1. etransitivity; [exact S1|]. clear S1.
  destruct (sig <=? 0); [by simplify_eq|].
  match type of H with (if ?b then _ else _) = _ => destruct b end; [by apply IH|].
  match type of H with (if ?b then _ else _) = _ => destruct b end.
  - destruct (task_signal_default_action sig); try discriminate H. etransitivity; [apply continue_task_ssim|by apply IH].
  - destruct (signal_active g); [simplify_eq; apply on_sig_ssim|]. destruct (negb _); [discriminate H|].
    destruct (t_tf _) as [tf|]; [|by simplify_eq]. destruct (enter_handler g tf sig) as [g1 tf1]. simplify_eq.
    by apply upd_ssim; [apply tsim_state|constructor].
Qed.

Lemma settle_loop_ok cur fuel next s next' s' :
  okc cur None s -> (forall n, next = Some n -> state (task_at s n) = TASK_RUNNABLE) ->
  settle_loop fuel next s = Some (next', s') ->
  okc cur None s' /\ (forall n, next' = Some n -> state (task_at s' n) = TASK_RUNNABLE).
Proof.
  revert next s. induction fuel as [|fuel IH]; intros next s I Hn H.
  { destruct next; simpl in H; [done|]. by simplify_eq. }
  destruct next as [n|]; cbn [settle_loop] in H; [|by simplify_eq]. specialize (Hn n eq_refl).
  assert (Hlt : (n < MAX_TASKS)%nat).
  { apply (runnable_slot s); [exact (tb_len _ _ (pi_table _ _ _ _ _ _ I))|by rewrite Hn]. }
  destruct (task_deliver_pending_signal n s) as [[b s1]|] eqn:Ed; [|done].
  pose proof (deliver_ok _ _ _ _ I Hlt Ed) as I1. cbv zeta in H.
  destruct (negb b || is_state (task_at s1 n) TASK_ZOMBIE || is_state (task_at s1 n) TASK_STOPPED ||
    is_state (task_at s1 n) TASK_WAITING) eqn:Hb.
  { apply (IH _ s1 I1) in H; [done|]. intros m. apply pick_next_runnable. }
  injection H as <- <-. split; [done|]. intros m [= <-].
  rewrite !orb_false_iff, !is_state_false, negb_false_iff in Hb. destruct Hb as [[[-> Hz] Hst] Hw].
  assert (S1 : ssim s s1).
  { unfold task_deliver_pending_signal in Ed. cbv zeta in Ed. destruct (_ || _); [by simplify_eq|]. by apply deliver_true_ssim in Ed. }
  assert (Hu : state (task_at s1 n) <> TASK_UNUSED) by (rewrite (ts_unused _ _ (ssim_task _ _ n S1)); by rewrite Hn).
  destruct (state (task_at s1 n)) eqn:Hs; try done.
  pose proof (tb_running _ _ (pi_table _ _ _ _ _ _ I1) n _ (task_in _ _ _ _ _ I1 Hlt) Hs). done.
Qed.

(** The chosen task becomes the current one. *)
Lemma dispatch_ok cur s n :
  okc cur None s -> state (task_at s n) = TASK_RUNNABLE ->
  let s1 := task_ensure_asid n (on_top s (fun k => kt_set_current k (Some n))) in
  let s2 := upd_task s1 n (fun t => set_state t TASK_RUNNING) in
  okc (Some n) (Some n) s2 /\ running s2 n.
Proof.
  intros I Hs s1 s2. assert (Hlt : (n < MAX_TASKS)%nat).
  { apply (runnable_slot s); [exact (tb_len _ _ (pi_table _ _ _ _ _ _ I))|by rewrite Hs]. }
  pose proof (change_current cur None n s I) as I0.
  destruct (ensure_asid_ok n _ I0 Hlt) as [I1 P1]; [change (state (task_at s n) <> TASK_UNUSED); by rewrite Hs|].
  fold s1 in I1, P1. assert (U1 : state (task_at s1 n) <> TASK_UNUSED).
  { intros Hu. apply (ts_unused _ _ (psim_task _ _ n P1)) in Hu. change (state (task_at s n) = TASK_UNUSED) in Hu. by rewrite Hs in Hu. }
  assert (I2 : okc (Some n) (Some n) s1).
  { apply (change_run _ None); [done|]. intros ti Hr.
    assert (ti < MAX_TASKS)%nat as Hti.
    { apply (runnable_slot s1); [exact (tb_len _ _ (pi_table _ _ _ _ _ _ I1))|by rewrite Hr]. }
    pose proof (tb_running _ _ (pi_table _ _ _ _ _ _ I1) ti _ (task_in _ _ _ _ _ I1 Hti) Hr). done. }
  assert (I3 : okc (Some n) (Some n) s2).
  { apply (set_plain_inv x0 v0); try done. intros St. apply (set_task_wait_plain (run := Some n)); try done; by apply I2. }
  split; [done|]. constructor; [exact (pi_current _ _ _ _ _ _ I3)|done|].
  unfold s2. by rewrite upd_same by by rewrite (tb_len _ _ (pi_table _ _ _ _ _ _ I2)).
Qed.

(** The invariant of the system: the current task is the only one running. *)
Definition good s : Prop := okc (current s) (current s) s.

Lemma good_ok cur s : current s = cur -> okc cur cur s -> good s.
Proof. by intros <-. Qed.

Lemma stop_running_ok s c tf :
  okc (Some c) (Some c) s ->
  let s1 := upd_task s c (fun t => set_t_tf t (Some tf)) in
  okc (Some c) None (if is_state (task_at s1 c) TASK_RUNNING then upd_task s1 c (fun t => set_state t TASK_RUNNABLE) else s1).
Proof.
  intros I s1. assert (I1 : okc (Some c) (Some c) s1).
  { eapply ok_ssim; [exact I|]. by apply upd_ssim; [apply tsim_state|constructor]. }
  assert (One : forall s2, okc (Some c) (Some c) s2 -> state (task_at s2 c) <> TASK_RUNNING -> okc (Some c) None s2).
  { intros s2 I2 Hn. apply (change_run _ (Some c)); [done|]. intros ti Hr. exfalso.
    assert (ti < MAX_TASKS)%nat as Hti.
    { apply (runnable_slot s2); [exact (tb_len _ _ (pi_table _ _ _ _ _ _ I2))|by rewrite Hr]. }
    pose proof (tb_running _ _ (pi_table _ _ _ _ _ _ I2) ti _ (task_in _ _ _ _ _ I2 Hti) Hr) as [= ->]. done. }
  destruct (is_state (task_at s1 c) TASK_RUNNING) eqn:Hs; [apply is_state_true in Hs|by apply One; [|apply is_state_false]].
  apply One.
  - eapply ok_ssim; [exact I1|]. apply upd_ssim; [|by constructor]. constructor; simpl; rewrite ?Hs; done.
  - unfold upd_task. rewrite task_at_set. case_decide as Hd; [done|]. exfalso.
    apply Hd. split; [done|]. change (c < length (get_tasks s1))%nat. unfold get_tasks. rewrite (tb_len _ _ (pi_table _ _ _ _ _ _ I1)).
    apply (runnable_slot s1); [exact (tb_len _ _ (pi_table _ _ _ _ _ _ I1))|by rewrite Hs].
Qed.

Lemma schedule_good s c tf force ticks r s' :
  good s -> current s = Some c -> task_schedule_from_trap (Some tf) force ticks s = Some (r, s') ->
  good s' /\ exists n, running s' n /\ r = t_tf (task_at s' n).
Proof.
  unfold good. intros I Hc. unfold task_schedule_from_trap, sched_entry. rewrite Hc in *. cbv zeta.
  pose proof (stop_running_ok s c tf I) as I1. cbv zeta in I1.
  match goal with |- context [task_reap_orphan_zombies _ ?a] => generalize dependent a end. clear s I Hc. intros s I1.
  pose proof (reap_orphans_inv v0 s (current s) I1) as I2.
  generalize dependent (task_reap_orphan_zombies (current s) s). clear s I1. intros s I.
  match goal with |- context [match ?a with Some n => Some (n, ticks, s) | None => _ end] => set (next := a) end.
  assert (Hn : forall n, next = Some n -> state (task_at s n) = TASK_RUNNABLE).
  { intros n. unfold next. destruct (negb force); [|apply pick_next_runnable]. unfold current_runnable.
    destruct (current s) as [c1|]; [|apply pick_next_runnable].
    destruct (is_state (task_at s c1) TASK_RUNNABLE) eqn:Hs; [|apply pick_next_runnable].
    intros [= <-]. by apply is_state_true. }
  clearbody next. destruct (match next with Some n => _ | None => _ end) as [[[n ticks1] s1]|] eqn:E1; [|done].
  assert (I1 : okc (Some c) None s1 /\ state (task_at s1 n) = TASK_RUNNABLE).
  { destruct next; [simplify_eq; auto|by eapply idle_loop_ok]. }
  destruct I1 as [I1 H1]. destruct (settle_loop _ _ s1) as [[next2 s2]|] eqn:E2; [|done].
  assert (H1' : forall m, Some n = Some m -> state (task_at s1 m) = TASK_RUNNABLE) by by intros m [= <-].
  destruct (settle_loop_ok _ _ _ _ _ _ I1 H1' E2) as [I2 H2].
  destruct (match next2 with Some n => _ | None => _ end) as [[[n3 ticks3] s3]|] eqn:E3; [|done].
  assert (I3 : okc (Some c) None s3 /\ state (task_at s3 n3) = TASK_RUNNABLE).
  { destruct next2; [simplify_eq; auto|by eapply idle_loop_ok]. }
  destruct I3 as [I3 H3]. destruct (dispatch_ok (Some c) s3 n3 I3 H3) as [I4 R4]. cbv zeta in I4, R4.
  intros H. apply (inj Some) in H. apply pair_equal_spec in H as [<- <-].
  generalize dependent (upd_task (task_ensure_asid n3 (on_top s3 (fun k => kt_set_current k (Some n3)))) n3 (fun t => set_state t TASK_RUNNING)).
  intros s4 I4 R4. split.
  - apply (good_ok (Some n3)); [exact (rn_current _ _ R4)|]. eapply ok_ssim; [exact I4|apply mmu_ssim].
  - exists n3. split; [by destruct R4; constructor|done].
Qed.

End Sched.
