(* ===== verification/ProcTerm.v ===== *)
(** * Termination of signal delivery and scheduling (kernel/task.c)

    The loops of [task_deliver_pending_signal] and [task_schedule_from_trap] end: the
    former because each round takes a pending signal away, the latter because each
    round takes a task out of the running. Only the idle loop can go on, while no
    task is runnable and no sleeping task is due. *)

From S2P Require Import Prelude KString Pmm Pipe UserCopy Inode BlockCache PageCache FsIo TaskDefs Signal Mmu Vma Vm VmInv Proc ProcInv ProcOps ProcSteps.

(** ** Signals *)

(** The number of pending signals. *)
Definition pend (g : sig_state) : Z := countb (Z.testbit (pending_signals g)) (seqZ 1 31).

Lemma clear_low_bit p s i :
  0 <= s < 32 -> 0 <= i < 32 -> Z.testbit (Z.land p (not32 (SIGBIT s))) i = Z.testbit p i && negb (i =? s).
Proof.
  intros Hs Hi. rewrite Z.land_spec, not32_testbit, SIGBIT_testbit by (auto using SIGBIT_u32; lia).
  by replace (i <? 32) with true by lia.
Qed.

Lemma pend_cleared g g' sig :
  0 < sig < 32 -> Z.testbit (pending_signals g) sig = true ->
  pending_signals g' = Z.land (pending_signals g) (not32 (SIGBIT sig)) -> pend g' < pend g.
Proof.
  intros Hs Hb Hp. unfold pend. rewrite Hp.
  assert (Hl : seqZ 1 31 !! Z.to_nat (sig - 1) = Some sig) by (apply lookup_seqZ; lia).
  eapply countb_lt; [|exact Hl| |exact Hb].
  - intros j y Hy. apply lookup_seqZ in Hy. rewrite clear_low_bit by lia. intros [? _]%andb_true_iff. done.
  - rewrite clear_low_bit, Z.eqb_refl, andb_false_r by lia. done.
Qed.

Lemma remove_pending g i : pending_signals (task_signal_queue_remove_index g i) = pending_signals g.
Proof. unfold task_signal_queue_remove_index. by destruct (_ <=? _)%nat. Qed.

Lemma pick_queue_pending n i g r g' :
  pick_queue_loop n i g = (r, g') ->
  match r with
  | None => pending_signals g' = pending_signals g
  | Some sig => 0 < sig < 32 /\ Z.testbit (pending_signals g) sig = true /\
      pending_signals g' = Z.land (pending_signals g) (not32 (SIGBIT sig))
  end.
Proof.
  revert i g. induction n as [|n IH]; intros i g H; cbn [pick_queue_loop] in H; [by simplify_eq|].
  destruct (signal_queue g !! i) as [sig|]; [|by simplify_eq]. destruct (_ || _) eqn:Hb.
  { apply IH in H. by rewrite remove_pending in H. }
  apply orb_false_iff in Hb as [Hr Hl]. rewrite land_SIGBIT in Hl by lia. apply negb_false_iff in Hl.
  destruct (task_signal_blocked g sig); [by apply IH in H|]. simplify_eq. cbn [pending_signals set_pending_signals].
  rewrite remove_pending. split_and!; try done; lia.
Qed.

Lemma pick_low_pending sigs g sig g' :
  Forall (fun x => 0 < x < 32) sigs -> pick_pending_loop sigs g = (sig, g') ->
  sig = 0 \/ (0 < sig < 32 /\ Z.testbit (pending_signals g) sig = true /\
    pending_signals g' = Z.land (pending_signals g) (not32 (SIGBIT sig))).
Proof.
  induction 1 as [|x sigs Hx Hsigs IH]; cbn [pick_pending_loop]; [intros [= <- <-]; by left|].
  rewrite land_SIGBIT by lia. destruct (Z.testbit (pending_signals g) x) eqn:Hb; cbn [negb]; [|done].
  destruct (task_signal_blocked g x); [done|]. intros [= <- <-]. by right.
Qed.

Lemma pick_pend g sig g' : task_pick_pending_unblocked g = (sig, g') -> sig <= 0 \/ pend g' < pend g.
Proof.
  unfold task_pick_pending_unblocked. destruct (pick_queue_loop _ _ _) as [r g1] eqn:Eq. apply pick_queue_pending in Eq.
  destruct r as [x|].
  - intros [= <- <-]. destruct Eq as (H1 & H2 & H3). right. by apply (pend_cleared g g1 x).
  - intros H. apply pick_low_pending in H as [->|(H1 & H2 & H3)]; [by left| |].
    + right. rewrite Eq in H2, H3. by apply (pend_cleared g g' sig).
    + apply Forall_forall. intros x Hx%elem_of_seqZ. lia.
Qed.

Lemma pend_bound g : 0 <= pend g <= 31.
Proof. unfold pend. pose proof (countb_nonneg (Z.testbit (pending_signals g)) (seqZ 1 31)) as H. by rewrite length_seqZ in H. Qed.

(** ** Tasks that may run *)

Definition awake (t : task) : bool := is_live t && negb (is_state t TASK_STOPPED).

Definition calm (t t' : task) : Prop := awake t' = true -> awake t = true.

#[global] Instance calm_preorder : PreOrder calm.
Proof. unfold calm. split; [intros t H; exact H|]. intros a b c H1 H2 H. auto. Qed.

Lemma calm_state t t' : state t' = state t -> calm t t'.
Proof. intros Hs. unfold calm, awake, is_live, is_state. rewrite Hs. auto. Qed.

Lemma awake_waiting t : is_state t TASK_WAITING = true -> awake t = true.
Proof. intros H%is_state_true. unfold awake, is_live, is_state. by rewrite H. Qed.

Section Calm.
Context {N : Type}.
Implicit Types k : ktasks (kio N).

Definition kcalm k k' : Prop := Forall2 calm (kt_tasks k) (kt_tasks k').

#[global] Instance kcalm_preorder : PreOrder kcalm.
Proof. split; [intros k; unfold kcalm; reflexivity|]. intros a b c. unfold kcalm. apply transitivity. Qed.

Lemma kcalm_set k ti t : calm (kt_task k ti) t -> kcalm k (kt_set_task k ti t).
Proof. intros H. apply Forall2_insert_total; [apply _|done]. Qed.

Lemma kcalm_wp ns ino off k : kcalm k (task_pagecache_writeprotect_shared ns ino off k).2.
Proof.
  unfold task_pagecache_writeprotect_shared, writeprotect_shared. destruct ino; [|done].
  assert (P : forall pis off ti k, kcalm k (wp_pages pis ns (Some z) off ti k).2).
  { clear. intros pis off ti. induction pis as [|pi pis IH]; intros k; cbn [wp_pages]; [done|].
    destruct (negb _); [apply IH|]. destruct (task_page_validate_hw _ _) as [hw|]; [|done].
    destruct (hw_cow hw); [done|]. destruct (negb (hw_writable hw)); [apply IH|].
    destruct (task_set_user_pte _ _ _ _) as [m'|]; [|done]. etransitivity; [|apply IH].
    change (kcalm k (kt_set_vm k ti m')). by apply kcalm_set, calm_state. }
  generalize (seq 0 MAX_TASKS). intros tis. revert k. induction tis as [|ti tis IH]; intros k; cbn [wp_tasks]; [done|].
  destruct (_ || _); [apply IH|]. specialize (P (seq 0 MAX_USER_PAGES) (align_down off PAGE_SIZE) ti k).
  destruct (wp_pages _ _ _ _ _ _) as [ok k1]. destruct ok; [|exact P]. etransitivity; [exact P|apply IH].
Qed.

End Calm.

Lemma map_id_on {A} (f : A -> A) l : (forall x, In x l -> f x = x) -> map f l = l.
Proof. induction l as [|x l IH]; intros H; simpl; [done|]. rewrite H, IH; simpl; auto. intros y Hy. apply H. by right. Qed.

Section Loops.
Context {D E N : Type} `{!BlockDrivers D, !Ext4Ops D E, !SocketOps N}.
Abbreviation st := (sys D E (ktasks (kio N))).
Implicit Types s : st.

Definition scalm s s' : Prop := kcalm (s_top s) (s_top s').

#[global] Instance scalm_preorder : PreOrder scalm.
Proof. split; [intros s; unfold scalm; reflexivity|]. intros a b c. unfold scalm. apply transitivity. Qed.

Lemma scalm_top s s' : s_top s' = s_top s -> scalm s s'.
Proof. intros H. unfold scalm. by rewrite H. Qed.

Lemma scalm_upd s ti f : calm (task_at s ti) (f (task_at s ti)) -> scalm s (upd_task s ti f).
Proof. intros H. by apply kcalm_set. Qed.

Lemma scalm_keep s ti f : (forall t, state (f t) = state t) -> scalm s (upd_task s ti f).
Proof. intros H. by apply scalm_upd, calm_state. Qed.

Lemma scalm_vm s ti m : scalm s (set_vm s ti m).
Proof. by apply kcalm_set, calm_state. Qed.

Lemma scalm_map s f : (forall t, calm t (f t)) -> scalm s (map_tasks s f).
Proof. intros H. unfold scalm, kcalm. by apply Forall2_map_r. Qed.

Lemma scalm_task s s' ti : scalm s s' -> calm (task_at s ti) (task_at s' ti).
Proof.
  intros H. unfold task_at, kt_task. rewrite !list_lookup_total_alt.
  destruct (kt_tasks (s_top s') !! ti) as [t'|] eqn:E'.
  - destruct (Forall2_lookup_r _ _ _ _ _ H E') as (t & -> & Ht). exact Ht.
  - apply lookup_ge_None in E'. rewrite <- (Forall2_length _ _ _ H) in E'. rewrite lookup_ge_None_2 by exact E'. done.
Qed.

Lemma scalm_flush_inode ino s : scalm s (pagecache_flush_inode ino s).2.
Proof.
  unfold pagecache_flush_inode. destruct ino; [|done].
  destruct (pagecache_flush_match _ _ _ _ _ _) as [rc s'] eqn:Ef.
  exact (topr_flush_match kcalm kcalm_wp _ _ _ _ _ _ _ _ Ef).
Qed.

Lemma calm_woken t : is_state t TASK_WAITING = true -> calm t (woken t).
Proof. intros H _. by apply awake_waiting. Qed.

Lemma scalm_wake_pipe p s : scalm s (task_wake_pipe p s).
Proof.
  unfold task_wake_pipe. destruct p; [|done]. apply scalm_map. intros t. cbv zeta.
  destruct (is_state t TASK_WAITING) eqn:Hs; [|done]. cbn [negb]. destruct (_ && _); [by apply calm_woken|done].
Qed.

Lemma scalm_wake_waiters p s : scalm s (task_wake_waiters p s).
Proof.
  unfold task_wake_waiters. destruct (task_by_pid s p); [|done]. cbv zeta. apply scalm_map. intros t.
  destruct (is_state t TASK_WAITING) eqn:Hs; cbn [negb orb]; [|done].
  destruct (negb _); [done|]. destruct (negb _); [done|]. intros _. by apply awake_waiting.
Qed.

Lemma scalm_fd_close ti i s : scalm s (task_fd_close ti i s).2.
Proof.
  unfold task_fd_close. destruct (fd_bad i); [done|]. cbv zeta. destruct (negb _); [done|].
  match goal with |- context [let '(_, _) := ?f in _] => assert (W : scalm s f.2); [|destruct f as [rc s1]; cbn [snd] in W] end.
  { destruct (task_fd_needs_writeback _ _); [|done]. pose proof (scalm_flush_inode (fd_inode (get_fd s ti (Z.to_nat i))) s) as W.
    by destruct (pagecache_flush_inode _ _). }
  etransitivity; [exact W|]. cbn [snd]. etransitivity; [|apply scalm_wake_pipe].
  match goal with |- scalm _ (set_fd ?a _ _ _) => trans a; [|by apply scalm_keep] end.
  unfold scalm, kcalm. rewrite drop_tasks. reflexivity.
Qed.

Lemma scalm_close_fds ti s : scalm s (close_fds ti s).
Proof.
  unfold close_fds. generalize (seq 0 MAX_FDS). intros l. revert s. induction l as [|i l IH]; intros s; cbn [foldl]; [done|].
  etransitivity; [|apply IH]. destruct (fd_used _); [apply scalm_fd_close|done].
Qed.

Lemma scalm_unmap_user ti s : scalm s (task_unmap_user ti s).
Proof.
  unfold task_unmap_user. trans (unmap_user_loop (seq 0 MAX_USER_PAGES) ti s).
  - generalize (seq 0 MAX_USER_PAGES). intros uis. revert s. induction uis as [|ui uis IH]; intros s; cbn [unmap_user_loop]; [done|].
    destruct (up_used _); [|apply IH].
    pose proof (ssame_ssim _ _ (ssame_writeback_page ti (task_vma_find (vm_at s ti) (up_va (page_at (vm_at s ti) ui))) ui s)) as W.
    assert (W' : s_top (task_vma_writeback_page ti (task_vma_find (vm_at s ti) (up_va (page_at (vm_at s ti) ui))) ui s).2 = s_top s).
    { unfold task_vma_writeback_page. destruct (task_vma_find _ _) as [vi|]; [|done]. cbv zeta.
      destruct (vma_inode _) as [p|]; [|done]. do 4 (destruct (_ : bool); [done|]).
      destruct (task_page_validate_hw _ _) as [hw|]; [|done]. do 2 (destruct (_ : bool); [done|]).
      destruct (pagecache_writeback _ _ _ _ _) as [ok s'] eqn:Ew. by apply top_writeback in Ew. }
    destruct (task_vma_writeback_page _ _ _ _) as [ok s1]. cbn [snd] in W'. clear W.
    etransitivity; [by apply (scalm_top s s1)|]. etransitivity; [|apply IH]. by apply scalm_top.
  - generalize (unmap_user_loop (seq 0 MAX_USER_PAGES) ti s). clear s. intros s.
    unfold unmap_user_tables. cbv zeta. etransitivity; [|apply scalm_vm].
    match goal with |- context [set_vm s ti ?m] => generalize m end. intros m.
    etransitivity; [apply (scalm_vm s ti m)|]. destruct (negb (asid m =? 0)); [|reflexivity].
    unfold scalm, kcalm. reflexivity.
Qed.

Lemma scalm_free_range a b s : scalm s (free_range a b s).
Proof.
  unfold free_range. generalize (page_range a b). intros l. revert s. induction l as [|p l IH]; intros s; [done|].
  cbn [foldl]. etransitivity; [|apply IH]. by apply scalm_top.
Qed.

Lemma scalm_free_table o s : scalm s (free_table o s).
Proof. by destruct o; [apply scalm_top|]. Qed.

Lemma scalm_release ti s : scalm s (task_release ti s).
Proof.
  cbv beta delta [task_release]. let_step ltac:(apply scalm_close_fds). let_step ltac:(apply scalm_unmap_user).
  let_step ltac:(apply scalm_vm).
  do 4 (let_step ltac:(apply scalm_free_table); let_step ltac:(apply scalm_vm)).
  let_step ltac:(idtac); [|apply scalm_vm].
  destruct (negb _); [|done]. let_step ltac:(apply scalm_free_range). by apply scalm_keep.
Qed.

Lemma scalm_reap ti s : scalm s (task_reap_slot ti s).
Proof.
  unfold task_reap_slot. cbv zeta.
  match goal with |- context [task_release ti ?a] => trans a; [|generalize a] end.
  { destruct (_ =? _); [|done]. unfold scalm, kcalm. reflexivity. }
  intros s1. etransitivity; [apply scalm_release|]. by apply kcalm_set.
Qed.

Lemma scalm_notify c ev s : scalm s (task_notify_sigchld c ev s).
Proof.
  unfold task_notify_sigchld. destruct (task_parent_of s c) as [pi|]; [|done]. cbv zeta.
  destruct (negb _); [done|]. destruct (_ && _); [done|]. by apply scalm_keep.
Qed.

Lemma scalm_announce ci ev s : scalm s (announce ci ev s).
Proof. unfold announce. etransitivity; [apply scalm_notify|apply scalm_wake_waiters]. Qed.

Lemma scalm_reparent p s : scalm s (task_reparent_children p s).
Proof.
  unfold task_reparent_children. destruct (_ <=? 0); [done|]. cbv zeta. generalize (seq 0 MAX_TASKS).
  set (np := match task_find_live_init s with Some i => pid (task_at s i) | None => -1 end). clearbody np.
  generalize (task_find_live_init s). intros init is_. revert s. induction is_ as [|i is_ IH]; intros s; cbn [reparent_loop]; [done|]. cbv zeta.
  destruct (_ || _); [apply IH|]. etransitivity; [|apply IH].
  etransitivity; [by apply (scalm_keep s i (fun t => set_ppid t np))|]. generalize (upd_task s i (fun t => set_ppid t np)).
  clear s IH. intros s. destruct init as [ii|]; [|done]. destruct (np <=? 0); [done|].
  destruct (is_state _ _); [destruct (task_sigchld_auto_reap _); [apply scalm_reap|apply scalm_announce]|].
  destruct (_ && _); [apply scalm_announce|]. destruct (cont_report_pending _); [apply scalm_announce|done].
Qed.

Lemma not_awake s s' ti : scalm s s' -> awake (task_at s ti) = false -> awake (task_at s' ti) = false.
Proof. intros H Ha. destruct (awake (task_at s' ti)) eqn:Hb; [|done]. apply (scalm_task s s' ti H) in Hb. congruence. Qed.

Lemma force_exit_calm ti code s :
  (ti < length (get_tasks s))%nat ->
  scalm s (task_force_exit ti code s) /\ awake (task_at (task_force_exit ti code s) ti) = false.
Proof.
  intros Hlt. unfold task_force_exit. destruct (is_live (task_at s ti)) eqn:Hl; cbn [negb].
  2: { split; [done|]. unfold awake. by rewrite Hl. }
  cbv zeta. pose proof (scalm_close_fds ti s) as C1. generalize dependent (close_fds ti s). intros s1 C1.
  assert (Hlt1 : (ti < length (kt_tasks (s_top s1)))%nat).
  { unfold get_tasks in Hlt. by rewrite <- (Forall2_length _ _ _ C1). }
  assert (C2 : scalm s (upd_task s1 ti (to_zombie code))) by (etransitivity; [exact C1|by apply scalm_upd]).
  assert (Z2 : awake (task_at (upd_task s1 ti (to_zombie code)) ti) = false) by by rewrite upd_same by done.
  generalize dependent (upd_task s1 ti (to_zombie code)). intros s2 C2 Z2.
  match goal with |- scalm s ?a /\ _ => assert (C3 : scalm s2 a) end.
  { pose proof (scalm_notify (task_at s2 ti) TASK_CHLD_EXIT s2) as A1.
    generalize dependent (task_notify_sigchld (task_at s2 ti) TASK_CHLD_EXIT s2). intros s3 A1.
    pose proof (scalm_reparent (pid (task_at s3 ti)) s3) as A2.
    generalize dependent (task_reparent_children (pid (task_at s3 ti)) s3). intros s4 A2.
    pose proof (scalm_wake_waiters (pid (task_at s4 ti)) s4) as A3.
    generalize dependent (task_wake_waiters (pid (task_at s4 ti)) s4). intros s5 A3.
    assert (A : scalm s2 s5) by (etransitivity; [exact A1|]; etransitivity; [exact A2|exact A3]).
    destruct (task_sigchld_auto_reap _); [etransitivity; [exact A|apply scalm_reap]|exact A]. }
  split; [by etransitivity|by eapply not_awake].
Qed.

Lemma stop_task_calm ti sig s :
  (ti < length (get_tasks s))%nat -> scalm s (stop_task ti sig s) /\ awake (task_at (stop_task ti sig s) ti) = false.
Proof.
  intros Hlt. unfold stop_task. destruct (is_state (task_at s ti) TASK_STOPPED) eqn:Hs; cbn [negb].
  { split; [done|]. unfold awake. by rewrite Hs, andb_false_r. }
  assert (C1 : scalm s (upd_task s ti (to_stopped sig))) by by apply scalm_upd.
  assert (Z1 : awake (task_at (upd_task s ti (to_stopped sig)) ti) = false) by by rewrite upd_same by done.
  generalize dependent (upd_task s ti (to_stopped sig)). intros s1 C1 Z1.
  split; [etransitivity; [exact C1|apply scalm_announce]|]. eapply not_awake; [apply scalm_announce|done].
Qed.

(** ** Delivery *)

Lemma upd_keep_len s ti f : length (get_tasks (upd_task s ti f)) = length (get_tasks s).
Proof. unfold get_tasks. simpl. apply length_insert. Qed.

Lemma deliver_total fuel ti s :
  (ti < length (get_tasks s))%nat -> awake (task_at s ti) = true -> pend (t_sig (task_at s ti)) < Z.of_nat fuel ->
  exists b s', deliver_loop fuel ti s = Some (b, s') /\ scalm s s' /\
    (if b then state (task_at s' ti) = state (task_at s ti) else awake (task_at s' ti) = false).
Proof.
  revert s. induction fuel as [|fuel IH]; intros s Hlt Ha Hp; [pose proof (pend_bound (t_sig (task_at s ti))); lia|].
  cbn [deliver_loop]. destruct (task_pick_pending_unblocked (t_sig (task_at s ti))) as [sig g] eqn:Ep.
  apply pick_pend in Ep. cbv zeta. set (s1 := upd_task s ti (fun t => set_t_sig t g)).
  assert (T1 : task_at s1 ti = set_t_sig (task_at s ti) g) by (unfold s1; by rewrite upd_same).
  assert (C1 : scalm s s1) by by apply scalm_keep.
  assert (L1 : (ti < length (get_tasks s1))%nat) by (unfold s1; by rewrite upd_keep_len).
  assert (A1 : awake (task_at s1 ti) = true) by by rewrite T1.
  assert (S1 : state (task_at s1 ti) = state (task_at s ti)) by by rewrite T1.
  assert (G1 : t_sig (task_at s1 ti) = g) by by rewrite T1.
  clearbody s1. destruct (sig <=? 0) eqn:Hs; [by exists true, s1|]. destruct Ep as [?|Ep]; [lia|].
  assert (Next : exists b s', deliver_loop fuel ti s1 = Some (b, s') /\ scalm s s' /\
    (if b then state (task_at s' ti) = state (task_at s ti) else awake (task_at s' ti) = false)).
  { destruct (IH s1 L1 A1) as (b & s' & H1 & H2 & H3); [rewrite G1; lia|]. exists b, s'. rewrite <- S1. split_and!; [done|by etransitivity|done]. }
  destruct (_ || _); [done|]. destruct (_ =? SIG_DFL).
  - destruct (task_signal_default_action sig).
    + destruct (force_exit_calm ti (WAIT_STATUS_SIG sig) s1 L1) as [C2 Z2]. eexists false, _. split_and!; [done|by etransitivity|done].
    + destruct (force_exit_calm ti (WAIT_STATUS_SIG sig) s1 L1) as [C2 Z2]. eexists false, _. split_and!; [done|by etransitivity|done].
    + destruct (stop_task_calm ti sig s1 L1) as [C2 Z2]. eexists false, _. split_and!; [done|by etransitivity|done].
    + unfold continue_task. replace (is_state (task_at s1 ti) TASK_STOPPED) with false; [done|].
      unfold awake in A1. destruct (is_state _ _); [by rewrite andb_false_r in A1|done].
  - destruct (signal_active g).
    { eexists true, _. split_and!; [done|etransitivity; [exact C1|by apply scalm_keep]|]. by rewrite upd_same. }
    destruct (negb _).
    { destruct (force_exit_calm ti (WAIT_STATUS_SIG SIGTERM) s1 L1) as [C2 Z2]. eexists false, _. split_and!; [done|by etransitivity|done]. }
    destruct (t_tf _) as [tf|]; [|by exists true, s1]. destruct (enter_handler g tf sig) as [g2 tf2].
    eexists true, _. split_and!; [done|etransitivity; [exact C1|by apply scalm_keep]|]. by rewrite upd_same.
Qed.

(** ** Scheduling *)

Lemma calm_count (l l' : list task) :
  Forall2 calm l l' -> countb awake l' <= countb awake l /\
  forall n t t', l !! n = Some t -> l' !! n = Some t' -> awake t = true -> awake t' = false -> countb awake l' < countb awake l.
Proof.
  induction 1 as [|x y l l' Hxy _ [IH1 IH2]]; [split; [done|]; by intros|]. rewrite !countb_cons. unfold calm in Hxy.
  split; [destruct (awake x), (awake y); simpl; try lia; naive_solver|].
  intros [|n] t t' H1 H2 A1 A2; simplify_eq/=; [rewrite A1, A2; simpl; lia|].
  specialize (IH2 n t t' H1 H2 A1 A2). destruct (awake x), (awake y); simpl; try lia; naive_solver.
Qed.

Definition none_runnable s : Prop := forall ti, state (task_at s ti) <> TASK_RUNNABLE.

Lemma find_None_all (f : nat -> bool) l i : List.find f l = None -> i ∈ l -> f i = false.
Proof. intros H Hi. apply list_elem_of_In in Hi. by apply (find_none f l H). Qed.

Lemma pick_next_None from s :
  length (get_tasks s) = MAX_TASKS -> pick_next from s = None -> none_runnable s.
Proof.
  unfold pick_next, task_next_runnable. cbv zeta. intros Hl H ti Hs.
  assert (Hti : (ti < MAX_TASKS)%nat) by (apply (runnable_slot s); [done|by rewrite Hs]).
  set (start := match from with Some i => S i | None => 0%nat end) in *.
  destruct (List.find _ (seq start _)) as [i|] eqn:E1; [done|]. destruct (List.find _ (seq 0 start)) as [i|] eqn:E2; [done|].
  assert (Hr : is_state (task_at s ti) TASK_RUNNABLE = true) by by apply is_state_true.
  destruct (decide (ti < start)%nat).
  - rewrite (find_None_all _ _ ti E2) in Hr; [done|]. apply elem_of_seq. lia.
  - rewrite (find_None_all _ _ ti E1) in Hr; [done|]. apply elem_of_seq. lia.
Qed.

Lemma scalm_len s s' : scalm s s' -> length (get_tasks s') = length (get_tasks s).
Proof. intros H. unfold get_tasks. symmetry. exact (Forall2_length _ _ _ H). Qed.

Lemma settle_total fuel n s :
  length (get_tasks s) = MAX_TASKS -> state (task_at s n) = TASK_RUNNABLE -> countb awake (get_tasks s) < Z.of_nat fuel ->
  exists next s', settle_loop fuel (Some n) s = Some (next, s') /\ length (get_tasks s') = MAX_TASKS /\
    (next = None -> none_runnable s').
Proof.
  revert n s. induction fuel as [|fuel IH]; intros n s Hl Hs Hc; [pose proof (countb_nonneg awake (get_tasks s)); lia|].
  assert (Hn : (n < MAX_TASKS)%nat) by (apply (runnable_slot s); [done|by rewrite Hs]).
  assert (Ha : awake (task_at s n) = true) by (unfold awake, is_live, is_state; by rewrite Hs).
  cbn [settle_loop].
  assert (Dl : exists b s1, task_deliver_pending_signal n s = Some (b, s1) /\ scalm s s1 /\
    (if b then state (task_at s1 n) = state (task_at s n) else awake (task_at s1 n) = false)).
  { unfold task_deliver_pending_signal. cbv zeta. destruct (_ || _); [by exists true, s|].
    apply deliver_total; [by rewrite Hl|done|]. pose proof (pend_bound (t_sig (task_at s n))). lia. }
  destruct Dl as (b & s1 & -> & C1 & B1). cbv zeta. pose proof (scalm_len _ _ C1) as Hl1. rewrite Hl in Hl1.
  destruct b; cbn [negb orb].
  - rewrite Hs in B1. unfold is_state. rewrite B1. exists (Some n), s1. done.
  - destruct (pick_next (Some n) s1) as [m|] eqn:Ep.
    + apply (IH m s1 Hl1 (pick_next_runnable _ _ _ Ep)). destruct (calm_count _ _ C1) as [_ Hlt].
      assert (countb awake (get_tasks s1) < countb awake (get_tasks s)); [|lia].
      apply (Hlt n (task_at s n) (task_at s1 n)); [apply task_lookup; by rewrite Hl|apply task_lookup; by rewrite Hl1|done|done].
    + exists None, s1. split_and!; [by destruct fuel|done|]. intros _. by apply (pick_next_None (Some n)).
Qed.

(** The idle loop goes on only while no sleeping task is due. *)
Lemma idle_None ticks s :
  length (get_tasks s) = MAX_TASKS -> idle_loop ticks s = None ->
  forall now ti, now ∈ ticks -> sleeper_due now (task_at s ti) = false.
Proof.
  revert s. induction ticks as [|t ticks IH]; intros s Hl H now ti Hn; [by apply not_elem_of_nil in Hn|].
  cbn [idle_loop] in H. unfold task_wake_sleepers in H.
  assert (Hno : existsb (sleeper_due t) (get_tasks s) = false).
  { destruct (existsb (sleeper_due t) (get_tasks s)) eqn:He; [|done]. exfalso. revert H.
    apply existsb_exists in He as (x & Hx & Hd). apply list_elem_of_In, list_elem_of_lookup in Hx as [i Hi].
    set (s1 := map_tasks s _). intros H.
    assert (Hr : state (task_at s1 i) = TASK_RUNNABLE).
    { unfold s1. rewrite map_task by by apply lookup_lt_Some in Hi. rewrite (task_at_eq s i x Hi), Hd. done. }
    assert (Hl1 : length (get_tasks s1) = MAX_TASKS) by (unfold s1, get_tasks; simpl; rewrite length_map; exact Hl).
    destruct (pick_next (current s1) s1) as [m|] eqn:Ep; [done|]. exact (pick_next_None (current s1) s1 Hl1 Ep i Hr). }
  rewrite Hno in H.
  assert (Hid : map_tasks s (fun x => if sleeper_due t x then woken x else x) = s).
  { unfold map_tasks, on_top. rewrite (map_id_on _ (kt_tasks (s_top s))); [by destruct s as [? ? ? []]|].
    intros x Hx. destruct (sleeper_due t x) eqn:Hd; [|done]. exfalso.
    assert (existsb (sleeper_due t) (get_tasks s) = true) by (apply existsb_exists; by exists x). congruence. }
  rewrite Hid in H. destruct (decide (now = t)) as [->|Hne]; [|apply (IH s Hl H); by apply elem_of_cons in Hn as [?|?]].
  destruct (sleeper_due t (task_at s ti)) eqn:Hd; [|done]. exfalso.
  assert (Hti : (ti < length (get_tasks s))%nat).
  { rewrite Hl. apply (runnable_slot s); [done|]. unfold sleeper_due in Hd. intros Hu. unfold is_state in Hd. by rewrite Hu in Hd. }
  assert (existsb (sleeper_due t) (get_tasks s) = true); [|congruence]. apply existsb_exists. exists (task_at s ti).
  split; [|done]. apply list_elem_of_In, list_elem_of_lookup. exists ti. by apply task_lookup.
Qed.

(** The states [task_schedule_from_trap] goes through before it chooses a task: it
    wakes sleeping tasks and delivers signals. *)
Inductive sched_via tf s : st -> Prop :=
  | sv_entry : sched_via tf s (sched_entry tf s)
  | sv_wake now s1 : sched_via tf s s1 -> sched_via tf s (task_wake_sleepers now s1).2
  | sv_deliver n b s1 s2 : sched_via tf s s1 -> task_deliver_pending_signal n s1 = Some (b, s2) -> sched_via tf s s2.

Lemma idle_via tf s ticks s1 n ticks' s2 :
  sched_via tf s s1 -> idle_loop ticks s1 = Some (n, ticks', s2) -> sched_via tf s s2 /\ ticks' `suffix_of` ticks.
Proof.
  revert s1. induction ticks as [|now ticks IH]; intros s1 V H; cbn [idle_loop] in H; [done|].
  apply (sv_wake tf s now) in V. destruct (task_wake_sleepers now s1) as [woke s3]. cbn [snd] in V.
  assert (R : idle_loop ticks s3 = Some (n, ticks', s2) -> sched_via tf s s2 /\ ticks' `suffix_of` now :: ticks).
  { intros H'. destruct (IH s3 V H'). split; [done|]. by apply suffix_cons_r. }
  destruct woke; [|auto]. destruct (pick_next _ _); [|auto]. simplify_eq. split; [done|]. by apply suffix_cons_r.
Qed.

Lemma settle_via tf s fuel next s1 next' s2 : sched_via tf s s1 -> settle_loop fuel next s1 = Some (next', s2) -> sched_via tf s s2.
Proof.
  revert next s1. induction fuel as [|fuel IH]; intros next s1 V H; [destruct next; simpl in H; by simplify_eq|].
  destruct next as [n|]; cbn [settle_loop] in H; [|by simplify_eq].
  destruct (task_deliver_pending_signal n s1) as [[b s3]|] eqn:Ed; [|done]. pose proof (sv_deliver _ _ _ _ _ _ V Ed) as V3.
  cbv zeta in H. destruct (_ || _); [by apply (IH _ s3) in H|]. by simplify_eq.
Qed.

(** Nothing to do: no task can run, and none wakes up at the ticks that are left. *)
Definition idle_for (ticks : list Z) s : Prop :=
  none_runnable s /\ forall now ti, now ∈ ticks -> sleeper_due now (task_at s ti) = false.

End Loops.
