(* ===== verification/ProcBoot.v ===== *)
(** * Start, creation and scheduling of tasks

    The invariants of ProcInv.v hold after [task_init] and [pipe_init], the creation
    of a task keeps them, and a call of the scheduler that does not return has got to
    a state with nothing to run. *)

From S2P Require Import Prelude KString Pmm Pipe UserCopy Inode BlockCache PageCache FsIo TaskDefs Signal Mmu Vma Vm VmInv Proc Elf ProcInv ProcVm ProcOps ProcSteps ProcTerm.

Section Boot.
Context {D E N : Type} `{!BlockDrivers D, !Ext4Ops D E, !SocketOps N} {Sx : Strict}.
Abbreviation st := (sys D E (ktasks (kio N))).
Implicit Types s : st.

(** The tables after [pipe_init] and [task_init]. *)
Definition kernel_init s : st := task_init (set_pipes s pipe_init).

Lemma replicate_zsum {A} (f : A -> Z) n x : f x = 0 -> zsum f (replicate n x) = 0.
Proof. intros H. induction n as [|n IH]; [done|]. cbn [replicate]. unfold zsum in *. simpl. lia. Qed.

Lemma task_zero_ends rd p : countb (is_end rd p) (fds task_zero) = 0.
Proof. apply closed_ends. by apply Forall_replicate. Qed.

Lemma init_ok s : ok (cur := None) (run := None) (kernel_init s).
Proof.
  assert (L : forall ti t, kt_tasks (s_top (kernel_init s)) !! ti = Some t -> t = task_zero).
  { intros ti t H. change (replicate MAX_TASKS task_zero !! ti = Some t) in H. by apply lookup_replicate in H as [-> _]. }
  assert (Hz : forall rd p, ends rd p (kt_tasks (s_top (kernel_init s))) = 0).
  { intros rd p. apply (replicate_zsum _ MAX_TASKS). apply task_zero_ends. }
  assert (Hq : forall p q, io_pipes (kt_io (s_top (kernel_init s))) !! p = Some q -> q = pipe_zero).
  { intros p q H. change (replicate MAX_PIPES pipe_zero !! p = Some q) in H. by apply lookup_replicate in H as [-> _]. }
  assert (Hc : closed task_zero) by by apply Forall_replicate.
  constructor; [done| | | |].
  - constructor; [apply length_replicate|..]; try (intros ti t H; rewrite (L _ _ H)); try done; [by apply Forall_replicate|].
    intros ti tj t u H _. by rewrite (L _ _ H).
  - constructor; [done..| | |]; try (intros ti t H; rewrite (L _ _ H); by intros).
    intros ti tj t u H _. by rewrite (L _ _ H).
  - constructor; [apply length_replicate|..].
    + intros rd p q H. rewrite Hz, (Hq _ _ H). by destruct rd.
    + intros. by rewrite Hz.
    + intros p q H. by rewrite (Hq _ _ H).
    + intros p q H. by rewrite (Hq _ _ H).
    + intros p q H. by rewrite (Hq _ _ H).
  - intros St. constructor; [|intros wi w H; by rewrite (L _ _ H)..]. intros wi ci w c H _ _. by rewrite (L _ _ H).
Qed.

End Boot.

(** ** Creation *)

Section Create.
Context {D E N : Type} `{!BlockDrivers D, !Ext4Ops D E, !SocketOps N} {Sx : Strict}.
Abbreviation st := (sys D E (ktasks (kio N))).
Implicit Types s : st.
Context {cur run : option nat}.
Abbreviation ok := (ok (cur := cur) (run := run)).

Lemma init_pid_ssim s x : ssim s (on_top s (fun k => kt_set_init_pid k x)).
Proof. split; constructor; reflexivity. Qed.

Lemma create_user_ok img sz pp ticks addr s : ok s -> ok (task_create_user img sz pp ticks addr s).2.
Proof.
  intros I. unfold task_create_user.
  destruct (task_alloc s) as [[ti|] s1] eqn:Ea; destruct (task_alloc_ok _ _ _ I Ea) as [I1 Hc]; [|done].
  destruct (Hc ti eq_refl) as (Hi & _ & Hs & Hf & _). clear Hc Ea I. cbv zeta.
  destruct (child_new s1 ti (fun t => set_ppid t pp) I1 Hi (conj Hs Hf)) as [I2 C2]; try done.
  generalize dependent (upd_task s1 ti (fun t => set_ppid t pp)). clear s s1 I1 Hs Hf. intros s I2 C2.
  match goal with |- context [if 0 <? pp then ?a else s] => assert (ok (if 0 <? pp then a else s)) as I3;
    [|generalize dependent (if 0 <? pp then a else s)] end.
  { destruct (0 <? pp); [|done]. destruct (task_by_pid s pp) as [par|]; [|done]. by apply child_new. }
  clear s I2 C2. intros s I.
  match goal with |- context [task_pt_setup ti ?a] => assert (I4 : ok a); [|generalize dependent a] end.
  { destruct (_ && _); [|done]. eapply ok_ssim; [exact I|apply init_pid_ssim]. }
  clear s I. intros s I. pose proof (ssame_ssim _ _ (ssame_pt_setup ti s)) as P. destruct (task_pt_setup ti s) as [b s1]. cbn [snd] in P.
  assert (I1 : ok s1) by by eapply ok_ssim. destruct (negb b); [by apply reap_inv|]. clear s I P.
  pose proof (ssame_ssim _ _ (ssame_exec ti img sz None ticks (addr ti) s1)) as P. destruct (task_exec _ _ _ _ _ _ s1) as [rc s2]. cbn [snd] in P.
  assert (I2 : ok s2) by by eapply ok_ssim. destruct (negb _); [by apply reap_inv|]. cbn [snd]. clear s1 I1 P.
  destruct (_ && _); [|done]. eapply ok_ssim; [exact I2|]. apply ssame_ssim, ssame_upd. intros t. apply (set_comm_harmless t (Some comm_init)).
Qed.

Lemma upd_state s ti f tj : (forall t, state (f t) = state t) -> state (task_at (upd_task s ti f) tj) = state (task_at s tj).
Proof. intros H. unfold upd_task. rewrite task_at_set. case_decide as Hd; [|done]. destruct Hd as [<- _]. apply H. Qed.

Lemma ssame_state s s' ti : ssame s s' -> state (task_at s' ti) = state (task_at s ti).
Proof. intros S. exact (tk_state _ _ (ssame_tkeep s s' ti S)). Qed.

Lemma create_user_runnable img sz pp ticks addr s ti s' :
  ok s -> task_create_user img sz pp ticks addr s = (Some ti, s') -> state (task_at s' ti) = TASK_RUNNABLE.
Proof.
  intros I. unfold task_create_user. destruct (task_alloc s) as [[tj|] s1] eqn:Ea; [|done].
  destruct (proj2 (task_alloc_ok _ _ _ I Ea) tj eq_refl) as (_ & _ & Hs & _). cbv zeta.
  match goal with |- context [task_pt_setup tj ?a] => assert (H1 : state (task_at a tj) = TASK_RUNNABLE); [|generalize dependent a] end.
  { repeat case_match; (try match goal with |- context [on_top ?a _] => change (state (task_at a tj) = TASK_RUNNABLE) end); by rewrite ?upd_state. }
  intros s2 H2. pose proof (ssame_state _ _ tj (ssame_pt_setup tj s2)) as P. destruct (task_pt_setup tj s2) as [b s3]. cbn [snd] in P.
  destruct (negb b); [done|].
  pose proof (ssame_state _ _ tj (ssame_exec tj img sz None ticks (addr tj) s3)) as Q. destruct (task_exec _ _ _ _ _ _ s3) as [rc s4]. cbn [snd] in Q.
  destruct (negb _); [done|]. intros [= -> <-]. transitivity (state (task_at s4 ti)); [|by rewrite Q, P].
  destruct (_ && _); [|done]. by rewrite upd_state.
Qed.

End Create.

Section Schedule.
Context {D E N : Type} `{!BlockDrivers D, !Ext4Ops D E, !SocketOps N} {Sx : Strict}.
Abbreviation st := (sys D E (ktasks (kio N))).
Implicit Types s : st.

Lemma entry_ok s c tf : good s -> current s = Some c -> ok (cur := Some c) (run := None) (sched_entry (Some tf) s).
Proof.
  unfold good, sched_entry. intros I Hc. rewrite Hc in *. cbv zeta. pose proof (stop_running_ok s c tf I) as I1. cbv zeta in I1.
  match goal with |- context [task_reap_orphan_zombies _ ?a] => exact (reap_orphans_inv v0 a (current a) I1) end.
Qed.

Lemma ok_len {cur run} s : ok (cur := cur) (run := run) s -> length (get_tasks s) = MAX_TASKS.
Proof. intros I. exact (tb_len _ _ (pi_table _ _ _ _ _ _ I)). Qed.

Lemma idle_stuck cur s ticks :
  ok (cur := cur) (run := None) s -> none_runnable s -> idle_loop ticks s = None -> idle_for ticks s.
Proof.
  intros I Hn H. split; [done|]. intros now ti. by apply (idle_None ticks s (ok_len s I)).
Qed.

Lemma first_choice s force :
  length (get_tasks s) = MAX_TASKS ->
  match (match (if negb force then current_runnable s else None) with Some n => Some n | None => pick_next (current s) s end) with
  | Some n => state (task_at s n) = TASK_RUNNABLE
  | None => none_runnable s
  end.
Proof.
  intros Hl. destruct (if negb force then current_runnable s else None) as [n|] eqn:E1.
  - destruct force; [done|]. unfold current_runnable in E1. cbn [negb] in E1. destruct (current s) as [c1|]; [|done].
    destruct (is_state (task_at s c1) TASK_RUNNABLE) eqn:Hs; [|done]. simplify_eq. by apply is_state_true.
  - destruct (pick_next (current s) s) eqn:E2; [by apply pick_next_runnable in E2|]. by apply (pick_next_None (current s)).
Qed.

(** A choice is settled, or the idle loop is entered with nothing to run. *)
Lemma settle_stuck cur s ticks n :
  ok (cur := cur) (run := None) s -> state (task_at s n) = TASK_RUNNABLE ->
  exists next s', settle_loop (S MAX_TASKS) (Some n) s = Some (next, s') /\
    (match next with Some m => Some (m, ticks, s') | None => idle_loop ticks s' end = None -> idle_for ticks s').
Proof.
  intros I Hs. pose proof (countb_nonneg awake (get_tasks s)) as B. rewrite (ok_len s I) in B.
  destruct (settle_total (S MAX_TASKS) n s (ok_len s I) Hs ltac:(lia)) as (next & s' & Es & _ & Hn).
  exists next, s'. split; [done|]. destruct next; [done|]. apply (idle_stuck cur); [|by apply Hn].
  refine (proj1 (settle_loop_ok cur _ _ _ _ _ I _ Es)). by intros m [= <-].
Qed.

End Schedule.
