(* ===== verification/Kern.v ===== *)
(** * The state of a system call and its access to user memory

    The handlers of kernel/syscall.c work on the whole kernel: the filesystem of
    Fs.v over the tasks of Proc.v, with the registers of the caller. This file has
    that state, a monad for the handlers, and the copies of kernel/user_copy.c as
    they happen under paging: each access is translated by the tables of the current
    task, and one that faults goes to [task_handle_page_fault], as
    [trap_handle_sync] of kernel/trap.c does. An access that cannot be resolved does
    not return to the handler: the outcome is [Fault].

    The nested trap also passes through the scheduler, which returns to the handler
    as long as no signal is pending; that part is left out. *)

From S2P Require Import Prelude KString Path Pmm Pipe UserCopy Inode BlockCache PageCache FsIo TaskDefs Signal Mmu Vma Vm Fs FsData Proc Elf.

(** ** Tasks under a mount (kernel/task.c) *)

(** The walk to the root. A chain of parents has at most as many nodes as there are
    inodes. *)
Fixpoint under_mount_loop (fuel : nat) (ns : gmap Z inode) (cur : option Z) (mountpoint : Z) : bool :=
  match fuel, cur with
  | S fuel, Some p => (p =? mountpoint) || under_mount_loop fuel ns (i_parent (ns !!! p)) mountpoint
  | _, _ => false
  end.

Definition task_inode_under_mount (ns : gmap Z inode) (ino : option Z) (mountpoint : Z) : bool :=
  under_mount_loop (S (size ns)) ns ino mountpoint.

Definition task_path_under_mount (path mount_path : list Z) : bool :=
  if negb (bool_decide (head mount_path = Some SLASH)) then false
  else if decide (mount_path = [SLASH]) then true
  else
    let mlen := length mount_path in
    if negb (bool_decide (take mlen path = mount_path)) then false
    else match path !! mlen with None => true | Some c => c =? SLASH end.

Definition task_uses_mount (ns : gmap Z inode) (mountpoint : Z) (mount_path : list Z) (t : task) : bool :=
  is_live t &&
  (task_path_under_mount (before_nul (cwd t)) mount_path ||
   existsb (fun f => fd_used f && bool_decide (fd_kind f = FD_INODE) && task_inode_under_mount ns (fd_inode f) mountpoint) (fds t) ||
   existsb (fun v => vma_used v && task_inode_under_mount ns (vma_inode v) mountpoint) (vmas (t_vm t))).

#[global] Instance mount_users {X} : MountUsers (ktasks X) := fun ns mountpoint mount_path k =>
  existsb (task_uses_mount ns mountpoint mount_path) (kt_tasks k).

(** ** Interfaces *)

(** The console, the timer and the network, with the state they keep. A socket call
    gives its result first and what it stores through pointers after it. The bytes a
    [net_socket_write] sends are read between its checks ([net_socket_write_size]:
    the result, and the number of bytes that are to be sent, 0 if none) and the
    transmission ([net_socket_write_send]). *)
Class Machine (N : Type) := {
  con_getc : N -> Z * N;
  con_putc : Z -> N -> N;
  uart_rx_ready : N -> bool;
  timer_ticks : N -> Z;
  net_frame_read : Z -> N -> Z * list Z * N;
  net_frame_write : list Z -> N -> Z * N;
  net_pump : N -> N;
  net_socket_create : Z -> Z -> Z -> N -> Z * option Z * N;
  net_socket_bind : Z -> Z -> Z -> N -> Z * N;
  net_socket_sendto : Z -> list Z -> Z -> Z -> N -> Z * N;
  net_socket_recvfrom : Z -> Z -> bool -> N -> Z * list Z * Z * Z * N;
  net_socket_connect : Z -> Z -> Z -> bool -> N -> Z * N;
  net_socket_listen : Z -> Z -> N -> Z * N;
  net_socket_accept : Z -> bool -> N -> Z * option Z * Z * Z * N;
  net_socket_getsockname : Z -> N -> Z * Z * Z * N;
  net_socket_getpeername : Z -> N -> Z * Z * Z * N;
  net_socket_shutdown : Z -> Z -> N -> Z * N;
  net_socket_read : Z -> Z -> bool -> N -> Z * list Z * N;
  net_socket_write_size : Z -> Z -> bool -> N -> Z * Z * N;
  net_socket_write_send : Z -> list Z -> N -> Z * N;
  net_socket_setsockopt : Z -> Z -> Z -> list Z -> N -> Z * N;
  net_socket_getsockopt : Z -> Z -> Z -> Z -> N -> Z * list Z * N;
  net_socket_poll_revents : Z -> Z -> N -> Z;
}.

(** The formatter and the checker of ext4. *)
Class Ext4Tools (D E T : Type) := {
  fs_mkfs_ext4 : list Z -> Z -> option (list Z) -> fsys D E T -> Z * fsys D E T;
  fs_fsck_ext4 : list Z -> Z -> fsys D E T -> Z * fsys D E T;
}.

Section Devices.
Context {N : Type} `{!Machine N}.

Definition on_io {R} (f : N -> R * N) (k : ktasks (kio N)) : R * ktasks (kio N) :=
  let '(r, n) := f (io_net (kt_io k)) in (r, kt_set_io k (mk_kio (io_pipes (kt_io k)) n)).

#[global] Instance char_devices : CharDevices (ktasks (kio N)) := {|
  uart_getc := on_io con_getc;
  uart_putc c k := (on_io (fun n => (tt, con_putc c n)) k).2;
  net_dev_read len := on_io (net_frame_read len);
  net_dev_write bytes := on_io (net_frame_write bytes);
|}.

End Devices.

(** ** The monad *)

(** A handler ends with a value, or with an access to [far] that is never completed. *)
Inductive outcome (C A : Type) :=
  | Done (a : A) (x : C)
  | Fault (far : Z) (x : C).
#[global] Arguments Done {C A}.
#[global] Arguments Fault {C A}.

(** The caller's registers and the kernel. *)
Record kctx (D E N : Type) := mk_kctx {
  kx_tf : trapframe;
  kx_fs : fsys D E (ktasks (kio N));
}.
#[global] Arguments mk_kctx {D E N}.
#[global] Arguments kx_tf {D E N}.
#[global] Arguments kx_fs {D E N}.

Definition kern (D E N A : Type) : Type := kctx D E N -> outcome (kctx D E N) A.

#[global] Instance kern_ret {D E N} : MRet (kern D E N) := fun A a x => Done a x.
#[global] Instance kern_bind {D E N} : MBind (kern D E N) := fun A B f m x =>
  match m x with
  | Done a x => f a x
  | Fault far x => Fault far x
  end.

Section Kern.
Context {D E N : Type} `{!BlockDrivers D, !DiskInventory D, !Ext4Ops D E, !SocketOps N, !Machine N}.
Abbreviation M := (kern D E N).
Abbreviation st := (fsys D E (ktasks (kio N))).

Definition kx_sys (x : kctx D E N) : sys D E (ktasks (kio N)) := f_sys (kx_fs x).
Definition kx_net (x : kctx D E N) : N := io_net (kt_io (s_top (kx_sys x))).

Definition gets {A} (g : kctx D E N -> A) : M A := fun x => Done (g x) x.
Definition fault {A} (far : Z) : M A := fun x => Fault far x.
Definition set_frame (tf : trapframe) : M unit := fun x => Done tt (mk_kctx tf (kx_fs x)).
(** A call of the filesystem, of the parts below it, and of the network. *)
Definition on_fs {A} (g : st -> A * st) : M A := fun x => let '(a, f) := g (kx_fs x) in Done a (mk_kctx (kx_tf x) f).
Definition on_kernel {A} (g : sys D E (ktasks (kio N)) -> A * sys D E (ktasks (kio N))) : M A :=
  on_fs (fun f => let '(a, s) := g (f_sys f) in (a, set_sys f s)).
Definition upd_kernel (g : sys D E (ktasks (kio N)) -> sys D E (ktasks (kio N))) : M unit := on_kernel (fun s => (tt, g s)).
Definition on_machine {A} (g : N -> A * N) : M A :=
  on_kernel (fun s => let '(a, k) := on_io g (s_top s) in (a, sys_set_top s k)).

(** ** Access to memory by virtual address *)

Abbreviation TTBR1_BASE := (2 ^ 64 - 2 ^ 39) (only parsing).

(** What the tables of the current task, or those of the kernel for the upper half,
    give an access of the kernel: the physical address, or whether the fault is a
    translation fault. The kernel may write where AP[2], bit 7, is clear. *)
Definition el1_access (s : sys D E (ktasks (kio N))) (write : bool) (va : Z) : Z + bool :=
  match current s with
  | None => inr true
  | Some ti =>
      let m := vm_at s ti in
      let r :=
        if TTBR1_BASE <=? va then walk (fun _ => kernel_ttbr1_l1) 0 (va - TTBR1_BASE)
        else walk (task_tables m) (ttbr0_phys m) va in
      match r with
      | None => inr true
      | Some (pa, e) => if write && has_bits e (2 ^ 7) then inr false else inl pa
      end
  end.

(** The access is repeated after each fault that was resolved. A page that was not
    there can be there read-only after the first one and is writable after the
    second. *)
Fixpoint user_access (fuel : nat) (write : bool) (va : Z) : M Z :=
  match fuel with
  | O => fault va
  | S fuel =>
      s ← gets kx_sys;
      match el1_access s write va with
      | inl pa => mret pa
      | inr is_translation =>
          tf ← gets kx_tf;
          ok ← on_kernel (task_handle_page_fault va write is_translation false (sp_el0 tf));
          if (ok : bool) then user_access fuel write va else fault va
      end
  end.

Definition load_byte (va : Z) : M Z :=
  pa ← user_access 3 false va;
  s ← gets kx_sys;
  mret (mem_get (s_ram s) pa).

Definition store_byte (va c : Z) : M unit :=
  pa ← user_access 3 true va;
  upd_kernel (fun s => sys_set_ram s (<[pa := c]> (s_ram s))).

Fixpoint load_bytes (n : nat) (va : Z) : M (list Z) :=
  match n with
  | O => mret []
  | S n =>
      c ← load_byte va;
      cs ← load_bytes n (va + 1);
      mret (c :: cs)
  end.

Fixpoint store_list (va : Z) (bytes : list Z) : M unit :=
  match bytes with
  | [] => mret tt
  | c :: bytes =>
      store_byte va c;;
      store_list (va + 1) bytes
  end.

(** [copy_from_user] into a buffer of the handler: the bytes, or [None] for -1. *)
Definition ucopy_from (user_src n : Z) : M (option (list Z)) :=
  if negb (user_ptr_valid user_src n) then mret None
  else
    bs ← load_bytes (Z.to_nat n) user_src;
    mret (Some bs).

(** [copy_to_user] from such a buffer: whether it succeeds. *)
Definition ucopy_to (user_dst : Z) (bytes : list Z) : M bool :=
  if negb (user_ptr_valid user_dst (Z.of_nat (length bytes))) then mret false
  else
    store_list user_dst bytes;;
    mret true.

Fixpoint ucopy_str_loop (n : nat) (src : Z) (acc : list Z) : M (option (list Z)) :=
  match n with
  | O => mret (Some (removelast acc))
  | S n =>
      if USER_VA_LIMIT <=? src then mret None
      else
        c ← load_byte src;
        if c =? 0 then mret (Some acc) else ucopy_str_loop n (src + 1) (acc ++ [c])
  end.

(** [copy_user_str] into a buffer of [maxlen] bytes: the string, cut to fit. *)
Definition ucopy_str (user_src : Z) (maxlen : nat) : M (option (list Z)) :=
  if negb (user_ptr_valid user_src 1) then mret None else ucopy_str_loop maxlen user_src [].

End Kern.
