(* ===== verification/Syscall.v ===== *)
(** * System calls (kernel/syscall.c)

    Every handler of the system call table and the dispatcher. A handler takes the
    argument registers it uses; its result is the [long] it returns. Buffers of a
    handler are lists of bytes; a path is copied from the caller and brought into
    canonical form (Path.v) before the filesystem sees it.

    [task_addr] is the address of a task structure, which exec mixes into the random
    bytes it gives the program. *)

From S2P Require Import Prelude KString Path Pmm Pipe UserCopy Inode BlockCache PageCache FsIo TaskDefs Signal Mmu Vma Vm Fs FsData Proc Elf Kern.

Abbreviation SYS_WRITE := 0 (only parsing).
Abbreviation SYS_READ := 1 (only parsing).
Abbreviation SYS_OPEN := 2 (only parsing).
Abbreviation SYS_CLOSE := 3 (only parsing).
Abbreviation SYS_EXIT := 4 (only parsing).
Abbreviation SYS_YIELD := 5 (only parsing).
Abbreviation SYS_FORK := 6 (only parsing).
Abbreviation SYS_EXEC := 7 (only parsing).
Abbreviation SYS_WAIT := 8 (only parsing).
Abbreviation SYS_GETPID := 9 (only parsing).
Abbreviation SYS_CHDIR := 10 (only parsing).
Abbreviation SYS_MKDIR := 11 (only parsing).
Abbreviation SYS_RMDIR := 12 (only parsing).
Abbreviation SYS_UNLINK := 13 (only parsing).
Abbreviation SYS_GETCWD := 14 (only parsing).
Abbreviation SYS_RENAME := 15 (only parsing).
Abbreviation SYS_DUP2 := 16 (only parsing).
Abbreviation SYS_PIPE := 17 (only parsing).
Abbreviation SYS_SLEEP := 18 (only parsing).
Abbreviation SYS_BRK := 19 (only parsing).
Abbreviation SYS_KILL := 20 (only parsing).
Abbreviation SYS_FCNTL := 21 (only parsing).
Abbreviation SYS_POLL := 22 (only parsing).
Abbreviation SYS_SETPGID := 23 (only parsing).
Abbreviation SYS_GETPGID := 24 (only parsing).
Abbreviation SYS_MMAP := 25 (only parsing).
Abbreviation SYS_MUNMAP := 26 (only parsing).
Abbreviation SYS_MPROTECT := 27 (only parsing).
Abbreviation SYS_MOUNT := 28 (only parsing).
Abbreviation SYS_UMOUNT := 29 (only parsing).
Abbreviation SYS_LINK := 30 (only parsing).
Abbreviation SYS_SYMLINK := 31 (only parsing).
Abbreviation SYS_READLINK := 32 (only parsing).
Abbreviation SYS_LSTAT := 33 (only parsing).
Abbreviation SYS_MKFSEXT4 := 34 (only parsing).
Abbreviation SYS_FSCKEXT4 := 35 (only parsing).
Abbreviation SYS_LSEEK := 36 (only parsing).
Abbreviation SYS_FSTAT := 37 (only parsing).
Abbreviation SYS_STAT := 38 (only parsing).
Abbreviation SYS_CHMOD := 39 (only parsing).
Abbreviation SYS_FSYNC := 40 (only parsing).
Abbreviation SYS_MSYNC := 41 (only parsing).
Abbreviation SYS_SIGACTION := 42 (only parsing).
Abbreviation SYS_SIGPROCMASK := 43 (only parsing).
Abbreviation SYS_SIGRETURN := 44 (only parsing).
Abbreviation SYS_SOCKET := 45 (only parsing).
Abbreviation SYS_BIND := 46 (only parsing).
Abbreviation SYS_SENDTO := 47 (only parsing).
Abbreviation SYS_RECVFROM := 48 (only parsing).
Abbreviation SYS_SETSOCKOPT := 49 (only parsing).
Abbreviation SYS_CONNECT := 50 (only parsing).
Abbreviation SYS_LISTEN := 51 (only parsing).
Abbreviation SYS_ACCEPT := 52 (only parsing).
Abbreviation SYS_GETSOCKNAME := 53 (only parsing).
Abbreviation SYS_GETPEERNAME := 54 (only parsing).
Abbreviation SYS_SHUTDOWN := 55 (only parsing).
Abbreviation SYS_GETSOCKOPT := 56 (only parsing).
Abbreviation SYS_MAX := 57 (only parsing).
Abbreviation O_CREAT := 0x40 (only parsing).
Abbreviation O_TRUNC := 0x200 (only parsing).
Abbreviation O_APPEND := 0x400 (only parsing).
Abbreviation F_GETFL := 3 (only parsing).
Abbreviation F_SETFL := 4 (only parsing).
Abbreviation POLLIN := 1 (only parsing).
Abbreviation POLLOUT := 4 (only parsing).
Abbreviation POLLERR := 8 (only parsing).
Abbreviation POLLHUP := 16 (only parsing).
Abbreviation POLLNVAL := 32 (only parsing).
Abbreviation AF_INET := 2 (only parsing).
Abbreviation SOCK_NONBLOCK := 0x800 (only parsing).
Abbreviation MSG_DONTWAIT := 0x40 (only parsing).
Abbreviation SEEK_SET := 0 (only parsing).
Abbreviation SEEK_CUR := 1 (only parsing).
Abbreviation SEEK_END := 2 (only parsing).
Abbreviation EXEC_IMAGE_MAX := 16777216 (only parsing).
Abbreviation MAX_POLL_FDS := 16 (only parsing).
Abbreviation SOCKADDR_IN_LEN := 16 (only parsing).
Abbreviation SYS_NET_UDP_PAYLOAD_MAX := 1472 (only parsing).
Abbreviation MKFS_OPTS_SIZE := 60 (only parsing).
Abbreviation PT_INTERP := 3 (only parsing).

(** ** Helpers *)

Definition fd_mode (flags : Z) : Z := Z.land flags O_ACCMODE.

Definition open_flags_valid (flags : Z) : bool :=
  let allowed := Z.lor (Z.lor (Z.lor (Z.lor O_ACCMODE O_CREAT) O_TRUNC) O_APPEND) O_NONBLOCK in
  Z.land flags (Z.lnot allowed) =? 0.

Definition align_up_u64 (value align : Z) : Z :=
  if align =? 0 then value else Z.land (u64 (value + align - 1)) (not64 (align - 1)).

Definition swab32 (v : Z) : Z :=
  Z.lor (Z.lor (Z.lor (Z.shiftl (Z.land v 0xFF) 24) (Z.shiftl (Z.land v 0xFF00) 8)) (Z.shiftr (Z.land v 0xFF0000) 8))
    (Z.shiftr (Z.land v 0xFF000000) 24).

(** The signed values of 16 and 64 bits. *)
Definition to_s16 (x : Z) : Z := let y := u16 x in if 2 ^ 15 <=? y then y - 2 ^ 16 else y.
Definition to_s64 (x : Z) : Z := let y := u64 x in if 2 ^ 63 <=? y then y - 2 ^ 64 else y.

(** The next part of a transfer of [len] bytes through a buffer of [max]. *)
Definition chunk_of (max len done : Z) : Z := if max <? len - done then max else len - done.

(** What a buffer of [size] bytes holds of the bytes stored in it. *)
Definition in_buf (size : nat) (bytes : list Z) : list Z := take size bytes.

(** Numbers in the structures the caller passes. *)
Definition get_le (bs : list Z) (off : nat) (n : nat) : Z := le_at (drop off bs) 0 n.

(** PT_INTERP: [Some None] if there is none, [None] if the file is malformed. *)
Fixpoint interp_loop (phs : list Elf64_Phdr) (image : list Z) (image_size outsz : Z) : option (option (list Z)) :=
  match phs with
  | [] => Some None
  | ph :: phs =>
      if negb (p_type ph =? PT_INTERP) then interp_loop phs image image_size outsz
      else if (p_filesz ph =? 0) || (outsz <=? p_filesz ph) then None
      else if (image_size <? p_offset ph) || (image_size - p_offset ph <? p_filesz ph) then None
      else
        let out := before_nul (img_bytes image (p_offset ph) (p_filesz ph)) in
        if bool_decide (head out = Some SLASH) then Some (Some out) else None
  end.

Definition elf_interp_path (image : list Z) (image_size outsz : Z) : option (option (list Z)) :=
  if (outsz <? 2) || (image_size <? EHDR_SIZE) then None
  else
    let eh := ehdr_at image in
    if negb (ehdr_known eh) then None
    else if negb (e_phentsize eh =? PHDR_SIZE) then None
    else if (image_size <? e_phoff eh) || (image_size - e_phoff eh <? e_phnum eh * e_phentsize eh) then None
    else interp_loop (phdrs image (e_phoff eh) (e_phnum eh)) image image_size outsz.

Definition stat_bytes (st : fu_stat) : list Z :=
  le_bytes 4 (stat_type st) ++ le_bytes 4 (stat_mode st) ++ le_bytes 8 (stat_size st) ++ le_bytes 4 (stat_nlink st) ++
  le_bytes 4 (stat_fs_kind st).

Definition sockaddr_bytes (addr_be port_be : Z) : list Z :=
  le_bytes 2 AF_INET ++ le_bytes 2 port_be ++ le_bytes 4 (swab32 addr_be) ++ replicate 8 0.

Definition sigaction_of (bs : list Z) : sigaction :=
  mk_sigaction (get_le bs 0 8) (get_le bs 8 8) (get_le bs 16 8) (get_le bs 24 8).

Definition sigaction_bytes (a : sigaction) : list Z := words_bytes [sa_handler a; sa_flags a; sa_restorer a; sa_mask a].

Section Handlers.
Context {D E N : Type} `{!BlockDrivers D, !DiskInventory D, !Ext4Ops D E, !SocketOps N, !Machine N}.
Context `{!Ext4Names D E (ktasks (kio N)), !Ext4Tools D E (ktasks (kio N))}.
Context (task_addr : nat -> Z).
Abbreviation M := (kern D E N).

(** ** Common steps *)

(** [if (!t) return r;] *)
Definition with_task (r : Z) (k : nat -> M Z) : M Z :=
  s ← gets kx_sys;
  match current s with
  | None => mret r
  | Some t => k t
  end.

Definition cur_fd (t : nat) (i : Z) : M fd := gets (fun x => get_fd (kx_sys x) t (Z.to_nat i)).
Definition put_fd (t : nat) (i : Z) (f : fd) : M unit := upd_kernel (fun s => set_fd s t (Z.to_nat i) f).
Definition put_offset (t : nat) (i off : Z) : M unit :=
  f ← cur_fd t i;
  put_fd t i (set_fd_offset f off).

(** [if (fd >= MAX_FDS || !t->fds[fd].used) return -1;] *)
Definition with_fd (t : nat) (i : Z) (k : fd -> M Z) : M Z :=
  if Z.of_nat MAX_FDS <=? i then mret (-1)
  else
    f ← cur_fd t i;
    if negb (fd_used f) then mret (-1) else k f.

Definition ino_at (p : Z) : M inode := gets (fun x => node (kx_fs x) p).
Definition now : M Z := gets (fun x => timer_ticks (kx_net x)).

(** The path after [resolve_path], relative to the caller's directory. *)
Definition resolve (t : nat) (path : list Z) : M (option (list Z)) :=
  s ← gets kx_sys;
  mret (resolve_path (before_nul (cwd (task_at s t))) path MAX_PATH).

(** Both failures are -1. *)
Definition with_path (t : nat) (path : Z) (k : list Z -> M Z) : M Z :=
  p ← ucopy_str path MAX_PATH;
  match p with
  | None => mret (-1)
  | Some p =>
      kpath ← resolve t p;
      match kpath with
      | None => mret (-1)
      | Some kpath => k kpath
      end
  end.

Definition with_paths (t : nat) (path1 path2 : Z) (k : list Z -> list Z -> M Z) : M Z :=
  p1 ← ucopy_str path1 MAX_PATH;
  match p1 with
  | None => mret (-1)
  | Some p1 =>
      p2 ← ucopy_str path2 MAX_PATH;
      match p2 with
      | None => mret (-1)
      | Some p2 =>
          k1 ← resolve t p1;
          match k1 with
          | None => mret (-1)
          | Some k1 =>
              k2 ← resolve t p2;
              match k2 with
              | None => mret (-1)
              | Some k2 => k k1 k2
              end
          end
      end
  end.

(** ** Reading and writing *)

(** The loops move at least a byte in each round, so that [fuel] is the number of
    bytes. *)
Fixpoint write_console (fuel : nat) (buf len i : Z) : M Z :=
  match fuel with
  | O => mret len
  | S fuel =>
      c ← ucopy_from (u64 (buf + i)) 1;
      match c with
      | None => mret (-1)
      | Some c =>
          on_machine (fun n => (tt, con_putc (c !!! 0%nat) n));;
          write_console fuel buf len (i + 1)
      end
  end.

(** One chunk, with up to [tries] repetitions when nothing could be written; [None]
    if the caller's bytes cannot be read. *)
Fixpoint write_chunk (tries : nat) (t : nat) (i ino buf chunk : Z) : M (option Z) :=
  bytes ← ucopy_from buf chunk;
  match bytes with
  | None => mret None
  | Some bytes =>
      f ← cur_fd t i;
      (if has_bits (fd_flags f) O_APPEND then n ← ino_at ino; put_offset t i (i_size n) else mret tt);;
      f ← cur_fd t i;
      '(n, off) ← on_fs (fs_write ino (fd_offset f) bytes);
      put_offset t i off;;
      if (n <=? 0) then
        nd ← ino_at ino;
        match tries with
        | S tries =>
            if decide (i_type nd = INODE_FILE) then
              on_kernel (pagecache_flush_inode (Some ino));;
              write_chunk tries t i ino buf chunk
            else mret (Some n)
        | O => mret (Some n)
        end
      else mret (Some n)
  end.

Fixpoint write_inode (fuel : nat) (t : nat) (i ino buf len done : Z) : M Z :=
  match fuel with
  | O => mret done
  | S fuel =>
      if done <? len then
        r ← write_chunk 3 t i ino (u64 (buf + done)) (chunk_of 128 len done);
        match r with
        | None => mret (done_or done (-1))
        | Some n => if n <=? 0 then mret (done_or done (-1)) else write_inode fuel t i ino buf len (done + n)
        end
      else mret done
  end.

Fixpoint write_pipe (fuel : nat) (t : nat) (f : fd) (buf len done : Z) : M Z :=
  match fuel with
  | O => mret done
  | S fuel =>
      if done <? len then
        let chunk := chunk_of 128 len done in
        bytes ← ucopy_from (u64 (buf + done)) chunk;
        match bytes with
        | None => mret (done_or done (-1))
        | Some bytes =>
            s ← gets kx_sys;
            if negb (pipe_has_readers (get_pipes s) (fd_pipe f)) then
              if done =? 0 then on_kernel (task_kill (pid (task_at s t)) SIGPIPE);; mret (-32) else mret done
            else
              n ← on_kernel (fun s =>
                let '(n, ps) := pipe_write (store_bytes ∅ tmp bytes) (get_pipes s) (fd_pipe f) tmp chunk in (n, set_pipes s ps));
              if n =? 0 then
                if 0 <? done then upd_kernel (task_wake_pipe (fd_pipe f));; mret done
                else if has_bits (fd_flags f) O_NONBLOCK then mret (-11)
                else upd_kernel (task_block_on_pipe_write (fd_pipe f));; mret (-2)
              else
                upd_kernel (task_wake_pipe (fd_pipe f));;
                write_pipe fuel t f buf len (done + n)
        end
      else mret done
  end.

(** A segment of the caller's bytes is sent: [buf] is used as it is. *)
Definition write_socket (t : nat) (sock buf len : Z) (nonblock : bool) : M Z :=
  '(rc, chunk) ← on_machine (net_socket_write_size sock len nonblock);
  rc ← (if chunk =? 0 then mret rc
        else
          bytes ← load_bytes (Z.to_nat chunk) buf;
          on_machine (net_socket_write_send sock bytes));
  if rc =? -32 then
    s ← gets kx_sys;
    on_kernel (task_kill (pid (task_at s t)) SIGPIPE);;
    mret rc
  else mret rc.

Definition sys_write_impl (i buf len : Z) : M Z :=
  with_task 0 (fun t =>
    if len =? 0 then mret 0
    else with_fd t i (fun f =>
      match fd_kind f with
      | FD_NONE => if 2 <? i then mret (-1) else write_console (Z.to_nat len) buf len 0
      | FD_INODE =>
          match fd_inode f with
          | None => mret (-1)
          | Some ino => if fd_mode (fd_flags f) =? O_RDONLY then mret (-1) else write_inode (Z.to_nat len) t i ino buf len 0
          end
      | FD_PIPE_W =>
          match fd_pipe f with
          | None => mret (-1)
          | Some _ => write_pipe (Z.to_nat len) t f buf len 0
          end
      | FD_SOCKET =>
          match fd_sock f with
          | None => mret (-1)
          | Some sock => write_socket t sock buf len (has_bits (fd_flags f) O_NONBLOCK)
          end
      | FD_PIPE_R => mret (-1)
      end)).

Fixpoint read_console (fuel : nat) (buf len i : Z) : M Z :=
  match fuel with
  | O => mret len
  | S fuel =>
      c ← on_machine con_getc;
      let ch := u8 c in
      ok ← ucopy_to (u64 (buf + i)) [ch];
      if negb ok then mret (done_or i (-1))
      else if (ch =? 10) || (ch =? 13) then mret (i + 1)
      else read_console fuel buf len (i + 1)
  end.

Fixpoint read_inode (fuel : nat) (t : nat) (i ino buf len done : Z) : M Z :=
  match fuel with
  | O => mret done
  | S fuel =>
      if done <? len then
        let chunk := chunk_of 128 len done in
        f ← cur_fd t i;
        '(n, bytes, off) ← on_fs (fs_read ino (fd_offset f) chunk);
        put_offset t i off;;
        if n <=? 0 then mret (done_or done n)
        else
          ok ← ucopy_to (u64 (buf + done)) (take (Z.to_nat n) (in_buf 128 bytes));
          if negb ok then mret (done_or done (-1))
          else if n <? chunk then mret (done + n)
          else read_inode fuel t i ino buf len (done + n)
      else mret done
  end.

Fixpoint read_pipe (fuel : nat) (f : fd) (buf len done : Z) : M Z :=
  match fuel with
  | O => mret done
  | S fuel =>
      if done <? len then
        let chunk := chunk_of 128 len done in
        '(n, bytes) ← on_kernel (fun s =>
          let '(n, m, ps) := pipe_read ∅ (get_pipes s) (fd_pipe f) tmp chunk in ((n, mem_bytes m tmp (Z.to_nat n)), set_pipes s ps));
        if n =? 0 then
          if 0 <? done then upd_kernel (task_wake_pipe (fd_pipe f));; mret done
          else
            s ← gets kx_sys;
            if negb (pipe_has_writers (get_pipes s) (fd_pipe f)) then mret 0
            else if has_bits (fd_flags f) O_NONBLOCK then mret (-11)
            else upd_kernel (task_block_on_pipe_read (fd_pipe f));; mret (-2)
        else
          ok ← ucopy_to (u64 (buf + done)) bytes;
          if negb ok then mret (done_or done (-1))
          else
            upd_kernel (task_wake_pipe (fd_pipe f));;
            read_pipe fuel f buf len (done + n)
      else mret done
  end.

Fixpoint read_socket (fuel : nat) (sock buf len done : Z) (nonblock : bool) : M Z :=
  match fuel with
  | O => mret done
  | S fuel =>
      if done <? len then
        let chunk := chunk_of 256 len done in
        '(n, bytes) ← on_machine (net_socket_read sock chunk nonblock);
        if n <=? 0 then mret (done_or done n)
        else
          ok ← ucopy_to (u64 (buf + done)) (take (Z.to_nat n) (in_buf 256 bytes));
          if negb ok then mret (done_or done (-1))
          else if n <? chunk then mret (done + n)
          else read_socket fuel sock buf len (done + n) nonblock
      else mret done
  end.

Definition sys_read_impl (i buf len : Z) : M Z :=
  with_task 0 (fun t =>
    if len =? 0 then mret 0
    else with_fd t i (fun f =>
      let nonblock := has_bits (fd_flags f) O_NONBLOCK in
      rx_ready ← gets (fun x => uart_rx_ready (kx_net x));
      match fd_kind f with
      | FD_NONE =>
          if negb (i =? 0) then mret (-1)
          else if nonblock && negb rx_ready then mret (-11)
          else read_console (Z.to_nat len) buf len 0
      | FD_INODE =>
          match fd_inode f with
          | None => mret (-1)
          | Some ino =>
              n ← ino_at ino;
              if fd_mode (fd_flags f) =? O_WRONLY then mret (-1)
              else if nonblock && fs_is_tty n && negb rx_ready then mret (-11)
              else read_inode (Z.to_nat len) t i ino buf len 0
          end
      | FD_PIPE_R =>
          match fd_pipe f with
          | None => mret (-1)
          | Some _ => read_pipe (Z.to_nat len) f buf len 0
          end
      | FD_PIPE_W => mret (-1)
      | FD_SOCKET =>
          match fd_sock f with
          | None => mret (-1)
          | Some sock => read_socket (Z.to_nat len) sock buf len 0 nonblock
          end
      end)).

(** ** Descriptors *)

(** The checks of the flags against the file. *)
Definition open_denied (n : inode) (iflags : Z) : bool :=
  let mode_bits := fd_mode iflags in
  let writes := (mode_bits =? O_WRONLY) || (mode_bits =? O_RDWR) in
  negb (open_flags_valid iflags) || (O_RDWR <? mode_bits) ||
  (has_bits iflags O_APPEND && (mode_bits =? O_RDONLY)) ||
  (has_bits iflags O_TRUNC && (mode_bits =? O_RDONLY)) ||
  (bool_decide (i_type n = INODE_DIR) && negb (mode_bits =? O_RDONLY)) ||
  (bool_decide (i_type n = INODE_FILE) && writes && negb (i_writable n)) ||
  (bool_decide (i_type n = INODE_DEV) && writes && negb (i_writable n)).

Definition sys_open_impl (path flags : Z) : M Z :=
  with_task (-1) (fun t => with_path t path (fun kpath =>
    ino ← on_fs (fs_lookup kpath);
    ino ← (match ino with
           | Some p => mret (Some p)
           | None => if has_bits flags O_CREAT then on_fs (fs_create_file kpath) else mret None
           end);
    match ino with
    | None => mret (-1)
    | Some p =>
        let iflags := to_int flags in
        n ← ino_at p;
        if open_denied n iflags then mret (-1)
        else
          i ← on_kernel (task_fd_alloc t);
          if i <? 0 then mret (-1)
          else
            f ← cur_fd t i;
            put_fd t i (mk_fd FD_INODE (Some p) None None (if has_bits iflags O_APPEND then i_size n else 0) iflags (fd_used f));;
            if has_bits iflags O_TRUNC && bool_decide (i_type n = INODE_FILE) then
              rc ← on_fs (fs_truncate p 0);
              if negb (rc =? 0) then on_kernel (task_fd_close t i);; mret (-1)
              else put_offset t i 0;; mret i
            else mret i
    end)).

Definition sys_close_impl (i : Z) : M Z :=
  with_task (-1) (fun t => if Z.of_nat MAX_FDS <=? i then mret (-1) else on_kernel (task_fd_close t (to_int i))).

Definition sys_dup2_impl (oldfd newfd : Z) : M Z :=
  with_task (-1) (fun t => on_kernel (task_fd_dup2 t (to_int oldfd) (to_int newfd))).

(** Both ends of pipe [p] are dropped. *)
Definition drop_pipe (p : option nat) (s : sys D E (ktasks (kio N))) : sys D E (ktasks (kio N)) :=
  let s := set_pipes s (pipe_close_read (get_pipes s) p) in
  set_pipes s (pipe_close_write (get_pipes s) p).

Definition sys_pipe_impl (user_fds : Z) : M Z :=
  with_task (-1) (fun t =>
    if user_fds =? 0 then mret (-1)
    else
      p ← on_kernel (fun s => let '(p, ps) := pipe_alloc (get_pipes s) in (p, set_pipes s ps));
      match p with
      | None => mret (-1)
      | Some _ =>
          rfd ← on_kernel (task_fd_alloc t);
          if rfd <? 0 then upd_kernel (drop_pipe p);; mret (-1)
          else
            wfd ← on_kernel (task_fd_alloc t);
            if wfd <? 0 then on_kernel (task_fd_close t rfd);; upd_kernel (drop_pipe p);; mret (-1)
            else
              r ← cur_fd t rfd;
              put_fd t rfd (mk_fd FD_PIPE_R None p None 0 O_RDONLY (fd_used r));;
              w ← cur_fd t wfd;
              put_fd t wfd (mk_fd FD_PIPE_W None p None 0 O_WRONLY (fd_used w));;
              ok ← ucopy_to user_fds (le_bytes 4 rfd ++ le_bytes 4 wfd);
              if negb ok then on_kernel (task_fd_close t rfd);; on_kernel (task_fd_close t wfd);; mret (-1)
              else mret 0
      end).

Definition sys_fcntl_impl (i cmd arg : Z) : M Z :=
  with_task (-1) (fun t => with_fd t i (fun f =>
    let c := to_int cmd in
    if c =? F_GETFL then mret (fd_flags f)
    else if c =? F_SETFL then
      let keep := Z.land (fd_flags f) O_ACCMODE in
      let newf := to_int arg in
      let keep := if has_bits newf O_APPEND then Z.lor keep O_APPEND else keep in
      let keep := if has_bits newf O_NONBLOCK then Z.lor keep O_NONBLOCK else keep in
      put_fd t i (set_fd_flags f keep);;
      mret 0
    else mret (-1))).

Definition sys_lseek_impl (i offset whence : Z) : M Z :=
  with_task (-1) (fun t => with_fd t i (fun f =>
    match fd_kind f, fd_inode f with
    | FD_INODE, Some p =>
        n ← ino_at p;
        let w := to_int whence in
        let base :=
          if w =? SEEK_SET then Some 0
          else if w =? SEEK_CUR then Some (to_s64 (fd_offset f))
          else if w =? SEEK_END then Some (to_s64 (i_size n)) else None in
        match base with
        | None => mret (-1)
        | Some base =>
            let pos := to_s64 (base + to_s64 offset) in
            if pos <? 0 then mret (-1) else put_offset t i pos;; mret pos
        end
    | _, _ => mret (-1)
    end)).

Definition sys_fsync_impl (i : Z) : M Z :=
  with_task (-1) (fun t => with_fd t i (fun f =>
    match fd_kind f, fd_inode f with
    | FD_INODE, Some p => on_kernel (fs_sync_inode (Some p))
    | _, _ => mret (-1)
    end)).

(** ** Polling *)

Definition when_bits (b : bool) (bits : Z) : Z := if b then bits else 0.

Definition poll_inode (f : fd) (n : inode) (events : Z) (rx_ready : bool) : Z :=
  let mode := fd_mode (fd_flags f) in
  let want_in := has_bits events POLLIN && negb (mode =? O_WRONLY) in
  let want_out := has_bits events POLLOUT && negb (mode =? O_RDONLY) in
  match i_type n with
  | INODE_DEV =>
      if i_dev_kind n =? DEV_TTY then Z.lor (when_bits (want_in && rx_ready) POLLIN) (when_bits want_out POLLOUT)
      else Z.lor (when_bits want_in POLLIN) (when_bits want_out POLLOUT)
  | INODE_FILE =>
      Z.lor (when_bits (want_in && (fd_offset f <? i_size n)) POLLIN) (when_bits (want_out && i_writable n) POLLOUT)
  | INODE_DIR => when_bits (want_in && (fd_offset f <? Z.of_nat (length (i_children n)) * SIZEOF_DIRENT)) POLLIN
  | INODE_UNUSED => 0
  end.

Definition poll_fd_revents (t : nat) (i events : Z) (x : kctx D E N) : Z :=
  if fd_bad i then POLLNVAL
  else
    let s := kx_sys x in
    let f := get_fd s t (Z.to_nat i) in
    let rx_ready := uart_rx_ready (kx_net x) in
    if negb (fd_used f) then POLLNVAL
    else
      match fd_kind f with
      | FD_NONE =>
          if i =? 0 then when_bits (has_bits events POLLIN && rx_ready) POLLIN
          else if (i =? 1) || (i =? 2) then when_bits (has_bits events POLLOUT) POLLOUT
          else POLLNVAL
      | FD_INODE => match fd_inode f with None => POLLERR | Some p => poll_inode f (node (kx_fs x) p) events rx_ready end
      | FD_PIPE_R =>
          match fd_pipe f with
          | None => POLLERR
          | p =>
              let hup := negb (pipe_has_writers (get_pipes s) p) in
              Z.lor (when_bits hup POLLHUP)
                (when_bits (has_bits events POLLIN && ((0 <? pipe_available_read (get_pipes s) p) || hup)) POLLIN)
          end
      | FD_PIPE_W =>
          match fd_pipe f with
          | None => POLLERR
          | p =>
              if negb (pipe_has_readers (get_pipes s) p) then Z.lor POLLERR POLLHUP
              else when_bits (has_bits events POLLOUT && (0 <? pipe_available_write (get_pipes s) p)) POLLOUT
          end
      | FD_SOCKET => match fd_sock f with None => POLLERR | Some h => net_socket_poll_revents h events (kx_net x) end
      end.

(** The entries after polling, and the number of those that are ready. *)
Fixpoint poll_loop (n : nat) (t : nat) (kfds : list Z) (x : kctx D E N) : list Z * Z :=
  match n with
  | O => ([], 0)
  | S n =>
      let e := take 8 kfds in
      let events := to_s16 (get_le e 4 2) in
      let revents := to_s16 (poll_fd_revents t (to_int (get_le e 0 4)) events x) in
      let ready := negb (Z.land revents (Z.lor (Z.lor (Z.lor events POLLERR) POLLHUP) POLLNVAL) =? 0) in
      let '(out, k) := poll_loop n t (drop 8 kfds) x in
      (take 6 e ++ le_bytes 2 revents ++ out, (if ready then 1 else 0) + k)
  end.

(** The caller sleeps for a tick and asks again. *)
Definition sleep_a_tick : M Z :=
  t ← now;
  upd_kernel (task_block_on_sleep (u64 (t + 1)));;
  mret (-2).

Definition sys_poll_impl (fds_ptr nfds timeout_ticks : Z) : M Z :=
  with_task (-1) (fun t =>
    if (to_s64 nfds <? 0) || (MAX_POLL_FDS <? nfds) then mret (-1)
    else if nfds =? 0 then if timeout_ticks =? 0 then mret 0 else sleep_a_tick
    else
      kfds ← ucopy_from fds_ptr (nfds * 8);
      match kfds with
      | None => mret (-1)
      | Some kfds =>
          on_machine (fun n => (tt, net_pump n));;
          '(out, ready) ← gets (poll_loop (Z.to_nat nfds) t kfds);
          ok ← ucopy_to fds_ptr out;
          if negb ok then mret (-1)
          else if 0 <? ready then mret ready
          else if timeout_ticks =? 0 then mret 0
          else sleep_a_tick
      end).

(** ** Sockets *)

Definition with_socket (i : Z) (k : nat -> fd -> Z -> M Z) : M Z :=
  with_task (-1) (fun t => with_fd t i (fun f =>
    match fd_kind f, fd_sock f with
    | FD_SOCKET, Some sock => k t f sock
    | _, _ => mret (-1)
    end)).

(** The address and the port, as they are in the structure. *)
Definition copy_sockaddr_in_from_user (user_sa sa_len : Z) : M (option (Z * Z)) :=
  if (user_sa =? 0) || (sa_len <? SOCKADDR_IN_LEN) then mret None
  else
    bs ← ucopy_from user_sa SOCKADDR_IN_LEN;
    match bs with
    | None => mret None
    | Some bs => if negb (get_le bs 0 2 =? AF_INET) then mret None else mret (Some (get_le bs 4 4, get_le bs 2 2))
    end.

(** The structure is stored if the caller has room for it, and its length. *)
Definition store_sockaddr (user_sa user_len_ptr addr_be port_be : Z) : M bool :=
  bs ← ucopy_from user_len_ptr 8;
  match bs with
  | None => mret false
  | Some bs =>
      if SOCKADDR_IN_LEN <=? get_le bs 0 8 then
        ok ← ucopy_to user_sa (sockaddr_bytes addr_be port_be);
        if negb ok then mret false else ucopy_to user_len_ptr (le_bytes 8 SOCKADDR_IN_LEN)
      else ucopy_to user_len_ptr (le_bytes 8 0)
  end.

Definition copy_sockaddr_in_to_user (user_sa user_len_ptr addr_be port_be : Z) : M Z :=
  if (user_sa =? 0) || (user_len_ptr =? 0) then mret 0
  else
    ok ← store_sockaddr user_sa user_len_ptr addr_be port_be;
    mret (if ok : bool then 0 else -1).

Definition sys_socket_impl (domain type protocol : Z) : M Z :=
  with_task (-1) (fun t =>
    '(rc, sock) ← on_machine (net_socket_create (to_int domain) (to_int type) (to_int protocol));
    match sock with
    | None => mret (-1)
    | Some h =>
        if negb (rc =? 0) then mret (-1)
        else
          i ← on_kernel (task_fd_alloc t);
          if i <? 0 then on_machine (fun n => (tt, net_socket_close h n));; mret (-1)
          else
            f ← cur_fd t i;
            let flags := if has_bits (to_int type) SOCK_NONBLOCK then Z.lor O_RDWR O_NONBLOCK else O_RDWR in
            put_fd t i (mk_fd FD_SOCKET None None (Some h) 0 flags (fd_used f));;
            mret i
    end).

Definition sys_bind_impl (i addr addrlen : Z) : M Z :=
  with_socket i (fun _ _ sock =>
    sa ← copy_sockaddr_in_from_user addr addrlen;
    match sa with
    | None => mret (-1)
    | Some (sin_addr, sin_port) => on_machine (net_socket_bind sock (swab32 sin_addr) sin_port)
    end).

Definition sys_sendto_impl (i buf len dest_addr addrlen : Z) : M Z :=
  if (buf =? 0) || (SYS_NET_UDP_PAYLOAD_MAX <? len) then mret (-1)
  else with_socket i (fun _ _ sock =>
    sa ← copy_sockaddr_in_from_user dest_addr addrlen;
    match sa with
    | None => mret (-1)
    | Some (sin_addr, sin_port) =>
        bytes ← (if 0 <? len then ucopy_from buf len else mret (Some []));
        match bytes with
        | None => mret (-1)
        | Some bytes => on_machine (net_socket_sendto sock bytes (swab32 sin_addr) sin_port)
        end
    end).

Definition sys_recvfrom_impl (i buf len flags src_addr addrlen_ptr : Z) : M Z :=
  if (buf =? 0) || (SYS_NET_UDP_PAYLOAD_MAX <? len) then mret (-1)
  else with_socket i (fun _ f sock =>
    let nonblock := has_bits (fd_flags f) O_NONBLOCK || has_bits flags MSG_DONTWAIT in
    '(n, bytes, ip, port) ← on_machine (net_socket_recvfrom sock len nonblock);
    if n =? -2 then sleep_a_tick
    else if n <? 0 then mret n
    else
      ok ← (if 0 <? n then ucopy_to buf (take (Z.to_nat n) (in_buf (Z.to_nat SYS_NET_UDP_PAYLOAD_MAX) bytes)) else mret true);
      if negb ok then mret (-1)
      else if (src_addr =? 0) || (addrlen_ptr =? 0) then mret n
      else
        ok ← store_sockaddr src_addr addrlen_ptr ip port;
        mret (if ok : bool then n else -1)).

Definition sys_setsockopt_impl (i level optname optval optlen : Z) : M Z :=
  if (optval =? 0) || (64 <? optlen) then mret (-1)
  else with_socket i (fun _ _ sock =>
    bytes ← ucopy_from optval optlen;
    match bytes with
    | None => mret (-1)
    | Some bytes => on_machine (net_socket_setsockopt sock (to_int level) (to_int optname) bytes)
    end).

Definition sys_getsockopt_impl (i level optname optval optlen_ptr : Z) : M Z :=
  if (optval =? 0) || (optlen_ptr =? 0) then mret (-1)
  else with_socket i (fun _ _ sock =>
    bs ← ucopy_from optlen_ptr 8;
    match bs with
    | None => mret (-1)
    | Some bs =>
        let user_optlen := get_le bs 0 8 in
        if 64 <? user_optlen then mret (-1)
        else
          '(rc, value) ← on_machine (net_socket_getsockopt sock (to_int level) (to_int optname) user_optlen);
          if negb (rc =? 0) then mret rc
          else
            let value := in_buf 64 value in
            ok ← ucopy_to optval value;
            if negb ok then mret (-1)
            else
              ok ← ucopy_to optlen_ptr (le_bytes 8 (Z.of_nat (length value)));
              mret (if ok : bool then 0 else -1)
    end).

Definition sys_connect_impl (i addr addrlen : Z) : M Z :=
  with_socket i (fun _ f sock =>
    sa ← copy_sockaddr_in_from_user addr addrlen;
    match sa with
    | None => mret (-1)
    | Some (sin_addr, sin_port) =>
        rc ← on_machine (net_socket_connect sock (swab32 sin_addr) sin_port (has_bits (fd_flags f) O_NONBLOCK));
        if rc =? -2 then sleep_a_tick else mret rc
    end).

Definition sys_listen_impl (i backlog : Z) : M Z :=
  with_socket i (fun _ _ sock => on_machine (net_socket_listen sock (to_int backlog))).

Definition sys_accept_impl (i addr addrlen_ptr : Z) : M Z :=
  with_socket i (fun t f sock =>
    '(rc, accepted, ip, port) ← on_machine (net_socket_accept sock (has_bits (fd_flags f) O_NONBLOCK));
    if rc =? -2 then sleep_a_tick
    else
      match accepted with
      | None => mret rc
      | Some h =>
          if negb (rc =? 0) then mret rc
          else
            newfd ← on_kernel (task_fd_alloc t);
            if newfd <? 0 then on_machine (fun n => (tt, net_socket_close h n));; mret (-1)
            else
              g ← cur_fd t newfd;
              put_fd t newfd (mk_fd FD_SOCKET None None (Some h) 0 O_RDWR (fd_used g));;
              rc ← copy_sockaddr_in_to_user addr addrlen_ptr ip port;
              if negb (rc =? 0) then on_kernel (task_fd_close t newfd);; mret (-1) else mret newfd
      end).

Definition sys_getsockname_impl (i addr addrlen_ptr : Z) : M Z :=
  with_socket i (fun _ _ sock =>
    '(rc, ip, port) ← on_machine (net_socket_getsockname sock);
    if negb (rc =? 0) then mret rc else copy_sockaddr_in_to_user addr addrlen_ptr ip port).

Definition sys_getpeername_impl (i addr addrlen_ptr : Z) : M Z :=
  with_socket i (fun _ _ sock =>
    '(rc, ip, port) ← on_machine (net_socket_getpeername sock);
    if negb (rc =? 0) then mret rc else copy_sockaddr_in_to_user addr addrlen_ptr ip port).

Definition sys_shutdown_impl (i how : Z) : M Z :=
  with_socket i (fun _ _ sock => on_machine (net_socket_shutdown sock (to_int how))).

(** ** Processes, memory and signals *)

Definition sys_sleep_impl (ticks : Z) : M Z :=
  if ticks =? 0 then mret 0
  else
    t ← now;
    let wake := u64 (t + ticks) in
    let wake := if wake <? t then 2 ^ 64 - 1 else wake in
    upd_kernel (task_block_on_sleep wake);;
    mret (-2).

Definition sys_brk_impl (addr : Z) : M Z := on_kernel (task_brk addr).

Definition sys_exit_impl (code : Z) : M Z :=
  upd_kernel (task_mark_exit (to_int code));;
  mret 0.

Definition sys_yield_impl : M Z :=
  upd_kernel task_yield;;
  mret 0.

Definition sys_fork_impl : M Z :=
  tf ← gets kx_tf;
  on_kernel (task_fork (Some tf)).

Definition sys_wait_impl (p status_ptr options : Z) : M Z :=
  '(rc, status) ← on_kernel (task_wait (to_int p) (to_int options));
  if (0 <? rc) && negb (status_ptr =? 0) then
    ok ← ucopy_to status_ptr (le_bytes 4 (default 0 status));
    mret (if ok : bool then rc else -1)
  else mret rc.

Definition sys_getpid_impl : M Z :=
  with_task (-1) (fun t => gets (fun x => pid (task_at (kx_sys x) t))).

Definition sys_kill_impl (p sig : Z) : M Z := on_kernel (task_kill (to_int p) (to_int sig)).

Definition sys_setpgid_impl (p g : Z) : M Z := on_kernel (task_setpgid (to_int p) (to_int g)).

Definition sys_getpgid_impl (p : Z) : M Z := gets (fun x => task_getpgid (to_int p) (kx_sys x)).

Definition sys_mmap_impl (addr len prot flags i offset : Z) : M Z :=
  on_kernel (task_mmap addr len (to_int prot) (to_int flags) (to_int i) offset).

Definition sys_munmap_impl (addr len : Z) : M Z := on_kernel (task_munmap addr len).

Definition sys_mprotect_impl (addr len prot : Z) : M Z := on_kernel (task_mprotect addr len (to_int prot)).

Definition sys_msync_impl (addr len flags : Z) : M Z := on_kernel (task_msync addr len flags).

Definition sys_sigaction_impl (sig act_ptr old_ptr : Z) : M Z :=
  act ← (if act_ptr =? 0 then mret (Some None)
         else
           bs ← ucopy_from act_ptr 32;
           mret (match bs with None => None | Some bs => Some (Some (sigaction_of bs)) end));
  match act with
  | None => mret (-1)
  | Some act =>
      '(rc, old) ← on_kernel (task_sigaction (to_int sig) act);
      if rc <? 0 then mret rc
      else if old_ptr =? 0 then mret rc
      else
        ok ← ucopy_to old_ptr (sigaction_bytes (default (mk_sigaction 0 0 0 0) old));
        mret (if ok : bool then rc else -1)
  end.

Definition sys_sigprocmask_impl (how set old_ptr : Z) : M Z :=
  with_task (-22) (fun t =>
    '(rc, old) ← on_kernel (fun s =>
      let '(rc, old, g) := task_sigprocmask (t_sig (task_at s t)) (to_int how) set in
      ((rc, old), upd_task s t (fun u => set_t_sig u g)));
    if rc <? 0 then mret rc
    else if old_ptr =? 0 then mret 0
    else
      ok ← ucopy_to old_ptr (le_bytes 8 old);
      mret (if ok : bool then 0 else -1)).

(** The interrupted frame replaces the current one; the result is its [x0]. *)
Definition sys_sigreturn_impl : M Z :=
  with_task (-22) (fun t =>
    s ← gets kx_sys;
    match Signal.task_sigreturn (t_sig (task_at s t)) with
    | None => mret (-22)
    | Some (tf, g) =>
        upd_kernel (fun s => upd_task s t (fun u => set_t_sig u g));;
        set_frame tf;;
        mret (to_int (tf_x tf !!! 0%nat))
    end).

(** ** Files by path *)

Definition sys_chdir_impl (path : Z) : M Z :=
  with_task (-1) (fun t => with_path t path (fun kpath =>
    ino ← on_fs (fs_lookup kpath);
    match ino with
    | None => mret (-1)
    | Some p =>
        n ← ino_at p;
        if bool_decide (i_type n <> INODE_DIR) then mret (-1)
        else upd_kernel (fun s => upd_task s t (fun u => set_cwd u (strcpy_arr (cwd u) kpath)));; mret 0
    end)).

Definition sys_chmod_impl (path mode : Z) : M Z :=
  with_task (-1) (fun t => with_path t path (fun kpath => on_fs (fs_chmod kpath (u32 mode)))).

Definition sys_mkdir_impl (path : Z) : M Z :=
  with_task (-1) (fun t => with_path t path (fun kpath =>
    p ← on_fs (fs_create_dir kpath);
    mret (match p with Some _ => 0 | None => -1 end))).

Definition sys_rmdir_impl (path : Z) : M Z :=
  with_task (-1) (fun t => with_path t path (fun kpath => on_fs (fs_rmdir kpath))).

Definition sys_unlink_impl (path : Z) : M Z :=
  with_task (-1) (fun t => with_path t path (fun kpath => on_fs (fs_unlink kpath))).

Definition sys_getcwd_impl (buf len : Z) : M Z :=
  with_task (-1) (fun t =>
    if (buf =? 0) || (len =? 0) then mret (-1)
    else
      s ← gets kx_sys;
      let c := before_nul (cwd (task_at s t)) in
      if len <? Z.of_nat (length c) + 1 then mret (-1)
      else
        ok ← ucopy_to buf (c ++ [0]);
        mret (if ok : bool then 0 else -1)).

Definition sys_rename_impl (old_path new_path : Z) : M Z :=
  with_task (-1) (fun t => with_paths t old_path new_path (fun kold knew => on_fs (fs_rename kold knew))).

Definition sys_link_impl (old_path new_path : Z) : M Z :=
  with_task (-1) (fun t =>
    if (old_path =? 0) || (new_path =? 0) then mret (-1)
    else with_paths t old_path new_path (fun kold knew => on_fs (fs_link kold knew))).

Definition sys_symlink_impl (target link_path : Z) : M Z :=
  with_task (-1) (fun t =>
    if (target =? 0) || (link_path =? 0) then mret (-1)
    else
      target_str ← ucopy_str target MAX_PATH;
      match target_str with
      | None => mret (-1)
      | Some target_str => with_path t link_path (fun klink => on_fs (fs_symlink target_str klink))
      end).

Definition sys_readlink_impl (path buf buflen : Z) : M Z :=
  with_task (-1) (fun t =>
    if (path =? 0) || (buf =? 0) then mret (-1)
    else with_path t path (fun kpath =>
      let cap := if Z.of_nat MAX_PATH <? buflen then Z.of_nat MAX_PATH else buflen in
      '(n, kbuf) ← on_fs (fs_readlink kpath cap);
      if n <? 0 then mret (-1)
      else
        ok ← (if 0 <? n then ucopy_to buf (take (Z.to_nat n) (in_buf MAX_PATH kbuf)) else mret true);
        mret (if ok : bool then n else -1))).

Definition put_stat (statbuf : Z) (rc : Z) (st : fu_stat) : M Z :=
  if negb (rc =? 0) then mret (-1)
  else
    ok ← ucopy_to statbuf (stat_bytes st);
    mret (if ok : bool then 0 else -1).

Definition sys_lstat_impl (path statbuf : Z) : M Z :=
  with_task (-1) (fun t =>
    if (path =? 0) || (statbuf =? 0) then mret (-1)
    else with_path t path (fun kpath => '(rc, st) ← on_fs (fs_lstat kpath); put_stat statbuf rc st)).

Definition sys_stat_impl (path statbuf : Z) : M Z :=
  with_task (-1) (fun t =>
    if (path =? 0) || (statbuf =? 0) then mret (-1)
    else with_path t path (fun kpath => '(rc, st) ← on_fs (fs_stat kpath); put_stat statbuf rc st)).

(** The modes are 0666 with the type of a pipe, a socket or a device. *)
Definition sys_fstat_impl (i statbuf : Z) : M Z :=
  with_task (-1) (fun t =>
    if statbuf =? 0 then mret (-1)
    else with_fd t i (fun f =>
      match fd_kind f with
      | FD_INODE =>
          match fd_inode f with
          | None => mret (-1)
          | Some p => '(rc, st) ← on_fs (fs_stat_inode p); put_stat statbuf rc st
          end
      | FD_PIPE_R | FD_PIPE_W => put_stat statbuf 0 (mk_stat 0 (Z.lor 0x1000 0x1B6) 0 1 0)
      | FD_SOCKET => put_stat statbuf 0 (mk_stat 0 (Z.lor 0xC000 0x1B6) 0 1 0)
      | FD_NONE => put_stat statbuf 0 (mk_stat (inode_type_num INODE_DEV) (Z.lor 0x2000 0x1B6) 0 1 0)
      end)).

Definition sys_mount_impl (source target fstype flags : Z) : M Z :=
  with_task (-1) (fun t =>
    if (source =? 0) || (target =? 0) || (fstype =? 0) then mret (-1)
    else
      in_src ← ucopy_str source MAX_PATH;
      match in_src with
      | None => mret (-1)
      | Some in_src =>
          in_tgt ← ucopy_str target MAX_PATH;
          match in_tgt with
          | None => mret (-1)
          | Some in_tgt =>
              kfstype ← ucopy_str fstype 16;
              ksrc ← resolve t in_src;
              ktgt ← resolve t in_tgt;
              match kfstype, ksrc, ktgt with
              | Some kfstype, Some ksrc, Some ktgt => on_fs (fs_mount ksrc ktgt kfstype flags)
              | _, _, _ => mret (-1)
              end
          end
      end).

Definition sys_umount_impl (target flags : Z) : M Z :=
  with_task (-1) (fun t => if target =? 0 then mret (-1) else with_path t target (fun ktgt => on_fs (fs_umount ktgt flags))).

(** The options, filled up with zeros, with the size the caller gave. *)
Definition mkfs_opts (opts_ptr : Z) : M (option (option (list Z))) :=
  if opts_ptr =? 0 then mret (Some None)
  else
    bs ← ucopy_from opts_ptr 4;
    match bs with
    | None => mret None
    | Some bs =>
        let user_size := get_le bs 0 4 in
        if (user_size <? 48) || (MKFS_OPTS_SIZE <? user_size) then mret None
        else
          opts ← ucopy_from opts_ptr user_size;
          match opts with
          | None => mret None
          | Some opts =>
              mret (Some (Some (le_bytes 4 user_size ++ drop 4 opts ++ replicate (Z.to_nat (MKFS_OPTS_SIZE - user_size)) 0)))
          end
    end.

Definition sys_mkfsext4_impl (target flags opts_ptr : Z) : M Z :=
  with_task (-1) (fun t =>
    if target =? 0 then mret (-1)
    else with_path t target (fun ktgt =>
      opts ← mkfs_opts opts_ptr;
      match opts with
      | None => mret (-1)
      | Some opts => on_fs (fs_mkfs_ext4 ktgt flags opts)
      end)).

Definition sys_fsckext4_impl (target flags : Z) : M Z :=
  with_task (-1) (fun t => if target =? 0 then mret (-1) else with_path t target (fun ktgt => on_fs (fs_fsck_ext4 ktgt flags))).

(** ** Exec *)

Definition free_exec_image_pages (buf alloc_size : Z) : M unit :=
  if (buf =? 0) || (alloc_size =? 0) then mret tt else upd_kernel (free_range buf (buf + alloc_size)).

(** The file is read into [buf]; every round reads at least a byte. *)
Fixpoint image_loop (fuel : nat) (p buf src_off dst_off : Z) : M bool :=
  n ← ino_at p;
  if dst_off <? i_size n then
    match fuel with
    | O => mret false
    | S fuel =>
        '(rc, bytes, off) ← on_fs (fs_read p src_off (i_size n - dst_off));
        if rc <=? 0 then mret false
        else
          upd_kernel (fun s => sys_set_ram s (store_bytes (s_ram s) (buf + dst_off) (take (Z.to_nat rc) bytes)));;
          image_loop fuel p buf off (dst_off + rc)
    end
  else mret true.

(** Address and size of the image, and of the buffer that was made for it. *)
Definition load_exec_image (p : Z) : M (option (Z * Z * Z * Z)) :=
  n ← ino_at p;
  if bool_decide (i_type n <> INODE_FILE) || (i_size n =? 0) then mret None
  else if negb (i_data n =? 0) then mret (Some (i_data n, i_size n, 0, 0))
  else if EXEC_IMAGE_MAX <? i_size n then mret None
  else
    let alloc_size := align_up_u64 (i_size n) PAGE_SIZE in
    if alloc_size =? 0 then mret None
    else
      buf ← on_kernel (fun s => let '(a, m) := pmm_alloc (s_pmm s) alloc_size PAGE_SIZE in (a, sys_set_pmm s m));
      if buf =? 0 then mret None
      else
        ok ← image_loop (Z.to_nat (i_size n)) p buf 0 0;
        if negb ok then free_exec_image_pages buf alloc_size;; mret None
        else
          n ← ino_at p;
          mret (Some (buf, i_size n, buf, alloc_size)).

Definition image_bytes (a size : Z) : M (list Z) := gets (fun x => mem_bytes (s_ram (kx_sys x)) a (Z.to_nat size)).

(** The arguments: [None] if one cannot be read. *)
Fixpoint exec_args (n : nat) (argv_ptr : Z) : M (option (list (list Z))) :=
  match n with
  | O => mret (Some [])
  | S n =>
      bs ← ucopy_from (u64 argv_ptr) 8;
      match bs with
      | None => mret None
      | Some bs =>
          let uptr := get_le bs 0 8 in
          if uptr =? 0 then mret (Some [])
          else
            a ← ucopy_str uptr MAX_ARG_LEN;
            match a with
            | None => mret None
            | Some a =>
                rest ← exec_args n (argv_ptr + 8);
                mret (cons a <$> rest)
            end
      end
  end.

(** The file exists and may be executed. *)
Definition exec_file (path : list Z) : M (option Z) :=
  ino ← on_fs (fs_lookup path);
  match ino with
  | None => mret None
  | Some p =>
      n ← ino_at p;
      if bool_decide (i_type n <> INODE_FILE) then mret None
      else
        '(rc, st) ← on_fs (fs_stat_inode p);
        mret (if negb (rc =? 0) || (Z.land (stat_mode st) 0x49 =? 0) then None else Some p)
  end.

Definition run_exec (t : nat) (a size : Z) (argv : list (list Z)) : M Z :=
  img ← image_bytes a size;
  ticks ← now;
  on_kernel (task_exec t img size (Some argv) ticks (task_addr t)).

(** The program is loaded by its interpreter, which gets the path and the arguments. *)
Definition exec_interp (t : nat) (a size : Z) (kpath interp_path : list Z) (args : list (list Z)) : M Z :=
  p ← exec_file interp_path;
  img ← (match p with Some p => load_exec_image p | None => mret None end);
  match img with
  | None => mret (-1)
  | Some (ia, isize, owned, owned_size) =>
      let argv := take MAX_ARGV ([interp_path; kpath] ++ match args with [] => [kpath] | _ => args end) in
      rc ← run_exec t ia isize argv;
      (if rc =? 0 then
         program ← image_bytes a size;
         upd_kernel (fun s => upd_task s t (fun u => task_load_debug_symbols u program size))
       else mret tt);;
      free_exec_image_pages owned owned_size;;
      mret rc
  end.

Definition sys_exec_impl (path argv_ptr : Z) : M Z :=
  with_task (-1) (fun t => with_path t path (fun kpath =>
    p ← exec_file kpath;
    match p with
    | None => mret (-1)
    | Some p =>
        args ← (if argv_ptr =? 0 then mret (Some []) else exec_args MAX_ARGV argv_ptr);
        match args with
        | None => mret (-1)
        | Some args =>
            img ← load_exec_image p;
            match img with
            | None => mret (-1)
            | Some (a, size, owned, owned_size) =>
                bytes ← image_bytes a size;
                rc ← (match elf_interp_path bytes size (Z.of_nat MAX_PATH) with
                      | Some (Some interp) =>
                          if decide (kpath = interp) then run_exec t a size args else exec_interp t a size kpath interp args
                      | _ => run_exec t a size args
                      end);
                free_exec_image_pages owned owned_size;;
                if negb (rc =? 0) then mret (-1)
                else
                  upd_kernel (fun s => upd_task s t (fun u => task_set_comm_internal u (Some kpath)));;
                  s ← gets kx_sys;
                  match t_tf (task_at s t) with
                  | None => mret (-1)
                  | Some tf => set_frame tf;; mret 0
                  end
            end
        end
    end)).

(** ** The dispatcher *)

(** [syscall_handler_table], with [sys_unknown_impl] for every other number. *)
Definition syscall_handler (nr a0 a1 a2 a3 a4 a5 : Z) : M Z :=
  match nr with
  | 0 => sys_write_impl a0 a1 a2
  | 1 => sys_read_impl a0 a1 a2
  | 2 => sys_open_impl a0 a1
  | 3 => sys_close_impl a0
  | 4 => sys_exit_impl a0
  | 5 => sys_yield_impl
  | 6 => sys_fork_impl
  | 7 => sys_exec_impl a0 a1
  | 8 => sys_wait_impl a0 a1 a2
  | 9 => sys_getpid_impl
  | 10 => sys_chdir_impl a0
  | 11 => sys_mkdir_impl a0
  | 12 => sys_rmdir_impl a0
  | 13 => sys_unlink_impl a0
  | 14 => sys_getcwd_impl a0 a1
  | 15 => sys_rename_impl a0 a1
  | 16 => sys_dup2_impl a0 a1
  | 17 => sys_pipe_impl a0
  | 18 => sys_sleep_impl a0
  | 19 => sys_brk_impl a0
  | 20 => sys_kill_impl a0 a1
  | 21 => sys_fcntl_impl a0 a1 a2
  | 22 => sys_poll_impl a0 a1 a2
  | 23 => sys_setpgid_impl a0 a1
  | 24 => sys_getpgid_impl a0
  | 25 => sys_mmap_impl a0 a1 a2 a3 a4 a5
  | 26 => sys_munmap_impl a0 a1
  | 27 => sys_mprotect_impl a0 a1 a2
  | 28 => sys_mount_impl a0 a1 a2 a3
  | 29 => sys_umount_impl a0 a1
  | 30 => sys_link_impl a0 a1
  | 31 => sys_symlink_impl a0 a1
  | 32 => sys_readlink_impl a0 a1 a2
  | 33 => sys_lstat_impl a0 a1
  | 34 => sys_mkfsext4_impl a0 a1 a2
  | 35 => sys_fsckext4_impl a0 a1
  | 36 => sys_lseek_impl a0 a1 a2
  | 37 => sys_fstat_impl a0 a1
  | 38 => sys_stat_impl a0 a1
  | 39 => sys_chmod_impl a0 a1
  | 40 => sys_fsync_impl a0
  | 41 => sys_msync_impl a0 a1 a2
  | 42 => sys_sigaction_impl a0 a1 a2
  | 43 => sys_sigprocmask_impl a0 a1 a2
  | 44 => sys_sigreturn_impl
  | 45 => sys_socket_impl a0 a1 a2
  | 46 => sys_bind_impl a0 a1 a2
  | 47 => sys_sendto_impl a0 a1 a2 a4 a5
  | 48 => sys_recvfrom_impl a0 a1 a2 a3 a4 a5
  | 49 => sys_setsockopt_impl a0 a1 a2 a3 a4
  | 50 => sys_connect_impl a0 a1 a2
  | 51 => sys_listen_impl a0 a1
  | 52 => sys_accept_impl a0 a1 a2
  | 53 => sys_getsockname_impl a0 a1 a2
  | 54 => sys_getpeername_impl a0 a1 a2
  | 55 => sys_shutdown_impl a0 a1
  | 56 => sys_getsockopt_impl a0 a1 a2 a3 a4
  | _ => mret (-1)
  end.

(** Whether the scheduler has to choose again after the call. *)
Definition resched_after (nr ret : Z) : bool :=
  if nr =? SYS_EXIT then true
  else if (nr =? SYS_WAIT) && (ret =? -2) then true
  else if ((nr =? SYS_READ) || (nr =? SYS_WRITE)) && (ret =? -2) then true
  else if (nr =? SYS_SLEEP) && (ret =? -2) then true
  else if (nr =? SYS_POLL) && (ret =? -2) then true
  else if (nr =? SYS_RECVFROM) && (ret =? -2) then true
  else if (nr =? SYS_CONNECT) && (ret =? -2) then true
  else if (nr =? SYS_ACCEPT) && (ret =? -2) then true
  else if nr =? SYS_KILL then true
  else nr =? SYS_YIELD.

(** The result goes to [x0], but for a successful exec; the value is [force_resched]. *)
Definition syscall_dispatch : M bool :=
  tf ← gets kx_tf;
  let x i := tf_x tf !!! i in
  let nr := x 8%nat in
  ret ← syscall_handler nr (x 0%nat) (x 1%nat) (x 2%nat) (x 3%nat) (x 4%nat) (x 5%nat);
  s ← gets kx_sys;
  let zombie := match current s with Some c => is_state (task_at s c) TASK_ZOMBIE | None => false end in
  (if (nr =? SYS_EXEC) && (ret =? 0) then mret tt
   else
     tf ← gets kx_tf;
     set_frame (set_tf_x tf (<[0%nat := u64 ret]> (tf_x tf))));;
  mret (resched_after nr ret || zombie).

End Handlers.
