(* ===== verification/Trap.v ===== *)
(** * Console output, traps and start-up (kernel/print.c, kernel/trap.c, kernel/kernel.c)

    The entry points of the kernel: the handlers of synchronous exceptions,
    interrupts, fast interrupts and system errors, which the assembly of vectors.S
    calls with the saved registers, and [kernel_main]. The exception syndrome, the
    fault address and the acknowledged interrupt are arguments. A trap ends with the
    frame that is restored, in a panic, or in the idle loop, when the timer ticks
    [ticks] it is given wake no task. *)

From Stdlib Require Import String.
From S2P Require Import Prelude KString Path Pmm Pipe UserCopy Inode BlockCache PageCache FsIo TaskDefs Signal Mmu Vma Vm Fs FsInit FsData Proc Elf Kern Syscall.

Abbreviation ESR_EC_SVC64 := 0x15 (only parsing).
Abbreviation ESR_EC_IABT_LOW := 0x20 (only parsing).
Abbreviation ESR_EC_IABT_CUR := 0x21 (only parsing).
Abbreviation ESR_EC_DABT_LOW := 0x24 (only parsing).
Abbreviation ESR_EC_DABT_CUR := 0x25 (only parsing).
Abbreviation ESR_ISS_WNR := 64 (only parsing).
Abbreviation ESR_ISS_FSC_MASK := 0x3F (only parsing).
Abbreviation ESR_FSC_TYPE_MASK := 0x3C (only parsing).
Abbreviation ESR_FSC_FAULT := 4 (only parsing).
Abbreviation TIMER_IRQ := 30 (only parsing).

(** ** Numbers on the console *)

Definition print_hex_nibble (v : Z) : Z := let v := Z.land v 0xF in if v <? 10 then 48 + v else 65 + v - 10.

Definition print_hex64 (v : Z) : list Z :=
  str "0x" ++ map (fun i => print_hex_nibble (u8 (Z.shiftr v (i * 4)))) (rev (seqZ 0 16)).

(** At most [n] digits, the last one first. *)
Fixpoint dec_digits (n : nat) (v : Z) : list Z :=
  match n with
  | O => []
  | S n => if 0 <? v then (48 + v mod 10) :: dec_digits n (v / 10) else []
  end.

Definition print_dec (v : Z) : list Z :=
  if v =? 0 then [48]
  else if v <? 0 then 45 :: rev (dec_digits 16 (to_int (- v)))
  else rev (dec_digits 16 v).

(** [uart_puts]: a newline is preceded by a carriage return. *)
Definition uart_text (s : list Z) : list Z := c ← s; if c =? 10 then [13; 10] else [c].

(** ** Interfaces *)

(** Interrupts of the devices and of the timer. *)
Class Interrupts (D N : Type) := {
  virtio_blk_handle_irq : Z -> D -> bool * D;
  ahci_handle_irq : Z -> D -> bool * D;
  nvme_handle_irq : Z -> D -> bool * D;
  rtl8139_handle_irq : Z -> N -> bool * N;
  rtl8125_handle_irq : Z -> N -> bool * N;
  uart_handle_irq : Z -> N -> bool * N;
  timer_handle_irq : N -> N;
  net_tick : Z -> N -> N;
}.

Class Ext4Timer (D E T : Type) := ext4_periodic_maintenance : Z -> fsys D E T -> fsys D E T.

(** How a trap ends. *)
Inductive trap_out (F : Type) :=
  | Resume (tf : option trapframe) (f : F)
  | Panic (f : F)
  | Idle (f : F).
#[global] Arguments Resume {F}.
#[global] Arguments Panic {F}.
#[global] Arguments Idle {F}.

Section Traps.
Context {D E N : Type} `{!BlockDrivers D, !DiskInventory D, !Ext4Ops D E, !SocketOps N, !Machine N, !Interrupts D N}.
Context `{!Ext4Names D E (ktasks (kio N)), !Ext4Tools D E (ktasks (kio N)), !Ext4Timer D E (ktasks (kio N))}.
Context (task_addr : nat -> Z).
Abbreviation st := (fsys D E (ktasks (kio N))).
Implicit Types f : st.

Definition put_console (cs : list Z) f : st := on_sys f (fun s => on_net s (fun n => foldl (fun n c => con_putc c n) n cs)).

Definition fcur f : option nat := current (f_sys f).
Definition f_ticks f : Z := timer_ticks (io_net (kt_io (s_top (f_sys f)))).

Definition panic (msg : list Z) f : trap_out st :=
  Panic (put_console (uart_text (str "[panic] " ++ msg ++ [10])) f).

Definition print_trap (name : list Z) (tf : trapframe) (esr far : Z) f : st :=
  let symbol (t : task) :=
    match task_symbolize_pc t (elr_el1 tf) with
    | Some d =>
        if decide (ds_name d = []) then []
        else str " sym=" ++ uart_text (ds_name d) ++ str "+" ++ print_hex64 (u64 (elr_el1 tf - ds_start d)) ++ str "/" ++
             print_hex64 (u64 (ds_end d - ds_start d))
    | None => []
    end in
  let who :=
    match fcur f with
    | Some c =>
        let t := task_at (f_sys f) c in
        let name := before_nul (comm t) in
        (str " pid=" ++ print_dec (pid t) ++ str " comm=" ++ uart_text (if decide (name = []) then str "?" else name), symbol t)
    | None => ([], [])
    end in
  put_console
    (str "[trap] " ++ name ++ who.1 ++ str " esr=" ++ print_hex64 esr ++ str " far=" ++ print_hex64 far ++ str " elr=" ++
     print_hex64 (elr_el1 tf) ++ who.2 ++ [13; 10]) f.

Definition reschedule (tf : trapframe) (force : bool) (ticks : list Z) f : trap_out st :=
  match task_schedule_from_trap (Some tf) force ticks (f_sys f) with
  | Some (r, s) => Resume r (set_sys f s)
  | None => Idle f
  end.

Definition mark_exit (code : Z) f : st := on_sys f (task_mark_exit code).

(** The end of [trap_handle_sync] for an exception that could not be resolved. *)
Definition trap_fatal (tf : trapframe) (esr far : Z) (current_abort : bool) (ticks : list Z) f : trap_out st :=
  let f := print_trap (str "sync") tf esr far f in
  match fcur f with
  | Some _ =>
      if current_abort && ((far <? USER_VA_BASE) || (USER_VA_LIMIT <=? far)) then panic (str "kernel page fault") f
      else reschedule tf true ticks (mark_exit (-1) f)
  | None => panic (str "sync exception in kernel") f
  end.

(** A system call that faults in the kernel ends in the handler of that fault, with
    the syndrome [nested_esr]. *)
Definition trap_svc (tf : trapframe) (nested_esr : Z) (ticks : list Z) f : trap_out st :=
  match syscall_dispatch task_addr (mk_kctx tf f) with
  | Done force x => reschedule (kx_tf x) force ticks (kx_fs x)
  | Fault far x => trap_fatal (kx_tf x) nested_esr far true ticks (kx_fs x)
  end.

Definition trap_abort (tf : trapframe) (esr far ec : Z) (ticks : list Z) f : trap_out st :=
  let is_instr_abort := (ec =? ESR_EC_IABT_LOW) || (ec =? ESR_EC_IABT_CUR) in
  let is_data_abort := (ec =? ESR_EC_DABT_LOW) || (ec =? ESR_EC_DABT_CUR) in
  let is_current_abort := (ec =? ESR_EC_IABT_CUR) || (ec =? ESR_EC_DABT_CUR) in
  let '(ok, f) :=
    if (is_instr_abort || is_data_abort) && bool_decide (fcur f <> None) then
      let is_write := is_data_abort && has_bits esr ESR_ISS_WNR in
      let fsc := Z.land esr ESR_ISS_FSC_MASK in
      let is_translation := Z.land fsc ESR_FSC_TYPE_MASK =? ESR_FSC_FAULT in
      let '(ok, s) := task_handle_page_fault far is_write is_translation is_instr_abort (sp_el0 tf) (f_sys f) in (ok, set_sys f s)
    else (false, f) in
  if (ok : bool) then reschedule tf false ticks f else trap_fatal tf esr far is_current_abort ticks f.

Definition trap_handle_sync (tf : trapframe) (esr far nested_esr : Z) (ticks : list Z) f : trap_out st :=
  let ec := Z.land (Z.shiftr esr 26) 0x3F in
  if ec =? ESR_EC_SVC64 then trap_svc tf nested_esr ticks f else trap_abort tf esr far ec ticks f.

(** The timer: the caches and the network do their periodic work, sleepers wake. *)
Definition timer_interrupt f : st :=
  let f := on_sys f (fun s => on_net s timer_handle_irq) in
  let now_ticks := f_ticks f in
  let f := on_sys f (pagecache_tick now_ticks) in
  let f := ext4_periodic_maintenance now_ticks f in
  let f := on_sys f (fun s => on_net s (net_tick now_ticks)) in
  on_sys f (fun s => (task_wake_sleepers now_ticks s).2).

Definition irq_dev (g : D -> bool * D) (handled : bool) f : bool * st :=
  let '(b, d) := g (f_dev f) in (handled || b, Fs.set_dev f d).
Definition irq_net (g : N -> bool * N) (handled : bool) f : bool * st :=
  let '(b, n) := g (io_net (kt_io (s_top (f_sys f)))) in (handled || b, on_sys f (fun s => on_net s (fun _ => n))).

Definition device_interrupt (intid : Z) f : st :=
  let '(h, f) := irq_dev (virtio_blk_handle_irq intid) false f in
  let '(h, f) := irq_dev (ahci_handle_irq intid) h f in
  let '(h, f) := irq_dev (nvme_handle_irq intid) h f in
  let '(h, f) := irq_net (rtl8139_handle_irq intid) h f in
  let '(h, f) := irq_net (rtl8125_handle_irq intid) h f in
  let '(h, f) := irq_net (uart_handle_irq intid) h f in
  if negb h && negb (intid =? 1023)
  then put_console (str "[trap] unexpected irq=" ++ print_dec (to_int intid) ++ [13; 10]) f else f.

Definition trap_handle_irq (tf : trapframe) (iar : Z) (ticks : list Z) f : trap_out st :=
  let intid := Z.land iar 0x3FF in
  let from_el0 := Z.land (spsr_el1 tf) 0xF =? 0 in
  if intid =? TIMER_IRQ then
    let f := timer_interrupt f in
    if from_el0 then reschedule tf true ticks f else Resume (Some tf) f
  else Resume (Some tf) (device_interrupt intid f).

Definition trap_handle_fiq (tf : trapframe) (ticks : list Z) f : trap_out st :=
  reschedule tf true ticks (put_console (uart_text (str "[trap] fiq" ++ [10])) f).

Definition trap_handle_serror (tf : trapframe) (ticks : list Z) f : trap_out st :=
  let f := put_console (uart_text (str "[trap] serror" ++ [10])) f in
  match fcur f with
  | Some _ => reschedule tf true ticks (mark_exit (-1) f)
  | None => panic (str "SError in kernel") f
  end.

End Traps.

(** ** Start-up *)

Abbreviation TIMER_HZ := 100 (only parsing).

(** The devices are started; some of them take memory for their rings. *)
Class Startup (D N : Type) := {
  uart_init : N -> N;
  gic_init : N -> N;
  uart_enable_irq : N -> N;
  timer_init : Z -> N -> N;
  virtio_blk_init : D -> D;
  ahci_init : D * pmm -> D * pmm;
  nvme_init : D * pmm -> D * pmm;
  rtl8139_init : N * pmm -> N * pmm;
  rtl8125_init : N * pmm -> N * pmm;
  net_init : N -> N;
  net_ready : N -> bool;
}.

Section Boot.
Context {D E N : Type} `{!BlockDrivers D, !DiskInventory D, !Ext4Ops D E, !SocketOps N, !Machine N, !Startup D N}.
Context `{!Ext4Names D E (ktasks (kio N))}.
Context (task_addr : nat -> Z) (blob : string -> Z * Z) (sdk : string -> Z * list Z).
(** What the linker and boot.S have set: the heap, the boot tables and the exception
    level. *)
Context (heap_start heap_end l1_addr ttbr1_addr boot_current_el : Z).
Abbreviation st := (fsys D E (ktasks (kio N))).
Implicit Types (f : st) (s : sys D E (ktasks (kio N))).

Definition boot_net (g : N -> N) f : st := on_sys f (fun s => on_net s g).

Definition print_boot_info f : st :=
  put_console (uart_text (str "FuriOS aarch64 boot" ++ [10] ++ str "CurrentEL at entry: EL" ++ print_dec (to_int boot_current_el) ++ [10])) f.

Definition start_disk (g : D * pmm -> D * pmm) f : st :=
  let '(d, m) := g (f_dev f, s_pmm (f_sys f)) in on_sys (Fs.set_dev f d) (fun s => sys_set_pmm s m).
Definition start_nic (g : N * pmm -> N * pmm) f : st :=
  let '(n, m) := g (io_net (kt_io (s_top (f_sys f))), s_pmm (f_sys f)) in
  on_sys f (fun s => sys_set_pmm (on_net s (fun _ => n)) m).

(** Up to [timer_init]. *)
Definition start_machine f : st :=
  let f := print_boot_info (boot_net uart_init f) in
  let f := on_sys f (fun s => sys_set_pmm s (pmm_init heap_start heap_end (s_pmm s))) in
  let f := on_sys f (fun s => on_mmu s (mmu_init l1_addr ttbr1_addr)) in
  boot_net (timer_init TIMER_HZ) (boot_net uart_enable_irq (boot_net gic_init f)).

(** From [task_init] to [fs_init]. *)
Definition start_kernel f : st :=
  let f := on_sys f task_init in
  let f := on_sys f pagecache_init in
  let f := on_sys f (fun s => set_pipes s pipe_init) in
  let f := Fs.set_dev f (virtio_blk_init (f_dev f)) in
  let f := start_disk nvme_init (start_disk ahci_init f) in
  let f := start_nic rtl8125_init (start_nic rtl8139_init f) in
  let f := on_sys f (fun s => sys_set_bc s (block_cache_init (f_dev f))) in
  let f := boot_net net_init f in
  fs_init blob sdk (net_ready (io_net (kt_io (s_top (f_sys f))))) f.

Definition f_image (p : Z) f : list Z := mem_bytes (s_ram (f_sys f)) (i_data (node f p)) (Z.to_nat (i_size (node f p))).

Definition kernel_main f : trap_out st :=
  let f := start_kernel (start_machine f) in
  match fs_lookup (str "/bin/init") f with
  | (None, f) => panic (str "/bin/init missing") f
  | (Some p, f) =>
      match task_create_user (f_image p f) (i_size (node f p)) 0 (f_ticks f) task_addr (f_sys f) with
      | (None, s) => panic (str "failed to create init task") (set_sys f s)
      | (Some init, s) =>
          let f := set_sys f s in
          let '(rc, s) :=
            task_exec init (f_image p f) (i_size (node f p)) (Some [str "/bin/init"]) (f_ticks f) (task_addr init) (f_sys f) in
          let f := set_sys f s in
          if negb (rc =? 0) then panic (str "failed to exec init") f
          else
            let f := put_console (uart_text (str "[kernel] entering EL0 init" ++ [10])) f in
            let f := on_sys f (task_enter_first init) in
            Resume (t_tf (task_at (f_sys f) init)) f
      end
  end.

End Boot.
