(* ===== verification/KernFs.v ===== *)
(** * File operations and the task table

    Nothing the filesystem does concerns the task table, but for the write-protection
    of shared mappings and the console and network devices: every operation of
    Fs.v, FsInit.v and FsData.v keeps what the invariants of ProcInv.v read. Of ext4
    the same is assumed ([Ext4Quiet]). *)

From Stdlib Require Import String.
From S2P Require Import Prelude KString Path Pmm Pipe UserCopy Inode BlockCache PageCache FsIo TaskDefs Signal Mmu Vma Vm VmInv Fs FsInit FsData Proc Elf ProcInv ProcVm ProcOps Kern.

Create HintDb fsame discriminated.
#[export] Hint Constants Opaque : fsame.

Section Same.
Context {D E N : Type} `{!BlockDrivers D, !Ext4Ops D E}.
Abbreviation st := (fsys D E (ktasks (kio N))).
Implicit Types (f : st) (s : sys D E (ktasks (kio N))).

Definition fsame f f' : Prop := ssame (f_sys f) (f_sys f').

#[global] Instance fsame_preorder : PreOrder fsame.
Proof. split; [intros f; unfold fsame; reflexivity|]. intros a b c. unfold fsame. apply transitivity. Qed.

Lemma fsame_top f f' : s_top (f_sys f') = s_top (f_sys f) -> fsame f f'.
Proof. apply ssame_top. Qed.

Lemma fsame_on_sys f (g : sys D E (ktasks (kio N)) -> sys D E (ktasks (kio N))) : ssame (f_sys f) (g (f_sys f)) -> fsame f (on_sys f g).
Proof. done. Qed.

(** ** The page cache *)

Lemma ssame_read_loop fuel ino off n d acc s : ssame s (pc_read_loop fuel ino off n d acc s).2.
Proof.
  revert d acc s. induction fuel as [|fuel IH]; intros d acc s; cbn [pc_read_loop]; [done|]. destruct (_ <? _); [|done]. cbv zeta.
  pose proof (ssame_get_or_create ino (page_base (u64 (off + d))) s) as W.
  destruct (pagecache_get_or_create _ _ s) as [[pa|] s1]; [|exact W].
  etransitivity; [exact W|]. etransitivity; [|apply IH]. apply ssame_set_pmm.
Qed.

Lemma ssame_read ino off len s : ssame s (pagecache_read ino off len s).2.
Proof.
  unfold pagecache_read. destruct ino as [p|]; [|done]. do 3 (destruct (_ : bool); [done|]). cbv zeta.
  match goal with |- context [pc_read_loop ?fuel ?i ?o ?n ?d ?a s] =>
    pose proof (ssame_read_loop fuel i o n d a s) as L; destruct (pc_read_loop fuel i o n d a s) as [[dn bs] s1] end.
  by destruct (_ =? 0).
Qed.

Lemma ssame_pressure s : ssame s (pagecache_maybe_writeback_pressure s).
Proof.
  unfold pagecache_maybe_writeback_pressure. destruct (pagecache_writeback_blocked _); [done|]. cbv zeta. destruct (_ <? _); [done|].
  match goal with |- context [pagecache_flush_match ?a ?b ?c ?d ?e ?f] => destruct (pagecache_flush_match a b c d e f) as [rc s'] eqn:Ef end.
  exact (topr_flush_match same same_wp _ _ _ _ _ _ _ _ Ef).
Qed.

Lemma ssame_write_loop fuel ino off src n d s : ssame s (pc_write_loop fuel ino off src n d s).2.
Proof.
  revert d s. induction fuel as [|fuel IH]; intros d s; cbn [pc_write_loop]; [done|]. destruct (_ <? _); [|done]. cbv zeta.
  pose proof (ssame_get_or_create ino (page_base (u64 (off + d))) s) as W.
  destruct (pagecache_get_or_create _ _ s) as [[pa|] s1]; [|exact W].
  etransitivity; [exact W|]. etransitivity; [|apply IH]. apply ssame_top. simpl. by destruct (pagecache_find _ _ _).
Qed.

Lemma ssame_write ino off src s : ssame s (pagecache_write ino off src s).2.
Proof.
  unfold pagecache_write. destruct ino as [p|]; [|done]. cbv zeta. do 4 (destruct (_ : bool); [done|]).
  match goal with |- context [pc_write_loop ?fuel ?i ?o ?sr ?n ?d s] =>
    pose proof (ssame_write_loop fuel i o sr n d s) as L; destruct (pc_write_loop fuel i o sr n d s) as [dn s1] end.
  destruct (dn =? 0); [done|]. cbn [snd] in *. etransitivity; [exact L|]. etransitivity; [|apply ssame_pressure].
  destruct (_ <? _); [by apply ssame_top|done].
Qed.

Lemma ssame_flush_all s : ssame s (pagecache_flush_all s).2.
Proof. unfold pagecache_flush_all. destruct (pagecache_flush_match _ _ _ _ _ _) as [rc s'] eqn:Ef. exact (topr_flush_match same same_wp _ _ _ _ _ _ _ _ Ef). Qed.

Lemma ssame_tick t s : ssame s (pagecache_tick t s).
Proof.
  unfold pagecache_tick. cbv zeta. destruct (_ <? _); [by apply ssame_top|]. destruct (pagecache_writeback_blocked _); [by apply ssame_top|].
  destruct (_ =? 0); [by apply ssame_top|].
  match goal with |- context [pagecache_flush_match ?a ?b ?c ?d ?e ?f] => destruct (pagecache_flush_match a b c d e f) as [rc s'] eqn:Ef end.
  exact (topr_flush_match same same_wp _ _ _ _ _ _ _ _ Ef).
Qed.

Lemma ssame_invalidate_inode ino s : ssame s (pagecache_invalidate_inode ino s).
Proof.
  unfold pagecache_invalidate_inode. destruct ino as [p|]; [|done]. generalize (seq 0 MAX_FILE_CACHE_PAGES). intros l.
  revert s. induction l as [|i l IH]; intros s; cbn [invalidate_inode_loop]; [done|]. cbv zeta.
  destruct (_ || _); [apply IH|]. destruct (1 <? _); (etransitivity; [|apply IH]); apply ssame_top; [by destruct (_ <=? _)|done].
Qed.

Lemma ssame_truncate ino n s : ssame s (pagecache_truncate_inode ino n s).
Proof.
  unfold pagecache_truncate_inode. destruct (negb _); [done|]. generalize (seq 0 MAX_FILE_CACHE_PAGES). intros l.
  revert s. induction l as [|i l IH]; intros s; cbn [truncate_loop]; [done|]. cbv zeta.
  destruct (_ || _); [apply IH|]. destruct (n <=? _).
  - destruct (1 <? _); (etransitivity; [|apply IH]); by apply ssame_top.
  - destruct (_ && _); [|apply IH]. etransitivity; [|apply IH]. apply ssame_top. unfold pagecache_zero_tail. by repeat case_match.
Qed.

End Same.

#[export] Hint Resolve ssame_read ssame_write ssame_flush_all ssame_flush_inode ssame_tick ssame_invalidate_inode ssame_truncate
  ssame_set_pmm ssame_set_ram ssame_sync_inode : fsame.

(** A goal [fsame f X]: the calls of [X] are taken one after the other, from the first
    one on. *)
Ltac same_leaf :=
  solve [ assumption | reflexivity
        | (etransitivity; [|solve [eauto 3 with fsame nocore]]); same_leaf ].

Ltac same_solve :=
  cbv zeta; cbn [fst snd];
  first
    [ same_leaf
    | match goal with
      | |- ?R ?f ?X =>
          match X with
          | context [match ?e with _ => _ end] =>
              lazymatch type of e with
              | (_ * fsys _ _ _)%type =>
                  let H := fresh "S" in
                  assert (H : R f (snd e)); [same_solve|destruct e as [? ?]; cbn [fst snd] in H |- *; same_solve]
              | (_ * sys _ _ _)%type =>
                  let H := fresh "S" in
                  assert (H : ssame (f_sys f) (snd e)); [same_solve|destruct e as [? ?]; cbn [fst snd] in H |- *; same_solve]
              | _ => destruct e; same_solve
              end
          end
      end ].

Section Fs.
Context {D E N : Type} `{!BlockDrivers D, !DiskInventory D, !Ext4Ops D E}.
Abbreviation T := (ktasks (kio N)).
Abbreviation st := (fsys D E T).
Implicit Types (f : st) (s : sys D E T).

Lemma fsame_set_node f p n : fsame f (set_node f p n).
Proof. by apply fsame_top. Qed.
Lemma fsame_upd_node f p g : fsame f (upd_node f p g).
Proof. by apply fsame_top. Qed.
Lemma fsame_clear_node f p : fsame f (clear_node f p).
Proof. by apply fsame_top. Qed.
Lemma fsame_set_dev f d : fsame f (set_dev f d).
Proof. by apply fsame_top. Qed.
Lemma fsame_set_mounts f l : fsame f (set_mounts f l).
Proof. by apply fsame_top. Qed.
Lemma fsame_set_root f r : fsame f (set_root f r).
Proof. by apply fsame_top. Qed.
Lemma fsame_set_dev_root f r : fsame f (set_dev_root f r).
Proof. by apply fsame_top. Qed.
Lemma ssame_set_st s x : ssame s (sys_set_st s x).
Proof. by apply ssame_top. Qed.
Lemma ssame_set_bc s x : ssame s (sys_set_bc s x).
Proof. by apply ssame_top. Qed.
Lemma fsame_set_sys f s : ssame (f_sys f) s -> fsame f (set_sys f s).
Proof. done. Qed.

End Fs.

#[export] Hint Resolve fsame_on_sys fsame_set_node fsame_upd_node fsame_clear_node fsame_set_dev fsame_set_mounts fsame_set_root
  fsame_set_dev_root ssame_set_st ssame_set_bc : fsame.

Section Tree.
Context {D E N : Type} `{!BlockDrivers D, !DiskInventory D, !Ext4Ops D E}.
Abbreviation T := (ktasks (kio N)).
Abbreviation st := (fsys D E T).
Implicit Types (f : st) (s : sys D E T).

Lemma fsame_foldl {A} (g : st -> A -> st) l f : (forall f a, fsame f (g f a)) -> fsame f (foldl g f l).
Proof. intros Hg. revert f. induction l as [|a l IH]; intros f; simpl; [done|]. etransitivity; [apply Hg|apply IH]. Qed.

Lemma fsame_inode_alloc name ty f : fsame f (inode_alloc name ty f).2.
Proof. unfold inode_alloc. same_solve. Qed.

Lemma fsame_inode_free ino f : fsame f (inode_free ino f).
Proof. unfold inode_free. same_solve. Qed.

Lemma fsame_dir_add_child dir c f : fsame f (dir_add_child dir c f).2.
Proof. unfold dir_add_child. same_solve. Qed.

Lemma fsame_dir_remove_child dir c f : fsame f (dir_remove_child dir c f).2.
Proof. unfold dir_remove_child. same_solve. Qed.

End Tree.

#[export] Hint Resolve fsame_inode_alloc fsame_inode_free fsame_dir_add_child fsame_dir_remove_child : fsame.

(** What is assumed of ext4.c: it does not touch the task table. *)
Class Ext4Quiet (D E N : Type) `{!Ext4Names D E (ktasks (kio N)), !Ext4Tools D E (ktasks (kio N))} : Prop := {
  quiet_mount p q (f : fsys D E (ktasks (kio N))) : fsame f (ext4_mount p q f).2;
  quiet_unmount p (f : fsys D E (ktasks (kio N))) : fsame f (ext4_unmount p f).2;
  quiet_lookup_child p n (f : fsys D E (ktasks (kio N))) : fsame f (ext4_lookup_child p n f).2;
  quiet_lookup_child_nofollow p n (f : fsys D E (ktasks (kio N))) : fsame f (ext4_lookup_child_nofollow p n f).2;
  quiet_create_file p n (f : fsys D E (ktasks (kio N))) : fsame f (ext4_create_file p n f).2;
  quiet_create_dir p n (f : fsys D E (ktasks (kio N))) : fsame f (ext4_create_dir p n f).2;
  quiet_link p q n (f : fsys D E (ktasks (kio N))) : fsame f (ext4_link p q n f).2;
  quiet_symlink p n t (f : fsys D E (ktasks (kio N))) : fsame f (ext4_symlink p n t f).2;
  quiet_readlink p n (f : fsys D E (ktasks (kio N))) : fsame f (ext4_readlink p n f).2;
  quiet_lstat p x (f : fsys D E (ktasks (kio N))) : fsame f (ext4_lstat p x f).2;
  quiet_chmod p m (f : fsys D E (ktasks (kio N))) : fsame f (ext4_chmod p m f).2;
  quiet_unlink p (f : fsys D E (ktasks (kio N))) : fsame f (ext4_unlink p f).2;
  quiet_rmdir p (f : fsys D E (ktasks (kio N))) : fsame f (ext4_rmdir p f).2;
  quiet_rename p q n (f : fsys D E (ktasks (kio N))) : fsame f (ext4_rename p q n f).2;
  quiet_truncate p n (f : fsys D E (ktasks (kio N))) : fsame f (ext4_truncate p n f).2;
  quiet_read_dir p o n (f : fsys D E (ktasks (kio N))) : fsame f (ext4_read_dir p o n f).2;
  quiet_mkfs p n o (f : fsys D E (ktasks (kio N))) : fsame f (fs_mkfs_ext4 p n o f).2;
  quiet_fsck p n (f : fsys D E (ktasks (kio N))) : fsame f (fs_fsck_ext4 p n f).2;
}.

#[export] Hint Resolve quiet_mount quiet_unmount quiet_lookup_child quiet_lookup_child_nofollow quiet_create_file quiet_create_dir
  quiet_link quiet_symlink quiet_readlink quiet_lstat quiet_chmod quiet_unlink quiet_rmdir quiet_rename quiet_truncate quiet_read_dir
  quiet_mkfs quiet_fsck : fsame.

(** The lemmas of this section name the operation they are about. *)
Section Nodes.
Context {D E N : Type} `{!BlockDrivers D, !DiskInventory D, !Ext4Ops D E}.
Abbreviation T := (ktasks (kio N)).
Abbreviation st := (fsys D E T).
Implicit Types (f : st) (s : sys D E T).

Lemma fsame_rw_sector k lba buf w f : fsame f (dev_block_rw_sector k lba buf w f).2.
Proof. unfold dev_block_rw_sector. same_solve. Qed.
#[local] Hint Resolve fsame_rw_sector : fsame.

Lemma fsame_attach_new parent p f : fsame f (attach_new parent p f).2.
Proof. unfold attach_new. same_solve. Qed.
#[local] Hint Resolve fsame_attach_new : fsame.

Lemma fsame_mk_dir parent name f : fsame f (mk_dir parent name f).2.
Proof. unfold mk_dir. same_solve. Qed.

Lemma fsame_mk_file parent name a n x w f : fsame f (mk_file parent name a n x w f).2.
Proof. unfold mk_file. same_solve. Qed.
#[local] Hint Resolve fsame_mk_file : fsame.

Lemma fsame_mk_text_file parent name a t w f : fsame f (mk_text_file parent name a t w f).2.
Proof. unfold mk_text_file. same_solve. Qed.

Lemma fsame_mk_dev parent name k w f : fsame f (mk_dev parent name k w f).2.
Proof. unfold mk_dev. same_solve. Qed.
#[local] Hint Resolve fsame_mk_dev : fsame.

Lemma fsame_mk_dev_part parent k name a n f : fsame f (mk_dev_part parent k name a n f).2.
Proof. unfold mk_dev_part. same_solve. Qed.
#[local] Hint Resolve fsame_mk_dev_part : fsame.

Lemma fsame_ensure_capacity p n f : fsame f (memfs_ensure_capacity p n f).2.
Proof. unfold memfs_ensure_capacity. same_solve. Qed.

Lemma fsame_gpt_loop n i dir k name a sz c mbr f : fsame f (gpt_loop n i dir k name a sz c mbr f).2.
Proof. revert i c mbr f. induction n as [|n IH]; intros i c mbr f; cbn [gpt_loop]; same_solve. Qed.
#[local] Hint Resolve fsame_gpt_loop : fsame.

Lemma fsame_mbr_loop l dir k name c mbr f : fsame f (mbr_loop l dir k name c mbr f).
Proof. revert c f. induction l as [|i l IH]; intros c f; cbn [mbr_loop]; same_solve. Qed.
#[local] Hint Resolve fsame_mbr_loop : fsame.

Lemma fsame_probe_partitions dir k name f : fsame f (probe_partitions dir k name f).
Proof. unfold probe_partitions. same_solve. Qed.
#[local] Hint Resolve fsame_probe_partitions : fsame.

Lemma fsame_unplug_loop fuel g dev j f : fsame f (unplug_loop fuel g dev j f).
Proof. revert j f. induction fuel as [|fuel IH]; intros j f; cbn [unplug_loop]; same_solve. Qed.
#[local] Hint Resolve fsame_unplug_loop : fsame.

Lemma fsame_sync_sata dev i f : fsame f (sync_sata dev i f).
Proof. unfold sync_sata, unplug, plug. same_solve. Qed.

Lemma fsame_sync_nvme dev cn f : fsame f (sync_nvme dev cn f).
Proof. unfold sync_nvme, unplug, plug. same_solve. Qed.

Lemma fsame_sync_hotplug f : fsame f (fs_sync_hotplug_block_devs f).
Proof.
  unfold fs_sync_hotplug_block_devs. destruct (dev_root_inode f) as [dev|]; [|done]. destruct (negb _); [done|]. cbv zeta.
  etransitivity; [|apply fsame_foldl; intros ? ?; apply fsame_sync_nvme].
  etransitivity; [|apply fsame_foldl; intros ? ?; apply fsame_sync_sata]. apply fsame_set_dev.
Qed.

End Nodes.

#[export] Hint Resolve fsame_rw_sector fsame_mk_dir fsame_mk_file fsame_mk_text_file fsame_mk_dev fsame_ensure_capacity
  fsame_probe_partitions fsame_sync_hotplug : fsame.

Section Names.
Context {D E N : Type} `{!BlockDrivers D, !DiskInventory D, !Ext4Ops D E, !Ext4Names D E (ktasks (kio N)), !Ext4Tools D E (ktasks (kio N)), !Ext4Quiet D E N}.
Abbreviation T := (ktasks (kio N)).
Abbreviation st := (fsys D E T).
Implicit Types (f : st) (s : sys D E T).

Lemma fsame_lookup_child dir name fo f : fsame f (fs_lookup_child_mode dir name fo f).2.
Proof. unfold fs_lookup_child_mode. same_solve. Qed.
#[local] Hint Resolve fsame_lookup_child : fsame.

Lemma fsame_lookup_loop fuel fo cur p f : fsame f (lookup_loop fuel fo cur p f).2.
Proof. revert cur p f. induction fuel as [|fuel IH]; intros cur p f; cbn [lookup_loop]; same_solve. Qed.
#[local] Hint Resolve fsame_lookup_loop : fsame.

Lemma fsame_lookup path f : fsame f (fs_lookup path f).2.
Proof. unfold fs_lookup, fs_lookup_internal. same_solve. Qed.
Lemma fsame_lookup_nofollow path f : fsame f (fs_lookup_nofollow path f).2.
Proof. unfold fs_lookup_nofollow, fs_lookup_internal. same_solve. Qed.
#[local] Hint Resolve fsame_lookup fsame_lookup_nofollow : fsame.

Lemma fsame_new_entry path f : fsame f (new_entry path f).2.
Proof. unfold new_entry, lookup_parent. same_solve. Qed.
#[local] Hint Resolve fsame_new_entry : fsame.

Lemma fsame_stat_inode p f : fsame f (fs_stat_inode p f).2.
Proof. unfold fs_stat_inode, fs_fill_stat. same_solve. Qed.
#[local] Hint Resolve fsame_stat_inode : fsame.

Lemma fsame_stat path f : fsame f (fs_stat path f).2.
Proof. unfold fs_stat, stat_path. change (@fs_fill_stat) with (@fs_stat_inode). same_solve. Qed.
Lemma fsame_lstat path f : fsame f (fs_lstat path f).2.
Proof. unfold fs_lstat, stat_path. change (@fs_fill_stat) with (@fs_stat_inode). same_solve. Qed.

Lemma fsame_on_st {R} (g : storage D E -> R * storage D E) f : fsame f (on_st g f).2.
Proof. unfold on_st. same_solve. Qed.
Lemma fsame_tx_abort f : fsame f (tx_abort f).
Proof. unfold tx_abort. same_solve. Qed.
#[local] Hint Resolve fsame_on_st fsame_tx_abort : fsame.

Lemma fsame_ext4_change op f : (forall f, fsame f (op f).2) -> fsame f (ext4_change op f).2.
Proof. intros. unfold ext4_change. same_solve. Qed.
Lemma fsame_ext4_make op f : (forall f, fsame f (op f).2) -> fsame f (ext4_make op f).2.
Proof. intros. unfold ext4_make. same_solve. Qed.
#[local] Hint Resolve fsame_ext4_change fsame_ext4_make : fsame.

Lemma fsame_mount a b c n f : fsame f (fs_mount a b c n f).2.
Proof. unfold fs_mount. same_solve. Qed.

Lemma fsame_umount a n f : fsame f (fs_umount a n f).2.
Proof. unfold fs_umount. same_solve. Qed.

Lemma fsame_create_file path f : fsame f (fs_create_file path f).2.
Proof. unfold fs_create_file, fs_create. same_solve. Qed.
Lemma fsame_create_dir path f : fsame f (fs_create_dir path f).2.
Proof. unfold fs_create_dir, fs_create. same_solve. Qed.
Lemma fsame_link a b f : fsame f (fs_link a b f).2.
Proof. unfold fs_link. same_solve. Qed.
Lemma fsame_symlink a b f : fsame f (fs_symlink a b f).2.
Proof. unfold fs_symlink. same_solve. Qed.
Lemma fsame_readlink a n f : fsame f (fs_readlink a n f).2.
Proof. unfold fs_readlink. same_solve. Qed.
Lemma fsame_chmod a n f : fsame f (fs_chmod a n f).2.
Proof. unfold fs_chmod. same_solve. Qed.
Lemma fsame_unlink a f : fsame f (fs_unlink a f).2.
Proof. unfold fs_unlink, remove_node. same_solve. Qed.
Lemma fsame_rmdir a f : fsame f (fs_rmdir a f).2.
Proof. unfold fs_rmdir, remove_node. same_solve. Qed.
Lemma fsame_rename a b f : fsame f (fs_rename a b f).2.
Proof. unfold fs_rename. same_solve. Qed.

(** ** Contents *)

Context `{!Machine N}.

Lemma same_on_io {R} (g : N -> R * N) k : same k (on_io g k).2.
Proof. unfold on_io. destruct (g _). by destruct k. Qed.

Lemma same_tty_loop n acc k : same k (tty_loop n acc k).2.
Proof.
  revert acc k. induction n as [|n IH]; intros acc k; cbn [tty_loop]; [done|]. unfold uart_getc, char_devices.
  pose proof (same_on_io con_getc k) as W. destruct (on_io _ k) as [c k']. destruct (_ || _); [done|]. etransitivity; [exact W|apply IH].
Qed.

Lemma same_putc l k : same k (foldl (fun t c => uart_putc c t) k l).
Proof. revert k. induction l as [|c l IH]; intros k; cbn [foldl]; [done|]. etransitivity; [|apply IH]. apply same_on_io. Qed.

Lemma fsame_read p off n f : fsame f (fs_read p off n f).2.
Proof.
  unfold fs_read. cbv zeta.
  assert (C : fsame f (let '(rc, bytes, off, s) := pagecache_read (Some p) off n (f_sys f) in (rc, bytes, off, set_sys f s)).2) by same_solve.
  pose proof (same_tty_loop (Z.to_nat n) [] (s_top (f_sys f))) as L. pose proof (same_on_io (net_frame_read n) (s_top (f_sys f))) as L'.
  case_decide; [case_decide; [exact C|apply quiet_read_dir]|]. destruct (i_type _); [done|same_solve|exact C|].
  do 3 (destruct (_ : bool); [done|]). destruct (_ =? DEV_TTY). { by destruct (tty_loop _ _ _). }
  destruct (_ =? DEV_NET0). { unfold net_dev_read, char_devices. by destruct (on_io _ _) as [[rc bs] t]. }
  by destruct (fs_is_block_dev _).
Qed.

Lemma fsame_write p off src f : fsame f (fs_write p off src f).2.
Proof.
  unfold fs_write. cbv zeta.
  assert (C : forall f, fsame f (let '(rc, off, s) := pagecache_write (Some p) off src (f_sys f) in (rc, off, set_sys f s)).2) by (intros; same_solve).
  pose proof (same_putc src (s_top (f_sys f))) as L. pose proof (same_on_io (net_frame_write src) (s_top (f_sys f))) as L'.
  case_decide; [case_decide; [apply C|done]|]. case_decide.
  - destruct (_ || _); [done|]. destruct (_ =? DEV_TTY); [exact L|].
    destruct (_ =? DEV_NET0). { unfold net_dev_write, char_devices. by destruct (on_io _ _) as [rc t]. }
    destruct (fs_is_block_dev _); [apply C|done].
  - destruct (_ || _); [done|].
    match goal with |- context [match ?e with _ => _ end] => assert (W : fsame f e.2) by same_solve; destruct e as [ok f'] end.
    destruct (negb ok); [exact W|]. etransitivity; [exact W|apply C].
Qed.

Lemma fsame_truncate p n f : fsame f (fs_truncate p n f).2.
Proof. unfold fs_truncate. same_solve. Qed.

(** ** Start *)

Context (blob : string -> Z * Z) (sdk : string -> Z * list Z) (net_ready : bool).

Lemma fsame_mk_items dir l f : fsame f (mk_items blob sdk dir l f).
Proof. apply fsame_foldl. intros f' [? ? ?|? ?]; unfold mk_item; same_solve. Qed.
#[local] Hint Resolve fsame_mk_items : fsame.

Lemma fsame_sub_dir dir name f : fsame f (sub_dir dir name f).2.
Proof. unfold sub_dir. same_solve. Qed.
#[local] Hint Resolve fsame_sub_dir : fsame.

Lemma fsame_reset f : fsame f (fs_reset f).
Proof.
  unfold fs_reset, make_root. set (g := set_mounts _ _).
  assert (W : fsame f g). { etransitivity; [|apply fsame_set_mounts]. apply fsame_foldl. intros. apply fsame_clear_node. }
  same_solve.
Qed.
#[local] Hint Resolve fsame_reset : fsame.

Lemma fsame_init_usr_include a b c f : fsame f (init_usr_include blob sdk a b c f).
Proof. unfold init_usr_include, when_dir. same_solve. Qed.
Lemma fsame_init_include a f : fsame f (init_include blob sdk a f).
Proof. unfold init_include, when_dir. same_solve. Qed.
Lemma fsame_init_etc a f : fsame f (init_etc sdk a f).
Proof. unfold init_etc. same_solve. Qed.
Lemma fsame_init_disk dev k name f : fsame f (init_disk dev k name f).
Proof. unfold init_disk. same_solve. Qed.
#[local] Hint Resolve fsame_init_usr_include fsame_init_include fsame_init_etc fsame_init_disk fsame_mount fsame_lookup : fsame.

Lemma fsame_init_dev dev f : fsame f (init_dev net_ready dev f).
Proof.
  unfold init_dev. cbv zeta. etransitivity; [|apply fsame_foldl; intros; same_solve].
  etransitivity; [|apply fsame_foldl; intros; same_solve]. same_solve.
Qed.
#[local] Hint Resolve fsame_init_dev : fsame.

Lemma fsame_init_mount l f : fsame f (init_mount l f).
Proof. revert f. induction l as [|d l IH]; intros f; cbn [init_mount]; same_solve. Qed.
#[local] Hint Resolve fsame_init_mount : fsame.

Lemma fsame_init f : fsame f (fs_init blob sdk net_ready f).
Proof. unfold fs_init, when_dir. same_solve. Qed.

End Names.

#[export] Hint Resolve fsame_lookup fsame_lookup_nofollow fsame_stat_inode fsame_stat fsame_lstat fsame_mount fsame_umount
  fsame_create_file fsame_create_dir fsame_link fsame_symlink fsame_readlink fsame_chmod fsame_unlink fsame_rmdir fsame_rename
  fsame_read fsame_write fsame_truncate fsame_init : fsame.
