(* ===== verification/KernInv.v ===== *)
(** * System calls keep the invariants of the task table

    Every handler of Syscall.v, entered by the running task, ends in a state that
    satisfies the invariants of ProcInv.v, whether it returns or faults on the
    caller's memory; and the address of such a fault is one of user space, but for
    the buffer of a write to a socket. [spec] is the triple of the monad of Kern.v.
    Most steps leave the task table as it is ([keeps]); the others are the
    operations of Proc.v and changes of the caller's descriptors. *)

From S2P Require Import Prelude KString Path Pmm Pipe UserCopy Inode BlockCache PageCache FsIo TaskDefs Signal Mmu Vma Vm VmInv Fs FsInit FsData Proc Elf ProcInv ProcVm ProcOps ProcSteps Kern Syscall KernFs.

Create HintDb keeps discriminated.
#[export] Hint Constants Opaque : keeps.

Section Rules.
Context {D E N : Type} `{!BlockDrivers D, !DiskInventory D, !Ext4Ops D E, !SocketOps N, !Machine N}.
Abbreviation M := (kern D E N).
Abbreviation ctx := (kctx D E N).
Implicit Types x : ctx.

(** ** Triples *)

Definition spec {A} (P : ctx -> Prop) (m : M A) (Q : A -> ctx -> Prop) (F : Z -> ctx -> Prop) : Prop :=
  forall x, P x -> match m x with Done a x' => Q a x' | Fault far x' => F far x' end.

Lemma spec_bind {A B} P (m : M A) Q (k : A -> M B) R F :
  spec P m Q F -> (forall a, spec (Q a) (k a) R F) -> spec P (m ≫= k) R F.
Proof. intros Hm Hk x Hx. specialize (Hm x Hx). unfold mbind, kern_bind. destruct (m x) as [a x'|far x']; [by apply Hk|done]. Qed.

Lemma spec_mono {A} (P P' : ctx -> Prop) (m : M A) (Q Q' : A -> ctx -> Prop) (F F' : Z -> ctx -> Prop) :
  spec P m Q F -> (forall x, P' x -> P x) -> (forall a x, Q a x -> Q' a x) -> (forall far x, F far x -> F' far x) -> spec P' m Q' F'.
Proof. intros H HP HQ HF x Hx. specialize (H x (HP x Hx)). destruct (m x); auto. Qed.

Lemma spec_and {A} (P R : ctx -> Prop) (m : M A) Q F : spec P m Q F -> spec (fun x => P x /\ R x) m Q F.
Proof. intros H x [Hx _]. by apply H. Qed.

Lemma spec_ret {A} (P : ctx -> Prop) (a : A) (Q : A -> ctx -> Prop) F : (forall x, P x -> Q a x) -> spec P (mret a) Q F.
Proof. intros H x Hx. by apply H. Qed.

Lemma spec_gets {A} (P : ctx -> Prop) (g : ctx -> A) F : spec P (gets g) (fun a x => P x /\ a = g x) F.
Proof. by intros x Hx. Qed.

Lemma spec_on_kernel {A} (P : ctx -> Prop) (g : sys D E (ktasks (kio N)) -> A * sys D E (ktasks (kio N))) (Q : A -> ctx -> Prop) F :
  (forall x, P x -> forall a s, g (kx_sys x) = (a, s) -> Q a (mk_kctx (kx_tf x) (set_sys (kx_fs x) s))) -> spec P (on_kernel g) Q F.
Proof.
  intros H x Hx. specialize (H x Hx). unfold on_kernel, on_fs. unfold kx_sys in H. destruct (g (f_sys (kx_fs x))) as [a s]. by apply H.
Qed.

(** ** Steps that leave the task table alone *)

Definition keeps {A} (m : M A) : Prop :=
  forall x, match m x with
            | Done _ x' => ssame (kx_sys x) (kx_sys x')
            | Fault far x' => ssame (kx_sys x) (kx_sys x') /\ user_va far
            end.

Lemma keeps_ret {A} (a : A) : keeps (mret a).
Proof. intros x. simpl. reflexivity. Qed.

Lemma keeps_bind {A B} (m : M A) (k : A -> M B) : keeps m -> (forall a, keeps (k a)) -> keeps (m ≫= k).
Proof.
  intros Hm Hk x. specialize (Hm x). unfold mbind, kern_bind. destruct (m x) as [a x1|far x1]; [|done]. specialize (Hk a x1).
  destruct (k a x1) as [b x2|far x2]; [by etransitivity|]. destruct Hk. split; [by etransitivity|done].
Qed.

Lemma keeps_gets {A} (g : ctx -> A) : keeps (gets g).
Proof. intros x. simpl. reflexivity. Qed.

Lemma keeps_set_frame tf : keeps (set_frame (D := D) (E := E) (N := N) tf).
Proof. intros x. simpl. reflexivity. Qed.

Lemma keeps_on_fs {A} (g : fsys D E (ktasks (kio N)) -> A * fsys D E (ktasks (kio N))) : (forall f, fsame f (g f).2) -> keeps (on_fs g).
Proof. intros H x. specialize (H (kx_fs x)). unfold on_fs. by destruct (g (kx_fs x)). Qed.

Lemma keeps_on_kernel {A} (g : sys D E (ktasks (kio N)) -> A * sys D E (ktasks (kio N))) : (forall s, ssame s (g s).2) -> keeps (on_kernel g).
Proof. intros H. apply keeps_on_fs. intros f. specialize (H (f_sys f)). by destruct (g (f_sys f)). Qed.

Lemma keeps_upd_kernel (g : sys D E (ktasks (kio N)) -> sys D E (ktasks (kio N))) : (forall s, ssame s (g s)) -> keeps (upd_kernel g).
Proof. intros H. by apply keeps_on_kernel. Qed.

Lemma keeps_on_machine {A} (g : N -> A * N) : keeps (on_machine (D := D) (E := E) g).
Proof.
  apply keeps_on_kernel. intros s. pose proof (same_on_io g (s_top s)) as H. destruct (on_io g (s_top s)) as [a k]. exact H.
Qed.

(** ** Access to user memory *)

Lemma keeps_user_access fuel w va : user_va va -> keeps (user_access fuel w va).
Proof.
  intros Hv. induction fuel as [|fuel IH]; cbn [user_access]; [intros x; by split|].
  apply keeps_bind; [apply keeps_gets|]. intros s. destruct (el1_access s w va); [apply keeps_ret|].
  apply keeps_bind; [apply keeps_gets|]. intros tf.
  apply keeps_bind; [apply keeps_on_kernel; intros; apply ssame_page_fault|]. intros [|]; [done|]. intros x. by split.
Qed.

Lemma keeps_load_byte va : user_va va -> keeps (load_byte va).
Proof. intros. apply keeps_bind; [by apply keeps_user_access|]. intros. apply keeps_bind; [apply keeps_gets|intros; apply keeps_ret]. Qed.

Lemma keeps_store_byte va b : user_va va -> keeps (store_byte va b).
Proof. intros. apply keeps_bind; [by apply keeps_user_access|]. intros. apply keeps_upd_kernel. intros. apply ssame_set_ram. Qed.

Lemma keeps_load_bytes n va : (n = 0%nat \/ USER_VA_BASE <= va /\ va + Z.of_nat n <= USER_VA_LIMIT) -> keeps (load_bytes n va).
Proof.
  revert va. induction n as [|n IH]; intros va H; cbn [load_bytes]; [apply keeps_ret|].
  apply keeps_bind; [apply keeps_load_byte; unfold user_va; lia|]. intros. apply keeps_bind; [apply IH; lia|intros; apply keeps_ret].
Qed.

Lemma keeps_store_list va l : (l = [] \/ USER_VA_BASE <= va /\ va + Z.of_nat (length l) <= USER_VA_LIMIT) -> keeps (store_list va l).
Proof.
  revert va. induction l as [|b l IH]; intros va H; cbn [store_list]; [apply keeps_ret|]. destruct H as [H|H]; [done|]. cbn [length] in H.
  apply keeps_bind; [apply keeps_store_byte; unfold user_va; lia|]. intros. apply IH. destruct l; [by left|right; lia].
Qed.

Lemma ptr_range ptr len : user_ptr_valid ptr len = true -> 0 < len < 2 ^ 64 -> USER_VA_BASE <= ptr /\ ptr + len <= USER_VA_LIMIT.
Proof.
  unfold user_ptr_valid. intros H Hl. replace (len =? 0) with false in H by lia.
  destruct (ptr <? _) eqn:H1; [done|]. destruct (u64 (ptr + len) <? ptr) eqn:H2; [done|]. destruct (_ <? u64 (ptr + len)) eqn:H3; [done|].
  assert (Hp : is_u64 ptr) by (unfold is_u64; lia). destruct (u64_add_cases ptr len Hp) as [[E1 ?]|[E1 ?]]; [unfold is_u64; lia|lia|lia].
Qed.

Lemma keeps_ucopy_from src n : n < 2 ^ 64 -> keeps (ucopy_from src n).
Proof.
  intros Hn. unfold ucopy_from. destruct (user_ptr_valid src n) eqn:Hv; cbn [negb]; [|apply keeps_ret].
  apply keeps_bind; [|intros; apply keeps_ret]. apply keeps_load_bytes. destruct (decide (0 < n)) as [Hp|]; [right|left; lia].
  pose proof (ptr_range _ _ Hv). lia.
Qed.

Lemma keeps_ucopy_to dst l : Z.of_nat (length l) < 2 ^ 64 -> keeps (ucopy_to dst l).
Proof.
  intros Hn. unfold ucopy_to. destruct (user_ptr_valid dst _) eqn:Hv; cbn [negb]; [|apply keeps_ret].
  apply keeps_bind; [|intros; apply keeps_ret]. apply keeps_store_list. destruct l as [|b l]; [by left|right].
  apply ptr_range; [done|]. simpl in *. lia.
Qed.

Lemma keeps_ucopy_str src n : keeps (ucopy_str src n).
Proof.
  unfold ucopy_str. destruct (user_ptr_valid src 1) eqn:Hv; cbn [negb]; [|apply keeps_ret].
  assert (Hs : USER_VA_BASE <= src) by (pose proof (ptr_range _ _ Hv); lia). clear Hv. generalize (@nil Z). intros acc.
  revert src acc Hs. induction n as [|n IH]; intros src acc Hs; cbn [ucopy_str_loop]; [apply keeps_ret|].
  destruct (_ <=? src) eqn:Hl; [apply keeps_ret|]. apply keeps_bind; [apply keeps_load_byte; unfold user_va; lia|].
  intros b. destruct (b =? 0); [apply keeps_ret|]. apply IH. lia.
Qed.

End Rules.

#[export] Hint Resolve keeps_ret keeps_gets keeps_set_frame keeps_on_machine keeps_ucopy_str : keeps.

Lemma length_le_bytes n v : length (le_bytes n v) = n.
Proof. unfold le_bytes. rewrite length_map, length_seqZ. lia. Qed.

Lemma length_words l : length (words_bytes l) = (8 * length l)%nat.
Proof.
  induction l as [|v l IH]; [done|]. change (words_bytes (v :: l)) with (le_bytes 8 v ++ words_bytes l).
  rewrite length_app, IH, length_le_bytes. simpl. lia.
Qed.

(** The sizes of what is copied. *)
Ltac size_solve :=
  unfold in_buf, chunk_of, stat_bytes, sockaddr_bytes, sigaction_bytes in *;
  rewrite ?length_words, ?length_take, ?length_app, ?length_replicate, ?length_le_bytes; cbn [length]; try (case_match; lia); lia.

Ltac keeps_step :=
  match goal with
  | |- forall _, _ => intro
  | |- keeps (let _ := _ in _) => cbv zeta
  | |- keeps (match ?e with _ => _ end) => destruct e eqn:?
  | |- keeps (_ ≫= _) => apply keeps_bind
  | |- keeps (ucopy_from _ _) => apply keeps_ucopy_from; try size_solve
  | |- keeps (ucopy_to _ _) => apply keeps_ucopy_to; try size_solve
  | |- keeps (on_fs _) => apply keeps_on_fs; intro; solve [eauto with fsame nocore]
  | |- keeps (on_kernel _) => apply keeps_on_kernel; intro
  | |- keeps (upd_kernel _) => apply keeps_upd_kernel; intro
  | |- keeps _ => solve [eauto with keeps nocore]
  end.
Ltac keeps_solve := repeat keeps_step.

Section Keep.
Context {D E N : Type} `{!BlockDrivers D, !DiskInventory D, !Ext4Ops D E, !SocketOps N, !Machine N}.
Context `{!Ext4Names D E (ktasks (kio N)), !Ext4Tools D E (ktasks (kio N)), !Ext4Quiet D E N}.
Context (task_addr : nat -> Z).
Abbreviation M := (kern D E N).

Lemma keeps_with_task r (k : nat -> M Z) : (forall t, keeps (k t)) -> keeps (with_task r k).
Proof. intros. unfold with_task. keeps_solve; auto. Qed.

Lemma keeps_with_fd t i (k : fd -> M Z) : (forall f, keeps (k f)) -> keeps (with_fd t i k).
Proof. intros. unfold with_fd, cur_fd. keeps_solve; auto. Qed.

Lemma keeps_with_path t p (k : list Z -> M Z) : (forall l, keeps (k l)) -> keeps (with_path t p k).
Proof. intros. unfold with_path, resolve. keeps_solve; auto. Qed.

Lemma keeps_with_paths t p q (k : list Z -> list Z -> M Z) : (forall l l', keeps (k l l')) -> keeps (with_paths t p q k).
Proof. intros. unfold with_paths, resolve. keeps_solve; auto. Qed.

Lemma keeps_with_socket i (k : nat -> fd -> Z -> M Z) : (forall t f h, keeps (k t f h)) -> keeps (with_socket i k).
Proof. intros. apply keeps_with_task. intros t. apply keeps_with_fd. intros f. destruct (fd_kind f), (fd_sock f); auto with keeps. Qed.

End Keep.

#[export] Hint Resolve keeps_with_task keeps_with_fd keeps_with_path keeps_with_paths keeps_with_socket : keeps.

Ltac keeps_step' :=
  match goal with
  | |- keeps (with_task _ _) => apply keeps_with_task
  | |- keeps (with_fd _ _ _) => apply keeps_with_fd
  | |- keeps (with_path _ _ _) => apply keeps_with_path
  | |- keeps (with_paths _ _ _ _) => apply keeps_with_paths
  | |- keeps (with_socket _ _) => apply keeps_with_socket
  | _ => keeps_step
  end.
Ltac keeps_all := repeat keeps_step'.

Section Files.
Context {D E N : Type} `{!BlockDrivers D, !DiskInventory D, !Ext4Ops D E, !SocketOps N, !Machine N}.
Context `{!Ext4Names D E (ktasks (kio N)), !Ext4Tools D E (ktasks (kio N)), !Ext4Quiet D E N}.
Context (task_addr : nat -> Z).
Abbreviation M := (kern D E N).

Lemma keeps_chmod p m : keeps (sys_chmod_impl (D := D) (E := E) (N := N) p m).
Proof. unfold sys_chmod_impl. keeps_all. Qed.
Lemma keeps_mkdir p : keeps (sys_mkdir_impl (D := D) (E := E) (N := N) p).
Proof. unfold sys_mkdir_impl. keeps_all. Qed.
Lemma keeps_rmdir p : keeps (sys_rmdir_impl (D := D) (E := E) (N := N) p).
Proof. unfold sys_rmdir_impl. keeps_all. Qed.
Lemma keeps_unlink p : keeps (sys_unlink_impl (D := D) (E := E) (N := N) p).
Proof. unfold sys_unlink_impl. keeps_all. Qed.
Lemma keeps_rename p q : keeps (sys_rename_impl (D := D) (E := E) (N := N) p q).
Proof. unfold sys_rename_impl. keeps_all. Qed.
Lemma keeps_link p q : keeps (sys_link_impl (D := D) (E := E) (N := N) p q).
Proof. unfold sys_link_impl. keeps_all. Qed.
Lemma keeps_symlink p q : keeps (sys_symlink_impl (D := D) (E := E) (N := N) p q).
Proof. unfold sys_symlink_impl. keeps_all. Qed.
Lemma keeps_readlink p b n : keeps (sys_readlink_impl (D := D) (E := E) (N := N) p b n).
Proof. unfold sys_readlink_impl. keeps_all. Qed.
Lemma keeps_put_stat b rc x : keeps (put_stat (D := D) (E := E) (N := N) b rc x).
Proof. unfold put_stat. keeps_all. Qed.
#[local] Hint Resolve keeps_put_stat : keeps.
Lemma keeps_stat p b : keeps (sys_stat_impl (D := D) (E := E) (N := N) p b).
Proof. unfold sys_stat_impl. keeps_all. Qed.
Lemma keeps_lstat p b : keeps (sys_lstat_impl (D := D) (E := E) (N := N) p b).
Proof. unfold sys_lstat_impl. keeps_all. Qed.
Lemma keeps_fstat p b : keeps (sys_fstat_impl (D := D) (E := E) (N := N) p b).
Proof. unfold sys_fstat_impl. keeps_all. Qed.
Lemma keeps_mount a b t n : keeps (sys_mount_impl (D := D) (E := E) (N := N) a b t n).
Proof. unfold sys_mount_impl, resolve. keeps_all. Qed.
Lemma keeps_umount a n : keeps (sys_umount_impl (D := D) (E := E) (N := N) a n).
Proof. unfold sys_umount_impl. keeps_all. Qed.
Lemma keeps_mkfs a n o : keeps (sys_mkfsext4_impl (D := D) (E := E) (N := N) a n o).
Proof. unfold sys_mkfsext4_impl, mkfs_opts. keeps_all. Qed.
Lemma keeps_fsck a n : keeps (sys_fsckext4_impl (D := D) (E := E) (N := N) a n).
Proof. unfold sys_fsckext4_impl. keeps_all. Qed.
Lemma keeps_fsync i : keeps (sys_fsync_impl (D := D) (E := E) (N := N) i).
Proof. unfold sys_fsync_impl. keeps_all; apply ssame_sync_inode. Qed.

End Files.

#[export] Hint Resolve keeps_chmod keeps_mkdir keeps_rmdir keeps_unlink keeps_rename keeps_link keeps_symlink keeps_readlink keeps_stat
  keeps_lstat keeps_fstat keeps_mount keeps_umount keeps_mkfs keeps_fsck keeps_fsync : keeps.

Section Quiet.
Context {D E N : Type} `{!BlockDrivers D, !DiskInventory D, !Ext4Ops D E, !SocketOps N, !Machine N}.
Context `{!Ext4Names D E (ktasks (kio N)), !Ext4Tools D E (ktasks (kio N)), !Ext4Quiet D E N}.
Context (task_addr : nat -> Z).
Abbreviation M := (kern D E N).

Lemma keeps_sockaddr_from a n : keeps (copy_sockaddr_in_from_user (D := D) (E := E) (N := N) a n).
Proof. unfold copy_sockaddr_in_from_user. keeps_all. Qed.
Lemma keeps_store_sockaddr a n ip port : keeps (store_sockaddr (D := D) (E := E) (N := N) a n ip port).
Proof. unfold store_sockaddr. keeps_all. Qed.
#[local] Hint Resolve keeps_sockaddr_from keeps_store_sockaddr : keeps.
Lemma keeps_sockaddr_to a n ip port : keeps (copy_sockaddr_in_to_user (D := D) (E := E) (N := N) a n ip port).
Proof. unfold copy_sockaddr_in_to_user. keeps_all. Qed.
#[local] Hint Resolve keeps_sockaddr_to : keeps.

Lemma keeps_bind_impl i a n : keeps (sys_bind_impl (D := D) (E := E) (N := N) i a n).
Proof. unfold sys_bind_impl. keeps_all. Qed.
Lemma keeps_sendto i b n a l : keeps (sys_sendto_impl (D := D) (E := E) (N := N) i b n a l).
Proof. unfold sys_sendto_impl. keeps_all. Qed.
Lemma keeps_setsockopt i a b v n : keeps (sys_setsockopt_impl (D := D) (E := E) (N := N) i a b v n).
Proof. unfold sys_setsockopt_impl. keeps_all. Qed.
Lemma keeps_getsockopt i a b v n : keeps (sys_getsockopt_impl (D := D) (E := E) (N := N) i a b v n).
Proof. unfold sys_getsockopt_impl. keeps_all. Qed.
Lemma keeps_listen i n : keeps (sys_listen_impl (D := D) (E := E) (N := N) i n).
Proof. unfold sys_listen_impl. keeps_all. Qed.
Lemma keeps_getsockname i a n : keeps (sys_getsockname_impl (D := D) (E := E) (N := N) i a n).
Proof. unfold sys_getsockname_impl. keeps_all. Qed.
Lemma keeps_getpeername i a n : keeps (sys_getpeername_impl (D := D) (E := E) (N := N) i a n).
Proof. unfold sys_getpeername_impl. keeps_all. Qed.
Lemma keeps_shutdown i n : keeps (sys_shutdown_impl (D := D) (E := E) (N := N) i n).
Proof. unfold sys_shutdown_impl. keeps_all. Qed.

Lemma keeps_brk a : keeps (sys_brk_impl (D := D) (E := E) (N := N) a).
Proof. unfold sys_brk_impl. keeps_all. apply ssame_brk. Qed.
Lemma keeps_mmap a n p fl i o : keeps (sys_mmap_impl (D := D) (E := E) (N := N) a n p fl i o).
Proof. unfold sys_mmap_impl. keeps_all. apply ssame_mmap. Qed.
Lemma keeps_munmap a n : keeps (sys_munmap_impl (D := D) (E := E) (N := N) a n).
Proof. unfold sys_munmap_impl. keeps_all. apply ssame_munmap. Qed.
Lemma keeps_mprotect a n p : keeps (sys_mprotect_impl (D := D) (E := E) (N := N) a n p).
Proof. unfold sys_mprotect_impl. keeps_all. apply ssame_mprotect. Qed.
Lemma keeps_msync a n p : keeps (sys_msync_impl (D := D) (E := E) (N := N) a n p).
Proof. unfold sys_msync_impl. keeps_all. apply ssame_msync. Qed.
Lemma keeps_getpid : keeps (sys_getpid_impl (D := D) (E := E) (N := N)).
Proof. unfold sys_getpid_impl. keeps_all. Qed.
Lemma keeps_getpgid p : keeps (sys_getpgid_impl (D := D) (E := E) (N := N) p).
Proof. unfold sys_getpgid_impl. keeps_all. Qed.
Lemma keeps_sigprocmask h n o : keeps (sys_sigprocmask_impl (D := D) (E := E) (N := N) h n o).
Proof. unfold sys_sigprocmask_impl. keeps_all. repeat case_match. by apply ssame_upd. Qed.
Lemma keeps_sigreturn : keeps (sys_sigreturn_impl (D := D) (E := E) (N := N)).
Proof. unfold sys_sigreturn_impl. keeps_all. by apply ssame_upd. Qed.
Lemma keeps_chdir p : keeps (sys_chdir_impl (D := D) (E := E) (N := N) p).
Proof. unfold sys_chdir_impl, ino_at. keeps_all. by apply ssame_upd. Qed.
Lemma keeps_getcwd b n : n < 2 ^ 64 -> keeps (sys_getcwd_impl (D := D) (E := E) (N := N) b n).
Proof. intros. unfold sys_getcwd_impl. keeps_all. Qed.

(** *** Exec *)

Lemma keeps_free_image a n : keeps (free_exec_image_pages (D := D) (E := E) (N := N) a n).
Proof. unfold free_exec_image_pages. keeps_all. apply ssame_free_range. Qed.
Lemma keeps_image_loop fuel p b i j : keeps (image_loop (D := D) (E := E) (N := N) fuel p b i j).
Proof. revert i j. induction fuel as [|fuel IH]; intros i j; cbn [image_loop]; unfold ino_at; keeps_all. apply ssame_set_ram. Qed.
#[local] Hint Resolve keeps_free_image keeps_image_loop : keeps.
Lemma keeps_load_image p : keeps (load_exec_image (D := D) (E := E) (N := N) p).
Proof. unfold load_exec_image, ino_at. keeps_all. destruct (pmm_alloc _ _ _). apply ssame_set_pmm. Qed.
Lemma keeps_exec_args n a : keeps (exec_args (D := D) (E := E) (N := N) n a).
Proof. revert a. induction n as [|n IH]; intros a; cbn [exec_args]; keeps_all. Qed.
Lemma keeps_exec_file p : keeps (exec_file (D := D) (E := E) (N := N) p).
Proof. unfold exec_file, ino_at. keeps_all. Qed.
Lemma keeps_run_exec t a n argv : keeps (run_exec (D := D) (E := E) (N := N) task_addr t a n argv).
Proof. unfold run_exec, image_bytes, now. keeps_all. apply ssame_exec. Qed.
#[local] Hint Resolve keeps_load_image keeps_exec_args keeps_exec_file keeps_run_exec : keeps.
Lemma keeps_exec_interp t a n p q l : keeps (exec_interp (D := D) (E := E) (N := N) task_addr t a n p q l).
Proof. unfold exec_interp, image_bytes. keeps_all. apply ssame_upd, debug_syms_harmless. Qed.
#[local] Hint Resolve keeps_exec_interp : keeps.
Lemma keeps_exec p a : keeps (sys_exec_impl (D := D) (E := E) (N := N) task_addr p a).
Proof. unfold sys_exec_impl, image_bytes. keeps_all. apply ssame_upd. intros u. apply (set_comm_harmless u). Qed.

End Quiet.

#[export] Hint Resolve keeps_bind_impl keeps_sendto keeps_setsockopt keeps_getsockopt keeps_listen keeps_getsockname keeps_getpeername
  keeps_shutdown keeps_brk keeps_mmap keeps_munmap keeps_mprotect keeps_msync keeps_getpid keeps_getpgid keeps_sigprocmask
  keeps_sigreturn keeps_chdir keeps_exec keeps_sockaddr_from keeps_store_sockaddr keeps_sockaddr_to : keeps.

(** ** The handlers that change the task table *)

Section Inv.
Context {D E N : Type} `{!BlockDrivers D, !DiskInventory D, !Ext4Ops D E, !SocketOps N, !Machine N} {Sx : Strict}.
Context `{!Ext4Names D E (ktasks (kio N)), !Ext4Tools D E (ktasks (kio N)), !Ext4Quiet D E N}.
Context (c : nat).
Abbreviation M := (kern D E N).
Abbreviation ctx := (kctx D E N).
Implicit Types x : ctx.

(** Between two steps of a handler, and after it. *)
Definition out x : Prop := ok (cur := Some c) (run := Some c) (kx_sys x).
Definition inn x : Prop := out x /\ running (kx_sys x) c.
(** A handler that faults. *)
Definition bad (far : Z) x : Prop := out x /\ user_va far.

Lemma inn_out x : inn x -> out x.
Proof. by intros []. Qed.

Lemma out_same x x' : out x -> ssame (kx_sys x) (kx_sys x') -> out x'.
Proof. intros O S. eapply ok_ssim; [exact O|]. by apply ssame_ssim. Qed.

Lemma running_same (s s' : sys D E (ktasks (kio N))) : running s c -> ssame s s' -> running s' c.
Proof.
  intros [A B C] S. constructor; [|done|].
  - unfold current in *. by rewrite (sm_current _ _ S).
  - by rewrite (tk_state _ _ (ssame_tkeep s s' c S)).
Qed.

Lemma inn_same x x' : inn x -> ssame (kx_sys x) (kx_sys x') -> inn x'.
Proof. intros [O R] S. split; [by eapply out_same|by eapply running_same]. Qed.

Lemma fd_same (s s' : sys D E (ktasks (kio N))) ti i : ssame s s' -> get_fd s' ti i = get_fd s ti i.
Proof. intros S. unfold get_fd. by rewrite (tk_fds _ _ (ssame_tkeep s s' ti S)). Qed.

Abbreviation stays m := (spec inn m (fun _ => inn) bad).
Abbreviation ends m := (spec inn m (fun _ => out) bad).

Lemma keeps_stays {A} (m : M A) : keeps m -> stays m.
Proof.
  intros K x I. specialize (K x). destruct (m x) as [a x'|far x']; [by eapply inn_same|]. destruct K as [S V]. split; [|done].
  apply (out_same x); [apply I|done].
Qed.

Lemma keeps_out {A} (m : M A) : keeps m -> spec out m (fun _ => out) bad.
Proof.
  intros K x I. specialize (K x). destruct (m x) as [a x'|far x']; [by eapply out_same|]. destruct K as [S V]. split; [|done].
  by apply (out_same x).
Qed.

Lemma stays_ends {A} (m : M A) : stays m -> ends m.
Proof. intros H. eapply spec_mono; [exact H|done| |done]. intros a x. apply inn_out. Qed.

Lemma keeps_ends {A} (m : M A) : keeps m -> ends m.
Proof. intros K. by apply stays_ends, keeps_stays. Qed.

Lemma out_ends {A} (m : M A) : spec out m (fun _ => out) bad -> ends m.
Proof. intros H. eapply spec_mono; [exact H| |done|done]. apply inn_out. Qed.

Lemma stays_bind {A B} (m : M A) (k : A -> M B) : stays m -> (forall a, stays (k a)) -> stays (m ≫= k).
Proof. apply spec_bind. Qed.

Lemma ends_bind {A B} (m : M A) (k : A -> M B) : stays m -> (forall a, ends (k a)) -> ends (m ≫= k).
Proof. apply spec_bind. Qed.

(** The last step that changes the table. *)
Lemma ends_last {A B} (m : M A) (k : A -> M B) : ends m -> (forall a, keeps (k a)) -> ends (m ≫= k).
Proof. intros H K. eapply spec_bind; [exact H|]. intros a. by apply keeps_out. Qed.

Lemma spec_with_task (P : ctx -> Prop) r (k : nat -> M Z) Q F :
  (forall x, P x -> inn x) -> spec P (k c) Q F -> spec P (with_task r k) Q F.
Proof. intros HP H x Px. unfold with_task, mbind, kern_bind, gets. rewrite (rn_current _ _ (proj2 (HP x Px))). by apply H. Qed.

Lemma ends_with_task r (k : nat -> M Z) F : spec inn (k c) (fun _ => out) F -> spec inn (with_task r k) (fun _ => out) F.
Proof. by apply spec_with_task. Qed.

Lemma spec_with_fd (P : ctx -> Prop) i (k : fd -> M Z) F :
  (forall x, P x -> inn x) ->
  ((Z.to_nat i < MAX_FDS)%nat -> forall f, spec (fun x => P x /\ get_fd (kx_sys x) c (Z.to_nat i) = f) (k f) (fun _ => out) F) ->
  spec P (with_fd c i k) (fun _ => out) F.
Proof.
  intros HP H x Px. pose proof (HP x Px) as I. unfold with_fd, cur_fd, mbind, kern_bind, gets.
  destruct (_ <=? i) eqn:Hi; [exact (proj1 I)|]. destruct (negb _); [exact (proj1 I)|]. apply H; [lia|done].
Qed.

Lemma ends_with_fd i (k : fd -> M Z) F :
  ((Z.to_nat i < MAX_FDS)%nat -> forall f, spec inn (k f) (fun _ => out) F) -> spec inn (with_fd c i k) (fun _ => out) F.
Proof. intros H. apply spec_with_fd; [done|]. intros Hi f. by apply spec_and, H. Qed.

Lemma ends_with_path p (k : list Z -> M Z) : (forall l, ends (k l)) -> ends (with_path c p k).
Proof.
  intros H. apply ends_bind; [apply keeps_stays; auto with keeps|]. intros [l|]; [|by apply keeps_ends, keeps_ret].
  apply ends_bind; [apply keeps_stays; unfold resolve; keeps_solve|]. intros [l'|]; [apply H|by apply keeps_ends, keeps_ret].
Qed.

Lemma ends_with_socket i (k : nat -> fd -> Z -> M Z) : (forall f h, ends (k c f h)) -> ends (with_socket i k).
Proof.
  intros H. apply ends_with_task, ends_with_fd. intros _ f.
  destruct (fd_kind f); try (apply keeps_ends, keeps_ret). destruct (fd_sock f); [apply H|apply keeps_ends, keeps_ret].
Qed.

(** *** Descriptors *)

Lemma running_upd (s : sys D E (ktasks (kio N))) ti f : (forall t, state (f t) = state t) -> running s c -> running (upd_task s ti f) c.
Proof.
  intros Hf [A B C]. constructor; [done|done|]. unfold upd_task. rewrite task_at_set. case_decide as Hd; [|done].
  destruct Hd as [-> _]. by rewrite Hf.
Qed.

Lemma set_fd_inn x i f :
  inn x -> (i < MAX_FDS)%nat -> (fd_used f = true -> fd_typed f) -> (forall rd p, fd_x f rd p = fd_x (get_fd (kx_sys x) c i) rd p) ->
  inn (mk_kctx (kx_tf x) (set_sys (kx_fs x) (set_fd (kx_sys x) c i f))).
Proof.
  intros [O R] Hi Hty Hf. split; [|by apply running_upd].
  eapply inv_x; [apply (set_fd_inv x0 v0 None (kx_sys x) c i f O (rn_slot _ _ R) Hi)|].
  - intros Hu. split; [by apply running_live|by apply Hty].
  - intros rd p. cbv beta. rewrite Hf. lia.
Qed.

Lemma fd_now_typed x i : inn x -> (i < MAX_FDS)%nat -> fd_used (get_fd (kx_sys x) c i) = true -> fd_typed (get_fd (kx_sys x) c i).
Proof. intros [O R] Hi. apply (fd_is_typed x0 v0 None _ _ _ O (rn_slot _ _ R) Hi). Qed.

Lemma put_fd_inn i f :
  (Z.to_nat i < MAX_FDS)%nat -> spec (fun x => inn x /\ (fd_used f = true -> fd_typed f) /\ forall rd p, fd_x f rd p = fd_x (get_fd (kx_sys x) c (Z.to_nat i)) rd p)
    (put_fd c i f) (fun _ => inn) bad.
Proof. intros Hi x (I & Hty & Hf). by apply (set_fd_inn x). Qed.

Lemma put_offset_stays i off : (Z.to_nat i < MAX_FDS)%nat -> stays (put_offset c i off).
Proof.
  intros Hi. eapply spec_bind; [apply spec_gets|]. intros f. eapply spec_mono; [by apply (put_fd_inn i)| |done|done].
  intros x [I ->]. split_and!; [done| |done]. intros Hu. by apply (fd_now_typed x (Z.to_nat i)).
Qed.

Lemma fd_alloc_spec :
  spec inn (on_kernel (task_fd_alloc c))
    (fun r x => inn x /\ (r < 0 \/ (Z.to_nat r < MAX_FDS)%nat /\ get_fd (kx_sys x) c (Z.to_nat r) = plain_fd)) bad.
Proof.
  apply spec_on_kernel. intros x [O R] r s Ea.
  destruct (fd_alloc_inv x0 v0 None (kx_sys x) c r s O (rn_slot _ _ R) (running_live _ _ R) Ea) as (I & _ & H).
  destruct H as [[-> ->]|(i & -> & Hi & _ & ->)]; [split; [by split|left; lia]|]. rewrite Nat2Z.id.
  split; [split; [exact I|by apply running_upd]|right]. split; [lia|]. change (get_fd (set_fd (kx_sys x) c i plain_fd) c i = plain_fd).
  rewrite (get_set_fd _ _ _ _ _ _ _ _ O (rn_slot _ _ R)), decide_True; [done|done|lia].
Qed.

Lemma plain_x rd p : fd_x plain_fd rd p = 0.
Proof. apply fd_x_none. right. right. by split. Qed.

Lemma fd_close_out i : (c < MAX_TASKS)%nat -> spec out (on_kernel (task_fd_close c i)) (fun _ => out) bad.
Proof.
  intros Hc. apply spec_on_kernel. intros x O r s Ec.
  destruct (fd_close_inv x0 v0 (kx_sys x) c i O ltac:(done) Hc) as [I _]. by rewrite Ec in I.
Qed.

Lemma slot_ends {A} (m : M A) Q F : ((c < MAX_TASKS)%nat -> spec inn m Q F) -> spec inn m Q F.
Proof. intros H x I. apply H; [exact (rn_slot _ _ (proj2 I))|done]. Qed.

End Inv.
