(* ===== verification/KernCalls.v ===== *)
(** * The system calls that change the task table

    The handlers of Syscall.v on descriptors, pipes and processes, and the dispatcher
    over all of them. *)

From S2P Require Import Prelude KString Path Pmm Pipe UserCopy Inode BlockCache PageCache FsIo TaskDefs Signal Mmu Vma Vm VmInv Fs FsInit FsData Proc Elf ProcInv ProcVm ProcOps ProcSteps Kern Syscall KernFs KernInv.

Section Calls.
Context {D E N : Type} `{!BlockDrivers D, !DiskInventory D, !Ext4Ops D E, !SocketOps N, !Machine N} {Sx : Strict}.
Context `{!Ext4Names D E (ktasks (kio N)), !Ext4Tools D E (ktasks (kio N)), !Ext4Quiet D E N}.
Context (c : nat).
Abbreviation M := (kern D E N).
Abbreviation ctx := (kctx D E N).
Implicit Types x : ctx.
Abbreviation stays m := (spec (inn c) m (fun _ => inn c) (bad c)).
Abbreviation ends m := (spec (inn c) m (fun _ => out c) (bad c)).

Ltac keeps_on := first [apply keeps_ends; solve [keeps_all] | apply keeps_stays; solve [keeps_all]].

(** ** Reading and writing *)

Lemma write_console_keeps fuel buf len i : keeps (write_console (D := D) (E := E) (N := N) fuel buf len i).
Proof. revert i. induction fuel as [|fuel IH]; intros i; cbn [write_console]; keeps_all. Qed.

Lemma write_chunk_stays tries i ino buf chunk :
  (Z.to_nat i < MAX_FDS)%nat -> chunk < 2 ^ 64 -> stays (write_chunk tries c i ino buf chunk).
Proof.
  intros Hi Hc. induction tries as [|tries IH]; cbn [write_chunk].
  all: apply stays_bind; [apply keeps_stays; by apply keeps_ucopy_from|]; intros [bytes|]; [|apply keeps_stays, keeps_ret].
  all: apply stays_bind; [apply keeps_stays, keeps_gets|]; intros f.
  all: apply stays_bind; [destruct (has_bits _ _); [|apply keeps_stays, keeps_ret];
         apply stays_bind; [apply keeps_stays, keeps_gets|]; intros n; by apply put_offset_stays|]; intros _.
  all: apply stays_bind; [apply keeps_stays, keeps_gets|]; intros g.
  all: apply stays_bind; [apply keeps_stays; keeps_all|]; intros [n off].
  all: apply stays_bind; [by apply put_offset_stays|]; intros _.
  all: destruct (n <=? 0); [|apply keeps_stays, keeps_ret]; apply stays_bind; [apply keeps_stays, keeps_gets|]; intros nd.
  - apply keeps_stays, keeps_ret.
  - case_decide; [|apply keeps_stays, keeps_ret]. apply stays_bind; [|done]. apply keeps_stays. keeps_all. apply ssame_flush_inode.
Qed.

Lemma write_inode_stays fuel i ino buf len dn : (Z.to_nat i < MAX_FDS)%nat -> stays (write_inode fuel c i ino buf len dn).
Proof.
  intros Hi. revert dn. induction fuel as [|fuel IH]; intros dn; cbn [write_inode]; [apply keeps_stays, keeps_ret|].
  destruct (dn <? len); [|apply keeps_stays, keeps_ret].
  apply stays_bind; [apply write_chunk_stays; [done|unfold chunk_of; case_match; lia]|].
  intros [n|]; [|apply keeps_stays, keeps_ret]. destruct (n <=? 0); [apply keeps_stays, keeps_ret|apply IH].
Qed.

Lemma read_console_keeps fuel buf len i : keeps (read_console (D := D) (E := E) (N := N) fuel buf len i).
Proof. revert i. induction fuel as [|fuel IH]; intros i; cbn [read_console]; keeps_all. Qed.

Lemma read_inode_stays fuel i ino buf len dn : (Z.to_nat i < MAX_FDS)%nat -> stays (read_inode fuel c i ino buf len dn).
Proof.
  intros Hi. revert dn. induction fuel as [|fuel IH]; intros dn; cbn [read_inode]; [apply keeps_stays, keeps_ret|].
  destruct (dn <? len); [|apply keeps_stays, keeps_ret]. cbv zeta.
  apply stays_bind; [apply keeps_stays, keeps_gets|]; intros f.
  apply stays_bind; [apply keeps_stays; keeps_all|]; intros [[n bytes] off].
  apply stays_bind; [by apply put_offset_stays|]; intros _. destruct (n <=? 0); [apply keeps_stays, keeps_ret|].
  apply stays_bind; [apply keeps_stays; keeps_all|]; intros b. destruct (negb b); [apply keeps_stays, keeps_ret|].
  destruct (n <? _); [apply keeps_stays, keeps_ret|apply IH].
Qed.

Lemma read_socket_keeps fuel h buf len dn nb : keeps (read_socket (D := D) (E := E) (N := N) fuel h buf len dn nb).
Proof. revert dn. induction fuel as [|fuel IH]; intros dn; cbn [read_socket]; keeps_all. Qed.

(** A call of Proc.v that keeps the invariants. *)
Lemma ends_kernel {A} (g : sys D E (ktasks (kio N)) -> A * sys D E (ktasks (kio N))) :
  (forall s, ok (cur := Some c) (run := Some c) s -> running s c -> ok (cur := Some c) (run := Some c) (g s).2) -> ends (on_kernel g).
Proof. intros H. apply spec_on_kernel. intros x [O R] a s Eg. specialize (H _ O R). by rewrite Eg in H. Qed.

Lemma ends_upd (g : sys D E (ktasks (kio N)) -> sys D E (ktasks (kio N))) :
  (forall s, ok (cur := Some c) (run := Some c) s -> running s c -> ok (cur := Some c) (run := Some c) (g s)) -> ends (upd_kernel g).
Proof. intros H. by apply ends_kernel. Qed.

Lemma ends_kill (p : sys D E (ktasks (kio N)) -> Z) sig (r : Z) s0 :
  ends (on_kernel (task_kill (p s0) sig);; mret r : M Z).
Proof. apply ends_last; [apply ends_kernel; intros; by apply kill_ok|intros; apply keeps_ret]. Qed.

(** *** Pipes *)

Lemma wake_out p : spec (out c) (upd_kernel (D := D) (E := E) (N := N) (task_wake_pipe p)) (fun _ => out c) (bad c).
Proof. apply spec_on_kernel. intros x O r s [= <- <-]. eapply ok_ssim; [exact O|apply wake_pipe_ssim]. Qed.

Lemma set_pipes_inn x : inn c x -> inn c (mk_kctx (kx_tf x) (set_sys (kx_fs x) (set_pipes (kx_sys x) (get_pipes (kx_sys x))))).
Proof. intros [O R]. split; [eapply ok_ssim; [exact O|apply set_pipes_same]|by apply running_set_pipes]. Qed.

(** Bytes have gone into or out of the pipe; those who wait for it are woken. *)
Definition moved (p : nat) x : Prop :=
  running (kx_sys x) c /\ inv (cur := Some c) (run := Some c) x0 v0 (Some p) (kx_sys x).

Lemma moved_wake p x : moved p x -> inn c (mk_kctx (kx_tf x) (set_sys (kx_fs x) (task_wake_pipe (Some p) (kx_sys x)))).
Proof.
  intros [R I]. split; [by apply wake_inv|]. apply running_wake; [|done]. exact (tb_len _ _ (pi_table _ _ _ _ _ _ I)).
Qed.

Lemma moved_set x p q q' :
  inn c x -> get_pipes (kx_sys x) !! p = Some q -> readers q' = readers q -> writers q' = writers q -> (pipe_sound q -> pipe_sound q') ->
  moved p (mk_kctx (kx_tf x) (set_sys (kx_fs x) (set_pipes (kx_sys x) (<[p := q']> (get_pipes (kx_sys x)))))).
Proof.
  intros [O R] Hq Hr Hw Hs. split; [by apply running_set_pipes|]. apply (set_pipe_inv x0 _ _ _ _ q); try done.
  - intros rd. by destruct rd; simpl; rewrite ?Hr, ?Hw.
  - apply Hs. by eapply pipe_soundness.
Qed.

Lemma pipe_write_spec bytes p chunk :
  0 < chunk ->
  spec (fun x => inn c x /\ pipe_has_readers (get_pipes (kx_sys x)) (Some p) = true)
    (on_kernel (fun s => let '(n, ps) := pipe_write (store_bytes ∅ tmp bytes) (get_pipes s) (Some p) tmp chunk in (n, set_pipes s ps)))
    (fun n x => n = 0 /\ inn c x /\ write_blocked (get_pipes (kx_sys x)) p \/ 0 < n /\ moved p x) (bad c).
Proof.
  intros Hch. apply spec_on_kernel. intros x [I Hh] n s Es.
  destruct (pipe_write _ _ _ _ _) as [n' ps] eqn:Ew. injection Es as <- <-.
  destruct (pipe_write_cases _ _ _ _ _ _ Hch Ew) as [(-> & -> & Hfull)|(Hn & q & q' & Hq & -> & Hr & Hw & _ & Hs)];
    [left|right; split; [done|by apply (moved_set x p q q')]].
  split_and!; [done|by apply set_pipes_inn|]. change (write_blocked (get_pipes (kx_sys x)) p).
  unfold pipe_has_readers, pipe_at in Hh. simpl in Hh. destruct (get_pipes (kx_sys x) !! p) as [q|] eqn:Hq; [|done]. simpl in Hh.
  apply andb_true_iff in Hh as [Hu Hr]. exists q. split_and!; try done; [|lia].
  apply (Hfull q); try done. eapply pipe_soundness; [exact (proj1 I)|done].
Qed.

Lemma write_pipe_ends fuel f p buf len dn : fd_pipe f = Some p -> 0 <= dn -> ends (write_pipe fuel c f buf len dn).
Proof.
  intros Hp. revert dn. induction fuel as [|fuel IH]; intros dn Hd; cbn [write_pipe]; [apply keeps_ends, keeps_ret|].
  destruct (dn <? len) eqn:Hlt; [|apply keeps_ends, keeps_ret]. cbv zeta. set (chunk := chunk_of 128 len dn).
  assert (Hch : 0 < chunk <= 128) by (unfold chunk, chunk_of; case_match; lia). clearbody chunk.
  apply ends_bind; [apply keeps_stays, keeps_ucopy_from; lia|]. intros [bytes|]; [|apply keeps_ends, keeps_ret].
  eapply spec_bind; [apply spec_gets|]. intros s. rewrite Hp. destruct (pipe_has_readers _ _) eqn:Hh; cbn [negb].
  2: { apply spec_and. destruct (dn =? 0); [|apply keeps_ends, keeps_ret].
       apply (ends_kill (fun s => pid (task_at s c))). }
  eapply spec_bind; [eapply spec_mono; [apply (pipe_write_spec bytes p chunk (proj1 Hch))| |done|done]|].
  { intros x [I ->]. by split. }
  intros n. destruct (n =? 0) eqn:Hn.
  - destruct (0 <? dn).
    + eapply spec_mono; [apply (ends_last c (upd_kernel (task_wake_pipe (Some p))))| |done|done].
      * apply out_ends, wake_out.
      * intros. apply keeps_ret.
      * intros x [(_ & ? & _)|[? _]]; [done|lia].
    + destruct (has_bits _ _); [intros x [(_ & [] & _)|[? _]]; [done|lia]|].
      intros x [(_ & [O R] & B)|[? _]]; [|lia]. apply (block_ok _ c); try done. intros _. by exists p.
  - apply (spec_bind _ _ (fun _ x => inn c x /\ 0 < n)); [|intros _ x [I Hpos]; by apply IH; [lia|]].
    apply spec_on_kernel. intros x H r s' [= <- <-]. destruct H as [[? _]|[? H]]; [lia|]. split; [by apply moved_wake|done].
Qed.

(** The copy to the caller can fail after the bytes have left the pipe: then nobody is
    woken. *)
Definition lost (far : Z) x : Prop := (~ strict -> out c x) /\ user_va far.

Lemma moved_out p x : moved p x -> ~ strict -> out c x.
Proof. intros [_ [C T A Ed _]] H. by constructor. Qed.

Lemma moved_same p x x' : moved p x -> ssame (kx_sys x) (kx_sys x') -> moved p x'.
Proof. intros [R I] S. split; [by eapply running_same|]. eapply inv_ssim; [exact I|by apply ssame_ssim]. Qed.

Lemma bad_lost far x : bad c far x -> lost far x.
Proof. by intros []. Qed.

Lemma moved_copy p dst bytes :
  Z.of_nat (length bytes) < 2 ^ 64 ->
  spec (moved p) (ucopy_to dst bytes) (fun b x => moved p x /\ b = user_ptr_valid dst (Z.of_nat (length bytes))) lost.
Proof.
  intros Hl x Hx. pose proof (keeps_ucopy_to (D := D) (E := E) (N := N) dst bytes Hl x) as K. revert K. unfold ucopy_to.
  destruct (user_ptr_valid _ _); cbn [negb]; [|done]. unfold mbind, kern_bind. destruct (store_list _ _ _) as [a x'|far x']; simpl.
  - intros K. split; [by eapply moved_same|done].
  - intros [S V]. split; [|done]. apply (moved_out p). by eapply moved_same.
Qed.

Lemma pipe_read_spec p chunk :
  0 < chunk ->
  spec (inn c)
    (on_kernel (fun s => let '(n, m, ps) := pipe_read ∅ (get_pipes s) (Some p) tmp chunk in ((n, mem_bytes m tmp (Z.to_nat n)), set_pipes s ps)))
    (fun r x => r.1 = 0 /\ inn c x /\ (pipe_has_writers (get_pipes (kx_sys x)) (Some p) = true -> read_blocked (get_pipes (kx_sys x)) p) \/
       0 < r.1 <= chunk /\ Z.of_nat (length r.2) = r.1 /\ moved p x) (bad c).
Proof.
  intros Hch. apply spec_on_kernel. intros x I r s Es.
  destruct (pipe_read _ _ _ _ _) as [[n m'] ps] eqn:Er. injection Es as <- <-. cbn [fst snd].
  destruct (pipe_read_cases _ _ _ _ _ _ _ Hch Er) as [(-> & -> & Hempty)|(Hn & q & q' & Hq & -> & Hr & Hw & _ & Hs)]; [left|right].
  - split_and!; [done|by apply set_pipes_inn|]. intros Hh. unfold pipe_has_writers, pipe_at in Hh.
    change (get_pipes (kx_sys (mk_kctx (kx_tf x) (set_sys (kx_fs x) (set_pipes (kx_sys x) (get_pipes (kx_sys x))))))) with (get_pipes (kx_sys x)) in *.
    simpl in Hh. destruct (get_pipes (kx_sys x) !! p) as [q|] eqn:Hq; [|done]. simpl in Hh.
    apply andb_true_iff in Hh as [Hu Hwr]. exists q. split_and!; try done; [by apply (Hempty q)|lia].
  - destruct Hn as [Hn|Hn]; [|destruct (Hn q Hq); eapply pipe_soundness; [exact (proj1 I)|done]].
    split; [done|]. split; [rewrite length_mem_bytes; lia|]. by apply (moved_set x p q q').
Qed.

Lemma read_pipe_ends fuel f p buf len dn :
  fd_pipe f = Some p -> (strict -> user_buffer buf len) -> 0 <= dn -> spec (inn c) (read_pipe fuel f buf len dn) (fun _ => out c) lost.
Proof.
  intros Hp Hb. revert dn.
  assert (Lost : forall (m : M Z), ends m -> spec (inn c) m (fun _ => out c) lost).
  { intros m H. eapply spec_mono; [exact H|done|done|apply bad_lost]. }
  induction fuel as [|fuel IH]; intros dn Hd; cbn [read_pipe]; [apply Lost, keeps_ends, keeps_ret|].
  destruct (dn <? len) eqn:Hlt; [|apply Lost, keeps_ends, keeps_ret]. cbv zeta. set (chunk := chunk_of 128 len dn).
  assert (Hch : 0 < chunk <= 128 /\ chunk <= len - dn) by (unfold chunk, chunk_of; case_match; lia). clearbody chunk. rewrite Hp.
  eapply spec_bind; [eapply spec_mono; [apply (pipe_read_spec p chunk); lia|done|done|apply bad_lost]|].
  intros [n bytes]. cbn [fst snd]. destruct (n =? 0) eqn:Hn.
  - destruct (0 <? dn).
    + eapply spec_mono; [apply (ends_last c (upd_kernel (task_wake_pipe (Some p))))| |done|apply bad_lost].
      * apply out_ends, wake_out.
      * intros. apply keeps_ret.
      * intros x [(_ & ? & _)|[? _]]; [done|lia].
    + intros x [(_ & I & B)|[? _]]; [|lia]. unfold mbind, kern_bind, gets.
      destruct (pipe_has_writers _ _) eqn:Hh; cbn [negb]; [|exact (proj1 I)]. destruct (has_bits _ _); [exact (proj1 I)|].
      apply (block_ok _ c); try done; [apply I..|]. intros _. exists p. split; [done|by apply B].
  - intros x [[? _]|(Hr & Hlen & Hm)]; [lia|].
    pose proof (moved_copy p (u64 (buf + dn)) bytes ltac:(lia) x Hm) as Hc. unfold mbind, kern_bind.
    destruct (ucopy_to _ _ x) as [b x1|far x1]; [|exact Hc]. destruct Hc as [M1 ->]. rewrite Hlen.
    destruct (user_ptr_valid _ n) eqn:Hv; cbn [negb].
    + apply IH; [lia|]. by apply moved_wake.
    + apply (moved_out p _ M1). intros St. by rewrite (user_part buf len dn n (Hb St)) in Hv by lia.
Qed.

(** Bytes read from an address that was not checked: the fault can be anywhere. *)
Lemma user_access_any fuel w va : spec (inn c) (user_access fuel w va : M Z) (fun _ => inn c) (fun _ => out c).
Proof.
  induction fuel as [|fuel IH]; cbn [user_access]; [intros x I; exact (proj1 I)|].
  eapply spec_bind; [apply spec_gets|]. intros s. apply spec_and. destruct (el1_access s w va); [by apply spec_ret|].
  eapply spec_bind; [apply spec_gets|]. intros tf. apply spec_and.
  eapply (spec_bind _ _ (fun _ => inn c)); [|intros [|]; [exact IH|intros x I; exact (proj1 I)]].
  apply spec_on_kernel. intros x I a s' Ea. apply (inn_same c x); [done|].
  pose proof (ssame_page_fault va w b false (sp_el0 tf) (kx_sys x)) as P. by rewrite Ea in P.
Qed.

Lemma load_bytes_any n va : spec (inn c) (load_bytes n va : M (list Z)) (fun _ => inn c) (fun _ => out c).
Proof.
  revert va. induction n as [|n IH]; intros va; cbn [load_bytes]; [by apply spec_ret|].
  eapply (spec_bind _ _ (fun _ => inn c)); [|intros b; eapply spec_bind; [apply IH|intros; by apply spec_ret]].
  eapply spec_bind; [apply user_access_any|]. intros pa. eapply spec_bind; [apply spec_gets|]. intros s. apply spec_and. by apply spec_ret.
Qed.

Lemma write_socket_ends h buf len nb : spec (inn c) (write_socket c h buf len nb : M Z) (fun _ => out c) (fun _ => out c).
Proof.
  assert (Any : forall A (m : M A) P Q, spec P m Q (bad c) -> spec P m Q (fun _ => out c)).
  { intros A m P Q H. eapply spec_mono; [exact H|done|done|by intros far x []]. }
  eapply spec_bind; [apply Any, keeps_stays; keeps_all|]. intros [rc chunk].
  eapply (spec_bind _ _ (fun _ => inn c)).
  { destruct (chunk =? 0); [by apply spec_ret|]. eapply spec_bind; [apply load_bytes_any|].
    intros bytes. apply Any, keeps_stays. keeps_all. }
  intros r. apply Any. destruct (r =? -32); [|apply keeps_ends, keeps_ret].
  apply ends_bind; [apply keeps_stays, keeps_gets|]. intros s. apply (ends_kill (fun s => pid (task_at s c))).
Qed.

Lemma sys_write_ends (sock : Prop) i buf len :
  spec (fun x => inn c x /\ (fd_kind (get_fd (kx_sys x) c (Z.to_nat i)) = FD_SOCKET -> sock)) (sys_write_impl i buf len : M Z) (fun _ => out c)
    (fun far x => out c x /\ (~ sock -> user_va far)).
Proof.
  assert (Weak : forall (m : M Z) P, spec P m (fun _ => out c) (bad c) -> spec P m (fun _ => out c) (fun far x => out c x /\ (~ sock -> user_va far))).
  { intros m P H. eapply spec_mono; [exact H|done|done|by intros far x []]. }
  apply (spec_with_task c); [by intros x []|]. destruct (len =? 0); [apply Weak, spec_ret; by intros x [[] _]|].
  apply (spec_with_fd c); [by intros x []|]. intros Hi f.
  assert (Inn : forall (m : M Z), ends m ->
    spec (fun x => (inn c x /\ (fd_kind (get_fd (kx_sys x) c (Z.to_nat i)) = FD_SOCKET -> sock)) /\ get_fd (kx_sys x) c (Z.to_nat i) = f) m
      (fun _ => out c) (fun far x => out c x /\ (~ sock -> user_va far))).
  { intros m H. by apply spec_and, spec_and, Weak. }
  destruct (fd_kind f) eqn:Hk.
  - apply Inn. destruct (2 <? i); [apply keeps_ends, keeps_ret|apply keeps_ends, write_console_keeps].
  - apply Inn. destruct (fd_inode f); [|apply keeps_ends, keeps_ret].
    destruct (_ =? _); [apply keeps_ends, keeps_ret|by apply stays_ends, write_inode_stays].
  - apply Inn, keeps_ends, keeps_ret.
  - apply Inn. destruct (fd_pipe f) as [p|] eqn:Hp; [|apply keeps_ends, keeps_ret]. by apply (write_pipe_ends _ _ p).
  - destruct (fd_sock f) as [h|]; [|apply Inn, keeps_ends, keeps_ret]. intros x [[I Hs] Hf]. rewrite Hf in Hs.
    pose proof (write_socket_ends h buf len (has_bits (fd_flags f) O_NONBLOCK) x I) as H.
    destruct (write_socket _ _ _ _ _ _); [done|]. split; [done|]. intros []. by apply Hs.
Qed.

Lemma sys_read_ends i buf len :
  (strict -> user_buffer buf len) -> spec (inn c) (sys_read_impl i buf len : M Z) (fun _ => out c) lost.
Proof.
  intros Hb. assert (Weak : forall (m : M Z), ends m -> spec (inn c) m (fun _ => out c) lost).
  { intros m H. eapply spec_mono; [exact H|done|done|apply bad_lost]. }
  apply ends_with_task. destruct (len =? 0); [apply Weak, keeps_ends, keeps_ret|]. apply ends_with_fd. intros Hi f. cbv zeta.
  eapply spec_bind; [apply spec_gets|]. intros rx. apply spec_and. destruct (fd_kind f).
  - apply Weak, keeps_ends. destruct (negb _); [apply keeps_ret|]. destruct (_ && _); [apply keeps_ret|apply read_console_keeps].
  - apply Weak. destruct (fd_inode f) as [ino|]; [|apply keeps_ends, keeps_ret].
    apply ends_bind; [apply keeps_stays, keeps_gets|]. intros n. destruct (_ =? _); [apply keeps_ends, keeps_ret|].
    destruct (_ && _); [apply keeps_ends, keeps_ret|by apply stays_ends, read_inode_stays].
  - destruct (fd_pipe f) as [p|] eqn:Hp; [|apply Weak, keeps_ends, keeps_ret]. by apply (read_pipe_ends _ _ p).
  - apply Weak, keeps_ends, keeps_ret.
  - apply Weak, keeps_ends. destruct (fd_sock f); [apply read_socket_keeps|apply keeps_ret].
Qed.

(** ** Descriptors *)

(** A descriptor that was just allocated is filled in. *)
Lemma fill_fd i (g : bool -> fd) :
  (Z.to_nat i < MAX_FDS)%nat -> (forall u rd p, fd_x (g u) rd p = 0) -> (forall u, fd_typed (g u)) ->
  spec (fun x => inn c x /\ get_fd (kx_sys x) c (Z.to_nat i) = plain_fd) (f ← cur_fd c i; put_fd c i (g (fd_used f))) (fun _ => inn c) (bad c).
Proof.
  intros Hi Hg Ht. eapply spec_bind; [apply spec_gets|]. intros f. eapply spec_mono; [by apply (put_fd_inn c i)| |done|done].
  intros x [[I Hp] ->]. split_and!; [done|by intros _; apply Ht|]. intros rd p. rewrite Hp, plain_x. apply Hg.
Qed.

Lemma close_last i (r : Z) : ends (on_kernel (task_fd_close c i);; mret r : M Z).
Proof. apply slot_ends. intros Hc. apply ends_last; [by apply out_ends, fd_close_out|intros; apply keeps_ret]. Qed.

Lemma alloc_ends (k : Z -> M Z) (g : Z -> bool -> fd) (k1 : Z -> M Z) (k2 : Z -> M Z) :
  (forall i u rd p, fd_x (g i u) rd p = 0) -> (forall i u, fd_typed (g i u)) -> (forall i, i < 0 -> k i = k1 i) ->
  (forall i, 0 <= i -> k i = (f ← cur_fd c i; put_fd c i (g i (fd_used f)) ;; k2 i)) ->
  (forall i, keeps (k1 i)) -> (forall i, (Z.to_nat i < MAX_FDS)%nat -> ends (k2 i)) -> ends (i ← on_kernel (task_fd_alloc c); k i).
Proof.
  intros Hg Ht H1 H2 K1 K2. eapply spec_bind; [apply fd_alloc_spec|]. intros i. destruct (decide (i < 0)) as [Hi|Hi].
  { rewrite H1 by done. apply spec_and. by apply keeps_ends. }
  rewrite H2 by lia. intros x [I [?|[Hlt Hp]]]; [lia|].
  pose proof (fill_fd i (g i) Hlt (Hg i) (Ht i) x (conj I Hp)) as F. revert F. unfold mbind, kern_bind, cur_fd, gets.
  destruct (put_fd _ _ _ x) as [[] x'|far x']; [|done]. intros I'. by apply (K2 i Hlt).
Qed.

Lemma no_pipe_x k ino h off fl u rd p : fd_x (mk_fd k ino None h off fl u) rd p = 0.
Proof. apply fd_x_none. right. by left. Qed.

Lemma sys_open_ends path flags : ends (sys_open_impl path flags : M Z).
Proof.
  apply ends_with_task, ends_with_path. intros kpath. apply ends_bind; [keeps_on|]. intros ino.
  apply ends_bind; [apply keeps_stays; destruct ino; [apply keeps_ret|]; destruct (has_bits _ _); keeps_all|].
  intros [p|]; [|apply keeps_ends, keeps_ret]. cbv zeta. apply ends_bind; [apply keeps_stays, keeps_gets|]. intros n.
  destruct (open_denied _ _); [apply keeps_ends, keeps_ret|]. set (off := if has_bits (to_int flags) O_APPEND then i_size n else 0).
  apply (alloc_ends _ (fun i u => mk_fd FD_INODE (Some p) None None off (to_int flags) u) (fun _ => mret (-1))
    (fun i => if has_bits (to_int flags) O_TRUNC && bool_decide (i_type n = INODE_FILE) then
                rc ← on_fs (fs_truncate p 0);
                if negb (rc =? 0) then on_kernel (task_fd_close c i);; mret (-1) else put_offset c i 0;; mret i
              else mret i)).
  - intros. apply no_pipe_x.
  - intros. by eexists.
  - intros i Hi. by replace (i <? 0) with true by lia.
  - intros i Hi. by replace (i <? 0) with false by lia.
  - intros i. apply keeps_ret.
  - intros i Hi. destruct (_ && _); [|apply keeps_ends, keeps_ret]. apply ends_bind; [keeps_on|]. intros rc.
    destruct (negb _); [apply close_last|]. apply ends_bind; [by apply put_offset_stays|intros; apply keeps_ends, keeps_ret].
Qed.

Lemma sys_close_ends i : ends (sys_close_impl i : M Z).
Proof.
  apply ends_with_task. destruct (_ <=? i); [apply keeps_ends, keeps_ret|]. apply slot_ends. intros Hc. by apply out_ends, fd_close_out.
Qed.

Lemma sys_dup2_ends i j : ends (sys_dup2_impl i j : M Z).
Proof.
  apply ends_with_task, ends_kernel. intros s O R. apply dup2_inv; [done|exact (rn_slot _ _ R)|exact (running_live _ _ R)].
Qed.

Lemma sys_fcntl_ends i cmd arg : ends (sys_fcntl_impl i cmd arg : M Z).
Proof.
  apply ends_with_task. apply (spec_with_fd c); [done|]. intros Hi f. cbv zeta.
  destruct (_ =? _); [apply spec_and; apply keeps_ends, keeps_ret|]. destruct (_ =? _); [|apply spec_and; apply keeps_ends, keeps_ret].
  match goal with |- context [put_fd c i ?g] => set (f' := g) end.
  eapply spec_bind; [eapply spec_mono; [by apply (put_fd_inn c i f')| |done|done]|intros; apply keeps_ends, keeps_ret].
  intros x [I Hf]. split_and!; [done| |intros rd p; by rewrite Hf]. intros Hu. subst f. exact (fd_now_typed c x (Z.to_nat i) I Hi Hu).
Qed.

Lemma sys_lseek_ends i off w : ends (sys_lseek_impl i off w : M Z).
Proof.
  apply ends_with_task, ends_with_fd. intros Hi f.
  destruct (fd_kind f); try (apply keeps_ends, keeps_ret). destruct (fd_inode f) as [p|]; [|apply keeps_ends, keeps_ret].
  apply ends_bind; [apply keeps_stays, keeps_gets|]. intros n. cbv zeta.
  match goal with |- context [match ?b with Some _ => _ | None => _ end] => destruct b end; [|apply keeps_ends, keeps_ret].
  destruct (_ <? 0); [apply keeps_ends, keeps_ret|]. apply ends_bind; [by apply put_offset_stays|intros; apply keeps_ends, keeps_ret].
Qed.

(** *** New pipes *)

(** The caller holds both ends of pipe [p], which are in no table yet. *)
Definition held (p : nat) x : Prop :=
  inv (cur := Some c) (run := Some c) (x_add (x_add x0 true p 1) false p 1) v0 None (kx_sys x) /\ nowait (kx_sys x) p /\ running (kx_sys x) c.

Definition plain_at x (r : Z) : Prop := (Z.to_nat r < MAX_FDS)%nat /\ get_fd (kx_sys x) c (Z.to_nat r) = plain_fd.

Lemma pipe_alloc_spec :
  spec (inn c) (on_kernel (fun s => let '(p, ps) := pipe_alloc (get_pipes s) in (p, set_pipes s ps)))
    (fun r x => match r with None => inn c x | Some p => held p x end) (bad c).
Proof.
  apply spec_on_kernel. intros x [O R] r s Es. destruct (pipe_alloc (get_pipes (kx_sys x))) as [r' ps] eqn:Ea. injection Es as <- <-.
  pose proof (pipe_alloc_inv v0 (kx_sys x) _ ps O Ea) as I1. destruct r' as [p|].
  - split; [exact I1|]. split; [|by apply running_set_pipes].
    apply pipe_alloc_loop_spec in Ea as (k & q & -> & Hq & Hu & _). exact (unused_nowait _ _ (kx_sys x) _ q O Hq Hu).
  - split; [|by apply running_set_pipes]. unfold out, kx_sys. simpl. unfold kx_sys in I1. rewrite I1.
    eapply ok_ssim; [exact O|apply set_pipes_same].
Qed.

Lemma held_alloc p (r0 : option Z) :
  spec (fun x => held p x /\ match r0 with Some r => plain_at x r | None => True end) (on_kernel (task_fd_alloc c))
    (fun r x => held p x /\ match r0 with Some r1 => plain_at x r1 /\ Z.to_nat r1 <> Z.to_nat r | None => True end /\ plain_at x r \/
       r < 0 /\ held p x /\ match r0 with Some r => plain_at x r | None => True end) (bad c).
Proof.
  apply spec_on_kernel. intros x [(I & W & R) Hr0] r s Ea. pose proof (rn_slot _ _ R) as Hc.
  destruct (fd_alloc_inv _ _ _ (kx_sys x) c r s I Hc (running_live _ _ R) Ea) as (I1 & _ & H).
  destruct H as [[-> ->]|(i & -> & Hi & Hu & ->)]; [right; split_and!; try done; by split|left].
  assert (G : forall j, get_fd (set_fd (kx_sys x) c i plain_fd) c j = if decide (j = i) then plain_fd else get_fd (kx_sys x) c j).
  { intros j. apply (get_set_fd _ _ _ _ _ _ _ _ I Hc). lia. }
  unfold plain_at. rewrite Nat2Z.id. split; [split; [exact I1|]; split; [by apply nowait_set_fd|by apply running_upd]|]. split.
  - destruct r0 as [r1|]; [|done]. destruct Hr0 as [L P]. assert (Z.to_nat r1 <> i) by (intros E1; rewrite <- E1, P in Hu; done).
    split; [|done]. split; [done|]. change (get_fd (set_fd (kx_sys x) c i plain_fd) c (Z.to_nat r1) = plain_fd). by rewrite G, decide_False.
  - split; [lia|]. change (get_fd (set_fd (kx_sys x) c i plain_fd) c i = plain_fd). by rewrite G, decide_True.
Qed.

Lemma held_drop p (r : Z) : spec (held p) (upd_kernel (drop_pipe (Some p));; mret r) (fun _ => out c) (bad c).
Proof.
  eapply spec_bind; [|intros; apply keeps_out, keeps_ret]. apply spec_on_kernel. intros x (I & W & _) a s [= _ <-].
  exact (drop_pipe_inv v0 (kx_sys x) p I W).
Qed.

Lemma held_close p r : spec (fun x => held p x /\ plain_at x r) (on_kernel (task_fd_close c (Z.of_nat (Z.to_nat r)))) (fun _ => held p) (bad c).
Proof.
  apply spec_on_kernel. intros x [(I & W & R) [Hr Hp]] a s Ec.
  assert (Es : s = set_fd (kx_sys x) c (Z.to_nat r) fd_zero) by (rewrite <- (close_plain _ _ _ Hr Hp); by rewrite Ec). subst s.
  split; [|split; [by apply nowait_set_fd|by apply running_upd]].
  eapply inv_x; [apply (set_fd_inv _ _ _ (kx_sys x) c (Z.to_nat r) fd_zero I (rn_slot _ _ R) Hr); done|].
  intros rd q. cbv beta. rewrite Hp, fd_zero_x, plain_x. lia.
Qed.

Lemma held_install p r w :
  spec (fun x => held p x /\ (plain_at x r /\ Z.to_nat r <> Z.to_nat w) /\ plain_at x w)
    (f ← cur_fd c r; put_fd c r (mk_fd FD_PIPE_R None (Some p) None 0 O_RDONLY (fd_used f));;
     g ← cur_fd c w; put_fd c w (mk_fd FD_PIPE_W None (Some p) None 0 O_WRONLY (fd_used g))) (fun _ => inn c) (bad c).
Proof.
  intros x ((I & W & R) & [[Hr Gr] Hne] & Hw & Gw). pose proof (rn_slot _ _ R) as Hc.
  pose proof (pipe_ends_ok (kx_sys x) c p _ _ I Hc (running_live _ _ R) Hr Hw Hne Gr Gw) as O. cbv zeta in O.
  split; [exact O|]. by apply running_upd; [|apply running_upd].
Qed.

Lemma sys_pipe_ends u : ends (sys_pipe_impl u : M Z).
Proof.
  apply ends_with_task. destruct (u =? 0); [apply keeps_ends, keeps_ret|].
  eapply spec_bind; [apply pipe_alloc_spec|]. intros [p|]; [|apply keeps_ends, keeps_ret].
  eapply spec_bind; [eapply spec_mono; [apply (held_alloc p None)|by intros x ?|done|done]|]. intros r. destruct (r <? 0) eqn:Hr.
  { eapply spec_mono; [apply held_drop| |done|done]. intros x [(? & _)|(_ & ? & _)]; done. }
  eapply spec_bind; [eapply spec_mono; [apply (held_alloc p (Some r))| |done|done]|].
  { intros x [(? & _ & ?)|(? & _)]; [done|lia]. }
  intros w. destruct (w <? 0) eqn:Hw.
  { eapply (spec_bind _ _ (fun _ => held p)); [|intros _; apply held_drop].
    replace r with (Z.of_nat (Z.to_nat r)) at 1 by lia. eapply spec_mono; [apply (held_close p r)| |done|done].
    intros x [(? & [? _] & _)|(_ & ? & ?)]; done. }
  pose proof (held_install p r w) as Hin. intros x Hx. assert (Hx' : held p x /\ (plain_at x r /\ Z.to_nat r <> Z.to_nat w) /\ plain_at x w).
  { destruct Hx as [?|[? _]]; [done|lia]. }
  specialize (Hin x Hx'). revert Hin. unfold mbind, kern_bind, cur_fd, gets. destruct (put_fd c r _ x) as [[] x1|far x1]; [|by intros []].
  destruct (put_fd c w _ x1) as [[] x2|far x2]; [|by intros []]. generalize x2. change (ends
    (b ← ucopy_to u (le_bytes 4 r ++ le_bytes 4 w);
     if negb b then on_kernel (task_fd_close c r);; on_kernel (task_fd_close c w);; mret (-1) else mret 0 : M Z)).
  apply ends_bind; [keeps_on|]. intros b. destruct (negb b); [|apply keeps_ends, keeps_ret]. apply slot_ends. intros Hc.
  eapply spec_bind; [by apply out_ends, fd_close_out|]. intros ?. eapply spec_bind; [by apply fd_close_out|]. intros. apply keeps_out, keeps_ret.
Qed.

(** ** Polling and sockets *)

Lemma sleep_ends tick (r : Z) : ends (upd_kernel (task_block_on_sleep tick);; mret r : M Z).
Proof. apply ends_last; [apply ends_upd; intros; by apply (block_ok s c)|intros; apply keeps_ret]. Qed.

Lemma sleep_a_tick_ends : ends (sleep_a_tick : M Z).
Proof. apply ends_bind; [apply keeps_stays, keeps_gets|]. intros t. apply sleep_ends. Qed.

Lemma poll_length n t kfds x : (length (poll_loop n t kfds x).1 <= 8 * n)%nat.
Proof.
  revert kfds. induction n as [|n IH]; intros kfds; cbn [poll_loop]; [simpl; lia|]. cbv zeta. specialize (IH (drop 8 kfds)).
  destruct (poll_loop n t (drop 8 kfds) x) as [out k]. cbn [fst] in *. rewrite !length_app, length_take, length_le_bytes. lia.
Qed.

Lemma sys_poll_ends a n t : ends (sys_poll_impl a n t : M Z).
Proof.
  apply ends_with_task. destruct (_ || _) eqn:Hn; [apply keeps_ends, keeps_ret|].
  destruct (n =? 0); [destruct (t =? 0); [apply keeps_ends, keeps_ret|apply sleep_a_tick_ends]|].
  apply ends_bind; [apply keeps_stays, keeps_ucopy_from; lia|]. intros [kfds|]; [|apply keeps_ends, keeps_ret].
  apply ends_bind; [keeps_on|]. intros _. eapply spec_bind; [apply spec_gets|]. intros [fs k].
  assert (K : ends (b ← ucopy_to a (take (8 * Z.to_nat n) fs);
    if negb b then mret (-1) else if 0 <? k then mret k else if t =? 0 then mret 0 else sleep_a_tick : M Z)).
  { apply ends_bind; [apply keeps_stays, keeps_ucopy_to; rewrite length_take; lia|]. intros b. destruct (negb b); [apply keeps_ends, keeps_ret|].
    destruct (0 <? k); [apply keeps_ends, keeps_ret|]. destruct (t =? 0); [apply keeps_ends, keeps_ret|apply sleep_a_tick_ends]. }
  intros x [I Hp]. specialize (K x I). pose proof (poll_length (Z.to_nat n) c kfds x) as L. rewrite <- Hp in L. cbn [fst] in L.
  by rewrite take_ge in K by lia.
Qed.

Lemma sys_socket_ends d t p : ends (sys_socket_impl d t p : M Z).
Proof.
  apply ends_with_task. apply ends_bind; [keeps_on|]. intros [rc [h|]]; [|apply keeps_ends, keeps_ret].
  destruct (negb _); [apply keeps_ends, keeps_ret|].
  set (fl := if has_bits (to_int t) SOCK_NONBLOCK then Z.lor O_RDWR O_NONBLOCK else O_RDWR).
  apply (alloc_ends _ (fun i u => mk_fd FD_SOCKET None None (Some h) 0 fl u)
    (fun _ => on_machine (fun n => (tt, net_socket_close h n));; mret (-1)) (fun i => mret i)).
  - intros. apply no_pipe_x.
  - intros. by eexists.
  - intros i Hi. by replace (i <? 0) with true by lia.
  - intros i Hi. by replace (i <? 0) with false by lia.
  - intros i. keeps_all.
  - intros i Hi. apply keeps_ends, keeps_ret.
Qed.

Lemma sys_recvfrom_ends i b n fl a l : ends (sys_recvfrom_impl i b n fl a l : M Z).
Proof.
  unfold sys_recvfrom_impl. destruct (_ || _); [apply keeps_ends, keeps_ret|]. apply ends_with_socket. intros f h. cbv zeta.
  apply ends_bind; [keeps_on|]. intros [[[k bytes] ip] port]. destruct (k =? -2); [apply sleep_a_tick_ends|]. keeps_on.
Qed.

Lemma sys_connect_ends i a n : ends (sys_connect_impl i a n : M Z).
Proof.
  apply ends_with_socket. intros f h. apply ends_bind; [keeps_on|]. intros [[ip port]|]; [|apply keeps_ends, keeps_ret].
  apply ends_bind; [keeps_on|]. intros rc. destruct (rc =? -2); [apply sleep_a_tick_ends|apply keeps_ends, keeps_ret].
Qed.

Lemma sys_accept_ends i a n : ends (sys_accept_impl i a n : M Z).
Proof.
  apply ends_with_socket. intros f h. apply ends_bind; [keeps_on|]. intros [[[rc acc] ip] port].
  destruct (rc =? -2); [apply sleep_a_tick_ends|]. destruct acc as [h'|]; [|apply keeps_ends, keeps_ret].
  destruct (negb _); [apply keeps_ends, keeps_ret|].
  apply (alloc_ends _ (fun i u => mk_fd FD_SOCKET None None (Some h') 0 O_RDWR u)
    (fun _ => on_machine (fun n => (tt, net_socket_close h' n));; mret (-1))
    (fun newfd => rc ← copy_sockaddr_in_to_user a n ip port;
       if negb (rc =? 0) then on_kernel (task_fd_close c newfd);; mret (-1) else mret newfd)).
  - intros. apply no_pipe_x.
  - intros. by eexists.
  - intros j Hi. by replace (j <? 0) with true by lia.
  - intros j Hi. by replace (j <? 0) with false by lia.
  - intros j. keeps_all.
  - intros j Hi. apply ends_bind; [keeps_on|]. intros r. destruct (negb _); [apply close_last|apply keeps_ends, keeps_ret].
Qed.

(** ** Processes *)

Lemma sys_sleep_ends n : ends (sys_sleep_impl n : M Z).
Proof.
  unfold sys_sleep_impl. destruct (n =? 0); [apply keeps_ends, keeps_ret|]. apply ends_bind; [apply keeps_stays, keeps_gets|].
  intros t. apply sleep_ends.
Qed.

Lemma sys_exit_ends n : ends (sys_exit_impl n : M Z).
Proof.
  apply ends_last; [apply ends_upd|intros; apply keeps_ret]. intros s O R. apply mark_exit_inv; [done|].
  intros ti. rewrite (rn_current _ _ R). intros [= <-]. exact (rn_slot _ _ R).
Qed.

Lemma sys_yield_ends : ends (sys_yield_impl : M Z).
Proof.
  apply ends_last; [apply ends_upd|intros; apply keeps_ret]. intros s O R. unfold task_yield. rewrite (rn_current _ _ R).
  destruct (is_state _ _) eqn:Hs; [|done]. apply is_state_true in Hs. eapply ok_ssim; [exact O|].
  apply upd_ssim; [|by constructor]. constructor; simpl; rewrite ?Hs; done.
Qed.

Lemma sys_fork_ends : ends (sys_fork_impl : M Z).
Proof. apply ends_bind; [apply keeps_stays, keeps_gets|]. intros tf. apply ends_kernel. intros. by apply (fork_ok s c). Qed.

Lemma sys_wait_ends p a o : ends (sys_wait_impl p a o : M Z).
Proof. apply ends_last; [apply ends_kernel; intros; by apply (wait_ok s c)|]. intros [rc st]. keeps_all. Qed.

Lemma sys_kill_ends p n : ends (sys_kill_impl p n : M Z).
Proof. apply ends_kernel. intros. by apply kill_ok. Qed.

Lemma sys_setpgid_ends p g :
  spec (fun x => inn c x /\ (strict -> group_free (kx_sys x) (to_int p))) (sys_setpgid_impl p g : M Z) (fun _ => out c) (bad c).
Proof.
  apply spec_on_kernel. intros x [[O R] G] a s Ea. pose proof (setpgid_ok (kx_sys x) c (to_int p) (to_int g) O R G) as H. by rewrite Ea in H.
Qed.

Lemma sys_sigaction_ends n a o : ends (sys_sigaction_impl n a o : M Z).
Proof.
  apply ends_bind; [keeps_on|]. intros [act|]; [|apply keeps_ends, keeps_ret].
  apply ends_last; [apply ends_kernel; intros; by apply sigaction_ok|]. intros [rc old]. keeps_all.
Qed.

(** ** The dispatcher *)

Context (task_addr : nat -> Z).

(** A read whose buffer is in user space, and a new group for nobody who waits for
    its own: the calls that do not lose a wakeup, unless a read faults. *)
Definition fair_call (nr a0 a1 a2 : Z) (s : sys D E (ktasks (kio N))) : Prop :=
  (nr = SYS_SETPGID -> group_free s (to_int a0)) /\ (nr = SYS_READ -> user_buffer a1 a2).

(** After the call, or after its fault. [sock]: the call may be a write to a socket. *)
Definition handled {A} (nr : Z) (sock : Prop) (o : outcome ctx A) : Prop :=
  match o with
  | Done _ x => out c x
  | Fault far x => ((nr = SYS_READ -> ~ strict) -> out c x) /\ (~ sock -> user_va far)
  end.

Lemma ends_handled {A} (m : M A) nr sock x : ends m -> inn c x -> handled nr sock (m x).
Proof. intros H I. specialize (H x I). unfold handled. destruct (m x); [done|]. by destruct H. Qed.

Lemma handler_ends nr a0 a1 a2 a3 a4 a5 (sock : Prop) x :
  inn c x -> a1 < 2 ^ 64 -> (strict -> fair_call nr a0 a1 a2 (kx_sys x)) ->
  (nr = SYS_WRITE -> fd_kind (get_fd (kx_sys x) c (Z.to_nat a0)) = FD_SOCKET -> sock) ->
  handled nr sock (syscall_handler task_addr nr a0 a1 a2 a3 a4 a5 x).
Proof.
  intros I H1 Hf Hs. destruct (decide (nr = SYS_WRITE)) as [->|Hw].
  { pose proof (sys_write_ends sock a0 a1 a2 x (conj I (Hs eq_refl))) as H. unfold handled. cbn [syscall_handler].
    destruct (sys_write_impl _ _ _ _); [done|]. by destruct H. }
  destruct (decide (nr = SYS_READ)) as [->|Hr].
  { pose proof (sys_read_ends a0 a1 a2 (fun St => proj2 (Hf St) eq_refl) x I) as H. unfold handled. cbn [syscall_handler].
    destruct (sys_read_impl _ _ _ _); [done|]. destruct H. split; [|done]. intros HS. by apply H, HS. }
  destruct (decide (nr = SYS_SETPGID)) as [->|Hg].
  { pose proof (sys_setpgid_ends a0 a1 x (conj I (fun St => proj1 (Hf St) eq_refl))) as H. unfold handled. cbn [syscall_handler].
    destruct (sys_setpgid_impl _ _ _); [done|]. by destruct H. }
  revert I. apply ends_handled. clear Hf Hs.
  destruct nr as [|p|p]; [done| |apply keeps_ends, keeps_ret].
  do 6 (try destruct p as [p|p|]); try done; cbn [syscall_handler]; first
    [ apply keeps_ends; solve [eauto with keeps nocore | by apply keeps_getcwd]
    | apply sys_open_ends | apply sys_close_ends | apply sys_exit_ends | apply sys_yield_ends | apply sys_fork_ends | apply sys_wait_ends
    | apply sys_dup2_ends | apply sys_pipe_ends | apply sys_sleep_ends | apply sys_kill_ends | apply sys_fcntl_ends | apply sys_poll_ends
    | apply sys_lseek_ends | apply sys_sigaction_ends | apply sys_socket_ends | apply sys_recvfrom_ends | apply sys_connect_ends
    | apply sys_accept_ends ].
Qed.

Definition reg (tf : trapframe) (i : nat) : Z := tf_x tf !!! i.

Lemma dispatch_ends (sock : Prop) x :
  let tf := kx_tf x in
  inn c x -> reg tf 1 < 2 ^ 64 -> (strict -> fair_call (reg tf 8) (reg tf 0) (reg tf 1) (reg tf 2) (kx_sys x)) ->
  (reg tf 8 = SYS_WRITE -> fd_kind (get_fd (kx_sys x) c (Z.to_nat (reg tf 0))) = FD_SOCKET -> sock) ->
  handled (reg tf 8) sock (syscall_dispatch task_addr x).
Proof.
  intros tf I H1 Hf Hs.
  pose proof (handler_ends (reg tf 8) (reg tf 0) (reg tf 1) (reg tf 2) (reg tf 3) (reg tf 4) (reg tf 5) sock x I H1 Hf Hs) as H.
  unfold syscall_dispatch, mbind, kern_bind, gets. cbv zeta. fold (reg (kx_tf x)) in *. fold tf.
  destruct (syscall_handler _ _ _ _ _ _ _ _ x) as [r x1|far x1]; [|exact H].
  destruct (_ && _); exact H.
Qed.

End Calls.
