(* ===== verification/KernTraps.v ===== *)
(** * Traps and start-up keep the invariants of the task table

    The kernel from [kernel_main] on as a transition system: the programs run, and
    every entry into the kernel is one of the handlers of Trap.v. *)

From Stdlib Require Import String.
From S2P Require Import Prelude KString Path Pmm Pipe UserCopy Inode BlockCache PageCache FsIo TaskDefs Signal Mmu Vma Vm VmInv Fs FsInit FsData Proc Elf ProcInv ProcVm ProcOps ProcSteps ProcTerm ProcBoot Kern Syscall Trap KernFs KernInv KernCalls.

(** What the linker, boot.S and the layout of memory determine. *)
Record image := mk_image {
  im_task_addr : nat -> Z;
  im_blob : string -> Z * Z;
  im_sdk : string -> Z * list Z;
  im_heap_start : Z;
  im_heap_end : Z;
  im_l1_addr : Z;
  im_ttbr1_addr : Z;
  im_current_el : Z;
}.

Class TimerQuiet (D E N : Type) `{!Ext4Timer D E (ktasks (kio N))} : Prop :=
  quiet_timer t (f : fsys D E (ktasks (kio N))) : fsame f (ext4_periodic_maintenance t f).

Section Traps.
Context {D E N : Type} `{!BlockDrivers D, !DiskInventory D, !Ext4Ops D E, !SocketOps N, !Machine N, !Interrupts D N, !Startup D N}.
Context `{!Ext4Names D E (ktasks (kio N)), !Ext4Tools D E (ktasks (kio N)), !Ext4Timer D E (ktasks (kio N))}.
Context `{!Ext4Quiet D E N, !TimerQuiet D E N}.
Abbreviation st := (fsys D E (ktasks (kio N))).
Implicit Types f : st.

(** ** The transition system *)

Definition boot (im : image) f : trap_out st :=
  kernel_main (im_task_addr im) (im_blob im) (im_sdk im) (im_heap_start im) (im_heap_end im) (im_l1_addr im) (im_ttbr1_addr im)
    (im_current_el im) f.

(** An exception of a program: not one of the kernel's own. *)
Definition from_user (esr : Z) : Prop :=
  let ec := Z.land (Z.shiftr esr 26) 0x3F in ec <> ESR_EC_IABT_CUR /\ ec <> ESR_EC_DABT_CUR.

(** The saved state is that of a program. *)
Definition in_user (tf : trapframe) : Prop := Z.land (spsr_el1 tf) 0xF = 0.

Definition is_svc (esr : Z) : Prop := Z.land (Z.shiftr esr 26) 0x3F = ESR_EC_SVC64.

(** The system calls that lose no wakeup: see [fair_call]. *)
Definition fair_trap (im : image) (tf : trapframe) (esr : Z) f : Prop :=
  is_svc esr ->
  fair_call (reg tf 8) (reg tf 0) (reg tf 1) (reg tf 2) (f_sys f) /\
  (reg tf 8 = SYS_READ -> forall far x, syscall_dispatch (im_task_addr im) (mk_kctx tf f) <> Fault far x).

(** A step of the running program, or an entry into the kernel that returns to a
    program. With [fair], only fair system calls are considered. *)
Inductive kstep (fair : Prop) (im : image) f : st -> Prop :=
  | ks_store c va pa ex b :
      current (f_sys f) = Some c -> el0_translate (vm_at (f_sys f) c) va = Some (pa, true, ex) ->
      kstep fair im f (on_sys f (fun s => sys_set_ram s (<[pa := b]> (s_ram s))))
  | ks_sync tf esr far nested_esr ticks r f' :
      Forall is_u64 (tf_x tf) -> from_user esr -> (fair -> fair_trap im tf esr f) ->
      trap_handle_sync (im_task_addr im) tf esr far nested_esr ticks f = Resume r f' -> kstep fair im f f'
  | ks_irq tf iar ticks r f' : in_user tf -> trap_handle_irq tf iar ticks f = Resume r f' -> kstep fair im f f'
  | ks_fiq tf ticks r f' : trap_handle_fiq tf ticks f = Resume r f' -> kstep fair im f f'
  | ks_serror tf ticks r f' : trap_handle_serror tf ticks f = Resume r f' -> kstep fair im f f'.

(** Everything the kernel can get to. *)
Definition reach (fair : Prop) f : Prop := exists im f0 r f1, boot im f0 = Resume r f1 /\ rtc (kstep fair im) f1 f.
Definition reachable f : Prop := reach False f.
Definition reachable_fair f : Prop := reach True f.

(** ** Invariants *)

Context {Sx : Strict}.

Definition fgood f : Prop := good (f_sys f) /\ exists c, running (f_sys f) c.

Lemma good_ssim (s s' : sys D E (ktasks (kio N))) : good s -> ssim s s' -> good s'.
Proof.
  intros G S. unfold good in *. assert (E1 : current s' = current s) by exact (ps_current _ _ (proj1 S)). rewrite E1.
  by eapply ok_ssim.
Qed.

Lemma ssame_on_net (s : sys D E (ktasks (kio N))) g : ssame s (on_net s g).
Proof. constructor; reflexivity. Qed.

Lemma fsame_net f g : fsame f (on_sys f (fun s => on_net s g)).
Proof. apply ssame_on_net. Qed.

Lemma fsame_console cs f : fsame f (put_console cs f).
Proof. apply fsame_net. Qed.

Lemma fsame_good f f' : fgood f -> fsame f f' -> fgood f'.
Proof. intros [G [c R]] S. split; [eapply good_ssim; [exact G|by apply ssame_ssim]|]. exists c. by eapply running_same. Qed.

(** The scheduler is in its idle loop: of the states it goes through it has got to one
    in which no task is runnable and no sleeping task is due at any of the timer ticks
    that are left. *)
Definition idles (ticks : list Z) f : Prop :=
  exists tf s1 rest, sched_via (Some tf) (f_sys f) s1 /\ rest `suffix_of` ticks /\ idle_for rest s1.

(** What a trap leaves behind: a program runs and has its registers restored, or the
    scheduler idles; [P] tells when the kernel may panic. *)
Definition settled (P : Prop) (ticks : list Z) (o : trap_out st) : Prop :=
  match o with
  | Resume r f => fgood f /\ exists n, running (f_sys f) n /\ r = t_tf (task_at (f_sys f) n)
  | Panic _ => P
  | Idle f => idles ticks f
  end.

Lemma reschedule_settled P tf force ticks f c :
  good (f_sys f) -> current (f_sys f) = Some c -> settled P ticks (reschedule tf force ticks f).
Proof.
  intros G Hc. unfold reschedule. destruct (task_schedule_from_trap _ _ _ _) as [[fr s']|] eqn:Es.
  { destruct (schedule_good (f_sys f) c tf force ticks fr s' G Hc Es) as [G' (n & R & Hr)].
    split; [split; [done|by exists n]|by exists n]. }
  pose proof (entry_ok (f_sys f) c tf G Hc) as I. pose proof (sv_entry (Some tf) (f_sys f)) as V.
  unfold task_schedule_from_trap in Es. cbv zeta in Es.
  set (s0 := sched_entry (Some tf) (f_sys f)) in *. clearbody s0.
  pose proof (first_choice s0 force (ok_len s0 I)) as Fc. exists tf.
  match type of Fc with match ?a with _ => _ end => destruct a as [n0|] end.
  - destruct (settle_stuck _ s0 ticks n0 I Fc) as (next & s2 & E2 & H2). rewrite E2 in Es.
    exists s2, ticks. split_and!; [exact (settle_via _ _ _ _ _ _ _ V E2)|done|]. apply H2.
    by destruct (match next with Some _ => _ | None => _ end) as [[[] ?]|].
  - destruct (idle_loop ticks s0) as [[[n1 rest] s1]|] eqn:E1; [|by exists s0, ticks; split_and!; [done..|by apply (idle_stuck (Some c))]].
    destruct (idle_via _ _ _ _ _ _ _ V E1) as [V1 Sf]. destruct (idle_loop_ok _ _ _ _ _ _ _ I E1) as [I1 R1].
    destruct (settle_stuck _ s1 rest n1 I1 R1) as (next & s2 & E2 & H2). rewrite E2 in Es.
    exists s2, rest. split_and!; [exact (settle_via _ _ _ _ _ _ _ V1 E2)|done|]. apply H2.
    by destruct (match next with Some _ => _ | None => _ end) as [[[] ?]|].
Qed.

Lemma ok_current (s : sys D E (ktasks (kio N))) c : ok (cur := Some c) (run := Some c) s -> current s = Some c /\ good s.
Proof. intros I. pose proof (pi_current _ _ _ _ _ _ I) as Hc. split; [exact Hc|]. by apply (good_ok (Some c)). Qed.

Lemma good_run f c : fgood f -> current (f_sys f) = Some c -> ok (cur := Some c) (run := Some c) (f_sys f) /\ running (f_sys f) c.
Proof.
  intros [G [c' R]] Hc. assert (c' = c) as -> by (pose proof (rn_current _ _ R); congruence). split; [|done].
  unfold good in G. by rewrite Hc in G.
Qed.

Lemma exit_settled P tf ticks code f c :
  ok (cur := Some c) (run := Some c) (f_sys f) -> (c < MAX_TASKS)%nat -> settled P ticks (reschedule tf true ticks (mark_exit code f)).
Proof.
  intros O Hc. assert (I : ok (cur := Some c) (run := Some c) (f_sys (mark_exit code f))).
  { apply mark_exit_inv; [exact O|]. intros c'. pose proof (pi_current _ _ _ _ _ _ O) as E1. unfold current. rewrite E1. by intros [= <-]. }
  destruct (ok_current _ _ I). by eapply reschedule_settled.
Qed.

Lemma fatal_settled (P : Prop) tf esr far b ticks f c :
  ok (cur := Some c) (run := Some c) (f_sys f) -> (c < MAX_TASKS)%nat -> (b = true -> ~ user_va far -> P) ->
  settled P ticks (trap_fatal tf esr far b ticks f).
Proof.
  intros O Hc HP. unfold trap_fatal. cbv zeta. set (f1 := print_trap _ _ _ _ f).
  assert (O1 : ok (cur := Some c) (run := Some c) (f_sys f1)) by (eapply ok_ssim; [exact O|]; apply ssame_ssim, fsame_console).
  unfold fcur. rewrite (proj1 (ok_current _ _ O1)). destruct b; cbn [andb].
  - destruct (_ || _) eqn:Hf; [|by apply (exit_settled _ _ _ _ _ c)]. apply HP; [done|]. unfold user_va. lia.
  - by apply (exit_settled _ _ _ _ _ c).
Qed.

(** A write to a socket. *)
Definition socket_write (tf : trapframe) f : Prop :=
  reg tf 8 = SYS_WRITE /\ exists c, current (f_sys f) = Some c /\ fd_kind (get_fd (f_sys f) c (Z.to_nat (reg tf 0))) = FD_SOCKET.

Lemma svc_settled im tf esr nesr ticks f :
  fgood f -> is_svc esr -> Forall is_u64 (tf_x tf) -> (strict -> fair_trap im tf esr f) ->
  settled (~ ~ socket_write tf f) ticks (trap_svc (im_task_addr im) tf nesr ticks f).
Proof.
  intros G Hsvc Hu Hf. destruct G as [G0 [c R]]. destruct (good_run f c (conj G0 (ex_intro _ c R)) (rn_current _ _ R)) as [O _].
  assert (I : inn c (mk_kctx tf f)) by by split. pose proof (rn_slot _ _ R) as Hc. unfold trap_svc.
  pose proof (dispatch_ends c (im_task_addr im) (socket_write tf f) (mk_kctx tf f) I) as H. cbv zeta in H.
  assert (H1 : reg tf 1 < 2 ^ 64).
  { unfold reg. destruct (tf_x tf !! 1%nat) as [v|] eqn:Hv; [|by rewrite list_lookup_total_alt, Hv].
    rewrite (list_lookup_total_correct _ _ _ Hv). by apply (Forall_lookup_1 _ _ _ _ Hu Hv). }
  specialize (H H1 (fun St => proj1 (Hf St Hsvc))).
  specialize (H (fun W S => conj W (ex_intro _ c (conj (rn_current _ _ R) S)))).
  destruct (syscall_dispatch _ _) as [b x|far x] eqn:Ed; simpl in H.
  - destruct (ok_current _ _ H). by eapply reschedule_settled.
  - destruct H as [H Hv]. apply (fatal_settled _ _ _ _ _ _ _ c); [|done|].
    + apply H. intros Hr St. exact (proj2 (Hf St Hsvc) Hr far x Ed).
    + intros _ Hn Hs. by apply Hn, Hv.
Qed.

Lemma abort_settled (P : Prop) tf esr far ec ticks f :
  fgood f -> (ec = ESR_EC_IABT_CUR \/ ec = ESR_EC_DABT_CUR -> P) -> settled P ticks (trap_abort tf esr far ec ticks f).
Proof.
  intros G HP. unfold trap_abort. cbv zeta.
  match goal with |- context [let '(_, _) := ?e in _] => assert (S : fsame f e.2); [|destruct e as [b f']] end.
  { destruct (_ && _); [|done]. match goal with |- context [task_handle_page_fault ?a ?b ?d ?e ?g ?s] =>
      pose proof (ssame_page_fault a b d e g s) as Pf; destruct (task_handle_page_fault a b d e g s) as [r s'] end. exact Pf. }
  cbn [snd] in S. pose proof (fsame_good _ _ G S) as G'. destruct G' as [G0 [c R]].
  destruct (good_run f' c (conj G0 (ex_intro _ c R)) (rn_current _ _ R)) as [O _]. destruct b.
  - apply (reschedule_settled _ _ _ _ _ c); [done|exact (rn_current _ _ R)].
  - apply (fatal_settled _ _ _ _ _ _ _ c); [done|exact (rn_slot _ _ R)|]. intros Hc _. apply HP. lia.
Qed.

Lemma timer_good f : fgood f -> good (f_sys (timer_interrupt f)) /\ current (f_sys (timer_interrupt f)) = current (f_sys f).
Proof.
  intros [G _]. unfold timer_interrupt. cbv zeta. set (f1 := on_sys f (fun s => on_net s timer_handle_irq)).
  set (t := f_ticks f1). set (f2 := on_sys f1 (pagecache_tick t)). set (f3 := ext4_periodic_maintenance t f2).
  set (f4 := on_sys f3 (fun s => on_net s (net_tick t))).
  assert (S : fsame f f4).
  { etransitivity; [apply (fsame_net f)|]. etransitivity; [apply (fsame_on_sys f1), ssame_tick|].
    etransitivity; [apply (quiet_timer t f2)|]. apply (fsame_net f3). }
  pose proof (wake_sleepers_ssim t (f_sys f4)) as W. split.
  - eapply good_ssim; [eapply good_ssim; [exact G|]; exact (ssame_ssim _ _ S)|exact W].
  - transitivity (current (f_sys f4)); [exact (ps_current _ _ (proj1 W))|exact (sm_current _ _ S)].
Qed.

Lemma irq_dev_same g h f : fsame f (irq_dev g h f).2.
Proof. unfold irq_dev. destruct (g _). apply fsame_set_dev. Qed.

Lemma irq_net_same g h f : fsame f (irq_net g h f).2.
Proof. unfold irq_net. destruct (g _). apply fsame_net. Qed.

Lemma device_same intid f : fsame f (device_interrupt intid f).
Proof.
  unfold device_interrupt. pose proof irq_dev_same as Hd. pose proof irq_net_same as Hn. pose proof fsame_console. same_solve.
Qed.

Lemma irq_settled P tf iar ticks f :
  fgood f -> in_user tf ->
  settled P ticks (trap_handle_irq tf iar ticks f) \/
  exists f', trap_handle_irq tf iar ticks f = Resume (Some tf) f' /\ fsame f f'.
Proof.
  intros G Hu. unfold trap_handle_irq. cbv zeta. destruct (_ =? TIMER_IRQ); [left|right; eexists; split; [done|apply device_same]].
  rewrite Hu. cbn [Z.eqb]. destruct (timer_good f G) as [G' Hc]. destruct G as [_ [c R]]. rewrite (rn_current _ _ R) in Hc.
  by apply (reschedule_settled _ _ _ _ _ c).
Qed.

Lemma fiq_settled P tf ticks f : fgood f -> settled P ticks (trap_handle_fiq tf ticks f).
Proof.
  intros G. destruct (fsame_good _ _ G (fsame_console (uart_text (str "[trap] fiq" ++ [10])) f)) as [G' [c R]].
  apply (reschedule_settled _ _ _ _ _ c); [done|exact (rn_current _ _ R)].
Qed.

Lemma serror_settled P tf ticks f : fgood f -> settled P ticks (trap_handle_serror tf ticks f).
Proof.
  intros G. unfold trap_handle_serror. cbv zeta. set (f1 := put_console _ f).
  assert (G1 : fgood f1) by by eapply fsame_good; [|apply fsame_console]. destruct G1 as [G1 [c R]].
  unfold fcur. rewrite (rn_current _ _ R). destruct (good_run f1 c (conj G1 (ex_intro _ c R)) (rn_current _ _ R)) as [O _].
  apply (exit_settled _ _ _ _ _ c); [done|exact (rn_slot _ _ R)].
Qed.

Lemma sync_settled im tf esr far nesr ticks f :
  fgood f -> Forall is_u64 (tf_x tf) -> from_user esr -> (strict -> fair_trap im tf esr f) ->
  settled (is_svc esr /\ ~ ~ socket_write tf f) ticks (trap_handle_sync (im_task_addr im) tf esr far nesr ticks f).
Proof.
  intros G Hu [H1 H2] Hf. unfold trap_handle_sync. cbv zeta. destruct (_ =? ESR_EC_SVC64) eqn:Hs.
  - assert (Hv : is_svc esr) by (unfold is_svc; lia). pose proof (svc_settled im tf esr nesr ticks f G Hv Hu Hf) as H.
    destruct (trap_svc _ _ _ _ _); [exact H|by split|exact H].
  - apply abort_settled; [done|]. by intros [?|?].
Qed.

Lemma kstep_good im f f' : fgood f -> kstep strict im f f' -> fgood f'.
Proof.
  intros G. destruct 1 as [c va pa ex b Hc Ht|tf esr far nesr ticks r f' Hu Hv Hf H|tf iar ticks r f' Hu H|tf ticks r f' H|tf ticks r f' H].
  - eapply fsame_good; [exact G|]. apply fsame_on_sys, ssame_set_ram.
  - pose proof (sync_settled im tf esr far nesr ticks f G Hu Hv Hf) as S. rewrite H in S. by destruct S.
  - destruct (irq_settled True tf iar ticks f G Hu) as [S|(f1 & E1 & S)]; [rewrite H in S; by destruct S|].
    rewrite H in E1. injection E1 as _ <-. by eapply fsame_good.
  - pose proof (fiq_settled True tf ticks f G) as S. rewrite H in S. by destruct S.
  - pose proof (serror_settled True tf ticks f G) as S. rewrite H in S. by destruct S.
Qed.

(** ** Start-up *)

Lemma fsame_start_disk g f : fsame f (start_disk g f).
Proof. unfold start_disk. destruct (g _). by apply fsame_top. Qed.

Lemma fsame_start_nic g f : fsame f (start_nic g f).
Proof. unfold start_nic. destruct (g _). exact (fsame_net f (fun _ => n)). Qed.

Lemma start_ok blob sdk f : ok (cur := None) (run := None) (f_sys (start_kernel blob sdk f)).
Proof.
  unfold start_kernel. cbv zeta. set (f1 := on_sys (on_sys (on_sys f _) _) _).
  assert (O : ok (cur := None) (run := None) (f_sys f1)).
  { pose proof (init_ok (f_sys f)) as I. exact I. }
  clearbody f1. eapply ok_ssim; [exact O|]. apply ssame_ssim.
  match goal with |- context [fs_init blob sdk ?b ?g] => change (fsame f1 (fs_init blob sdk b g)) end.
  etransitivity; [|apply fsame_init]. etransitivity; [|apply fsame_net].
  match goal with |- fsame f1 (on_sys ?g _) => transitivity g; [|by apply fsame_top] end.
  do 2 (etransitivity; [|apply fsame_start_nic]). do 2 (etransitivity; [|apply fsame_start_disk]). apply fsame_set_dev.
Qed.

Lemma boot_good im f r f' : boot im f = Resume r f' -> fgood f'.
Proof.
  unfold boot, kernel_main. cbv zeta. set (f1 := start_kernel _ _ _).
  assert (O1 : ok (cur := None) (run := None) (f_sys f1)) by apply start_ok. clearbody f1.
  pose proof (fsame_lookup (str "/bin/init") f1) as L. destruct (fs_lookup _ f1) as [[p|] f2]; [|done]. cbn [snd] in L.
  assert (O2 : ok (cur := None) (run := None) (f_sys f2)) by (eapply ok_ssim; [exact O1|exact (ssame_ssim _ _ L)]). clear O1 L.
  pose proof (create_user_ok (f_image p f2) (i_size (node f2 p)) 0 (f_ticks f2) (im_task_addr im) (f_sys f2) O2) as O3.
  destruct (task_create_user _ _ _ _ _ _) as [[init|] s3] eqn:Ec; [|done]. cbn [snd] in O3.
  pose proof (create_user_runnable _ _ _ _ _ _ _ _ O2 Ec) as R3. cbv zeta.
  match goal with |- context [task_exec init ?a ?b ?d ?e ?g ?s] => pose proof (ssame_exec init a b d e g s) as X;
    destruct (task_exec init a b d e g s) as [rc s4] end. cbn [snd] in X. destruct (negb _); [done|]. intros [= _ <-].
  set (f5 := put_console _ _).
  assert (S5 : ssame s3 (f_sys f5)) by (etransitivity; [exact X|]; apply (fsame_console _ (set_sys (set_sys f2 s3) s4))).
  assert (O5 : ok (cur := None) (run := None) (f_sys f5)) by (eapply ok_ssim; [exact O3|exact (ssame_ssim _ _ S5)]).
  assert (R5 : state (task_at (f_sys f5) init) = TASK_RUNNABLE) by by rewrite (ssame_state _ _ init S5). clearbody f5.
  destruct (dispatch_ok None (f_sys f5) init O5 R5) as [I R]. cbv zeta in I, R. unfold task_enter_first.
  change (f_sys (on_sys f5 ?g)) with (g (f_sys f5)). cbv beta zeta. split.
  - eapply good_ok; [|eapply ok_ssim; [exact I|apply mmu_ssim]]. exact (rn_current _ _ R).
  - exists init. destruct R as [A B C]. by constructor.
Qed.

End Traps.

Section Reach.
Context {D E N : Type} `{!BlockDrivers D, !DiskInventory D, !Ext4Ops D E, !SocketOps N, !Machine N, !Interrupts D N, !Startup D N}.
Context `{!Ext4Names D E (ktasks (kio N)), !Ext4Tools D E (ktasks (kio N)), !Ext4Timer D E (ktasks (kio N))}.
Context `{!Ext4Quiet D E N, !TimerQuiet D E N}.

Lemma kernel_good (fair : Prop) (f : fsys D E (ktasks (kio N))) : reach fair f -> fgood (Sx := fair) f.
Proof.
  intros (im & f0 & r & f1 & Hb & H). pose proof (boot_good (Sx := fair) im f0 r f1 Hb) as G. clear Hb.
  revert G. induction H as [f|f f' f'' Hs _ IH]; [done|]. intros G. apply IH. exact (kstep_good (Sx := fair) im f f' G Hs).
Qed.

Lemma reach_weaken (fair : Prop) (f : fsys D E (ktasks (kio N))) : reach fair f -> reachable f.
Proof.
  intros (im & f0 & r & f1 & Hb & H). exists im, f0, r, f1. split; [done|]. eapply rtc_subrel; [|exact H].
  intros x y []; [by eapply ks_store|by eapply ks_sync|by eapply ks_irq|by eapply ks_fiq|by eapply ks_serror].
Qed.

End Reach.
