(* ===== verification/KernProps.v ===== *)
(** * Properties of the running kernel

    What holds in every state the kernel gets to from [kernel_main] on, whatever the
    programs do: the steps are those of KernTraps.v. *)

From Stdlib Require Import String.
From S2P Require Import Prelude KString Path Pmm Pipe UserCopy Inode BlockCache PageCache FsIo TaskDefs Signal Mmu Vma Vm VmInv Fs FsInit FsData FsProps Proc Elf ProcInv ProcVm ProcOps ProcSteps ProcTerm ProcBoot Kern Syscall Trap KernFs KernInv KernCalls KernTraps.

(** ** The whole kernel *)

Section Kernel.
Context {D E N : Type} `{!BlockDrivers D, !DiskInventory D, !Ext4Ops D E, !SocketOps N, !Machine N, !Interrupts D N, !Startup D N}.
Context `{!Ext4Names D E (ktasks (kio N)), !Ext4Tools D E (ktasks (kio N)), !Ext4Timer D E (ktasks (kio N))}.
Context `{!Ext4Quiet D E N, !TimerQuiet D E N}.
Abbreviation st := (fsys D E (ktasks (kio N))).

(** C2: no wakeup is lost. From [kernel_main] on, over any sequence of traps, as long
    as reads have a buffer that can be written and nobody who waits for its own
    process group is moved to another one: a task waiting for a child has no exited
    child that its filter matches; a task waiting to read from a pipe has a pipe that
    is empty and still has a writer; and a task waiting to write has one that is full
    and still has a reader. *)
Theorem no_lost_wakeup (f : st) wi w :
  reachable_fair f -> get_tasks (f_sys f) !! wi = Some w -> state w = TASK_WAITING ->
  match wait_kind (t_wait w) with
  | WAIT_CHILD => forall ci c, get_tasks (f_sys f) !! ci = Some c -> state c = TASK_ZOMBIE ->
      task_wait_matches_filter w c (wait_pid (t_wait w)) = false
  | WAIT_PIPE_READ => exists p q, wait_obj (t_wait w) = Some p /\ get_pipes (f_sys f) !! p = Some q /\
      count q = 0 /\ 0 < ends false p (get_tasks (f_sys f))
  | WAIT_PIPE_WRITE => exists p q, wait_obj (t_wait w) = Some p /\ get_pipes (f_sys f) !! p = Some q /\
      count q = PIPE_CAPACITY /\ 0 < ends true p (get_tasks (f_sys f))
  | _ => True
  end.
Proof.
  intros H Hw Hs. destruct (kernel_good True f H) as [G _]. pose proof (pi_wait _ _ _ _ _ _ G I) as W.
  pose proof (pi_ends _ _ _ _ _ _ G) as Ed. destruct (wait_kind (t_wait w)) eqn:Hk; [done| | | |done].
  - intros ci c Hc Hz. exact (wi_child _ _ _ W wi ci w c Hw Hc (fun f => f) Hs Hk Hz).
  - destruct (wi_read _ _ _ W wi w Hw Hs Hk) as (p & Ho & [?|(q & Hq & _ & Hc & Hwr)]); [done|]. exists p, q.
    pose proof (ei_refs _ _ Ed false p q Hq) as R. unfold x0 in R. simpl in R. split_and!; try done. unfold get_tasks. lia.
  - destruct (wi_write _ _ _ W wi w Hw Hs Hk) as (p & Ho & [?|(q & Hq & _ & Hc & Hrd)]); [done|]. exists p, q.
    pose proof (ei_refs _ _ Ed true p q Hq) as R. unfold x0 in R. simpl in R. split_and!; try done. unfold get_tasks. lia.
Qed.

(** C3: pipes and descriptors agree. In every state the kernel gets to, whatever the
    programs do, the reader and writer counts of each pipe are the numbers of open
    descriptors, over all tasks, that are its read and write ends; a pipe is in use
    exactly while it has one; and no descriptor names a pipe that is not in the
    table. *)
Theorem pipe_ends_match_descriptors (f : st) p :
  reachable f ->
  match get_pipes (f_sys f) !! p with
  | Some q =>
      readers q = ends true p (get_tasks (f_sys f)) /\ writers q = ends false p (get_tasks (f_sys f)) /\
      (used q = true <-> 0 < ends true p (get_tasks (f_sys f)) + ends false p (get_tasks (f_sys f))) /\ 0 <= count q <= PIPE_CAPACITY
  | None => ends true p (get_tasks (f_sys f)) = 0 /\ ends false p (get_tasks (f_sys f)) = 0
  end.
Proof.
  intros H. destruct (kernel_good False f H) as [G _]. pose proof (pi_ends _ _ _ _ _ _ G) as I.
  destruct (get_pipes (f_sys f) !! p) as [q|] eqn:Hq.
  - pose proof (ei_refs _ _ I true p q Hq) as R. pose proof (ei_refs _ _ I false p q Hq) as W.
    destruct (ei_used _ _ I p q Hq) as (_ & _ & U). pose proof (ei_count _ _ I p q Hq) as C.
    unfold x0 in *. simpl in R, W. rewrite Z.add_0_r in R, W. rewrite R, W in U. done.
  - apply lookup_ge_None in Hq. pose proof (ei_len _ _ I) as L. unfold get_pipes in Hq. rewrite L in Hq.
    pose proof (ei_none _ _ I true p Hq) as R. pose proof (ei_none _ _ I false p Hq) as W.
    unfold x0 in *. rewrite Z.add_0_r in R, W. done.
Qed.

(** C6: address spaces are told apart in the TLB. In every state the kernel gets to,
    also across the rollover of the 8-bit identifiers, two tasks that hold an
    identifier of the current epoch hold different ones, from 1 to 255; a slot that
    is not in use holds none. *)
Theorem asid_isolation (f : st) ti tj t u :
  reachable f -> get_tasks (f_sys f) !! ti = Some t -> get_tasks (f_sys f) !! tj = Some u -> ti <> tj ->
  asid_epoch (t_vm t) = kt_asid_epoch (s_top (f_sys f)) -> asid_epoch (t_vm u) = kt_asid_epoch (s_top (f_sys f)) ->
  asid (t_vm t) <> asid (t_vm u) /\ TASK_ASID_MIN <= asid (t_vm t) <= TASK_ASID_MAX /\ state t <> TASK_UNUSED.
Proof.
  intros H Ht Hu Hne Et Eu. destruct (kernel_good False f H) as [G _]. pose proof (pi_asid _ _ _ _ _ _ G) as A. destruct (ai_next _ A) as [_ Hn].
  pose proof (ai_range _ A ti t Ht Et) as R. pose proof (ai_epoch _ A) as Ep. split_and!; try lia.
  - intros He. apply Hne. exact (ai_uniq _ A ti tj t u Ht Hu Et Eu He).
  - intros Hs. pose proof (ai_unused _ A ti t Ht Hs). lia.
Qed.

(** C12: the task table is sound in every state the kernel gets to: process
    identifiers are positive, below the next one to be given and unique among the
    occupied slots; only the current task is marked as running, and it is; and the
    slots of exited and absent tasks hold no open descriptor. *)
Theorem task_table_sound (f : st) :
  reachable f ->
  (forall ti t, get_tasks (f_sys f) !! ti = Some t -> state t <> TASK_UNUSED -> 0 < pid t < kt_next_pid (s_top (f_sys f))) /\
  (forall ti tj t u, get_tasks (f_sys f) !! ti = Some t -> get_tasks (f_sys f) !! tj = Some u ->
     state t <> TASK_UNUSED -> state u <> TASK_UNUSED -> pid t = pid u -> ti = tj) /\
  (forall ti t, get_tasks (f_sys f) !! ti = Some t -> state t = TASK_RUNNING -> current (f_sys f) = Some ti) /\
  (exists c, current (f_sys f) = Some c /\ state (task_at (f_sys f) c) = TASK_RUNNING) /\
  (forall ti t, get_tasks (f_sys f) !! ti = Some t -> state t = TASK_UNUSED \/ state t = TASK_ZOMBIE ->
     Forall (fun f => fd_used f = false) (fds t)).
Proof.
  intros H. destruct (kernel_good False f H) as [G [c R]]. pose proof (pi_table _ _ _ _ _ _ G) as T.
  split_and!; [exact (tb_pid _ _ T)|exact (tb_uniq _ _ T)|exact (tb_running _ _ T)| |exact (tb_closed _ _ T)].
  exists c. split; [exact (rn_current _ _ R)|exact (rn_state _ _ R)].
Qed.

(** C18: every open descriptor of every task has the object of its kind: a file its
    inode, an end of a pipe its pipe, a socket its socket. *)
Theorem descriptors_typed (f : st) ti t i d :
  reachable f -> get_tasks (f_sys f) !! ti = Some t -> fds t !! i = Some d -> fd_used d = true ->
  match fd_kind d with
  | FD_NONE => True
  | FD_INODE => exists p, fd_inode d = Some p
  | FD_PIPE_R | FD_PIPE_W => exists p q, fd_pipe d = Some p /\ get_pipes (f_sys f) !! p = Some q /\ used q = true
  | FD_SOCKET => exists h, fd_sock d = Some h
  end.
Proof.
  intros H Ht Hd Hu. destruct (kernel_good False f H) as [G _].
  pose proof (Forall_lookup_1 _ _ _ _ (tb_typed _ _ (pi_table _ _ _ _ _ _ G) ti t Ht) Hd Hu) as Ty. unfold fd_typed in Ty.
  assert (P : forall rd p, is_end rd p d = true -> exists q, get_pipes (f_sys f) !! p = Some q /\ used q = true).
  { intros rd p He. destruct (held_pipe x0 v0 None (f_sys f) rd p G) as (q & Hq & _ & Hq'); [|by exists q].
    assert (Ht' : get_tasks (f_sys f) !! ti = Some (task_at (f_sys f) ti)) by by rewrite (task_at_eq _ _ _ Ht).
    pose proof (ends_pos rd p (f_sys f) ti i d Ht') as Hp. rewrite (task_at_eq _ _ _ Ht) in Hp. specialize (Hp Hd He). unfold x0. lia. }
  destruct (fd_kind d) eqn:Hk; [done|exact Ty| | |exact Ty]; destruct Ty as [p Hp]; exists p.
  - destruct (P true p) as (q & Hq & Hq'); [|by exists q]. unfold is_end. rewrite Hu, Hk, Hp. by rewrite !bool_decide_eq_true_2.
  - destruct (P false p) as (q & Hq & Hq'); [|by exists q]. unfold is_end. rewrite Hu, Hk, Hp. by rewrite !bool_decide_eq_true_2.
Qed.


(** So does a program that is interrupted: a timer interrupt ends with a program
    that runs with its saved registers or in the idle loop, any other one with the
    interrupted program, whose registers and task are as before. *)
Theorem interrupts_return (f : st) tf iar ticks :
  reachable f -> in_user tf ->
  match trap_handle_irq tf iar ticks f with
  | Resume r f' => exists n, running (f_sys f') n /\ (r = t_tf (task_at (f_sys f') n) \/ r = Some tf /\ current (f_sys f) = Some n)
  | Panic _ => False
  | Idle f' => idles ticks f'
  end.
Proof.
  intros H Hu. pose proof (kernel_good False f H) as G. destruct (irq_settled (Sx := False) False tf iar ticks f G Hu) as [S|(f' & -> & S)].
  - destruct (trap_handle_irq _ _ _ _); [|done..]. destruct S as (_ & n & R & Hr). exists n. split; [done|by left].
  - destruct G as [_ [c R]]. exists c. split; [by eapply running_same|right]. split; [done|exact (rn_current _ _ R)].
Qed.

End Kernel.
