(* ===== verification/KernIo.v ===== *)
(** * What single system calls do

    Reads and writes of pipes by a running program, whose memory is there: the bytes
    that move, the result and who is woken. Then calls that fail. *)

From Stdlib Require Import String.
From S2P Require Import Prelude KString Path Pmm Pipe UserCopy Inode BlockCache PageCache FsIo TaskDefs Signal Mmu Vma Vm VmInv Fs FsInit FsData FsProps Proc Elf ProcInv ProcVm ProcOps ProcSteps ProcTerm ProcBoot Kern Syscall Trap KernFs KernInv KernCalls KernTraps KernProps.

Section Io.
Context {D E N : Type} `{!BlockDrivers D, !DiskInventory D, !Ext4Ops D E, !SocketOps N, !Machine N, !Interrupts D N, !Startup D N}.
Context `{!Ext4Names D E (ktasks (kio N)), !Ext4Tools D E (ktasks (kio N)), !Ext4Timer D E (ktasks (kio N))}.
Context `{!Ext4Quiet D E N, !TimerQuiet D E N}.
Abbreviation st := (fsys D E (ktasks (kio N))).
Abbreviation ksys := (sys D E (ktasks (kio N))).
Implicit Types (s : ksys) (f : st).

(** ** User memory that is mapped *)

Definition user_pa s (write : bool) (va : Z) : option Z := match el1_access s write va with inl pa => Some pa | inr _ => None end.

(** The bytes from [va] on are mapped; with [write], they can be written. *)
Definition resident s (write : bool) (va n : Z) : Prop := forall k, 0 <= k < n -> is_Some (user_pa s write (va + k)).

(** What the program sees there, and memory after it was overwritten. *)
Definition user_bytes s (va : Z) (n : nat) : list Z :=
  map (fun k => mem_get (s_ram s) (default 0 (user_pa s false (va + Z.of_nat k)))) (seq 0 n).

Fixpoint user_store s (m : mem) (va : Z) (bytes : list Z) : mem :=
  match bytes with
  | [] => m
  | b :: bytes => user_store s (<[default 0 (user_pa s true va) := b]> m) (va + 1) bytes
  end.

Lemma resident_part s w va n k m : resident s w va n -> 0 <= k -> k + m <= n -> resident s w (va + k) m.
Proof. intros H ? ? j Hj. rewrite <- Z.add_assoc. apply H. lia. Qed.

Lemma length_user_bytes s va n : length (user_bytes s va n) = n.
Proof. unfold user_bytes. by rewrite length_map, length_seq. Qed.

Lemma user_bytes_cons s va n :
  user_bytes s va (S n) = mem_get (s_ram s) (default 0 (user_pa s false va)) :: user_bytes s (va + 1) n.
Proof.
  unfold user_bytes. cbn [seq map]. rewrite Z.add_0_r. f_equal. rewrite <- seq_shift, map_map. apply map_ext. intros k.
  by replace (va + Z.of_nat (S k)) with (va + 1 + Z.of_nat k) by lia.
Qed.

Lemma user_bytes_part s va n k m : (k + m <= n)%nat -> user_bytes s (va + Z.of_nat k) m = take m (drop k (user_bytes s va n)).
Proof.
  revert va n. induction k as [|k IH]; intros va n H.
  - rewrite drop_0, Z.add_0_r. clear -H. revert va n H. induction m as [|m IH]; intros va n H; [by rewrite take_0|].
    destruct n as [|n]; [lia|]. rewrite !user_bytes_cons. cbn [take]. f_equal. apply IH. lia.
  - destruct n as [|n]; [lia|]. rewrite user_bytes_cons. cbn [drop]. rewrite <- IH by lia. f_equal. lia.
Qed.

Lemma user_store_app s m va l1 l2 : user_store s m va (l1 ++ l2) = user_store s (user_store s m va l1) (va + Z.of_nat (length l1)) l2.
Proof.
  revert m va. induction l1 as [|b l1 IH]; intros m va; cbn [app user_store length]; [by rewrite Z.add_0_r|].
  rewrite IH. f_equal. lia.
Qed.

(** States whose programs see the same frames. *)
Definition eyes s s' : Prop := forall write va, el1_access s' write va = el1_access s write va.

Lemma eyes_pa s s' w va : eyes s s' -> user_pa s' w va = user_pa s w va.
Proof. intros H. unfold user_pa. by rewrite H. Qed.

Lemma eyes_resident s s' w va n : eyes s s' -> resident s w va n -> resident s' w va n.
Proof. intros H R k Hk. rewrite (eyes_pa s) by done. by apply R. Qed.

Lemma eyes_bytes s s' va n : eyes s s' -> s_ram s' = s_ram s -> user_bytes s' va n = user_bytes s va n.
Proof. intros H Hr. unfold user_bytes. apply map_ext. intros k. by rewrite (eyes_pa s), Hr. Qed.

Lemma eyes_store s s' m va bytes : eyes s s' -> user_store s' m va bytes = user_store s m va bytes.
Proof. intros H. revert m va. induction bytes as [|b bytes IH]; intros m va; cbn [user_store]; [done|]. by rewrite (eyes_pa s), IH. Qed.

Lemma access_resident fuel w va (x : kctx D E N) : is_Some (user_pa (kx_sys x) w va) ->
  user_access (S fuel) w va x = Done (default 0 (user_pa (kx_sys x) w va)) x.
Proof.
  unfold user_pa. intros [pa H]. cbn [user_access]. unfold mbind, kern_bind, gets.
  destruct (el1_access (kx_sys x) w va); by simplify_eq.
Qed.

Lemma load_resident n va (x : kctx D E N) :
  resident (kx_sys x) false va (Z.of_nat n) -> load_bytes n va x = Done (user_bytes (kx_sys x) va n) x.
Proof.
  revert va. induction n as [|n IH]; intros va H; [done|]. rewrite user_bytes_cons. cbn [load_bytes]. unfold load_byte, mbind, kern_bind.
  rewrite access_resident by (rewrite <- (Z.add_0_r va); apply H; lia). unfold gets, mret, kern_ret.
  rewrite IH; [done|]. apply (resident_part _ _ va (Z.of_nat (S n))); [done|lia..].
Qed.

Definition put_ram (x : kctx D E N) (m : mem) : kctx D E N := mk_kctx (kx_tf x) (set_sys (kx_fs x) (sys_set_ram (kx_sys x) m)).

Lemma eyes_ram s m : eyes s (sys_set_ram s m).
Proof. by intros write va. Qed.

Lemma store_resident va bytes (x : kctx D E N) : resident (kx_sys x) true va (Z.of_nat (length bytes)) ->
  exists x', store_list va bytes x = Done tt x' /\ x' = put_ram x (user_store (kx_sys x) (s_ram (kx_sys x)) va bytes).
Proof.
  revert va x. induction bytes as [|b bytes IH]; intros va x H; cbn [store_list user_store].
  { exists x. split; [done|]. by destruct x as [tf [[[] ? ? ?] ? ? ? ?]]. }
  unfold store_byte, mbind, kern_bind. rewrite access_resident by (rewrite <- (Z.add_0_r va); apply H; cbn [length]; lia).
  set (x1 := put_ram x (<[default 0 (user_pa (kx_sys x) true va) := b]> (s_ram (kx_sys x)))).
  change (upd_kernel _ x) with (Done (C := kctx D E N) tt x1). cbv iota beta.
  assert (Ey : eyes (kx_sys x) (kx_sys x1)) by apply eyes_ram.
  destruct (IH (va + 1) x1) as (x' & H1 & ->).
  { eapply eyes_resident; [exact Ey|]. apply (resident_part _ _ va (Z.of_nat (length (b :: bytes)))); [done|cbn [length]; lia..]. }
  eexists. split; [exact H1|]. by rewrite (eyes_store _ _ _ _ _ Ey).
Qed.

(** ** Transfers through a pipe *)

Lemma mem_bytes_take m a n k : (k <= n)%nat -> mem_bytes m a k = take k (mem_bytes m a n).
Proof.
  intros H. unfold mem_bytes. change (firstn k (map ?g ?l)) with (take k (g <$> l)). rewrite <- fmap_take.
  by rewrite take_seq, Nat.min_l.
Qed.

Lemma abs_lookup (ps : list pipe) p a : map abs ps !! p = Some (Some a) ->
  exists q, ps !! p = Some q /\ used q = true /\ readers q = areaders a /\ writers q = awriters a.
Proof.
  intros H. apply list_lookup_fmap_Some in H as (q & Ha & Hq). exists q. split; [done|]. unfold abs in Ha. destruct (used q); [|done]. by injection Ha as ->.
Qed.

Lemma write_step ps p a bytes : Forall pipe_wf ps -> map abs ps !! p = Some (Some a) -> bytes <> [] ->
  let n := Z.min (Z.of_nat (length bytes)) (PIPE_CAPACITY - Z.of_nat (length (queue a))) in
  exists ps', pipe_write (store_bytes ∅ tmp bytes) ps (Some p) tmp (Z.of_nat (length bytes)) = (n, ps') /\ Forall pipe_wf ps' /\
    map abs ps' = <[p := Some (mk_apipe (queue a ++ take (Z.to_nat n) bytes) (areaders a) (awriters a))]> (map abs ps).
Proof.
  intros W H Hb n. pose proof (write_refines (store_bytes ∅ tmp bytes) ps (Some p) tmp (Z.of_nat (length bytes)) W ltac:(lia)) as R.
  destruct (pipe_write _ _ _ _ _) as [n' ps']. destruct R as [W' R]. unfold spec_write, spec_at in R. cbn in R. rewrite H in R. cbn in R.
  replace (Z.of_nat (length bytes) =? 0) with false in R by (destruct bytes; [done|cbn [length]; lia]).
  injection R as <- R. exists ps'. split; [done|]. split; [done|]. rewrite <- R. do 3 f_equal.
  rewrite (mem_bytes_take _ _ (length bytes)), mem_bytes_store by lia. done.
Qed.

Lemma read_step ps p a len : Forall pipe_wf ps -> map abs ps !! p = Some (Some a) -> 0 < len ->
  let n := Z.min len (Z.of_nat (length (queue a))) in
  exists m ps', pipe_read ∅ ps (Some p) tmp len = (n, m, ps') /\ Forall pipe_wf ps' /\ mem_bytes m tmp (Z.to_nat n) = take (Z.to_nat n) (queue a) /\
    map abs ps' = <[p := Some (mk_apipe (drop (Z.to_nat n) (queue a)) (areaders a) (awriters a))]> (map abs ps).
Proof.
  intros W H Hl n. pose proof (read_refines ∅ ps (Some p) tmp len W ltac:(lia)) as R.
  destruct (pipe_read _ _ _ _ _) as [[n' m] ps']. destruct R as [W' R]. unfold spec_read, spec_at in R. cbn in R. rewrite H in R. cbn in R.
  replace (len =? 0) with false in R by lia. injection R as <- <- R. exists (store_bytes ∅ tmp (take (Z.to_nat n) (queue a))), ps'.
  split; [done|]. split; [done|]. split; [|by rewrite <- R].
  rewrite <- (mem_bytes_store ∅ tmp (take (Z.to_nat n) (queue a))) at 2. f_equal. rewrite length_take. lia.
Qed.

Lemma map_map_tasks s g h : map_tasks (map_tasks s g) h = map_tasks s (fun t => h (g t)).
Proof. unfold map_tasks, on_top, sys_set_top, kt_set_tasks. cbn. by rewrite map_map. Qed.

Lemma wake_twice p s : task_wake_pipe (Some p) (task_wake_pipe (Some p) s) = task_wake_pipe (Some p) s.
Proof.
  unfold task_wake_pipe. rewrite map_map_tasks. unfold map_tasks, on_top. do 2 f_equal.
  apply map_ext. intros t. cbv zeta. destruct (is_state t TASK_WAITING) eqn:Hs; cbn [negb]; [|by rewrite Hs].
  destruct (_ && bool_decide (wait_obj (t_wait t) = Some p)) eqn:Hb; [done|]. by rewrite Hs, Hb.
Qed.

Lemma wake_vm p s ti : vm_at (task_wake_pipe (Some p) s) ti = vm_at s ti.
Proof.
  unfold vm_at, kt_vm, kt_task. cbn. rewrite list_lookup_total_alt, list_lookup_fmap. rewrite (list_lookup_total_alt (kt_tasks _)).
  destruct (kt_tasks (s_top s) !! ti) as [t|]; [|done]. cbn. destruct (is_state _ _); [|done]. cbn [negb]. by destruct (_ && _).
Qed.

Lemma eyes_wake p s : eyes s (task_wake_pipe (Some p) s).
Proof. intros w va. unfold el1_access. change (current (task_wake_pipe (Some p) s)) with (current s). destruct (current s); [|done]. by rewrite wake_vm. Qed.

Lemma buffer_part s w buf len k n : user_buffer buf len -> resident s w buf len -> 0 <= k -> 0 < n -> k + n <= len ->
  u64 (buf + k) = buf + k /\ user_ptr_valid (u64 (buf + k)) n = true /\ resident s w (buf + k) n.
Proof.
  intros B R Hk Hn Hs. split_and!; [|by eapply user_part|by eapply resident_part].
  destruct B as (Hb & Hl & Hv). apply user_ptr_valid_spec in Hv; [|done..]. unfold is_u64 in *. apply u64_small. unfold is_u64. lia.
Qed.

Section Transfer.
Variables (tf : trapframe) (f : st) (p : nat) (d : fd) (buf len : Z).
Hypothesis d_pipe : fd_pipe d = Some p.
Hypothesis buf_ok : user_buffer buf len.

(** The kernel with the processes of [s] and the pipes [ps]. *)
Abbreviation at_ s ps := (mk_kctx tf (set_sys f (set_pipes s ps))).
Abbreviation wake s := (task_wake_pipe (Some p) s).

Lemma wake_at s ps : upd_kernel (task_wake_pipe (Some p)) (at_ s ps) = Done (C := kctx D E N) tt (at_ (wake s) ps).
Proof. done. Qed.

Section Write.
Hypothesis buf_in : resident (f_sys f) false buf len.
Abbreviation B := (user_bytes (f_sys f) buf (Z.to_nat len)).

Definition seen s : Prop := eyes (f_sys f) s /\ s_ram s = s_ram (f_sys f).

Lemma seen_wake s : seen s -> seen (wake s).
Proof. intros [H1 H2]. split; [|done]. intros w va. by rewrite eyes_wake. Qed.

Lemma copy_in s ps k n : seen s -> 0 <= k -> 0 < n -> k + n <= len ->
  ucopy_from (u64 (buf + k)) n (at_ s ps) = Done (Some (take (Z.to_nat n) (drop (Z.to_nat k) B))) (at_ s ps).
Proof.
  intros [Ey Er] Hk Hn Hs. destruct (buffer_part _ _ _ _ k n buf_ok buf_in Hk Hn Hs) as (Eu & Ev & R). unfold ucopy_from.
  rewrite Ev. cbn [negb]. rewrite Eu. unfold mbind, kern_bind. rewrite load_resident.
  - change (kx_sys (at_ s ps)) with (set_pipes s ps). rewrite (eyes_bytes (f_sys f)) by done.
    rewrite <- (Z2Nat.id k) at 1 by lia. rewrite (user_bytes_part _ _ (Z.to_nat len)) by lia. done.
  - apply (eyes_resident (f_sys f)); [exact Ey|]. by rewrite Z2Nat.id by lia.
Qed.

Lemma write_turn s ps a fuel t k : seen s -> Forall pipe_wf ps -> map abs ps !! p = Some (Some a) -> 0 < areaders a -> 0 <= k < len ->
  let n := Z.min (chunk_of 128 len k) (PIPE_CAPACITY - Z.of_nat (length (queue a))) in
  exists ps', Forall pipe_wf ps' /\
    map abs ps' = <[p := Some (mk_apipe (queue a ++ take (Z.to_nat n) (drop (Z.to_nat k) B)) (areaders a) (awriters a))]> (map abs ps) /\
    (0 < n -> write_pipe (S fuel) t d buf len k (at_ s ps) = write_pipe fuel t d buf len (k + n) (at_ (wake s) ps')) /\
    (n = 0 -> 0 < k -> write_pipe (S fuel) t d buf len k (at_ s ps) = Done k (at_ (wake s) ps')).
Proof.
  intros S W Ha Hr Hk n. set (chunk := chunk_of 128 len k) in *.
  assert (Hc : 0 < chunk <= 128 /\ k + chunk <= len) by (unfold chunk, chunk_of; destruct (_ <? _) eqn:?; lia).
  set (bytes := take (Z.to_nat chunk) (drop (Z.to_nat k) B)).
  assert (Hb : Z.of_nat (length bytes) = chunk) by (unfold bytes; rewrite length_take, length_drop, length_user_bytes; lia).
  destruct (write_step ps p a bytes W Ha) as (ps' & H1 & H2 & H3); [intros E1; rewrite E1 in Hb; cbn in Hb; lia|].
  rewrite Hb in H1, H3. fold n in H1, H3. exists ps'. split; [done|]. split.
  { rewrite H3. unfold bytes. rewrite take_take. do 4 f_equal. f_equal. lia. }
  destruct (abs_lookup ps p a Ha) as (q & Hq & Hu & Hrd & _).
  assert (Hh : pipe_has_readers ps (Some p) = true) by (unfold pipe_has_readers, pipe_at; cbn; rewrite Hq; cbn; rewrite Hu, Hrd; cbn; lia).
  assert (T : forall (g : Z -> kern D E N Z), (n0 ← on_kernel (fun s0 => let '(n, ps) := pipe_write (store_bytes ∅ tmp bytes) (get_pipes s0) (Some p) tmp chunk in
    (n, set_pipes s0 ps)); g n0) (at_ s ps) = g n (at_ s ps')).
  { intros g. unfold mbind, kern_bind, on_kernel, on_fs. cbn. rewrite H1. done. }
  split; [intros Hn|intros Hn H0k]; cbn [write_pipe]; replace (k <? len) with true by lia; cbv zeta; fold chunk;
    unfold mbind at 1; unfold kern_bind at 1; rewrite copy_in by (done || lia); fold bytes; unfold mbind at 1; unfold kern_bind at 1; unfold gets;
    change (get_pipes (kx_sys (at_ s ps))) with ps; rewrite d_pipe, Hh; cbn [negb]; rewrite T.
  - replace (n =? 0) with false by lia. unfold mbind, kern_bind. by rewrite wake_at.
  - replace (n =? 0) with true by lia. replace (0 <? k) with true by lia. unfold mbind, kern_bind. by rewrite wake_at.
Qed.

Lemma write_rest s ps a fuel t k : seen s -> wake s = s -> Forall pipe_wf ps -> map abs ps !! p = Some (Some a) -> 0 < areaders a ->
  Z.of_nat (length (queue a)) <= PIPE_CAPACITY -> 0 < k <= len -> len - k <= Z.of_nat fuel ->
  let n := Z.min (len - k) (PIPE_CAPACITY - Z.of_nat (length (queue a))) in
  exists ps', write_pipe fuel t d buf len k (at_ s ps) = Done (k + n) (at_ s ps') /\
    map abs ps' = <[p := Some (mk_apipe (queue a ++ take (Z.to_nat n) (drop (Z.to_nat k) B)) (areaders a) (awriters a))]> (map abs ps).
Proof.
  intros S Hw. revert ps a k. induction fuel as [|fuel IH]; intros ps a k W Ha Hr Hq Hk Hf n.
  { exists ps. cbn [write_pipe]. replace n with 0 by lia. rewrite take_0, app_nil_r, Z.add_0_r. split; [done|].
    symmetry. apply list_insert_id. rewrite Ha. by destruct a. }
  destruct (decide (k = len)) as [->|Hne].
  { exists ps. cbn [write_pipe]. replace n with 0 by lia. rewrite take_0, app_nil_r, Z.add_0_r, Z.ltb_irrefl. split; [done|].
    symmetry. apply list_insert_id. rewrite Ha. by destruct a. }
  destruct (write_turn s ps a fuel t k S W Ha Hr ltac:(lia)) as (ps1 & W1 & A1 & T1 & T2). rewrite Hw in T1, T2.
  set (n1 := Z.min (chunk_of 128 len k) _) in *.
  assert (Hc : 0 < chunk_of 128 len k <= len - k) by (unfold chunk_of; destruct (_ <? _) eqn:?; lia).
  destruct (decide (n1 = 0)) as [E1|E1].
  { exists ps1. rewrite T2 by lia. replace n with 0 by lia. rewrite E1 in A1. by rewrite Z.add_0_r. }
  rewrite T1 by lia. pose proof (lookup_lt_Some _ _ _ Ha) as Hp.
  assert (L1 : length (take (Z.to_nat n1) (drop (Z.to_nat k) B)) = Z.to_nat n1) by (rewrite length_take, length_drop, length_user_bytes; lia).
  assert (Ha1 : map abs ps1 !! p = Some (Some (mk_apipe (queue a ++ take (Z.to_nat n1) (drop (Z.to_nat k) B)) (areaders a) (awriters a))))
    by (rewrite A1; by apply list_lookup_insert_eq).
  destruct (IH ps1 _ (k + n1) W1 Ha1) as (ps' & H1 & H2); [done|cbn [queue]; rewrite length_app, L1; lia|lia|lia|].
  cbn [queue areaders awriters] in H1, H2. rewrite length_app, L1 in H1, H2.
  assert (En : n1 + Z.min (len - (k + n1)) (PIPE_CAPACITY - Z.of_nat (length (queue a) + Z.to_nat n1)) = n) by lia.
  exists ps'. split; [rewrite H1; f_equal; lia|]. rewrite H2, A1, list_insert_insert_eq. do 3 f_equal.
  rewrite <- app_assoc. f_equal. rewrite <- En. rewrite !Z2Nat.inj_add by lia.
  rewrite <- drop_drop, take_take_drop. done.
Qed.

End Write.

Section Read.
Hypothesis buf_in : resident (f_sys f) true buf len.
Abbreviation stored s k bytes := (sys_set_ram s (user_store (f_sys f) (s_ram s) (buf + k) bytes)).

Lemma stored_nil s k : stored s k [] = s.
Proof. by destruct s as [[] ? ? ?]. Qed.

Lemma copy_out s ps k bytes : eyes (f_sys f) s -> 0 <= k -> bytes <> [] -> k + Z.of_nat (length bytes) <= len ->
  ucopy_to (u64 (buf + k)) bytes (at_ s ps) = Done true (at_ (stored s k bytes) ps).
Proof.
  intros Ey Hk Hb Hs. assert (0 < Z.of_nat (length bytes)) by (destruct bytes; [done|cbn [length]; lia]).
  destruct (buffer_part _ _ _ _ k (Z.of_nat (length bytes)) buf_ok buf_in Hk) as (Eu & Ev & R); [lia..|]. unfold ucopy_to. rewrite Ev. cbn [negb].
  rewrite Eu. unfold mbind, kern_bind. destruct (store_resident (buf + k) bytes (at_ s ps)) as (x' & H1 & ->).
  - apply (eyes_resident (f_sys f)); done.
  - rewrite H1. rewrite (eyes_store (f_sys f)) by done. done.
Qed.

Lemma read_turn s ps a fuel k : eyes (f_sys f) s -> Forall pipe_wf ps -> map abs ps !! p = Some (Some a) -> 0 <= k < len ->
  let n := Z.min (chunk_of 128 len k) (Z.of_nat (length (queue a))) in
  exists ps', Forall pipe_wf ps' /\
    map abs ps' = <[p := Some (mk_apipe (drop (Z.to_nat n) (queue a)) (areaders a) (awriters a))]> (map abs ps) /\
    (0 < n -> read_pipe (S fuel) d buf len k (at_ s ps) =
      read_pipe fuel d buf len (k + n) (at_ (wake (stored s k (take (Z.to_nat n) (queue a)))) ps')) /\
    (n = 0 -> 0 < k -> read_pipe (S fuel) d buf len k (at_ s ps) = Done k (at_ (wake s) ps')).
Proof.
  intros Ey W Ha Hk n. set (chunk := chunk_of 128 len k) in *.
  assert (Hc : 0 < chunk <= 128 /\ k + chunk <= len) by (unfold chunk, chunk_of; destruct (_ <? _) eqn:?; lia).
  destruct (read_step ps p a chunk W Ha ltac:(lia)) as (m & ps' & H1 & H2 & H3 & H4). fold n in H1, H3, H4. exists ps'. split; [done|]. split; [done|].
  set (bytes := take (Z.to_nat n) (queue a)) in *.
  assert (Hb : Z.of_nat (length bytes) = n) by (unfold bytes; rewrite length_take; lia).
  assert (T : forall (g : Z * list Z -> kern D E N Z), (nb ← on_kernel (fun s0 => let '(n, m, ps) := pipe_read ∅ (get_pipes s0) (Some p) tmp chunk in
    ((n, mem_bytes m tmp (Z.to_nat n)), set_pipes s0 ps)); g nb) (at_ s ps) = g (n, bytes) (at_ s ps')).
  { intros g. unfold mbind, kern_bind, on_kernel, on_fs. cbn. rewrite H1, H3. done. }
  split; [intros Hn|intros Hn H0k]; cbn [read_pipe]; replace (k <? len) with true by lia; cbv zeta; fold chunk; rewrite d_pipe, T.
  - replace (n =? 0) with false by lia. unfold mbind, kern_bind. rewrite copy_out; [|done|lia|intros E1; rewrite E1 in Hb; cbn in Hb; lia|lia].
    cbn [negb]. by rewrite wake_at.
  - replace (n =? 0) with true by lia. replace (0 <? k) with true by lia. unfold mbind, kern_bind. by rewrite wake_at.
Qed.

Lemma read_rest s ps a fuel k : eyes (f_sys f) s -> wake s = s -> Forall pipe_wf ps -> map abs ps !! p = Some (Some a) ->
  0 < k <= len -> len - k <= Z.of_nat fuel ->
  let n := Z.min (len - k) (Z.of_nat (length (queue a))) in
  exists ps', read_pipe fuel d buf len k (at_ s ps) = Done (k + n) (at_ (stored s k (take (Z.to_nat n) (queue a))) ps') /\
    map abs ps' = <[p := Some (mk_apipe (drop (Z.to_nat n) (queue a)) (areaders a) (awriters a))]> (map abs ps).
Proof.
  revert s ps a k. induction fuel as [|fuel IH]; intros s ps a k Ey Hw W Ha Hk Hf n.
  { exists ps. cbn [read_pipe]. replace n with 0 by lia. rewrite take_0, drop_0, stored_nil, Z.add_0_r. split; [done|].
    symmetry. apply list_insert_id. rewrite Ha. by destruct a. }
  destruct (decide (k = len)) as [->|Hne].
  { exists ps. cbn [read_pipe]. replace n with 0 by lia. rewrite take_0, drop_0, stored_nil, Z.add_0_r, Z.ltb_irrefl. split; [done|].
    symmetry. apply list_insert_id. rewrite Ha. by destruct a. }
  destruct (read_turn s ps a fuel k Ey W Ha ltac:(lia)) as (ps1 & W1 & A1 & T1 & T2). rewrite Hw in T2.
  set (n1 := Z.min (chunk_of 128 len k) _) in *.
  assert (Hc : 0 < chunk_of 128 len k <= len - k) by (unfold chunk_of; destruct (_ <? _) eqn:?; lia).
  destruct (decide (n1 = 0)) as [E1|E1].
  { exists ps1. rewrite T2 by lia. replace n with 0 by lia. rewrite E1 in A1. by rewrite take_0, stored_nil, Z.add_0_r. }
  rewrite T1 by lia. pose proof (lookup_lt_Some _ _ _ Ha) as Hp.
  set (s1 := stored s k (take (Z.to_nat n1) (queue a))). assert (L1 : length (take (Z.to_nat n1) (queue a)) = Z.to_nat n1) by (rewrite length_take; lia).
  assert (Hw1 : wake s1 = s1) by (change (wake s1) with (stored (wake s) k (take (Z.to_nat n1) (queue a))); by rewrite Hw). rewrite Hw1.
  assert (Ha1 : map abs ps1 !! p = Some (Some (mk_apipe (drop (Z.to_nat n1) (queue a)) (areaders a) (awriters a))))
    by (rewrite A1; by apply list_lookup_insert_eq).
  destruct (IH s1 ps1 _ (k + n1) Ey Hw1 W1 Ha1) as (ps' & H1 & H2); [lia|lia|].
  cbn [queue areaders awriters] in H1, H2. rewrite length_drop in H1, H2.
  set (n2 := Z.min (len - (k + n1)) _) in *. assert (En : n = n1 + n2) by lia.
  exists ps'. rewrite En, !Z2Nat.inj_add by lia. split; [|by rewrite H2, A1, list_insert_insert_eq, drop_drop].
  rewrite H1. f_equal; [lia|]. do 2 f_equal. rewrite <- take_take_drop, user_store_app, L1, Z2Nat.id, <- Z.add_assoc by lia. done.
Qed.

End Read.
End Transfer.

(** ** Reading and writing a pipe *)

(** Descriptor [i] of the running task [c] is [d], an end of pipe [p], which is as [a]. *)
Record pipe_fd f (kind : fd_kind_t) (c : nat) (i : Z) (d : fd) (p : nat) (a : apipe) : Prop := {
  pf_current : current (f_sys f) = Some c;
  pf_index : 0 <= i < Z.of_nat MAX_FDS;
  pf_fd : get_fd (f_sys f) c (Z.to_nat i) = d;
  pf_used : fd_used d = true;
  pf_kind : fd_kind d = kind;
  pf_pipe : fd_pipe d = Some p;
  pf_abs : map abs (get_pipes (f_sys f)) !! p = Some (Some a);
}.

Lemma set_same_pipes f : set_sys f (set_pipes (f_sys f) (get_pipes (f_sys f))) = f.
Proof. by destruct f as [[? ? ? [? ? ? ? ? ? ? []]] ? ? ? ?]. Qed.

Lemma write_to_pipe f tf c i d p a buf len : pipe_fd f FD_PIPE_W c i d p a -> 0 < len ->
  sys_write_impl i buf len (mk_kctx tf f) = write_pipe (Z.to_nat len) c d buf len 0 (mk_kctx tf f).
Proof.
  intros [Hc Hi Hd Hu Hk Hp Ha] Hl. unfold sys_write_impl, with_task, with_fd, cur_fd, gets, mbind, kern_bind, kx_sys. cbn [kx_fs].
  rewrite Hc. replace (len =? 0) with false by lia. replace (Z.of_nat MAX_FDS <=? i) with false by lia. cbn [kx_fs]. by rewrite Hd, Hu, Hk, Hp.
Qed.

Lemma read_from_pipe f tf c i d p a buf len : pipe_fd f FD_PIPE_R c i d p a -> 0 < len ->
  sys_read_impl i buf len (mk_kctx tf f) = read_pipe (Z.to_nat len) d buf len 0 (mk_kctx tf f).
Proof.
  intros [Hc Hi Hd Hu Hk Hp Ha] Hl. unfold sys_read_impl, with_task, with_fd, cur_fd, gets, mbind, kern_bind, kx_sys. cbn [kx_fs].
  rewrite Hc. replace (len =? 0) with false by lia. replace (Z.of_nat MAX_FDS <=? i) with false by lia. cbv beta iota zeta. cbn [kx_fs]. by rewrite Hd, Hu, Hk, Hp.
Qed.

Lemma write_first f tf c i d p a buf len : Forall pipe_wf (get_pipes (f_sys f)) -> pipe_fd f FD_PIPE_W c i d p a ->
  user_buffer buf len -> 0 < len -> resident (f_sys f) false buf len -> 0 < areaders a -> Z.of_nat (length (queue a)) < PIPE_CAPACITY ->
  let n := Z.min len (PIPE_CAPACITY - Z.of_nat (length (queue a))) in
  exists ps, write_pipe (Z.to_nat len) c d buf len 0 (mk_kctx tf f) = Done n (mk_kctx tf (set_sys f (set_pipes (task_wake_pipe (Some p) (f_sys f)) ps))) /\
    map abs ps = <[p := Some (mk_apipe (queue a ++ take (Z.to_nat n) (user_bytes (f_sys f) buf (Z.to_nat len))) (areaders a) (awriters a))]>
      (map abs (get_pipes (f_sys f))).
Proof.
  intros W P B Hl R Hr Hq n. pose proof (pf_pipe _ _ _ _ _ _ _ P) as Hp. pose proof (pf_abs _ _ _ _ _ _ _ P) as Ha.
  set (fuel := Z.to_nat (len - 1)). assert (Hf : S fuel = Z.to_nat len) by lia. assert (S0 : seen f (f_sys f)) by by split.
  destruct (write_turn tf f p d buf len Hp B R (f_sys f) (get_pipes (f_sys f)) a fuel c 0 S0 W Ha Hr ltac:(lia)) as (ps1 & W1 & A1 & T1 & _).
  set (n1 := Z.min (chunk_of 128 len 0) _) in *. rewrite Z.add_0_l in T1.
  assert (Hc : 0 < chunk_of 128 len 0 <= len) by (unfold chunk_of; destruct (_ <? _) eqn:?; lia).
  rewrite set_same_pipes, Hf in T1. rewrite T1 by lia. rewrite drop_0 in A1.
  assert (L1 : length (take (Z.to_nat n1) (user_bytes (f_sys f) buf (Z.to_nat len))) = Z.to_nat n1) by (rewrite length_take, length_user_bytes; lia).
  pose proof (lookup_lt_Some _ _ _ Ha) as Hlt.
  assert (Ha1 : map abs ps1 !! p = Some (Some (mk_apipe (queue a ++ take (Z.to_nat n1) (user_bytes (f_sys f) buf (Z.to_nat len))) (areaders a) (awriters a))))
    by (rewrite A1; by apply list_lookup_insert_eq).
  destruct (write_rest tf f p d buf len Hp B R (task_wake_pipe (Some p) (f_sys f)) ps1 _ fuel c n1 (seen_wake f p _ S0) (wake_twice p _) W1 Ha1)
    as (ps & H1 & H2); [done|cbn [queue]; rewrite length_app, L1; lia|lia|lia|].
  cbn [queue areaders awriters] in H1, H2. rewrite length_app, L1 in H1, H2. set (n2 := Z.min (len - n1) _) in *. assert (En : n = n1 + n2) by lia.
  exists ps. rewrite H1, H2, A1, list_insert_insert_eq, En, Z2Nat.inj_add by lia. split; [done|]. do 3 f_equal. rewrite <- app_assoc. f_equal.
  apply take_take_drop.
Qed.

Lemma read_first f tf c i d p a buf len : Forall pipe_wf (get_pipes (f_sys f)) -> pipe_fd f FD_PIPE_R c i d p a ->
  user_buffer buf len -> 0 < len -> resident (f_sys f) true buf len -> queue a <> [] ->
  let n := Z.min len (Z.of_nat (length (queue a))) in
  exists ps, read_pipe (Z.to_nat len) d buf len 0 (mk_kctx tf f) =
      Done n (mk_kctx tf (set_sys f (set_pipes (sys_set_ram (task_wake_pipe (Some p) (f_sys f))
        (user_store (f_sys f) (s_ram (f_sys f)) buf (take (Z.to_nat n) (queue a)))) ps))) /\
    map abs ps = <[p := Some (mk_apipe (drop (Z.to_nat n) (queue a)) (areaders a) (awriters a))]> (map abs (get_pipes (f_sys f))).
Proof.
  intros W P B Hl R Hq n. pose proof (pf_pipe _ _ _ _ _ _ _ P) as Hp. pose proof (pf_abs _ _ _ _ _ _ _ P) as Ha.
  assert (0 < Z.of_nat (length (queue a))) by (destruct (queue a); [done|cbn [length]; lia]).
  set (fuel := Z.to_nat (len - 1)). assert (Hf : S fuel = Z.to_nat len) by lia. assert (S0 : eyes (f_sys f) (f_sys f)) by done.
  destruct (read_turn tf f p d buf len Hp B R (f_sys f) (get_pipes (f_sys f)) a fuel 0 S0 W Ha ltac:(lia)) as (ps1 & W1 & A1 & T1 & _).
  set (n1 := Z.min (chunk_of 128 len 0) _) in *. rewrite Z.add_0_l in T1.
  assert (Hc : 0 < chunk_of 128 len 0 <= len) by (unfold chunk_of; destruct (_ <? _) eqn:?; lia).
  rewrite set_same_pipes, Hf in T1. rewrite T1 by lia. pose proof (lookup_lt_Some _ _ _ Ha) as Hlt. rewrite Z.add_0_r.
  set (s1 := sys_set_ram _ _). assert (L1 : length (take (Z.to_nat n1) (queue a)) = Z.to_nat n1) by (rewrite length_take; lia).
  assert (Ha1 : map abs ps1 !! p = Some (Some (mk_apipe (drop (Z.to_nat n1) (queue a)) (areaders a) (awriters a))))
    by (rewrite A1; by apply list_lookup_insert_eq).
  destruct (read_rest tf f p d buf len Hp B R (task_wake_pipe (Some p) s1) ps1 _ fuel n1 (eyes_wake p s1) (wake_twice p s1) W1 Ha1) as (ps & H1 & H2); [lia|lia|].
  cbn [queue areaders awriters] in H1, H2. rewrite length_drop in H1, H2. set (n2 := Z.min (len - n1) _) in *. assert (En : n = n1 + n2) by lia.
  exists ps. rewrite En, !Z2Nat.inj_add by lia. split; [|by rewrite H2, A1, list_insert_insert_eq, drop_drop].
  rewrite H1. do 3 f_equal. rewrite <- take_take_drop, user_store_app, L1, Z2Nat.id by lia. done.
Qed.

(** The other branches: nothing moves. *)
Lemma write_none f tf c i d p a buf len : Forall pipe_wf (get_pipes (f_sys f)) -> pipe_fd f FD_PIPE_W c i d p a ->
  user_buffer buf len -> 0 < len -> resident (f_sys f) false buf len ->
  (areaders a = 0 -> write_pipe (Z.to_nat len) c d buf len 0 (mk_kctx tf f) =
    Done (-32) (mk_kctx tf (set_sys f (task_kill (pid (task_at (f_sys f) c)) SIGPIPE (f_sys f)).2))) /\
  (0 < areaders a -> Z.of_nat (length (queue a)) = PIPE_CAPACITY -> write_pipe (Z.to_nat len) c d buf len 0 (mk_kctx tf f) =
    if has_bits (fd_flags d) O_NONBLOCK then Done (-11) (mk_kctx tf f)
    else Done (-2) (mk_kctx tf (set_sys f (task_block_on_pipe_write (Some p) (f_sys f))))).
Proof.
  intros W P B Hl R. pose proof (pf_pipe _ _ _ _ _ _ _ P) as Hp. pose proof (pf_abs _ _ _ _ _ _ _ P) as Ha.
  set (fuel := Z.to_nat (len - 1)). assert (Hf : Z.to_nat len = S fuel) by lia. rewrite Hf. assert (S0 : seen f (f_sys f)) by by split.
  assert (Hc : 0 < chunk_of 128 len 0 <= len) by (unfold chunk_of; destruct (_ <? _) eqn:?; lia).
  pose proof (copy_in tf f buf len B R (f_sys f) (get_pipes (f_sys f)) 0 (chunk_of 128 len 0) S0 ltac:(lia) ltac:(lia) ltac:(lia)) as C.
  rewrite set_same_pipes in C. destruct (abs_lookup _ _ _ Ha) as (q & Hq & Hu & Hrd & _).
  apply list_lookup_fmap_Some in Ha as (q' & Ha & Hq'). rewrite Hq in Hq'. injection Hq' as <-. unfold abs in Ha. rewrite Hu in Ha. injection Ha as ->.
  cbn [areaders queue] in *. rewrite length_ring. pose proof (Forall_lookup_1 _ _ _ _ W Hq) as (_ & Wc & _).
  cbn [write_pipe]. replace (0 <? len) with true by lia. cbv zeta. unfold mbind, kern_bind. rewrite C. unfold gets, kx_sys. cbn [kx_fs].
  unfold pipe_has_readers, pipe_at. rewrite Hp. cbn [mbind option_bind]. rewrite Hq. cbn [mbind option_bind]. rewrite Hu. cbn [andb]. split.
  - intros Hz. replace (0 <? readers q) with false by lia. cbn [negb]. rewrite Z.eqb_refl. unfold on_kernel, on_fs. cbn [kx_fs kx_tf].
    by destruct (task_kill _ _ _) as [rc s'].
  - intros Hz Hfull. replace (0 <? readers q) with true by lia. cbn [negb]. unfold on_kernel, on_fs, pipe_write, pipe_at. cbn [kx_fs mbind option_bind].
    rewrite Hq. cbn [mbind option_bind]. rewrite Hu. cbn [negb orb]. replace (chunk_of 128 len 0 =? 0) with false by lia.
    replace (PIPE_CAPACITY <=? count q) with true by lia. cbn. rewrite set_same_pipes. destruct (has_bits _ _); done.
Qed.

Lemma read_none f tf c i d p a buf len : pipe_fd f FD_PIPE_R c i d p a -> 0 < len -> queue a = [] ->
  Forall pipe_wf (get_pipes (f_sys f)) -> read_pipe (Z.to_nat len) d buf len 0 (mk_kctx tf f) =
    if awriters a <=? 0 then Done 0 (mk_kctx tf f)
    else if has_bits (fd_flags d) O_NONBLOCK then Done (-11) (mk_kctx tf f)
    else Done (-2) (mk_kctx tf (set_sys f (task_block_on_pipe_read (Some p) (f_sys f)))).
Proof.
  intros P Hl Hn W. pose proof (pf_pipe _ _ _ _ _ _ _ P) as Hp. pose proof (pf_abs _ _ _ _ _ _ _ P) as Ha.
  set (fuel := Z.to_nat (len - 1)). assert (Hf : Z.to_nat len = S fuel) by lia. rewrite Hf.
  assert (Hc : 0 < chunk_of 128 len 0 <= len) by (unfold chunk_of; destruct (_ <? _) eqn:?; lia).
  destruct (abs_lookup _ _ _ Ha) as (q & Hq & Hu & _ & Hwr). pose proof (Forall_lookup_1 _ _ _ _ W Hq) as (_ & Wc & _).
  apply list_lookup_fmap_Some in Ha as (q' & Ha & Hq'). rewrite Hq in Hq'. injection Hq' as <-. unfold abs in Ha. rewrite Hu in Ha. injection Ha as ->.
  cbn [awriters queue] in *. apply (f_equal length) in Hn. rewrite length_ring in Hn. cbn in Hn.
  cbn [read_pipe]. replace (0 <? len) with true by lia. cbv zeta. unfold mbind, kern_bind, on_kernel, on_fs, pipe_read, pipe_at. cbn [kx_fs]. rewrite Hp.
  cbn [mbind option_bind]. rewrite Hq. cbn [mbind option_bind]. rewrite Hu. cbn [negb orb]. replace (chunk_of 128 len 0 =? 0) with false by lia.
  replace (count q =? 0) with true by lia. cbn. rewrite set_same_pipes. unfold pipe_has_writers, pipe_at. cbn. unfold kx_sys. cbn. rewrite Hq. cbn. rewrite Hu. cbn.
  destruct (writers q <=? 0) eqn:Hz; [by replace (0 <? writers q) with false by lia|]. replace (0 <? writers q) with true by lia. cbn. by destruct (has_bits _ _).
Qed.

Lemma reach_pipes f : reachable f -> Forall pipe_wf (get_pipes (f_sys f)).
Proof.
  intros H. destruct (kernel_good False f H) as [G _]. apply Forall_lookup_2. intros p q Hq.
  destruct (pipe_soundness _ _ _ _ _ _ G Hq) as (H1 & H2 & U & H3 & H4 & H5). split_and!; try done; [lia..|]. apply U.
Qed.

(** C14: write on a pipe, by a program whose buffer is mapped, in any state the kernel
    gets to. Without a reader the result is -32 and SIGPIPE is raised; a full pipe
    blocks the caller, or gives -11 with O_NONBLOCK; otherwise the pipe receives the
    first bytes of the buffer, in order and after those it holds, as many as fit, which
    is the result; exactly the tasks that wait for this pipe become runnable; and
    nothing else changes. *)
Theorem pipe_write_correct f tf c i d p a buf len :
  reachable f -> pipe_fd f FD_PIPE_W c i d p a -> user_buffer buf len -> 0 < len -> resident (f_sys f) false buf len ->
  let n := Z.min len (PIPE_CAPACITY - Z.of_nat (length (queue a))) in
  let r := sys_write_impl i buf len (mk_kctx tf f) in
  let to s := mk_kctx tf (set_sys f s) in
  if areaders a <=? 0 then r = Done (-32) (to (task_kill (pid (task_at (f_sys f) c)) SIGPIPE (f_sys f)).2)
  else if n <=? 0 then
    r = if has_bits (fd_flags d) O_NONBLOCK then Done (-11) (mk_kctx tf f) else Done (-2) (to (task_block_on_pipe_write (Some p) (f_sys f)))
  else exists ps, r = Done n (to (set_pipes (task_wake_pipe (Some p) (f_sys f)) ps)) /\
    map abs ps = <[p := Some (mk_apipe (queue a ++ take (Z.to_nat n) (user_bytes (f_sys f) buf (Z.to_nat len))) (areaders a) (awriters a))]>
      (map abs (get_pipes (f_sys f))).
Proof.
  intros H P B Hl R n r to. unfold r. rewrite (write_to_pipe f tf c i d p a) by done. apply reach_pipes in H as W.
  destruct (write_none f tf c i d p a buf len W P B Hl R) as [N1 N2].
  destruct (abs_lookup _ _ _ (pf_abs _ _ _ _ _ _ _ P)) as (q & Hq & Hu & Hrd & _).
  pose proof (Forall_lookup_1 _ _ _ _ W Hq) as (_ & Wc & _ & Wr & _).
  assert (Hlen : Z.of_nat (length (queue a)) = count q).
  { pose proof (pf_abs _ _ _ _ _ _ _ P) as Ha. apply list_lookup_fmap_Some in Ha as (q' & Ha & Hq'). rewrite Hq in Hq'. injection Hq' as <-.
    unfold abs in Ha. rewrite Hu in Ha. injection Ha as ->. cbn [queue]. rewrite length_ring. lia. }
  destruct (areaders a <=? 0) eqn:Hz; [apply N1; lia|]. destruct (n <=? 0) eqn:Hn; [apply N2; lia|].
  apply (write_first f tf c i d p a buf len W P B Hl R); lia.
Qed.

(** C15: read on a pipe, by a program whose buffer is mapped and writable, in any state
    the kernel gets to. An empty pipe without a writer gives 0, and one with a writer
    blocks the caller, or gives -11 with O_NONBLOCK; otherwise the oldest bytes leave
    the pipe, as many as asked for and there, which is the result; they are what the
    buffer holds then; exactly the tasks that wait for this pipe become runnable; and
    nothing else changes. *)
Theorem pipe_read_correct f tf c i d p a buf len :
  reachable f -> pipe_fd f FD_PIPE_R c i d p a -> user_buffer buf len -> 0 < len -> resident (f_sys f) true buf len ->
  let n := Z.min len (Z.of_nat (length (queue a))) in
  let r := sys_read_impl i buf len (mk_kctx tf f) in
  let to s := mk_kctx tf (set_sys f s) in
  if n <=? 0 then
    r = if awriters a <=? 0 then Done 0 (mk_kctx tf f)
        else if has_bits (fd_flags d) O_NONBLOCK then Done (-11) (mk_kctx tf f)
        else Done (-2) (to (task_block_on_pipe_read (Some p) (f_sys f)))
  else exists ps, r = Done n (to (set_pipes (sys_set_ram (task_wake_pipe (Some p) (f_sys f))
      (user_store (f_sys f) (s_ram (f_sys f)) buf (take (Z.to_nat n) (queue a)))) ps)) /\
    map abs ps = <[p := Some (mk_apipe (drop (Z.to_nat n) (queue a)) (areaders a) (awriters a))]> (map abs (get_pipes (f_sys f))).
Proof.
  intros H P B Hl R n r to. unfold r. rewrite (read_from_pipe f tf c i d p a) by done. apply reach_pipes in H as W.
  destruct (n <=? 0) eqn:Hn.
  - apply (read_none f tf c i d p a buf len P Hl); [|done]. destruct (queue a); [done|cbn [length] in n; lia].
  - apply (read_first f tf c i d p a buf len W P B Hl R). intros E1. unfold n in Hn. rewrite E1 in Hn. cbn in Hn. lia.
Qed.

(** ** Calls that fail *)

(** C36: a read from a pipe into a buffer that is refused loses data and wakes nobody:
    the result is -1, the bytes that were to be copied, up to 128, are no longer in
    the pipe, and every task is as before, also one that waits for room in this pipe,
    which there is now. *)
Theorem failed_read_drops_bytes f tf c i d p a buf len :
  reachable f -> pipe_fd f FD_PIPE_R c i d p a -> 0 < len -> queue a <> [] ->
  let n := Z.min (Z.min 128 len) (Z.of_nat (length (queue a))) in
  user_ptr_valid (u64 buf) n = false ->
  exists ps, sys_read_impl i buf len (mk_kctx tf f) = Done (-1) (mk_kctx tf (set_sys f (set_pipes (f_sys f) ps))) /\
    map abs ps = <[p := Some (mk_apipe (drop (Z.to_nat n) (queue a)) (areaders a) (awriters a))]> (map abs (get_pipes (f_sys f))).
Proof.
  intros H P Hl Hq n Hv. rewrite (read_from_pipe f tf c i d p a) by done. apply reach_pipes in H as W.
  assert (Hc : chunk_of 128 len 0 = Z.min 128 len) by (unfold chunk_of; destruct (_ <? _) eqn:?; lia).
  destruct (read_step _ p a (chunk_of 128 len 0) W (pf_abs _ _ _ _ _ _ _ P) ltac:(lia)) as (m & ps & H1 & H2 & H3 & H4).
  rewrite Hc in H3, H4. rewrite Hc in H1 at 2. fold n in H1, H3, H4. assert (0 < n) by (destruct (queue a); [done|cbn [length] in n; lia]).
  set (fuel := Z.to_nat (len - 1)). assert (Hf : Z.to_nat len = S fuel) by lia. rewrite Hf. exists ps. split; [|done].
  cbn [read_pipe]. replace (0 <? len) with true by lia. cbv zeta. unfold mbind, kern_bind, on_kernel, on_fs. cbn [kx_fs].
  rewrite (pf_pipe _ _ _ _ _ _ _ P), H1, H3. replace (n =? 0) with false by lia. unfold ucopy_to. rewrite Z.add_0_r.
  replace (Z.of_nat (length (take (Z.to_nat n) (queue a)))) with n by (rewrite length_take; lia). by rewrite Hv.
Qed.


(** C38: what sigreturn gives back. The program goes on with the registers it had when
    the signal came and with the signal mask of then; but the result of the call, an
    int, goes through x0, so of the saved x0 only the low 32 bits are restored,
    sign-extended. *)
Theorem sigreturn_restores_frame f addr tf c g saved :
  reg tf 8 = SYS_SIGRETURN -> current (f_sys f) = Some c -> t_sig (task_at (f_sys f) c) = g ->
  signal_active g = true -> signal_saved_tf g = saved -> (c < length (get_tasks (f_sys f)))%nat ->
  exists force x, syscall_dispatch addr (mk_kctx tf f) = Done force x /\
    kx_tf x = set_tf_x saved (<[0%nat := u64 (to_int (reg saved 0))]> (tf_x saved)) /\
    signal_active (t_sig (task_at (kx_sys x) c)) = false /\ signal_mask (t_sig (task_at (kx_sys x) c)) = signal_saved_mask g.
Proof.
  intros Hnr Hc Hg Ha Hsv Hlt. unfold syscall_dispatch, mbind, kern_bind, gets. cbn [kx_tf]. fold (reg tf 8). rewrite Hnr. cbn [syscall_handler].
  unfold sys_sigreturn_impl, with_task, gets, mbind, kern_bind, kx_sys. cbn [kx_fs]. rewrite Hc. cbn [kx_fs]. rewrite Hg. unfold Signal.task_sigreturn. rewrite Ha. cbn [negb].
  set (g' := set_signal_saved_mask _ _). cbn. eexists _, _. split; [done|]. cbn [kx_tf kx_fs]. rewrite Hsv. split; [done|].
  assert (E1 : task_at (upd_task (f_sys f) c (fun u => set_t_sig u g')) c = set_t_sig (task_at (f_sys f) c) g') by exact (upd_same (f_sys f) c (fun u => set_t_sig u g') Hlt).
  change (f_sys _) with (upd_task (f_sys f) c (fun u => set_t_sig u g')). rewrite E1. done.
Qed.

End Io.
