(* ===== verification/KernDemo.v ===== *)
(** * The kernel on a concrete machine

    The model is run from [kernel_main] through a few system calls, and the theorems
    of KernProps.v and KernIo.v are applied to the states it gets to. What is needed of
    these states is evaluated once, in [demo_checked]. *)

From Stdlib Require Import String.
From S2P Require Import Prelude KString Path Pmm Pipe UserCopy Inode BlockCache PageCache FsIo TaskDefs Signal Mmu Vma Vm VmInv Fs FsInit FsData FsProps Proc Elf ProcInv ProcVm ProcOps ProcSteps ProcTerm ProcBoot Kern Syscall Trap KernFs KernInv KernCalls KernTraps KernProps KernIo.

(** ** The machine

    One megabyte of frames, every program the same file of 124 bytes, no disk; the
    socket layer creates sockets and sends everything. Init makes a pipe and a child,
    which fills the pipe and waits. *)

#[global] Instance demo_sockets : SocketOps unit := {| net_socket_ref _ n := n; net_socket_close _ n := n |}.

#[global] Instance demo_machine : Machine unit := {|
  con_getc n := (10, n);
  con_putc _ n := n;
  uart_rx_ready _ := false;
  timer_ticks _ := 0;
  net_frame_read _ n := (-1, [], n);
  net_frame_write _ n := (-1, n);
  net_pump n := n;
  net_socket_create _ _ _ n := (0, Some 1, n);
  net_socket_bind _ _ _ n := (-1, n);
  net_socket_sendto _ _ _ _ n := (-1, n);
  net_socket_recvfrom _ _ _ n := (-1, [], 0, 0, n);
  net_socket_connect _ _ _ _ n := (0, n);
  net_socket_listen _ _ n := (-1, n);
  net_socket_accept _ _ n := (-1, None, 0, 0, n);
  net_socket_getsockname _ n := (-1, 0, 0, n);
  net_socket_getpeername _ n := (-1, 0, 0, n);
  net_socket_shutdown _ _ n := (-1, n);
  net_socket_read _ _ _ n := (-1, [], n);
  net_socket_write_size _ len _ n := (len, len, n);
  net_socket_write_send _ bytes n := (Z.of_nat (length bytes), n);
  net_socket_setsockopt _ _ _ _ n := (-1, n);
  net_socket_getsockopt _ _ _ _ n := (-1, [], n);
  net_socket_poll_revents _ _ _ := 0;
|}.

#[global] Instance no_tools T : Ext4Tools ramdisks unit T := {| fs_mkfs_ext4 _ _ _ f := (-1, f); fs_fsck_ext4 _ _ f := (-1, f) |}.
#[global] Instance no_timer T : Ext4Timer ramdisks unit T := fun _ f => f.

#[global] Instance no_interrupts : Interrupts ramdisks unit := {|
  virtio_blk_handle_irq _ d := (false, d);
  ahci_handle_irq _ d := (false, d);
  nvme_handle_irq _ d := (false, d);
  rtl8139_handle_irq _ n := (false, n);
  rtl8125_handle_irq _ n := (false, n);
  uart_handle_irq _ n := (false, n);
  timer_handle_irq n := n;
  net_tick _ n := n;
|}.

#[global] Instance demo_startup : Startup ramdisks unit := {|
  uart_init n := n;
  gic_init n := n;
  uart_enable_irq n := n;
  timer_init _ n := n;
  virtio_blk_init d := d;
  ahci_init x := x;
  nvme_init x := x;
  rtl8139_init x := x;
  rtl8125_init x := x;
  net_init n := n;
  net_ready _ := false;
|}.

#[global] Instance demo_quiet N : Ext4Quiet ramdisks unit N.
Proof. constructor; intros; cbn; reflexivity. Qed.

#[global] Instance demo_timer_quiet N : TimerQuiet ramdisks unit N.
Proof. intros t f. cbn. reflexivity. Qed.

Abbreviation demo_st := (fsys ramdisks unit (ktasks (kio unit))).

Definition demo_elf : list Z :=
  [127; 69; 76; 70; 2; 1; 1; 0; 0; 0; 0; 0; 0; 0; 0; 0] ++ le_bytes 2 2 ++ le_bytes 2 183 ++ le_bytes 4 1 ++
  le_bytes 8 0x400078 ++ le_bytes 8 64 ++ le_bytes 8 0 ++ le_bytes 4 0 ++ le_bytes 2 64 ++ le_bytes 2 56 ++
  le_bytes 2 1 ++ le_bytes 2 64 ++ le_bytes 2 0 ++ le_bytes 2 0 ++
  le_bytes 4 1 ++ le_bytes 4 5 ++ le_bytes 8 0 ++ le_bytes 8 0x400000 ++ le_bytes 8 0x400000 ++
  le_bytes 8 124 ++ le_bytes 8 200 ++ le_bytes 8 4096 ++ [31; 32; 3; 213].

Definition demo_image : image :=
  mk_image (fun t => 0x40500000 + 0x10000 * Z.of_nat t) (fun _ => (0x40400000, 0x40400000 + 124)) (fun _ => (0x40410000, []))
    0x40200000 0x40300000 0x40420000 0x40421000 1.

Definition demo_power_on : demo_st :=
  mk_fsys (mk_sys (with_ram pmm_boot (store_bytes ∅ 0x40400000 demo_elf)) (mk_storage demo_bc ∅ tt) (mk_pcache [] 0 0 0 0 0)
    (mk_ktasks [] None 0 0 0 0 (mk_mmu ∅ 0 0 0 0 0 0 false) (mk_kio [] tt))) 0x48000000 None None [].

Definition resumed (o : trap_out demo_st) : bool := match o with Resume _ _ => true | _ => false end.
Definition frame_of (o : trap_out demo_st) : option trapframe := match o with Resume r _ => r | _ => None end.
Definition state_of (o : trap_out demo_st) : demo_st := match o with Resume _ f | Panic f | Idle f => f end.

Definition call (nr a0 a1 a2 : Z) : trapframe := set_tf_x trapframe_zero ([a0; a1; a2; 0; 0; 0; 0; 0; nr] ++ replicate 22 0).
Definition svc (tf : trapframe) (f : demo_st) : trap_out demo_st :=
  trap_handle_sync (im_task_addr demo_image) tf 0x54000000 0 0x96000006 [] f.

Definition demo_boot := state_of (boot demo_image demo_power_on).
Definition demo_piped := state_of (svc (call SYS_PIPE 0x7FE000 0 0) demo_boot).
Definition demo_family := state_of (svc (call SYS_FORK 0 0 0) demo_piped).
Definition demo_child := state_of (svc (call SYS_YIELD 0 0 0) demo_family).
Definition demo_full := state_of (svc (call SYS_WRITE 4 0x7FE000 1024) demo_child).
Definition demo_blocked := state_of (svc (call SYS_WRITE 4 0x7FE000 1) demo_full).

(** Init has its own copy of its stack again, after a write to it. *)
Definition demo_ready := state_of (svc (call SYS_PIPE 0x7FE000 0 0) demo_blocked).

(** Init with a socket as descriptor 3; and in a signal handler, which interrupted it
    when x0 was more than 32 bits wide. *)
Definition demo_socket := state_of (svc (call SYS_SOCKET 2 1 0) demo_boot).
Definition in_handler (f : demo_st) : demo_st := on_sys f (fun s => upd_task s 0 (fun t => set_t_sig t
  (set_signal_active (set_signal_saved_tf (t_sig t) (call 0 0x123456789 7 0)) true))).

#[global] Strategy expand [svc demo_boot demo_piped demo_family demo_child demo_full demo_blocked demo_ready].

(** ** What the states are like *)

Definition demo_pipe (f : demo_st) (p : nat) : apipe := match map abs (get_pipes (f_sys f)) !! p with Some (Some a) => a | _ => mk_apipe [] 0 0 end.

Definition pipe_fd_check (f : demo_st) (kind : fd_kind_t) (c : nat) (i : Z) (p : nat) : bool :=
  let d := get_fd (f_sys f) c (Z.to_nat i) in
  bool_decide (current (f_sys f) = Some c) && (0 <=? i) && (i <? Z.of_nat MAX_FDS) && fd_used d && bool_decide (fd_kind d = kind) &&
  bool_decide (fd_pipe d = Some p) && match map abs (get_pipes (f_sys f)) !! p with Some (Some _) => true | _ => false end.

Definition resident_check (f : demo_st) (w : bool) (va n : Z) : bool :=
  forallb (fun k => bool_decide (is_Some (user_pa (f_sys f) w (va + Z.of_nat k)))) (seq 0 (Z.to_nat n)).

Definition demo_checks : list bool := [
  resumed (boot demo_image demo_power_on);
  resumed (svc (call SYS_PIPE 0x7FE000 0 0) demo_boot);
  resumed (svc (call SYS_FORK 0 0 0) demo_piped);
  resumed (svc (call SYS_YIELD 0 0 0) demo_family);
  resumed (svc (call SYS_WRITE 4 0x7FE000 1024) demo_child);
  resumed (svc (call SYS_WRITE 4 0x7FE000 1) demo_full);
  resumed (svc (call SYS_PIPE 0x7FE000 0 0) demo_blocked);
  resumed (trap_handle_irq trapframe_zero TIMER_IRQ [] demo_blocked);
  bool_decide (length (get_tasks (f_sys demo_family)) = MAX_TASKS);
  bool_decide (length (get_tasks (f_sys demo_blocked)) = MAX_TASKS);
  bool_decide (length (get_tasks (f_sys demo_boot)) = MAX_TASKS);
  bool_decide (state (task_at (f_sys demo_blocked) 1) = TASK_WAITING);
  bool_decide (wait_kind (t_wait (task_at (f_sys demo_blocked) 1)) = WAIT_PIPE_WRITE);
  bool_decide (readers <$> get_pipes (f_sys demo_family) !! 0%nat = Some 2);
  bool_decide (writers <$> get_pipes (f_sys demo_family) !! 0%nat = Some 2);
  asid_epoch (t_vm (task_at (f_sys demo_family) 0)) =? kt_asid_epoch (s_top (f_sys demo_family));
  asid_epoch (t_vm (task_at (f_sys demo_family) 1)) =? kt_asid_epoch (s_top (f_sys demo_family));
  (pid (task_at (f_sys demo_family) 0) =? 1) && (pid (task_at (f_sys demo_family) 1) =? 2);
  bool_decide ((fun d => (fd_used d, fd_kind d)) <$> fds (task_at (f_sys demo_family) 1) !! 3%nat = Some (true, FD_PIPE_R));
  pipe_fd_check demo_child FD_PIPE_W 1 4 0 && resident_check demo_child false 0x7FE000 5;
  (0 <? areaders (demo_pipe demo_child 0)) && (Z.of_nat (length (queue (demo_pipe demo_child 0))) =? 0);
  pipe_fd_check demo_ready FD_PIPE_R 0 3 0 && resident_check demo_ready true 0x7FE000 10;
  Z.of_nat (length (queue (demo_pipe demo_ready 0))) =? PIPE_CAPACITY;
  bool_decide (current (f_sys demo_socket) = Some 0%nat);
  fd_used (get_fd (f_sys demo_socket) 0 3);
  bool_decide (fd_kind (get_fd (f_sys demo_socket) 0 3) = FD_SOCKET);
  bool_decide (fd_sock (get_fd (f_sys demo_socket) 0 3) = Some 1);
  bool_decide (user_pa (f_sys demo_socket) false 0xFFFF00000000 = None);
  bool_decide (current (f_sys demo_boot) = Some 0%nat)].

Lemma demo_checked : forallb id demo_checks = true.
Proof. vm_compute. reflexivity. Qed.

Fixpoint all_true (l : list bool) : Prop := match l with [] => True | b :: l => b = true /\ all_true l end.

Lemma demo_facts : all_true demo_checks.
Proof.
  pose proof demo_checked as H. revert H. generalize demo_checks. intros l. induction l as [|b l IH]; [done|].
  cbn [forallb all_true]. intros [H1 H2]%andb_true_iff. split; [exact H1|by apply IH].
Qed.

(** The facts of [demo_checks], by position. *)
Tactic Notation "fact" integer(n) ident(H) :=
  let F := fresh in pose proof demo_facts as F; unfold demo_checks in F; do n (apply proj2 in F); apply proj1 in F; rename F into H.

(** ** The steps *)

Lemma resumed_eq o : resumed o = true -> o = Resume (frame_of o) (state_of o).
Proof. by destruct o. Qed.

Lemma svc_user : from_user 0x54000000.
Proof. by vm_compute. Qed.

Lemma call_u64 (nr a0 a1 a2 : Z) : is_u64 nr -> is_u64 a0 -> is_u64 a1 -> is_u64 a2 -> Forall is_u64 (tf_x (call nr a0 a1 a2)).
Proof.
  intros. change (Forall is_u64 ([a0; a1; a2; 0; 0; 0; 0; 0; nr] ++ replicate 22 0)). apply Forall_app.
  split; [|apply Forall_replicate; unfold is_u64; lia]. repeat (apply Forall_cons; split; [first [done|unfold is_u64; lia]|]). done.
Qed.

(** A call that is fair whatever the state. *)
Definition plain_call (nr : Z) : bool := negb (nr =? SYS_SETPGID) && negb (nr =? SYS_READ).

Lemma svc_step (fair : Prop) (nr a0 a1 a2 : Z) (f : demo_st) :
  (fair -> plain_call nr = true) -> is_u64 nr -> is_u64 a0 -> is_u64 a1 -> is_u64 a2 ->
  resumed (svc (call nr a0 a1 a2) f) = true -> kstep fair demo_image f (state_of (svc (call nr a0 a1 a2) f)).
Proof.
  intros Hp Hn H0 H1 H2 Hr. apply (ks_sync fair demo_image f (call nr a0 a1 a2) 0x54000000 0 0x96000006 [] (frame_of (svc (call nr a0 a1 a2) f))).
  - by apply call_u64.
  - apply svc_user.
  - intros Hf _. specialize (Hp Hf). unfold plain_call in Hp. split; [split|]; intros Hc; change (nr = SYS_READ) in Hc || change (nr = SYS_SETPGID) in Hc; lia.
  - by apply (resumed_eq (svc (call nr a0 a1 a2) f)).
Qed.

Definition words (l : list Z) : bool := forallb (fun z => (0 <=? z) && (z <? 2 ^ 64)) l.

Lemma svc_reach (fair : Prop) (nr a0 a1 a2 : Z) (f : demo_st) :
  (fair -> plain_call nr = true) -> words [nr; a0; a1; a2] = true -> resumed (svc (call nr a0 a1 a2) f) = true ->
  rtc (kstep fair demo_image) demo_boot f -> rtc (kstep fair demo_image) demo_boot (state_of (svc (call nr a0 a1 a2) f)).
Proof.
  intros Hp Hw Hr H. apply rtc_r with f; [exact H|]. unfold words in Hw. cbn [forallb] in Hw.
  apply svc_step; [exact Hp|unfold is_u64; clear Hr; lia..|exact Hr].
Qed.

Lemma demo_steps fair :
  rtc (kstep fair demo_image) demo_boot demo_family /\ rtc (kstep fair demo_image) demo_boot demo_child /\
  rtc (kstep fair demo_image) demo_boot demo_blocked /\ rtc (kstep fair demo_image) demo_boot demo_ready.
Proof.
  destruct demo_facts as (_ & H1 & H2 & H3 & H4 & H5 & H6 & _).
  pose proof (svc_reach fair SYS_PIPE 0x7FE000 0 0 demo_boot (fun _ => eq_refl) eq_refl H1 (rtc_refl _ _)) as P.
  pose proof (svc_reach fair SYS_FORK 0 0 0 demo_piped (fun _ => eq_refl) eq_refl H2 P) as F.
  pose proof (svc_reach fair SYS_YIELD 0 0 0 demo_family (fun _ => eq_refl) eq_refl H3 F) as C.
  pose proof (svc_reach fair SYS_WRITE 4 0x7FE000 1024 demo_child (fun _ => eq_refl) eq_refl H4 C) as L.
  pose proof (svc_reach fair SYS_WRITE 4 0x7FE000 1 demo_full (fun _ => eq_refl) eq_refl H5 L) as B.
  pose proof (svc_reach fair SYS_PIPE 0x7FE000 0 0 demo_blocked (fun _ => eq_refl) eq_refl H6 B) as R.
  split; [exact F|]. split; [exact C|]. split; [exact B|exact R].
Qed.

Lemma demo_run_reach fair f : rtc (kstep fair demo_image) demo_boot f -> reach fair f.
Proof.
  intros H. destruct demo_facts as [B _]. exists demo_image, demo_power_on, (frame_of (boot demo_image demo_power_on)), demo_boot.
  split; [exact (resumed_eq _ B)|exact H].
Qed.

Lemma demo_reached :
  reachable_fair demo_blocked /\ reachable demo_blocked /\ reachable demo_family /\ reachable demo_child /\ reachable demo_ready.
Proof.
  destruct (demo_steps False) as (F & C & B & R). destruct (demo_steps True) as (_ & _ & B' & _).
  split; [exact (demo_run_reach True _ B')|]. split; [exact (demo_run_reach False _ B)|]. split; [exact (demo_run_reach False _ F)|].
  split; [exact (demo_run_reach False _ C)|exact (demo_run_reach False _ R)].
Qed.

Lemma demo_task (f : demo_st) ti : bool_decide (length (get_tasks (f_sys f)) = MAX_TASKS) = true -> (ti < MAX_TASKS)%nat ->
  get_tasks (f_sys f) !! ti = Some (task_at (f_sys f) ti).
Proof. intros H Hti. apply bool_decide_eq_true in H. apply task_lookup. by rewrite H. Qed.

Lemma resident_ok f w va n : resident_check f w va n = true -> resident (f_sys f) w va n.
Proof.
  unfold resident_check. intros H k Hk. rewrite forallb_forall in H. specialize (H (Z.to_nat k)). rewrite Z2Nat.id in H by lia.
  apply (bool_decide_eq_true_1 _), H, in_seq. lia.
Qed.

Lemma pipe_fd_ok f kind c i p : pipe_fd_check f kind c i p = true ->
  pipe_fd f kind c i (get_fd (f_sys f) c (Z.to_nat i)) p (demo_pipe f p).
Proof.
  unfold pipe_fd_check, demo_pipe. cbv zeta. rewrite !andb_true_iff, !bool_decide_eq_true. intros ((((((H1 & H2) & H3) & H4) & H5) & H6) & H7).
  constructor; try done; [lia|]. by destruct (_ !! p) as [[]|].
Qed.

Lemma small_buffer n : 0 < n <= 10 -> user_buffer 0x7FE000 n.
Proof. intros H. unfold user_buffer, is_u64. split; [lia|]. split; [lia|]. apply user_ptr_valid_spec; unfold is_u64; lia. Qed.

Lemma take_resumed (o : trap_out demo_st) (P : option trapframe -> demo_st -> Prop) (Q R : demo_st -> Prop) :
  match o with Resume r f => P r f | Panic f => Q f | Idle f => R f end -> resumed o = true -> P (frame_of o) (state_of o).
Proof. by destruct o. Qed.

(** ** The running kernel *)

Lemma no_lost_wakeup_witness : exists p q,
  wait_obj (t_wait (task_at (f_sys demo_blocked) 1)) = Some p /\ get_pipes (f_sys demo_blocked) !! p = Some q /\
  count q = PIPE_CAPACITY /\ 0 < ends true p (get_tasks (f_sys demo_blocked)).
Proof.
  fact 9 Hl. fact 11 Hs. fact 12 Hk. apply bool_decide_eq_true in Hs, Hk.
  pose proof (no_lost_wakeup demo_blocked 1 _ (proj1 demo_reached) (demo_task _ 1 Hl ltac:(vm_compute; lia)) Hs) as H.
  rewrite Hk in H. exact H.
Defined.

Lemma pipe_ends_match_descriptors_witness :
  ends true 0 (get_tasks (f_sys demo_family)) = 2 /\ ends false 0 (get_tasks (f_sys demo_family)) = 2.
Proof.
  fact 13 Hr. fact 14 Hw. apply bool_decide_eq_true in Hr, Hw. destruct demo_reached as (_ & _ & R & _).
  pose proof (pipe_ends_match_descriptors demo_family 0 R) as H. destruct (get_pipes (f_sys demo_family) !! 0%nat) as [q|]; [|discriminate Hr].
  injection Hr as Hr. injection Hw as Hw. destruct H as (R1 & R2 & _). rewrite <- R1, <- R2. split; [exact Hr|exact Hw].
Defined.

Lemma asid_isolation_witness :
  asid (t_vm (task_at (f_sys demo_family) 0)) <> asid (t_vm (task_at (f_sys demo_family) 1)).
Proof.
  fact 8 Hl. fact 15 E0. fact 16 E1. apply Z.eqb_eq in E0, E1. destruct demo_reached as (_ & _ & R & _).
  exact (proj1 (asid_isolation demo_family 0 1 _ _ R (demo_task _ 0 Hl ltac:(vm_compute; lia)) (demo_task _ 1 Hl ltac:(vm_compute; lia)) ltac:(discriminate) E0 E1)).
Defined.

Lemma task_table_sound_witness :
  pid (task_at (f_sys demo_family) 0) = 1 /\ pid (task_at (f_sys demo_family) 1) = 2 /\
  exists c, current (f_sys demo_family) = Some c /\ state (task_at (f_sys demo_family) c) = TASK_RUNNING.
Proof.
  fact 17 Hp. apply andb_true_iff in Hp as [P0 P1]. apply Z.eqb_eq in P0, P1. split; [exact P0|]. split; [exact P1|].
  destruct demo_reached as (_ & _ & R & _). destruct (task_table_sound demo_family R) as (_ & _ & _ & H & _). exact H.
Defined.

Lemma descriptors_typed_witness : exists d, fds (task_at (f_sys demo_family) 1) !! 3%nat = Some d /\
  exists p q, fd_pipe d = Some p /\ get_pipes (f_sys demo_family) !! p = Some q /\ used q = true.
Proof.
  fact 8 Hl. fact 18 Hf. apply bool_decide_eq_true in Hf. destruct demo_reached as (_ & _ & R & _).
  pose proof (descriptors_typed demo_family 1 (task_at (f_sys demo_family) 1) 3) as T. destruct (fds (task_at (f_sys demo_family) 1) !! 3%nat) as [d|] eqn:Hd; [|discriminate Hf].
  injection Hf as Hu Hk. exists d. split; [reflexivity|].
  specialize (T d R (demo_task _ 1 Hl ltac:(vm_compute; lia)) eq_refl Hu). rewrite Hk in T. exact T.
Defined.


Lemma interrupts_return_witness : exists n, running (f_sys (state_of (trap_handle_irq trapframe_zero TIMER_IRQ [] demo_blocked))) n.
Proof.
  destruct demo_reached as (_ & R & _). fact 7 B.
  pose proof (interrupts_return demo_blocked trapframe_zero TIMER_IRQ [] R ltac:(vm_compute; reflexivity)) as H.
  revert H B. generalize (trap_handle_irq trapframe_zero TIMER_IRQ [] demo_blocked). intros o H B.
  destruct (take_resumed o _ _ _ H B) as (n & H' & _). exists n. exact H'.
Defined.

(** ** Single calls *)

Lemma pipe_write_correct_witness : exists ps,
  sys_write_impl 4 0x7FE000 5 (mk_kctx trapframe_zero demo_child) =
    Done 5 (mk_kctx trapframe_zero (set_sys demo_child (set_pipes (task_wake_pipe (Some 0%nat) (f_sys demo_child)) ps))) /\
  map abs ps = <[0%nat := Some (mk_apipe (queue (demo_pipe demo_child 0) ++ take 5 (user_bytes (f_sys demo_child) 0x7FE000 5))
    (areaders (demo_pipe demo_child 0)) (awriters (demo_pipe demo_child 0)))]> (map abs (get_pipes (f_sys demo_child))).
Proof.
  fact 19 C. fact 20 Q. apply andb_true_iff in C as [C R]. apply andb_true_iff in Q as [Q1 Q2]. destruct demo_reached as (_ & _ & _ & Re & _).
  pose proof (pipe_write_correct demo_child trapframe_zero 1 4 _ 0 _ 0x7FE000 5 Re (pipe_fd_ok _ _ _ _ _ C) (small_buffer 5 ltac:(lia)) ltac:(lia) (resident_ok _ _ _ _ R)) as H.
  cbv zeta in H. revert H Q1 Q2. generalize (demo_pipe demo_child 0). intros a H Q1 Q2.
  replace (areaders a <=? 0) with false in H by lia. replace (5 `min` (PIPE_CAPACITY - Z.of_nat (length (queue a)))) with 5 in H by lia. exact H.
Defined.

Lemma pipe_read_correct_witness : exists ps,
  sys_read_impl 3 0x7FE000 10 (mk_kctx trapframe_zero demo_ready) =
    Done 10 (mk_kctx trapframe_zero (set_sys demo_ready (set_pipes (sys_set_ram (task_wake_pipe (Some 0%nat) (f_sys demo_ready))
      (user_store (f_sys demo_ready) (s_ram (f_sys demo_ready)) 0x7FE000 (take 10 (queue (demo_pipe demo_ready 0))))) ps))) /\
  map abs ps = <[0%nat := Some (mk_apipe (drop 10 (queue (demo_pipe demo_ready 0))) (areaders (demo_pipe demo_ready 0)) (awriters (demo_pipe demo_ready 0)))]>
    (map abs (get_pipes (f_sys demo_ready))).
Proof.
  fact 21 C. fact 22 Q. apply andb_true_iff in C as [C R]. destruct demo_reached as (_ & _ & _ & _ & Re).
  pose proof (pipe_read_correct demo_ready trapframe_zero 0 3 _ 0 _ 0x7FE000 10 Re (pipe_fd_ok _ _ _ _ _ C) (small_buffer 10 ltac:(lia)) ltac:(lia) (resident_ok _ _ _ _ R)) as H.
  cbv zeta in H. revert H Q. generalize (demo_pipe demo_ready 0). intros a H Q.
  replace (10 `min` Z.of_nat (length (queue a))) with 10 in H by lia. exact H.
Defined.

Lemma failed_read_drops_bytes_witness : exists ps,
  sys_read_impl 3 0 1000 (mk_kctx trapframe_zero demo_ready) = Done (-1) (mk_kctx trapframe_zero (set_sys demo_ready (set_pipes (f_sys demo_ready) ps))) /\
  map abs ps = <[0%nat := Some (mk_apipe (drop 128 (queue (demo_pipe demo_ready 0))) (areaders (demo_pipe demo_ready 0)) (awriters (demo_pipe demo_ready 0)))]>
    (map abs (get_pipes (f_sys demo_ready))).
Proof.
  fact 21 C. fact 22 Q. apply andb_true_iff in C as [C _]. destruct demo_reached as (_ & _ & _ & _ & Re).
  pose proof (failed_read_drops_bytes demo_ready trapframe_zero 0 3 _ 0 _ 0 1000 Re (pipe_fd_ok _ _ _ _ _ C) ltac:(lia)) as H.
  cbv zeta in H. revert H Q. generalize (demo_pipe demo_ready 0). intros a H Q.
  replace (Z.min (Z.min 128 1000) (Z.of_nat (length (queue a)))) with 128 in H by lia. apply H; [|reflexivity].
  destruct (queue a); [discriminate Q|discriminate].
Defined.


Lemma in_handler_sig (f : demo_st) : length (get_tasks (f_sys f)) = MAX_TASKS ->
  t_sig (task_at (f_sys (in_handler f)) 0) = set_signal_active (set_signal_saved_tf (t_sig (task_at (f_sys f) 0)) (call 0 0x123456789 7 0)) true /\
  (0 < length (get_tasks (f_sys (in_handler f))))%nat /\ current (f_sys (in_handler f)) = current (f_sys f).
Proof.
  intros L. assert (Hl : (0 < length (get_tasks (f_sys f)))%nat) by (rewrite L; vm_compute; lia).
  split; [|split; [cbn; rewrite length_insert; exact Hl|done]]. unfold in_handler. cbn [f_sys on_sys]. by rewrite (upd_same (f_sys f) 0 _ Hl).
Qed.

Lemma sigreturn_restores_frame_witness : exists force x,
  syscall_dispatch (im_task_addr demo_image) (mk_kctx (call SYS_SIGRETURN 0 0 0) (in_handler demo_boot)) = Done force x /\
  kx_tf x = call 0 0x23456789 7 0.
Proof.
  fact 10 L. fact 28 C. apply bool_decide_eq_true in L, C. destruct (in_handler_sig demo_boot L) as (T & Hl & Hc).
  rewrite C in Hc.
  destruct (sigreturn_restores_frame (in_handler demo_boot) (im_task_addr demo_image) (call SYS_SIGRETURN 0 0 0) 0 _ (call 0 0x123456789 7 0)
    eq_refl Hc T eq_refl eq_refl Hl) as (force & x & H1 & H2 & _).
  exists force, x. split; [exact H1|]. rewrite H2. vm_compute. reflexivity.
Defined.
